(* ===== verification/_CoqProject ===== *)
-Q . S2P
Prelude.v
GoMemory.v
GoCopy.v
DeepCopyCode.v
DeepCopySample.v
DeepCopyFacts.v
Manifests.v
GoStrings.v
Regex.v
Sha256.v
KubeTypes.v
ApiTypes.v
Common.v
PolicyTypes.v
PolicyObjects.v
Client.v
Drain.v
ImageVerifier.v
ImageVerifierFacts.v
Cluster.v
RecoveryNaming.v
RecoveryNamingFacts.v
OpenShift.v
RecoveryEvents.v
RecoveryController.v
RecoveryEventsFacts.v
RecoveryFocus.v
RecoveryInv.v
RecoveryDetection.v
RecoveryPhases.v
RecoveryTrace.v
RecoveryReconcile.v
RecoveryScenario.v
RecoverySafety.v
RecoveryCorrect.v
RecoveryLive.v
RecoveryWebhook.v
RecoveryWebhookFacts.v
FwUpdate.v
FwUpdateFacts.v
FwUpdateSafety.v
FwUpdateNames.v
FwWebhook.v
FwLogs.v
ImageContent.v
PolicyClient.v
PolicyDaemonSets.v
PolicyXpum.v
PolicyDeploy.v
PolicyKmm.v
PolicyMisc.v
PolicyController.v
PolicyScenario.v
PolicyDeployFacts.v
PolicyExport.v
PolicyKueue.v
PolicySafety.v
PolicyRuns.v
PolicyWebhook.v
PolicyWebhookFacts.v
XpumRefresh.v
XpumRefreshFacts.v
PlanJson.v
DeepCopySnapshot.v
Kubectl.v
KubectlFacts.v
KubectlScenario.v
KubectlAdmission.v
KubectlListing.v
Operator.v
OperatorFacts.v
Rbac.v
RbacFacts.v
RbacScenario.v
