(* ===== verification/Prelude.v ===== *)
(** * Verification of the Intel GPU Base Operator

    The operator ([src/]) keeps GPU nodes of a Kubernetes cluster in the state its custom resources ask for.
    Three controllers, each with an admission webhook, share a few helpers:

    - a [GPURecoveryPlan] recovers broken GPUs.  The controller reads device taints from resource slices, turns
      them into events, waits for approvals, drains the node or the device, runs a reset or reflash Job, and
      records the outcome in the plan's status;
    - a [GPUFirmwareUpdate] rolls firmware out over nodes: it taints and drains them, runs one Job per node,
      optionally after a canary, and cleans up;
    - a [ClusterPolicy] deploys the device plugin or the DRA driver, the XPU manager with its collector
      configuration, a kernel module, node feature rules, Prometheus objects and Kueue queues.  A second
      controller restarts XPU manager pods whose devices came back.

    The entry point detects the cluster's features and starts the manager with all of them; a kubectl plugin lists
    recovery plans and edits their approvals through the API server.

    ** How the program is modelled

    A reconcile pass is a computation in the monad [M] of this file. It holds the custom resource it works on in
    memory (Go mutates one object in place; copies are values, which [DeepCopySnapshot] justifies), and every
    exchange with the outside is an answer of an environment to the history so far, appended to a log:
    [Client.Env] for nodes, pods, Jobs, claims, slices and the two resources, [PolicyClient.PolicyEnv] for the
    objects of a policy. Nothing is assumed of the answers, so a theorem that a pass has a property holds for
    every API server, every failure and every interleaving of other clients between two requests; where a theorem
    needs the API server to store what it is told, a class says so ([PlanServer], [NodeServer] of [Cluster]) and
    [Cluster.clusterEnv] is an instance that runs. Errors are values with a kind and a text ([GoErr], [res]); a
    panic is an error of its own kind that ends the pass. The order in which Go visits a map is an arbitrary
    permutation ([Client.rangeMap]). Durations are 64-bit and wrap ([wrap64], [seconds]); the units of a
    quantity are an [int64] ([PolicyMisc.quantityValue]; what the library gives for an amount beyond is a parameter);
    strings are byte strings with Go's UTF-8 decoding ([GoStrings]).

    Theorems on passes are weakest preconditions [wp m Q w] over the log: [made w w' h e] says that between [w] and
    [w'] exchange [e] was made in history [h], [seen B h e] that [e] was made between [B] and [h].

    ** Files, and what they model

    - Shared: [Prelude] (errors, the monad, rules and tactics, integers), [GoStrings], [Regex] (Brzozowski
      derivatives for the patterns of the source), [Sha256], [KubeTypes], [ApiTypes] ([gpurecoveryplan_types.go],
      [gpufirmwareupdate_types.go]), [Common] ([common/gpu.go], [opts.go], [requeue.go]), [Client] (the requests),
      [Drain] ([common/drain.go]), [OpenShift] ([common/openshift.go]), [Cluster] (a running API server).
    - Content images: [ImageVerifier], [ImageVerifierFacts] ([common/contentimage_verifier.go]).
    - Recovery ([internal/controller/gpurecoveryplan]): [RecoveryNaming] (names and commands of
      [gpurecoveryplan_helpers.go]), [RecoveryEvents] (events, approvals, [gpurecoveryplan_imageverific.go]),
      [RecoveryController] ([gpurecoveryplan_controller.go]), [RecoveryWebhook] ([gpurecoveryplan_webhook.go]); proofs
      in [RecoveryNamingFacts], [RecoveryEventsFacts], [RecoveryFocus] (symbolic execution of handlers),
      [RecoveryInv] (life cycle and invariant), [RecoveryDetection], [RecoveryPhases], [RecoveryTrace] (footprint of a
      pass), [RecoveryReconcile], [RecoveryScenario] (a worked run), [RecoverySafety], [RecoveryCorrect],
      [RecoveryLive], [RecoveryWebhookFacts].
    - Firmware updates ([internal/controller/gpufirmwareupdate]): [FwUpdate], [FwUpdateFacts], [FwUpdateSafety],
      [FwUpdateNames], [FwWebhook] ([gpufirmwareupdate_webhook.go]), [FwLogs] (the log retriever and the line scanner
      under it), [ImageContent] (webhook, controller and verifier composed).
    - Policies ([internal/controller/clusterpolicy]): [PolicyTypes] ([clusterpolicy_types.go]), [PolicyObjects] and
      [PolicyClient] (objects and requests), [PolicyDaemonSets] ([controller_utils.go], DaemonSets of
      [deviceplugin_controller.go] and [dra_controller.go]), [PolicyXpum] (DaemonSet and collector configuration of
      [xpumanager_controller.go]), [PolicyDeploy] (their [Reconcile] methods), [PolicyKmm] ([kmm_controller.go]),
      [PolicyMisc] ([misc_controller.go]), [PolicyController] ([clusterpolicy_controller.go]), [PolicyWebhook]
      ([clusterpolicy_webhook.go]), [XpumRefresh] ([xpum_device_refresh.go]); proofs in [PolicyDeployFacts],
      [PolicyExport], [PolicyKueue], [PolicySafety], [PolicyWebhookFacts], [XpumRefreshFacts]; [PolicyScenario] and
      [PolicyRuns] run passes on a concrete cluster.
    - The kubectl plugin ([cmd/kubectl-gpurecovery]): [PlanJson] (the JSON form the struct tags of
      [gpurecoveryplan_types.go] prescribe, with its decoder), [Kubectl] (all commands, over the JSON of a plan; its own
      environment [Kubectl] answers from the history of its own exchanges [KEv]), [KubectlFacts] (edits and what they
      assume: [UnstructuredLaws], [VersionedServer]), [KubectlScenario] (instances of both and runs of commands),
      [KubectlAdmission] (plugin, webhook and controller composed), [KubectlListing].
    - The entry point ([cmd/main.go]): [Operator] (flags, features, options, the setup steps; slices of TLS options with
      their backing arrays), [OperatorFacts].
    - Memory and deep copies ([api/v1alpha1/zz_generated.deepcopy.go]): [GoMemory] (pointers, slices with backing arrays,
      maps; types; when two objects have equal content and what memory an object consists of), [GoCopy] (the statements of
      copying code as computations on memory that may fault, each with its law), [DeepCopyCode] (every struct of the API
      with its [DeepCopyInto], [DeepCopy], [DeepCopyObject]; types and methods of the Kubernetes libraries are parameters,
      [Kubernetes], with laws, [KubernetesCopies]), [DeepCopySample] (an instance and a plan in memory), [DeepCopyFacts],
      [DeepCopySnapshot] (the plan in memory read as the record of [ApiTypes]).
    - Embedded manifests ([config/deployments/deployments.go], [otel_types.go], [config/samples/samples.go]): [Manifests], over
      [GoMemory]; the YAML decoder is a parameter with laws ([Decoder], [DecoderLaws]).
    - The roles ([config/rbac], [config/deployments/dra/clusterrole.yaml]) and the watches of [SetupWithManager]:
      [Rbac] (also what API requests an exchange stands for, with the cache of the manager), [RbacFacts],
      [RbacScenario].  The authorizer is a parameter with a law ([Authorizer]), and so is that reads in a namespace keep
      to it ([NamespacedReads]); both have instances in [RbacScenario].

    ** What the theorems show

    - Recovery: at most one recovery is active per node, Jobs start only for drained devices and approved events,
      events follow their life cycle, approvals are spent once and survive the round trip through the spec, taints
      are detected completely, overdue Jobs and drains end, the finalizer waits for running Jobs, the status stays
      bounded and well formed; names are valid, command lines parse into the words meant.
    - Firmware: Jobs run only on nodes seen drained, a node counts as done only with the tag in the log of its Job,
      the phases only move forward and are bounded in number, nodes and pods are touched only as the state allows,
      admitted updates start only with content the registry serves and checksums match.
    - Policies: a driver is not removed while a claim holds a GPU, DaemonSets are written only as the policy asks,
      the finalizer goes only after the operands, no edit of a policy leaves a residue in a DaemonSet, the
      collector's configuration refers only to variables and files that the pod has, resources are divided equally
      without loss, the webhook accepts exactly the stated rules, XPU manager pods restart only for cause and
      within a budget that only a node in order gets back, and the device record survives its round trip.
    - Plugin: an edit is atomic on the stored plan and changes the approvals only, what it adds is admitted by the
      webhook (if that can draw a free ID) and found by the controller, the commands print what the typed plan holds.
    - Entry point: the manager starts with every controller and webhook set up or not at all, with options that agree
      with the cluster and the cache, and each server serves its own certificate unless a slice grows to more than needed.
    - Deep copies: every generated copy is complete and shares no memory with its original, so that the copy of the plan
      a pass keeps is the value [RecoveryController] takes it for, whatever the pass edits in place
      ([DeepCopySnapshot.orig_is_snapshot]); a manifest gives a new
      object with the same content on every call ([Manifests.manifests_new]).
    - Roles: whatever the four controllers ask of the API server is granted to them, patches of cluster roles apart;
      secrets are only read.
    - Where the code does less than it says, a lemma or a run of the model shows it: event IDs that coincide
      ([RecoveryNamingFacts.event_id_collision]), taints that stay after an error
      ([FwUpdateSafety.fw_error_keeps_taints]), a log line that hides the completion tag
      ([FwLogs.long_line_hides_completion]), blocked events ([KubectlAdmission.Vocabulary]), counting of slices ([PolicyKueue.Counting]), kernel modules of a
      deleted policy ([PolicyRuns.Runs]), role patches that are refused ([RbacScenario.RbacDemo]).

    ** Bounds and fuel

    [Client.retryLoop] runs as many rounds as client-go's backoff has steps, a number of the environment; a conflict
    in the last round is returned.  [RecoveryWebhook.generateApprovalIDLoop] counts the attempts the source allows.
    [GoStrings.runesFuel], [Sha256.chunks] and [PolicyWebhook.substituteL] get the length of their input as fuel, and
    each round takes at least one element ([PolicyWebhookFacts.substituteL_fuel]).  Regular expressions are decided
    by derivatives and need no fuel.

    ** Not modelled

    - scheme registration, logging setup, and of the [SetupWithManager] functions all but the watches and indexes;
    - cobra's dispatch and help texts, and the alignment of the plugin's tables, whose cells are modelled;
    - logging; the parts of manifests that no code reads (security contexts of Jobs), and the roles for human users;
    - third-party code: the API server, registries, URL, image reference and YAML parsers are parameters. *)

From stdpp Require Export base numbers strings gmap pretty sorting list.

#[global] Open Scope string_scope.
#[global] Open Scope list_scope.
#[global] Open Scope nat_scope.

(** ** Go errors and results

    An [error] value is its kind, as the predicates of the API machinery and [errors.Is] see it
    through wrapping, and its text, as [%v] renders it.  A run-time panic, which leaves every call up to the
    controller runtime, is handed up as an error of its own kind. *)

Inductive ErrKind :=
| NotFound
| AlreadyExists
| Conflict
| TooManyRequests
| RequeueReconcile
| Panicked
| OtherErr.

Record GoErr := mkErr { ekind : ErrKind; etext : string }.

#[global] Instance ErrKind_eq_dec : EqDecision ErrKind.
Proof. solve_decision. Defined.

#[global] Instance GoErr_eq_dec : EqDecision GoErr.
Proof. solve_decision. Defined.

(** [fmt.Errorf("<prefix>%w", err)]: the kind survives. *)
Definition wrapErr (prefix : string) (e : GoErr) : GoErr := mkErr (ekind e) (prefix +:+ etext e).

(** [fmt.Errorf] without [%w]. *)
Definition errorf (text : string) : GoErr := mkErr OtherErr text.

Inductive res (A : Type) :=
| Ok (a : A)
| Err (e : GoErr).
Arguments Ok {A} _.
Arguments Err {A} _.

#[global] Instance res_eq_dec {A} `{EqDecision A} : EqDecision (res A).
Proof. solve_decision. Defined.

Definition is_Err {A} (r : res A) : bool := match r with Ok _ => false | Err _ => true end.

Definition isNotFound (e : GoErr) : bool := bool_decide (ekind e = NotFound).
Definition isAlreadyExists (e : GoErr) : bool := bool_decide (ekind e = AlreadyExists).
Definition isTooManyRequests (e : GoErr) : bool := bool_decide (ekind e = TooManyRequests).
Definition isPanic (e : GoErr) : bool := bool_decide (ekind e = Panicked).
Definition isConflict (e : GoErr) : bool := bool_decide (ekind e = Conflict).

(** ** The effect monad

    A computation reads and writes an in-memory object of type [S] (the custom resource the
    reconcile pass holds) and talks to the outside world; every exchange is appended to a log,
    newest first.  [E] is the type of log entries. *)

Record World (E S : Type) := mkWorld { mem : S; log : list E }.
Arguments mkWorld {E S} _ _.
Arguments mem {E S} _.
Arguments log {E S} _.

Definition M (E S A : Type) : Type := World E S → A * World E S.

#[global] Instance M_ret {E S} : MRet (M E S) := λ A a w, (a, w).
#[global] Instance M_bind {E S} : MBind (M E S) := λ A B f m w, let r := m w in f r.1 r.2.

Definition getMem {E S} : M E S S := λ w, (mem w, w).
Definition putMem {E S} (s : S) : M E S unit := λ w, (tt, mkWorld s (log w)).
Definition modMem {E S} (f : S → S) : M E S unit := λ w, (tt, mkWorld (f (mem w)) (log w)).

(** One exchange with the outside world: [f] answers from the history, [mk] is its log entry. *)
Definition exchange {E S A} (f : list E → A) (mk : A → E) : M E S A :=
  λ w, let a := f (log w) in (a, mkWorld (mem w) (mk a :: log w)).

(** [for _, x := range l { f(x) }] *)
Fixpoint forEach {E S A} (f : A → M E S unit) (l : list A) : M E S unit :=
  match l with
  | [] => mret tt
  | x :: l' => _ ← f x; forEach f l'
  end.

(** The same loop with local variables [b] carried round it. *)
Fixpoint foldEach {E S A B} (f : B → A → M E S B) (b : B) (l : list A) : M E S B :=
  match l with
  | [] => mret b
  | x :: l' => b' ← f b x; foldEach f b' l'
  end.

(** The same loop with a [break] or an early [return]: [inr r] leaves it. *)
Fixpoint foldUntil {E S A B R} (f : B → A → M E S (B + R)) (b : B) (l : list A) : M E S (B + R) :=
  match l with
  | [] => mret (inl b)
  | x :: l' =>
      o ← f b x;
      match o with
      | inl b' => foldUntil f b' l'
      | inr r => mret (inr r)
      end
  end.

(** ** Weakest preconditions *)

Definition wp {E S A} (m : M E S A) (Q : A → World E S → Prop) (w : World E S) : Prop :=
  Q (m w).1 (m w).2.

Section wp_rules.
Context {E S : Type}.
Implicit Types w : World E S.

Lemma wp_ret {A} (a : A) (Q : A → World E S → Prop) w : Q a w → wp (mret a) Q w.
Proof. done. Qed.

Lemma wp_bind {A B} (m : M E S A) (f : A → M E S B) (Q : B → World E S → Prop) w :
  wp m (λ a, wp (f a) Q) w → wp (m ≫= f) Q w.
Proof. done. Qed.

Lemma wp_mono {A} (m : M E S A) (Q Q' : A → World E S → Prop) w :
  wp m Q w → (∀ a w', Q a w' → Q' a w') → wp m Q' w.
Proof. unfold wp. eauto. Qed.

Lemma wp_and {A} (m : M E S A) (Q Q' : A → World E S → Prop) w :
  wp m Q w → wp m Q' w → wp m (λ a w', Q a w' ∧ Q' a w') w.
Proof. by split. Qed.

Lemma wp_getMem (Q : S → World E S → Prop) w : Q (mem w) w → wp getMem Q w.
Proof. done. Qed.

Lemma wp_putMem s (Q : unit → World E S → Prop) w : Q tt (mkWorld s (log w)) → wp (putMem s) Q w.
Proof. done. Qed.

Lemma wp_modMem f (Q : unit → World E S → Prop) w :
  Q tt (mkWorld (f (mem w)) (log w)) → wp (modMem f) Q w.
Proof. done. Qed.

Lemma wp_exchange {A} (f : list E → A) mk (Q : A → World E S → Prop) w :
  Q (f (log w)) (mkWorld (mem w) (mk (f (log w)) :: log w)) → wp (exchange f mk) Q w.
Proof. done. Qed.

(** Loop rules.  The invariant sees the part of the range already done. *)
Lemma wp_forEach_gen {A} (f : A → M E S unit) (I : list A → World E S → Prop) done l w :
  I done w →
  (∀ pre x post w', done ++ l = pre ++ x :: post → I pre w' → wp (f x) (λ _, I (pre ++ [x])) w') →
  wp (forEach f l) (λ _, I (done ++ l)) w.
Proof.
  revert done w. induction l as [|x l IH]; intros dn w HI Hstep; simpl.
  - rewrite app_nil_r. by apply wp_ret.
  - apply wp_bind. eapply wp_mono; [by apply (Hstep dn x l)|].
    intros [] w' HI'. rewrite (cons_middle x dn l), (app_assoc dn [x] l) in Hstep |- *.
    by apply IH.
Qed.

Lemma wp_forEach {A} (f : A → M E S unit) (I : list A → World E S → Prop) l w :
  I [] w →
  (∀ pre x post w', l = pre ++ x :: post → I pre w' → wp (f x) (λ _, I (pre ++ [x])) w') →
  wp (forEach f l) (λ _, I l) w.
Proof. apply (wp_forEach_gen f I []). Qed.

Lemma wp_forEach_inv {A} (f : A → M E S unit) (I : World E S → Prop) l w :
  I w → (∀ x w', x ∈ l → I w' → wp (f x) (λ _, I) w') → wp (forEach f l) (λ _, I) w.
Proof.
  intros HI Hstep. apply (wp_forEach f (λ _, I)); [done|].
  intros pre x post w' -> HI'. apply Hstep; [set_solver|done].
Qed.

Lemma wp_foldEach_gen {A B} (f : B → A → M E S B) (I : list A → B → World E S → Prop) done b l w :
  I done b w →
  (∀ pre x post b' w', done ++ l = pre ++ x :: post → I pre b' w' →
     wp (f b' x) (I (pre ++ [x])) w') →
  wp (foldEach f b l) (I (done ++ l)) w.
Proof.
  revert done b w. induction l as [|x l IH]; intros dn b w HI Hstep; simpl.
  - rewrite app_nil_r. by apply wp_ret.
  - apply wp_bind. eapply wp_mono; [by apply (Hstep dn x l)|].
    intros b' w' HI'. rewrite (cons_middle x dn l), (app_assoc dn [x] l) in Hstep |- *.
    by apply IH.
Qed.

Lemma wp_foldEach {A B} (f : B → A → M E S B) (I : list A → B → World E S → Prop) b l w :
  I [] b w →
  (∀ pre x post b' w', l = pre ++ x :: post → I pre b' w' → wp (f b' x) (I (pre ++ [x])) w') →
  wp (foldEach f b l) (I l) w.
Proof. apply (wp_foldEach_gen f I []). Qed.

Lemma wp_foldEach_inv {A B} (f : B → A → M E S B) (I : B → World E S → Prop) b l w :
  I b w → (∀ x b' w', x ∈ l → I b' w' → wp (f b' x) I w') → wp (foldEach f b l) I w.
Proof.
  intros HI Hstep. apply (wp_foldEach f (λ _, I)); [done|].
  intros pre x post b' w' -> HI'. apply Hstep; [set_solver|done].
Qed.

Lemma wp_foldUntil_inv {A B R} (f : B → A → M E S (B + R)) (I : B → World E S → Prop)
    (Q : R → World E S → Prop) b l w :
  I b w →
  (∀ x b' w', x ∈ l → I b' w' →
     wp (f b' x) (λ o w'', match o with inl b'' => I b'' w'' | inr r => Q r w'' end) w') →
  wp (foldUntil f b l) (λ o w', match o with inl b' => I b' w' | inr r => Q r w' end) w.
Proof.
  revert b w. induction l as [|x l IH]; intros b w HI Hstep; simpl.
  - by apply wp_ret.
  - apply wp_bind. eapply wp_mono; [apply Hstep; [set_solver|done]|].
    intros [b'|r] w' HI'; [|by apply wp_ret].
    apply IH; [done|]. intros; apply Hstep; [set_solver|done].
Qed.

Lemma wp_foldUntil_gen {A B R} (f : B → A → M E S (B + R)) (I : list A → B → World E S → Prop)
    (Q : R → World E S → Prop) done b l w :
  I done b w →
  (∀ pre x post b' w', done ++ l = pre ++ x :: post → I pre b' w' →
     wp (f b' x) (λ o w'', match o with inl b'' => I (pre ++ [x]) b'' w'' | inr r => Q r w'' end) w') →
  wp (foldUntil f b l) (λ o w', match o with inl b' => I (done ++ l) b' w' | inr r => Q r w' end) w.
Proof.
  revert done b w. induction l as [|x l IH]; intros dn b w HI Hstep; simpl.
  - rewrite app_nil_r. by apply wp_ret.
  - apply wp_bind. eapply wp_mono; [by apply (Hstep dn x l)|].
    intros [b'|r] w' HI'; [|by apply wp_ret].
    rewrite (cons_middle x dn l), (app_assoc dn [x] l) in Hstep |- *. by apply IH.
Qed.

Lemma wp_foldUntil {A B R} (f : B → A → M E S (B + R)) (I : list A → B → World E S → Prop)
    (Q : R → World E S → Prop) b l w :
  I [] b w →
  (∀ pre x post b' w', l = pre ++ x :: post → I pre b' w' →
     wp (f b' x) (λ o w'', match o with inl b'' => I (pre ++ [x]) b'' w'' | inr r => Q r w'' end) w') →
  wp (foldUntil f b l) (λ o w', match o with inl b' => I l b' w' | inr r => Q r w' end) w.
Proof. apply (wp_foldUntil_gen f I Q []). Qed.
End wp_rules.

(** ** 64-bit integers and durations

    [time.Duration] is a signed 64-bit count of nanoseconds: products wrap around, and
    [time.Time.Sub] saturates. *)

#[local] Open Scope Z_scope.

Definition int64_min : Z := - 2 ^ 63.
Definition int64_max : Z := 2 ^ 63 - 1.
Definition int32_max : Z := 2 ^ 31 - 1.

Definition wrap64 (z : Z) : Z := (z + 2 ^ 63) mod 2 ^ 64 - 2 ^ 63.

Definition Second : Z := 1000000000.

(** [time.Duration(n) * time.Second] *)
Definition seconds (n : Z) : Z := wrap64 (n * Second).

(** [time.Since(t)], read when the clock shows [now]. *)
Definition timeSince (now t : Z) : Z := Z.max int64_min (Z.min int64_max (now - t)).

Lemma wrap64_id z : int64_min <= z <= int64_max → wrap64 z = z.
Proof.
  unfold wrap64, int64_min, int64_max. intros H. rewrite Z.mod_small; lia.
Qed.

Lemma seconds_int32 n : 0 <= n <= int32_max → seconds n = n * Second.
Proof.
  unfold int32_max, seconds, Second. intros H. apply wrap64_id. unfold int64_min, int64_max. lia.
Qed.

#[local] Close Scope Z_scope.

(** ** Preorders kept by a computation

    [keeps R m]: whatever the outside world answers, running [m] moves the state along the preorder
    [R].  Frame conditions and monotone facts are proved this way, one rule per construct. *)

Definition keeps {E S A} (R : World E S → World E S → Prop) (m : M E S A) : Prop :=
  ∀ w, R w (m w).2.

Section keeps_rules.
Context {E S : Type} (R : World E S → World E S → Prop) `{!PreOrder R}.

Lemma keeps_ret {A} (a : A) : keeps R (mret a).
Proof. intros w. simpl. reflexivity. Qed.

Lemma keeps_bind {A B} (m : M E S A) (f : A → M E S B) :
  keeps R m → (∀ a, keeps R (f a)) → keeps R (m ≫= f).
Proof. intros Hm Hf w. etrans; [apply Hm|apply Hf]. Qed.

Lemma keeps_getMem : keeps R getMem.
Proof. intros w. simpl. reflexivity. Qed.

Lemma keeps_forEach {A} (f : A → M E S unit) l :
  (∀ x, x ∈ l → keeps R (f x)) → keeps R (forEach f l).
Proof.
  induction l as [|x l IH]; intros Hf; simpl; [apply keeps_ret|].
  apply keeps_bind; [apply Hf; left|]. intros _. apply IH. intros y Hy. apply Hf. by right.
Qed.

Lemma keeps_foldEach {A B} (f : B → A → M E S B) b l :
  (∀ b x, x ∈ l → keeps R (f b x)) → keeps R (foldEach f b l).
Proof.
  revert b. induction l as [|x l IH]; intros b Hf; simpl; [apply keeps_ret|].
  apply keeps_bind; [apply Hf; left|]. intros b'. apply IH. intros b'' y Hy. apply Hf. by right.
Qed.

Lemma keeps_foldUntil {A B C} (f : B → A → M E S (B + C)) b l :
  (∀ b x, x ∈ l → keeps R (f b x)) → keeps R (foldUntil f b l).
Proof.
  revert b. induction l as [|x l IH]; intros b Hf; simpl; [apply keeps_ret|].
  apply keeps_bind; [apply Hf; left|]. intros [b'|?]; [|apply keeps_ret].
  apply IH. intros b'' y Hy. apply Hf. by right.
Qed.

Lemma keeps_intro {A} (m : M E S A) : (∀ w, wp m (λ _ w', R w w') w) → keeps R m.
Proof. done. Qed.

Lemma keeps_wp {A} (m : M E S A) w :
  keeps R m → wp m (λ _ w', R w w') w.
Proof. intros H. apply H. Qed.
End keeps_rules.

(** Decomposes [keeps R m] along the syntax of [m], using the facts of database [keeps]. *)
Create HintDb keeps discriminated.

Ltac keeps_step :=
  match goal with
  | |- keeps _ (mret _) => apply keeps_ret; apply _
  | |- keeps _ (mbind _ _) => apply keeps_bind; [apply _| |intros ?]
  | |- keeps _ getMem => apply keeps_getMem; apply _
  | |- keeps _ (forEach _ _) => apply keeps_forEach; [apply _|intros ? ?]
  | |- keeps _ (foldEach _ _ _) => apply keeps_foldEach; [apply _|intros ? ? ?]
  | |- keeps _ (foldUntil _ _ _) => apply keeps_foldUntil; [apply _|intros ? ? ?]
  | |- keeps _ (match ?x with _ => _ end) => destruct x
  | |- keeps _ ((match ?x with _ => _ end) _) => destruct x
  | |- keeps _ (let _ := _ in _) => cbv zeta
  | |- keeps _ _ => solve [eauto with keeps]
  end.
Ltac keeps_auto := repeat (intros; cbn beta; keeps_step).

(** Symbolic execution of [wp m Q w]. *)
Create HintDb wp discriminated.

Ltac wp_step :=
  match goal with
  | |- wp (mret _) _ _ => apply wp_ret
  | |- wp (mbind _ _) _ _ => apply wp_bind
  | |- wp getMem _ _ => apply wp_getMem
  | |- wp (putMem _) _ _ => apply wp_putMem
  | |- wp (modMem _) _ _ => apply wp_modMem
  | |- wp (exchange _ _) _ _ => apply wp_exchange
  | |- wp (let _ := _ in _) _ _ => cbv zeta
  | |- wp _ _ _ => apply wp_exchange
  end.
Ltac wp_steps := repeat (wp_step; cbn beta; cbn [log mem]).

(** ** What a computation adds to the log *)

(** Every exchange between [w] and [w'] satisfies [P]. *)
Definition logged {E S} (P : E → Prop) (w w' : World E S) : Prop :=
  ∃ new, log w' = new ++ log w ∧ Forall P new.

#[global] Instance logged_preorder {E S} P : PreOrder (@logged E S P).
Proof.
  split.
  - intros w. by exists [].
  - intros w1 w2 w3 (n1 & H1 & F1) (n2 & H2 & F2). exists (n2 ++ n1).
    rewrite H2, H1, app_assoc. split; [done|]. by apply Forall_app.
Qed.

(** The in-memory object is left alone. *)
Definition sameMem {E S} (w w' : World E S) : Prop := mem w' = mem w.

#[global] Instance sameMem_preorder {E S} : PreOrder (@sameMem E S).
Proof. split; [done|]. unfold sameMem. intros ???. congruence. Qed.

Lemma logged_mono {E S} (P Q : E → Prop) (w w' : World E S) :
  (∀ e, P e → Q e) → logged P w w' → logged Q w w'.
Proof. intros HPQ (n & H & F). exists n. split; [done|]. by eapply Forall_impl. Qed.

Lemma logged_and {E S} (P Q : E → Prop) (w w' : World E S) :
  logged P w w' → logged Q w w' → logged (λ e, P e ∧ Q e) w w'.
Proof.
  intros (n & H & F) (n' & H' & F'). exists n. split; [done|].
  assert (n = n') as <- by (apply (app_inv_tail (log w)); congruence).
  apply Forall_and. by split.
Qed.

(** The log only grows. *)
Lemma logged_suffix {E S} P (w w' : World E S) : logged P w w' → log w `suffix_of` log w'.
Proof. intros (n & -> & _). by eexists. Qed.

Lemma keeps_exchange_logged {E S A} (P : E → Prop) (f : list E → A) mk :
  (∀ a, P (mk a)) → keeps (@logged E S P) (exchange f mk).
Proof. intros HP w. eexists [_]. split; [done|]. by apply Forall_singleton. Qed.

Lemma keeps_exchange_sameMem {E S A} (f : list E → A) mk : keeps (@sameMem E S) (exchange f mk).
Proof. done. Qed.

Lemma keeps_modMem_logged {E S} P (f : S → S) : keeps (@logged E S P) (modMem f).
Proof. intros w. by exists []. Qed.

Lemma keeps_putMem_logged {E S} P (s : S) : keeps (@logged E S P) (putMem s).
Proof. intros w. by exists []. Qed.

#[export] Hint Resolve keeps_exchange_sameMem keeps_modMem_logged keeps_putMem_logged : keeps.
#[export] Hint Extern 2 (keeps (logged _) _) =>
  apply keeps_exchange_logged; intros ?; simpl; by eauto 10 : keeps.

(** ** What a computation has been shown

    Every computation extends the log, so that what the outside world answered stays on record:
    [seen B h e] says that exchange [e] took place between the history [B] and the history [h]. *)

Definition grows {E S} (w w' : World E S) : Prop := log w `suffix_of` log w'.

#[global] Instance grows_preorder {E S} : PreOrder (@grows E S).
Proof. split; [intros w; unfold grows; done|]. unfold grows. intros w1 w2 w3 H1 H2. by etrans. Qed.

Lemma keeps_exchange_grows {E S A} (f : list E → A) mk : keeps (@grows E S) (exchange f mk).
Proof. intros w. by exists [mk (f (log w))]. Qed.

Lemma keeps_modMem_grows {E S} (f : S → S) : keeps (@grows E S) (modMem f).
Proof. intros w. by exists []. Qed.

Lemma keeps_putMem_grows {E S} (s : S) : keeps (@grows E S) (putMem s).
Proof. intros w. by exists []. Qed.

#[export] Hint Resolve keeps_exchange_grows keeps_modMem_grows keeps_putMem_grows : keeps.
#[export] Hint Extern 2 (keeps grows _) => apply keeps_exchange_grows : keeps.

(** The log after [m] extends the one before, which its postcondition may rely on. *)
Lemma wp_grows {E S A} (m : M E S A) (Q : A → World E S → Prop) w :
  keeps grows m → wp m (λ a w', log w `suffix_of` log w' → Q a w') w → wp m Q w.
Proof. intros Hg HQ. apply HQ, Hg. Qed.

Definition seen {E} (B h : list E) (e : E) : Prop := ∃ new, h = new ++ B ∧ e ∈ new.

Lemma seen_mono {E} (B h h' : list E) e : h `suffix_of` h' → seen B h e → seen B h' e.
Proof. intros [new ->] (n & -> & He). exists (new ++ n). rewrite app_assoc. split; [done|]. set_solver. Qed.

Lemma seen_now {E} (B h : list E) e : B `suffix_of` h → seen B (e :: h) e.
Proof. intros [new ->]. exists (e :: new). split; [done|]. by left. Qed.

Lemma seen_elem {E} (B h : list E) e : seen B h e → e ∈ h.
Proof. intros (new & -> & He). set_solver. Qed.

Lemma seen_cons {E} (B h : list E) e x : seen B (x :: h) e → e = x ∨ seen B h e.
Proof.
  intros ([|y new] & Hh & Hin); [by apply not_elem_of_nil in Hin|]. injection Hh as -> ->.
  apply elem_of_cons in Hin as [->|Hin]; [by left|right]. by exists new.
Qed.

Lemma seen_same {E} (B : list E) e : ¬ seen B B e.
Proof.
  intros ([|y new] & Hh & Hin); [by apply not_elem_of_nil in Hin|].
  apply (f_equal length) in Hh. rewrite length_app in Hh. simpl in Hh. lia.
Qed.

Lemma seen_nil {E} (h : list E) e : seen [] h e ↔ e ∈ h.
Proof.
  split; [apply seen_elem|]. intros He. exists h. by rewrite app_nil_r.
Qed.

Lemma seen_base {E} (B h : list E) e : seen B h e → seen [] h e.
Proof. intros He. apply seen_nil. by eapply seen_elem. Qed.

(** Every exchange between [w] and [w'] satisfies [P] of the history it was made in. *)
Fixpoint eachIn {E} (P : list E → E → Prop) (new base : list E) : Prop :=
  match new with
  | [] => True
  | e :: new' => P (new' ++ base) e ∧ eachIn P new' base
  end.

Definition loggedIn {E S} (P : list E → E → Prop) (w w' : World E S) : Prop :=
  ∃ new, log w' = new ++ log w ∧ eachIn P new (log w).

Lemma eachIn_app {E} (P : list E → E → Prop) n2 n1 base : eachIn P n2 (n1 ++ base) → eachIn P n1 base → eachIn P (n2 ++ n1) base.
Proof.
  induction n2 as [|e n2 IH]; [done|]. simpl. rewrite <- app_assoc. intros [He Hn] H1. split; [done|]. by apply IH.
Qed.

Lemma eachIn_elem {E} (P : list E → E → Prop) new base e :
  eachIn P new base → e ∈ new → ∃ pre post, new = pre ++ e :: post ∧ P (post ++ base) e.
Proof.
  induction new as [|x new IH]; [by intros _ ?%not_elem_of_nil|]. simpl. intros [Hx Hn].
  intros [->|Hin]%elem_of_cons; [by exists [], new|]. destruct (IH Hn Hin) as (pre & post & -> & HP).
  by exists (x :: pre), post.
Qed.

Lemma eachIn_mono {E} (P Q : list E → E → Prop) new base :
  (∀ h e, P h e → Q h e) → eachIn P new base → eachIn Q new base.
Proof. intros HPQ. induction new as [|e new IH]; [done|]. simpl. intros [? ?]. auto. Qed.

Lemma eachIn_Forall {E} (P : E → Prop) new base : Forall P new → eachIn (λ _, P) new base.
Proof. induction 1; simpl; auto. Qed.

#[global] Instance loggedIn_preorder {E S} P : PreOrder (@loggedIn E S P).
Proof.
  split.
  - intros w. by exists [].
  - intros w1 w2 w3 (n1 & H1 & F1) (n2 & H2 & F2). exists (n2 ++ n1). rewrite H1 in F2.
    rewrite H2, H1, app_assoc. split; [done|]. by apply eachIn_app.
Qed.

Lemma loggedIn_grows {E S} P (w w' : World E S) : loggedIn P w w' → grows w w'.
Proof. intros (n & Hn & _). by exists n. Qed.

Lemma loggedIn_mono {E S} (P Q : list E → E → Prop) (w w' : World E S) :
  (∀ h e, P h e → Q h e) → loggedIn P w w' → loggedIn Q w w'.
Proof. intros HPQ (n & Hn & HF). exists n. split; [done|]. by eapply eachIn_mono. Qed.

(** The histories the exchanges are made in extend the first one. *)
Lemma loggedIn_from {E S} (P Q : list E → E → Prop) (w w' : World E S) :
  (∀ h e, log w `suffix_of` h → P h e → Q h e) → loggedIn P w w' → loggedIn Q w w'.
Proof.
  intros HPQ (n & Hn & HF). exists n. split; [done|]. clear Hn. induction n as [|e n IH]; [done|].
  destruct HF as [He HF]. split; [|by apply IH]. apply HPQ; [by exists n|done].
Qed.

Lemma logged_loggedIn {E S} (P : E → Prop) (Q : list E → E → Prop) (w w' : World E S) :
  (∀ h e, P e → Q h e) → logged P w w' → loggedIn Q w w'.
Proof.
  intros HPQ (n & Hn & HF). exists n. split; [done|]. eapply eachIn_mono; [|by apply eachIn_Forall]. auto.
Qed.

Lemma loggedIn_one {E S} (P : list E → E → Prop) (w : World E S) e s :
  P (log w) e → loggedIn P w (mkWorld s (e :: log w)).
Proof. intros HP. by exists [e]. Qed.

(** [made w w' h e]: between [w] and [w'] the exchange [e] was made, in history [h]. *)
Definition made {E S} (w w' : World E S) (h : list E) (e : E) : Prop :=
  e :: h `suffix_of` log w' ∧ log w `suffix_of` h.

Lemma loggedIn_made {E S} (P : list E → E → Prop) (w w' : World E S) h e : loggedIn P w w' → made w w' h e → P h e.
Proof.
  intros (new & Hn & HF) [[k Hk] [l ->]]. assert (new = k ++ e :: l) as ->.
  { apply (app_inv_tail (log w)). by rewrite <- Hn, Hk, <- app_assoc. }
  clear Hn Hk. induction k as [|x k IH]; [by destruct HF|]. destruct HF as [_ HF]. by apply IH.
Qed.
