(* ===== verification/GoMemory.v ===== *)
(** * Go memory: pointers, slices and maps

    Elsewhere the objects of the API are values.  In the program they are pointers to structs whose fields refer
    to further memory, and a value is obtained by copying all of it.  This file has the memory: a heap of cells,
    each the target of a pointer, the backing array of a slice or the contents of a map, types that say where
    references are, and when two objects in two heaps are equal in content ([same]) and what an object consists of
    ([reach]).

    The heap is a list, so that allocation is at its end and what was allocated before is a prefix. *)

From S2P Require Import Prelude.

(** ** Values and cells *)

(** A slice: backing array, offset, length and capacity. *)
Record header := mkHeader { sh_arr : nat; sh_off : nat; sh_len : nat; sh_cap : nat }.

Inductive gval :=
| VStr (s : string)
| VInt (z : Z)
| VBool (b : bool)
| VTime (t : Z)
| VPtr (p : option nat)
| VSlice (s : option header)
| VMap (m : option nat)
| VStruct (fields : list (string * gval)).

Inductive cell :=
| CVal (v : gval)
| CArr (l : list gval)
| CMap (m : gmap string gval).

Abbreviation memory := (list cell).

(** ** Types *)

Inductive gtype :=
| TStr | TInt | TBool
| TTime                                   (* immutable: its location is shared by design *)
| TPtr (t : gtype)
| TSlice (t : gtype)
| TMap (t : gtype)                        (* keys are strings *)
| TStruct (fields : list (string * gtype)).

Section gtype_induction.
Context (P : gtype → Prop) (Hstr : P TStr) (Hint : P TInt) (Hbool : P TBool) (Htime : P TTime).
Context (Hptr : ∀ t, P t → P (TPtr t)) (Hslice : ∀ t, P t → P (TSlice t)) (Hmap : ∀ t, P t → P (TMap t)).
Context (Hstruct : ∀ fs, Forall (λ f, P f.2) fs → P (TStruct fs)).

(** Induction that reaches the fields of structs. *)
Fixpoint gtype_fields_ind (t : gtype) : P t :=
  match t with
  | TStr => Hstr | TInt => Hint | TBool => Hbool | TTime => Htime
  | TPtr t => Hptr t (gtype_fields_ind t)
  | TSlice t => Hslice t (gtype_fields_ind t)
  | TMap t => Hmap t (gtype_fields_ind t)
  | TStruct fs => Hstruct fs ((fix go l : Forall (λ f, P f.2) l :=
      match l with [] => Forall_nil_2 _ | f :: l' => Forall_cons_2 _ _ _ (gtype_fields_ind f.2) (go l') end) fs)
  end.
End gtype_induction.

(** The zero value. *)
Fixpoint zero (t : gtype) : gval :=
  match t with
  | TStr => VStr "" | TInt => VInt 0 | TBool => VBool false | TTime => VTime 0
  | TPtr _ => VPtr None | TSlice _ => VSlice None | TMap _ => VMap None
  | TStruct fs => VStruct ((fix go l := match l with [] => [] | f :: l' => (f.1, zero f.2) :: go l' end) fs)
  end.

(** A type without references: assignment copies all of it. *)
Fixpoint flat (t : gtype) : bool :=
  match t with
  | TStr | TInt | TBool | TTime => true
  | TPtr _ | TSlice _ | TMap _ => false
  | TStruct fs => (fix go l := match l with [] => true | f :: l' => flat f.2 && go l' end) fs
  end.

(** The elements a slice shows. *)
Definition window (h : memory) (s : header) : option (list gval) :=
  match h !! sh_arr s with
  | Some (CArr l) => if decide (sh_off s + sh_len s ≤ length l) then Some (take (sh_len s) (drop (sh_off s) l)) else None
  | _ => None
  end.

Definition target (h : memory) (l : nat) : option gval := match h !! l with Some (CVal v) => Some v | _ => None end.
Definition entries (h : memory) (l : nat) : option (gmap string gval) := match h !! l with Some (CMap m) => Some m | _ => None end.

(** ** Equal content *)

(** Two maps have the same keys, with related values. *)
Definition mapRel {A B} (R : A → B → Prop) (m : gmap string A) (m' : gmap string B) : Prop :=
  ∀ k, match m !! k, m' !! k with Some x, Some y => R x y | None, None => True | _, _ => False end.

(** [v] in [h] and [v'] in [h'] are objects of the type with equal content. *)
Fixpoint same (t : gtype) (h : memory) (v : gval) (h' : memory) (v' : gval) {struct t} : Prop :=
  match t with
  | TStr => ∃ s, v = VStr s ∧ v' = v
  | TInt => ∃ z, v = VInt z ∧ v' = v
  | TBool => ∃ b, v = VBool b ∧ v' = v
  | TTime => ∃ z, v = VTime z ∧ v' = v
  | TPtr t =>
      match v, v' with
      | VPtr None, VPtr None => True
      | VPtr (Some l), VPtr (Some l') => ∃ x y, target h l = Some x ∧ target h' l' = Some y ∧ same t h x h' y
      | _, _ => False
      end
  | TSlice t =>
      match v, v' with
      | VSlice None, VSlice None => True
      | VSlice (Some s), VSlice (Some s') =>
          ∃ xs ys, window h s = Some xs ∧ window h' s' = Some ys ∧ Forall2 (λ x y, same t h x h' y) xs ys
      | _, _ => False
      end
  | TMap t =>
      match v, v' with
      | VMap None, VMap None => True
      | VMap (Some l), VMap (Some l') =>
          ∃ m m', entries h l = Some m ∧ entries h' l' = Some m' ∧ mapRel (λ x y, same t h x h' y) m m'
      | _, _ => False
      end
  | TStruct fs =>
      match v, v' with
      | VStruct xs, VStruct ys =>
          (fix go fs xs ys := match fs, xs, ys with
             | [], [], [] => True
             | (n, t) :: fs, (n1, x) :: xs, (n2, y) :: ys => n1 = n ∧ n2 = n ∧ same t h x h' y ∧ go fs xs ys
             | _, _, _ => False
             end) fs xs ys
      | _, _ => False
      end
  end.

(** An object of the type. *)
Definition typed (t : gtype) (h : memory) (v : gval) : Prop := same t h v h v.

(** The memory an object consists of. *)
Fixpoint reach (t : gtype) (h : memory) (v : gval) (k : nat) {struct t} : Prop :=
  match t with
  | TStr | TInt | TBool | TTime => False
  | TPtr t => match v with VPtr (Some l) => k = l ∨ ∃ x, target h l = Some x ∧ reach t h x k | _ => False end
  | TSlice t =>
      match v with
      | VSlice (Some s) => k = sh_arr s ∨ ∃ xs x, window h s = Some xs ∧ x ∈ xs ∧ reach t h x k
      | _ => False
      end
  | TMap t =>
      match v with VMap (Some l) => k = l ∨ ∃ m n x, entries h l = Some m ∧ m !! n = Some x ∧ reach t h x k | _ => False end
  | TStruct fs =>
      match v with
      | VStruct xs =>
          (fix go fs xs := match fs, xs with
             | (_, t) :: fs, (_, x) :: xs => reach t h x k ∨ go fs xs
             | _, _ => False
             end) fs xs
      | _ => False
      end
  end.

(** ** Structs, field by field *)

Lemma same_struct fs h v h' v' :
  same (TStruct fs) h v h' v' ↔ ∃ xs ys, v = VStruct xs ∧ v' = VStruct ys ∧ length xs = length fs ∧ length ys = length fs ∧
    ∀ i n t, fs !! i = Some (n, t) → ∃ x y, xs !! i = Some (n, x) ∧ ys !! i = Some (n, y) ∧ same t h x h' y.
Proof.
  split.
  - destruct v as [| | | | | | |xs], v' as [| | | | | | |ys]; try done. intros Hs. exists xs, ys. split; [done|]. split; [done|].
    revert xs ys Hs. induction fs as [|[n t] fs IH]; intros [|[n1 x] xs] [|[n2 y] ys]; try done.
    cbn. intros (-> & -> & Hx & Hs). destruct (IH xs ys Hs) as (Hl & Hl' & Hf). cbn. split_and!; [by rewrite Hl|by rewrite Hl'|].
    intros [|i] n' t' Hi; [|by apply Hf]. injection Hi as <- <-. eauto.
  - intros (xs & ys & -> & -> & Hl & Hl' & Hf). revert xs ys Hl Hl' Hf.
    induction fs as [|[n t] fs IH]; intros [|[n1 x] xs] [|[n2 y] ys] Hl Hl' Hf; try done.
    destruct (Hf 0 n t eq_refl) as (x' & y' & [= -> ->] & [= -> ->] & Hxy). cbn. split_and!; [done..|].
    apply IH; [by injection Hl|by injection Hl'|]. intros i n' t' Hi. exact (Hf (S i) n' t' Hi).
Qed.

Lemma reach_struct fs h xs k :
  reach (TStruct fs) h (VStruct xs) k ↔ ∃ i n t m x, fs !! i = Some (n, t) ∧ xs !! i = Some (m, x) ∧ reach t h x k.
Proof.
  revert xs. induction fs as [|[n t] fs IH]; intros xs.
  - split; [by destruct xs as [|[]]|]. by intros (i & ? & ? & ? & ? & ? & _).
  - destruct xs as [|[m x] xs].
    { split; [done|]. by intros (i & ? & ? & ? & ? & _ & ? & _). }
    cbn. split.
    + intros [Hr|Hr]; [by exists 0, n, t, m, x|]. apply IH in Hr as (i & n' & t' & m' & x' & ? & ? & ?). by exists (S i), n', t', m', x'.
    + intros ([|i] & n' & t' & m' & x' & Hf & Hx & Hr); [left; by simplify_eq/=|right]. apply IH. eauto 10.
Qed.

(** ** What content depends on *)

Lemma target_ext h h1 l : h1 !! l = h !! l → target h1 l = target h l.
Proof. unfold target. by intros ->. Qed.
Lemma window_ext h h1 s : h1 !! sh_arr s = h !! sh_arr s → window h1 s = window h s.
Proof. unfold window. by intros ->. Qed.
Lemma entries_ext h h1 l : h1 !! l = h !! l → entries h1 l = entries h l.
Proof. unfold entries. by intros ->. Qed.

Lemma mapRel_impl {A B} (R S : A → B → Prop) m m' :
  (∀ k x y, m !! k = Some x → m' !! k = Some y → R x y → S x y) → mapRel R m m' → mapRel S m m'.
Proof. intros HRS Hm k. specialize (Hm k). destruct (m !! k) eqn:?, (m' !! k) eqn:?; eauto. Qed.

(** The memory of an object is the same in a heap that agrees on it. *)
Lemma reach_frame t h h1 v k : (∀ k, reach t h v k → h1 !! k = h !! k) → reach t h1 v k → reach t h v k.
Proof.
  revert v. induction t as [| | | |t IH|t IH|t IH|fs IH] using gtype_fields_ind; intros v Hh; try done.
  - destruct v as [| | | |[l|]| | |]; try done. cbn in *. rewrite (target_ext h h1) by (apply Hh; by left).
    intros [->|(x & Hx & Hr)]; [by left|right]. exists x. split; [done|]. apply IH; [|done]. intros k' Hk. apply Hh. eauto.
  - destruct v as [| | | | |[s|]| |]; try done. cbn in *. rewrite (window_ext h h1) by (apply Hh; by left).
    intros [->|(xs & x & Hx & Hin & Hr)]; [by left|right]. exists xs, x. split_and!; [done..|]. apply IH; [|done].
    intros k' Hk. apply Hh. eauto 10.
  - destruct v as [| | | | | |[l|]|]; try done. cbn in *. rewrite (entries_ext h h1) by (apply Hh; by left).
    intros [->|(m & n & x & Hm & Hx & Hr)]; [by left|right]. exists m, n, x. split_and!; [done..|]. apply IH; [|done].
    intros k' Hk. apply Hh. eauto 10.
  - destruct v as [| | | | | | |xs]; try done. rewrite !reach_struct. intros (i & n & t & m & x & Hi & Hx & Hr).
    exists i, n, t, m, x. split_and!; [done..|]. pose proof (Forall_lookup_1 _ _ _ _ IH Hi) as IHt. apply IHt; [|done].
    intros k' Hk. apply Hh, reach_struct. eauto 10.
Qed.

Lemma Forall2_in_impl {A B} (R S : A → B → Prop) xs ys :
  (∀ x y, x ∈ xs → y ∈ ys → R x y → S x y) → Forall2 R xs ys → Forall2 S xs ys.
Proof.
  rewrite !Forall2_same_length_lookup. intros HRS [Hl HR]. split; [done|]. intros i x y Hx Hy.
  apply HRS; [by eapply list_elem_of_lookup_2..|eauto].
Qed.

(** Equality of content depends on the memory of the two objects only. *)
Lemma same_frame t h v h' v' h1 h1' :
  same t h v h' v' → (∀ k, reach t h v k → h1 !! k = h !! k) → (∀ k, reach t h' v' k → h1' !! k = h' !! k) → same t h1 v h1' v'.
Proof.
  revert v v'. induction t as [| | | |t IH|t IH|t IH|fs IH] using gtype_fields_ind; intros v v' Hs Hh Hh'; try done.
  - destruct v as [| | | |[l|]| | |], v' as [| | | |[l'|]| | |]; try done. cbn in *. destruct Hs as (x & y & Hx & Hy & Hs).
    exists x, y. rewrite (target_ext h h1), (target_ext h' h1') by (first [apply Hh|apply Hh']; by left). split_and!; [done..|].
    apply IH; [done|intros k Hk; apply Hh; eauto|intros k Hk; apply Hh'; eauto].
  - destruct v as [| | | | |[s|]| |], v' as [| | | | |[s'|]| |]; try done. cbn in *. destruct Hs as (xs & ys & Hx & Hy & Hs).
    exists xs, ys. rewrite (window_ext h h1), (window_ext h' h1') by (first [apply Hh|apply Hh']; by left). split_and!; [done..|].
    revert Hs. apply Forall2_in_impl. intros x y Hinx Hiny Hs.
    apply IH; [done|intros k Hk; apply Hh; eauto 10|intros k Hk; apply Hh'; eauto 10].
  - destruct v as [| | | | | |[l|]|], v' as [| | | | | |[l'|]|]; try done. cbn in *. destruct Hs as (m & m' & Hx & Hy & Hs).
    exists m, m'. rewrite (entries_ext h h1), (entries_ext h' h1') by (first [apply Hh|apply Hh']; by left). split_and!; [done..|].
    revert Hs. apply mapRel_impl. intros n x y Hinx Hiny Hs.
    apply IH; [done|intros k Hk; apply Hh; eauto 10|intros k Hk; apply Hh'; eauto 10].
  - apply same_struct in Hs as (xs & ys & -> & -> & Hl & Hl' & Hs). apply same_struct. exists xs, ys. split_and!; [done..|].
    intros i n t Hi. destruct (Hs i n t Hi) as (x & y & Hx & Hy & Hxy). exists x, y. split_and!; [done..|].
    pose proof (Forall_lookup_1 _ _ _ _ IH Hi) as IHt.
    apply IHt; [done|intros k Hk; apply Hh, reach_struct; eauto 10|intros k Hk; apply Hh', reach_struct; eauto 10].
Qed.

Lemma target_bound h l x : target h l = Some x → l < length h.
Proof. unfold target. destruct (h !! l) eqn:E; [|done]. intros _. by eapply lookup_lt_Some. Qed.
Lemma window_bound h s xs : window h s = Some xs → sh_arr s < length h.
Proof. unfold window. destruct (h !! sh_arr s) eqn:E; [|done]. intros _. by eapply lookup_lt_Some. Qed.
Lemma entries_bound h l x : entries h l = Some x → l < length h.
Proof. unfold entries. destruct (h !! l) eqn:E; [|done]. intros _. by eapply lookup_lt_Some. Qed.

(** Equal content is symmetric, and an object equal to another is an object of the type. *)
Lemma same_sym t h v h' v' : same t h v h' v' → same t h' v' h v.
Proof.
  revert v v'. induction t as [| | | |t IH|t IH|t IH|fs IH] using gtype_fields_ind; intros v v' Hs.
  1-4: destruct Hs as (x & -> & ->); by exists x.
  - destruct v as [| | | |[l|]| | |], v' as [| | | |[l'|]| | |]; try done. cbn in *. destruct Hs as (x & y & Hx & Hy & Hs). eauto 10.
  - destruct v as [| | | | |[s|]| |], v' as [| | | | |[s'|]| |]; try done. cbn in *. destruct Hs as (xs & ys & Hx & Hy & Hs).
    exists ys, xs. split_and!; [done..|]. apply Forall2_flip. revert Hs. apply Forall2_in_impl. intros x y _ _. apply IH.
  - destruct v as [| | | | | |[l|]|], v' as [| | | | | |[l'|]|]; try done. cbn in *. destruct Hs as (m & m' & Hx & Hy & Hs).
    exists m', m. split_and!; [done..|]. intros k. specialize (Hs k). destruct (m !! k), (m' !! k); eauto.
  - apply same_struct in Hs as (xs & ys & -> & -> & Hl & Hl' & Hs). apply same_struct. exists ys, xs. split_and!; [done..|].
    intros i n t Hi. destruct (Hs i n t Hi) as (x & y & Hx & Hy & Hxy). exists y, x. split_and!; [done..|].
    pose proof (Forall_lookup_1 _ _ _ _ IH Hi) as IHt. by apply IHt.
Qed.

(** An object lies in its heap. *)
Lemma reach_bound t h v h' v' k : same t h v h' v' → reach t h v k → k < length h.
Proof.
  revert v v'. induction t as [| | | |t IH|t IH|t IH|fs IH] using gtype_fields_ind; intros v v' Hs Hr; try done.
  - destruct v as [| | | |[l|]| | |], v' as [| | | |[l'|]| | |]; try done. cbn in *. destruct Hs as (x & y & Hx & Hy & Hs).
    destruct Hr as [->|(x' & Hx' & Hr)]; [by eapply target_bound|]. simplify_eq. eauto.
  - destruct v as [| | | | |[s|]| |], v' as [| | | | |[s'|]| |]; try done. cbn in *. destruct Hs as (xs & ys & Hx & Hy & Hs).
    destruct Hr as [->|(xs' & x & Hxs & Hin & Hr)]; [by eapply window_bound|]. simplify_eq.
    apply list_elem_of_lookup in Hin as [i Hi]. destruct (Forall2_lookup_l _ _ _ _ _ Hs Hi) as (y & _ & Hxy). eauto.
  - destruct v as [| | | | | |[l|]|], v' as [| | | | | |[l'|]|]; try done. cbn in *. destruct Hs as (m & m' & Hx & Hy & Hs).
    destruct Hr as [->|(m1 & n & x & Hm & Hn & Hr)]; [by eapply entries_bound|]. simplify_eq.
    specialize (Hs n). rewrite Hn in Hs. destruct (m' !! n); [eauto|done].
  - apply same_struct in Hs as (xs & ys & -> & -> & Hl & Hl' & Hs). apply reach_struct in Hr as (i & n & t & m & x & Hi & Hx & Hr).
    destruct (Hs i n t Hi) as (x' & y & Hx' & Hy & Hxy). simplify_eq.
    pose proof (Forall_lookup_1 _ _ _ _ IH Hi) as IHt. by eapply IHt.
Qed.

(** Growth of the heap keeps objects. *)
Lemma prefix_lookup_lt (h h1 : memory) k : h `prefix_of` h1 → k < length h → h1 !! k = h !! k.
Proof. intros [r ->] Hk. by apply lookup_app_l. Qed.
Lemma same_grow t h v h' v' h1 h1' : same t h v h' v' → h `prefix_of` h1 → h' `prefix_of` h1' → same t h1 v h1' v'.
Proof.
  intros Hs Hp Hp'. eapply same_frame; [done|..]; intros k Hk; apply prefix_lookup_lt; try done.
  - by eapply reach_bound.
  - eapply reach_bound; [by apply same_sym|done].
Qed.
Lemma reach_grow t h v h' v' h1 k : same t h v h' v' → h `prefix_of` h1 → reach t h1 v k → reach t h v k.
Proof. intros Hs Hp. apply reach_frame. intros k' Hk. apply prefix_lookup_lt; [done|]. by eapply reach_bound. Qed.

(** ** Types without references *)

Lemma flat_struct fs : flat (TStruct fs) = true ↔ Forall (λ f, flat f.2 = true) fs.
Proof. induction fs as [|f fs IH]; [done|]. cbn in *. rewrite andb_true_iff, Forall_cons, <- IH. done. Qed.

Lemma flat_reach t h v k : flat t = true → ¬ reach t h v k.
Proof.
  revert v. induction t as [| | | |t IH|t IH|t IH|fs IH] using gtype_fields_ind; intros v Hf; try done; [tauto..|].
  intros Hr. destruct v as [| | | | | | |xs]; try done. apply reach_struct in Hr as (i & n & t & m & x & Hi & _ & Hr).
  apply flat_struct in Hf. pose proof (Forall_lookup_1 _ _ _ _ IH Hi) as IHt. pose proof (Forall_lookup_1 _ _ _ _ Hf Hi). by eapply IHt.
Qed.

(** Their values mean the same in every heap. *)
Lemma flat_typed t h v h1 h2 : flat t = true → typed t h v → same t h1 v h2 v.
Proof. intros Hf Hv. eapply same_frame; [done|..]; intros k Hk; by apply flat_reach in Hk. Qed.

(** ** Checking a type *)

Fixpoint wellTyped (t : gtype) (h : memory) (v : gval) {struct t} : bool :=
  match t, v with
  | TStr, VStr _ | TInt, VInt _ | TBool, VBool _ | TTime, VTime _ => true
  | TPtr _, VPtr None | TSlice _, VSlice None | TMap _, VMap None => true
  | TPtr t, VPtr (Some l) => match target h l with Some x => wellTyped t h x | None => false end
  | TSlice t, VSlice (Some s) => match window h s with Some xs => forallb (wellTyped t h) xs | None => false end
  | TMap t, VMap (Some l) =>
      match entries h l with Some m => forallb (λ kx, wellTyped t h kx.2) (map_to_list m) | None => false end
  | TStruct fs, VStruct xs =>
      (fix go fs xs := match fs, xs with
         | [], [] => true
         | (n, t) :: fs, (m, x) :: xs => String.eqb m n && wellTyped t h x && go fs xs
         | _, _ => false
         end) fs xs
  | _, _ => false
  end.

Lemma wellTyped_typed t h v : wellTyped t h v = true → typed t h v.
Proof.
  unfold typed. revert v. induction t as [| | | |t IH|t IH|t IH|fs IH] using gtype_fields_ind; intros v Hv.
  1-4: destruct v; try done; by eexists.
  - destruct v as [| | | |[l|]| | |]; try done. cbn in *. destruct (target h l) as [x|]; [|done]. eauto 10.
  - destruct v as [| | | | |[s|]| |]; try done. cbn in *. destruct (window h s) as [xs|]; [|done].
    exists xs, xs. split_and!; [done..|]. apply Forall_Forall2_diag, Forall_forall. intros x Hx.
    apply IH. rewrite forallb_forall in Hv. by apply Hv, list_elem_of_In.
  - destruct v as [| | | | | |[l|]|]; try done. cbn in *. destruct (entries h l) as [m|]; [|done].
    exists m, m. split_and!; [done..|]. intros k. destruct (m !! k) as [x|] eqn:Hk; [|done].
    apply IH. rewrite forallb_forall in Hv. apply (Hv (k, x)), list_elem_of_In. by apply elem_of_map_to_list.
  - destruct v as [| | | | | | |xs]; try done. cbn in *. revert xs Hv.
    induction fs as [|[n t] fs IHfs]; intros [|[m x] xs] Hv; try done.
    apply andb_true_iff in Hv as [[Hm Hx]%andb_true_iff Hv]. apply String.eqb_eq in Hm as ->.
    apply Forall_cons in IH as [IHt IH]. split_and!; [done|done|by apply IHt|by apply IHfs].
Qed.

(** ** Equal content is transitive *)

Lemma mapRel_trans {A B C} (R : A → B → Prop) (S : B → C → Prop) (T : A → C → Prop) m1 m2 m3 :
  (∀ x y z, R x y → S y z → T x z) → mapRel R m1 m2 → mapRel S m2 m3 → mapRel T m1 m3.
Proof.
  intros HT H1 H2 k. specialize (H1 k). specialize (H2 k). destruct (m1 !! k), (m2 !! k), (m3 !! k); try done. eauto.
Qed.

Lemma Forall2_compose {A B C} (R : A → B → Prop) (S : B → C → Prop) (T : A → C → Prop) l1 l2 l3 :
  (∀ x y z, R x y → S y z → T x z) → Forall2 R l1 l2 → Forall2 S l2 l3 → Forall2 T l1 l3.
Proof. intros HT H1. revert l3. induction H1; intros l3 H2; inversion H2; subst; eauto. Qed.

Lemma same_trans t h1 v1 h2 v2 h3 v3 : same t h1 v1 h2 v2 → same t h2 v2 h3 v3 → same t h1 v1 h3 v3.
Proof.
  revert v1 v2 v3. induction t as [| | | |t IH|t IH|t IH|fs IH] using gtype_fields_ind; intros v1 v2 v3 H12 H23.
  1-4: destruct H12 as (x & -> & ->), H23 as (y & Hy & ->); simplify_eq; by eexists.
  - destruct v1 as [| | | |[]| | |], v2 as [| | | |[]| | |], v3 as [| | | |[]| | |]; try done. cbn in *.
    destruct H12 as (x & y & Hx & Hy & H12), H23 as (y' & z & Hy' & Hz & H23). simplify_eq. eauto 10.
  - destruct v1 as [| | | | |[]| |], v2 as [| | | | |[]| |], v3 as [| | | | |[]| |]; try done. cbn in *.
    destruct H12 as (x & y & Hx & Hy & H12), H23 as (y' & z & Hy' & Hz & H23). simplify_eq. exists x, z. split_and!; [done..|].
    eapply Forall2_compose; [|exact H12|exact H23]. intros ???. apply IH.
  - destruct v1 as [| | | | | |[]|], v2 as [| | | | | |[]|], v3 as [| | | | | |[]|]; try done. cbn in *.
    destruct H12 as (x & y & Hx & Hy & H12), H23 as (y' & z & Hy' & Hz & H23). simplify_eq. exists x, z. split_and!; [done..|].
    eapply mapRel_trans; [|exact H12|exact H23]. intros ???. apply IH.
  - apply same_struct in H12 as (xs & ys & -> & -> & Hl & Hl' & H12), H23 as (ys' & zs & [= <-] & -> & _ & Hl3 & H23).
    apply same_struct. exists xs, zs. split_and!; [done..|]. intros i n t Hi.
    destruct (H12 i n t Hi) as (x & y & Hx & Hy & Hxy), (H23 i n t Hi) as (y' & z & Hy' & Hz & Hyz). simplify_eq.
    exists x, z. split_and!; [done..|]. pose proof (Forall_lookup_1 _ _ _ _ IH Hi) as IHt. by eapply IHt.
Qed.

(** ** Zero values *)

Lemma zero_same t h h' : same t h (zero t) h' (zero t).
Proof.
  induction t as [| | | |t IH|t IH|t IH|fs IH] using gtype_fields_ind; cbn; try done; [by eexists..|].
  induction fs as [|[n t] fs IHfs]; [done|]. apply Forall_cons in IH as [IHt IH]. split_and!; [done..|exact IHt|by apply IHfs].
Qed.

Lemma zero_reach t h k : ¬ reach t h (zero t) k.
Proof.
  induction t as [| | | |t IH|t IH|t IH|fs IH] using gtype_fields_ind; cbn; try tauto.
  induction fs as [|[n t] fs IHfs]; [tauto|]. apply Forall_cons in IH as [IHt IH]. intros [Hr|Hr]; [by apply IHt|by apply IHfs].
Qed.
