(* ===== verification/GoCopy.v ===== *)
(** * Copying objects in Go memory

    The statements that generated copying code is made of, over the memory of GoMemory.v, and what each of them
    guarantees ([copies]).  A function that writes through its parameter [out] is here the function that returns
    what it leaves in [*out].  Reading what is not there, the nil dereference or an index out of range, is a fault. *)

From S2P Require Import Prelude.
From S2P Require Import GoMemory.

(** ** Effects *)

(** [None] is a panic. *)
Definition Mem (A : Type) : Type := memory → option (A * memory).
#[export] Instance Mem_ret : MRet Mem := λ A x h, Some (x, h).
#[export] Instance Mem_bind : MBind Mem := λ A B k m h, match m h with Some (x, h') => k x h' | None => None end.

Definition fault {A} : Mem A := λ _, None.
Definition reads {A} (o : memory → option A) : Mem A := λ h, (λ x, (x, h)) <$> o h.
Definition alloc (c : cell) : Mem nat := λ h, Some (length h, h ++ [c]).
Definition write (l : nat) (c : cell) : Mem unit := λ h, if decide (l < length h) then Some (tt, <[l := c]> h) else None.

(** [new(T)] and [*p = v]. *)
Definition new (t : gtype) : Mem nat := alloc (CVal (zero t)).
Definition store (l : nat) (v : gval) : Mem unit := write l (CVal v).

(** The elements of an array, [a[i]] and [a[i] = v]. *)
Definition array (h : memory) (a : nat) : option (list gval) := match h !! a with Some (CArr l) => Some l | _ => None end.
Definition loadElem (s : header) (i : nat) : Mem gval := reads (λ h, xs ← window h s; xs !! i).
Definition storeElem (a i : nat) (v : gval) : Mem unit :=
  ys ← reads (λ h, array h a); if decide (i < length ys) then write a (CArr (<[i := v]> ys)) else fault.

(** [m[k] = v]. *)
Definition storeKey (l : nat) (k : string) (v : gval) : Mem unit := m ← reads (λ h, entries h l); write l (CMap (<[k := v]> m)).

(** [x.F] and [x.F = v] on a struct. *)
Fixpoint fieldOf (n : string) (xs : list (string * gval)) : option gval :=
  match xs with [] => None | (m, x) :: xs => if decide (m = n) then Some x else fieldOf n xs end.
Fixpoint setField (n : string) (v : gval) (xs : list (string * gval)) : list (string * gval) :=
  match xs with [] => [] | (m, x) :: xs => if decide (m = n) then (m, v) :: xs else (m, x) :: setField n v xs end.

(** ** Copying statements *)

Abbreviation Copier := (gval → Mem gval).

(** [out.F = in.F] and [**out = **in]. *)
Definition assign : Copier := λ v, mret v.

(** [*out = new(T)], then [DeepCopyInto] from [*in] to what [out] now points to. *)
Definition newCopy (t : gtype) (f : Copier) (l : nat) : Mem nat :=
  out ← new t;
  x ← reads (λ h, target h l);
  y ← f x;
  _ ← store out y;
  mret out.

(** [if in.F != nil { in, out := &in.F, &out.F; *out = new(T); ... }]. *)
Definition copyPtr (t : gtype) (f : Copier) : Copier := λ v,
  match v with
  | VPtr None => mret v
  | VPtr (Some l) => l' ← newCopy t f l; mret (VPtr (Some l'))
  | _ => fault
  end.

(** [if in.F != nil { in, out := &in.F, &out.F; *out = in.DeepCopy() }], the method of the target's type given. *)
Definition copyPtrBy (method : option nat → Mem (option nat)) : Copier := λ v,
  match v with
  | VPtr None => mret v
  | VPtr (Some l) => l' ← method (Some l); mret (VPtr l')
  | _ => fault
  end.

(** [for i := range *in], with the elements of [*in] and [*out] at [i]: [in[i].DeepCopyInto(&out[i])]. *)
Fixpoint copyElems (f : Copier) (s : header) (a : nat) (ixs : list nat) : Mem unit :=
  match ixs with
  | [] => mret tt
  | i :: ixs => x ← loadElem s i; y ← f x; _ ← storeElem a i y; copyElems f s a ixs
  end.

(** [if in.F != nil { ...; *out = make([]T, len of *in); for i := range *in ... }]. *)
Definition copySlice (t : gtype) (f : Copier) : Copier := λ v,
  match v with
  | VSlice None => mret v
  | VSlice (Some s) =>
      a ← alloc (CArr (replicate (sh_len s) (zero t)));
      _ ← copyElems f s a (seq 0 (sh_len s));
      mret (VSlice (Some (mkHeader a 0 (sh_len s) (sh_len s))))
  | _ => fault
  end.

(** [if in.F != nil { ...; *out = make([]T, len of *in); copy of *in into *out }]. *)
Definition copySliceFlat (t : gtype) : Copier := λ v,
  match v with
  | VSlice None => mret v
  | VSlice (Some s) =>
      a ← alloc (CArr (replicate (sh_len s) (zero t)));
      xs ← reads (λ h, window h s);
      ys ← reads (λ h, array h a);
      _ ← write a (CArr (take (length ys) xs ++ drop (length xs) ys));
      mret (VSlice (Some (mkHeader a 0 (sh_len s) (sh_len s))))
  | _ => fault
  end.

(** [for key, val := range *in { out[key] = val }]. *)
Fixpoint copyEntries (l : nat) (kvs : list (string * gval)) : Mem unit :=
  match kvs with
  | [] => mret tt
  | (k, x) :: kvs => _ ← storeKey l k x; copyEntries l kvs
  end.

(** The order in which [range] delivers the entries of a map: some order. *)
Class MapRange := {
  rangeOrder : memory → gmap string gval → list (string * gval);
  rangeOrder_entries : ∀ h m, rangeOrder h m ≡ₚ map_to_list m
}.

(** [if in.F != nil { ...; *out = make(map[string]T, len of *in); for key, val := range *in ... }]. *)
Definition copyMap `{MapRange} : Copier := λ v,
  match v with
  | VMap None => mret v
  | VMap (Some l) =>
      l' ← alloc (CMap ∅);
      kvs ← reads (λ h, rangeOrder h <$> entries h l);
      _ ← copyEntries l' kvs;
      mret (VMap (Some l'))
  | _ => fault
  end.

(** The statements of a [DeepCopyInto] after its first one, each for a field. *)
Fixpoint copyFields (inn : list (string * gval)) (prog : list (string * Copier)) (out : list (string * gval)) : Mem (list (string * gval)) :=
  match prog with
  | [] => mret out
  | (n, f) :: prog =>
      x ← reads (λ _, fieldOf n inn);
      y ← f x;
      copyFields inn prog (setField n y out)
  end.

(** [*out = *in], then the statements. *)
Definition copyStruct (prog : list (string * Copier)) : Copier := λ v,
  match v with
  | VStruct inn => out ← copyFields inn prog inn; mret (VStruct out)
  | _ => fault
  end.

(** [if in == nil { return nil }; out := new(T); in.DeepCopyInto(out); return out]. *)
Definition DeepCopy (t : gtype) (f : Copier) (inn : option nat) : Mem (option nat) :=
  match inn with
  | None => mret None
  | Some l => out ← newCopy t f l; mret (Some out)
  end.

(** A value of an interface type: nil, or a pointer with its type. *)
Inductive iface := INil | IPtr (type : string) (p : option nat).

(** [if c := in.DeepCopy(); c != nil { return c }; return nil]. *)
Definition DeepCopyObject (name : string) (t : gtype) (f : Copier) (inn : option nat) : Mem iface :=
  c ← DeepCopy t f inn;
  mret (match c with Some _ => IPtr name c | None => INil end).

(** ** What copying means *)

(** The copy has equal content, and consists of memory that is new. *)
Definition copyOf (t : gtype) (h : memory) (v : gval) (h1 : memory) (h' : memory) (v' : gval) : Prop :=
  h1 `prefix_of` h' ∧ same t h v h' v' ∧ ∀ k, reach t h' v' k → length h1 ≤ k.

(** The code copies every object of the type, without a fault. *)
Definition copies (t : gtype) (f : Copier) : Prop :=
  ∀ h v, typed t h v → ∃ v' h', f v h = Some (v', h') ∧ copyOf t h v h h' v'.

(** *** Heaps that grow *)

Lemma prefix_write (h h' : memory) l c : h `prefix_of` h' → length h ≤ l → h `prefix_of` <[l := c]> h'.
Proof. intros [r ->] Hl. rewrite insert_app_r_alt by done. by eexists. Qed.

Lemma prefix_of_length (h h' : memory) : h `prefix_of` h' → length h ≤ length h'.
Proof. apply prefix_length. Qed.

(** Code may run in a heap that has grown since. *)
Lemma copies_at t f h v h1 : copies t f → typed t h v → h `prefix_of` h1 → ∃ v' h', f v h1 = Some (v', h') ∧ copyOf t h v h1 h' v'.
Proof.
  intros Hf Hv Hp. destruct (Hf h1 v) as (v' & h' & E & Hp' & Hs & Hr); [by eapply same_grow|].
  exists v', h'. split_and!; [done|]. split_and!; [done| |done]. eapply same_frame; [done| |done].
  intros k Hk. symmetry. apply prefix_lookup_lt; [done|]. eapply reach_bound; [done|]. by eapply reach_grow.
Qed.

(** An object above a cell does not notice a write to the cell. *)
Lemma write_below t h v h' v' l c b :
  same t h v h' v' → (∀ k, reach t h' v' k → b ≤ k) → l < b →
  same t h v (<[l := c]> h') v' ∧ ∀ k, reach t (<[l := c]> h') v' k → b ≤ k.
Proof.
  intros Hs Hr Hl.
  assert (Hh : ∀ k, reach t h' v' k → <[l := c]> h' !! k = h' !! k).
  { intros k Hk. apply list_lookup_insert_ne. specialize (Hr k Hk). lia. }
  split; [by eapply same_frame|]. intros k Hk. apply Hr. by eapply reach_frame.
Qed.

Lemma above_grow t h v h' v' h1 b :
  same t h v h' v' → h' `prefix_of` h1 → (∀ k, reach t h' v' k → b ≤ k) → same t h v h1 v' ∧ ∀ k, reach t h1 v' k → b ≤ k.
Proof.
  intros Hs Hp Hr. split; [by eapply same_grow|]. intros k Hk. apply Hr. eapply reach_grow; [|done..]. by apply same_sym.
Qed.

Lemma alloc_prefix (h : memory) c : h `prefix_of` h ++ [c].
Proof. by eexists. Qed.

Lemma prefix_lookup (h h' : memory) k c : h `prefix_of` h' → h !! k = Some c → h' !! k = Some c.
Proof. intros [r ->]. apply lookup_app_l_Some. Qed.

Lemma alloc_kept (h h' : memory) c : h ++ [c] `prefix_of` h' → h' !! length h = Some c.
Proof. intros Hp. eapply prefix_lookup; [done|]. by rewrite lookup_app_r, Nat.sub_diag. Qed.

Lemma target_grow h h' l x : h `prefix_of` h' → target h l = Some x → target h' l = Some x.
Proof. intros Hp Hx. rewrite <- Hx. apply target_ext, prefix_lookup_lt; [done|]. by eapply target_bound. Qed.
Lemma window_grow h h' s xs : h `prefix_of` h' → window h s = Some xs → window h' s = Some xs.
Proof. intros Hp Hx. rewrite <- Hx. apply window_ext, prefix_lookup_lt; [done|]. by eapply window_bound. Qed.
Lemma entries_grow h h' l m : h `prefix_of` h' → entries h l = Some m → entries h' l = Some m.
Proof. intros Hp Hx. rewrite <- Hx. apply entries_ext, prefix_lookup_lt; [done|]. by eapply entries_bound. Qed.

(** *** Running the effects *)

Lemma mret_run {A} (x : A) h : (mret x : Mem A) h = Some (x, h).
Proof. done. Qed.
Lemma mbind_run {A B} (m : Mem A) (k : A → Mem B) h x h' : m h = Some (x, h') → (m ≫= k) h = k x h'.
Proof. unfold mbind, Mem_bind. by intros ->. Qed.
Lemma reads_run {A} (o : memory → option A) h x : o h = Some x → reads o h = Some (x, h).
Proof. unfold reads. by intros ->. Qed.
Lemma write_run l c h : l < length h → write l c h = Some (tt, <[l := c]> h).
Proof. intros Hl. unfold write. by rewrite decide_True. Qed.

(** ** The statements copy *)

Lemma assign_copies t : flat t = true → copies t assign.
Proof.
  intros Hf h v Hv. exists v, h. split; [done|]. split_and!; [done|by eapply flat_typed|].
  intros k Hk. by apply flat_reach in Hk.
Qed.

(** What [new], a copy and [store] leave behind the new pointer. *)
Lemma newCopy_spec t f h l x :
  copies t f → typed t h x → target h l = Some x →
  ∃ y h', newCopy t f l h = Some (length h, h') ∧
    h `prefix_of` h' ∧ target h' (length h) = Some y ∧ same t h x h' y ∧ ∀ k, reach t h' y k → length h < k.
Proof.
  intros Hf Hv Hx. set (h1 := h ++ [CVal (zero t)]).
  assert (Hp1 : h `prefix_of` h1) by apply alloc_prefix.
  assert (Hl1 : length h1 = S (length h)) by (unfold h1; rewrite length_app; cbn; lia).
  destruct (copies_at t f h x h1 Hf Hv Hp1) as (y & h2 & E & Hp2 & Hs & Hr).
  assert (Hl2 : length h < length h2) by (apply prefix_of_length in Hp2; lia).
  destruct (write_below t h x h2 y (length h) (CVal y) (length h1) Hs Hr) as [Hs' Hr']; [lia|].
  exists y, (<[length h := CVal y]> h2). split_and!; [|by apply prefix_write; [etrans|]| |done|].
  - unfold newCopy. erewrite mbind_run by done. erewrite mbind_run by (apply reads_run, (target_grow h); done).
    erewrite mbind_run by done. erewrite mbind_run by (by apply write_run). done.
  - unfold target. by rewrite list_lookup_insert_eq.
  - intros k Hk. specialize (Hr' k Hk). lia.
Qed.

Lemma copyPtr_copies t f : copies t f → copies (TPtr t) (copyPtr t f).
Proof.
  intros Hf h v Hv. destruct v as [| | | |[l|]| | |]; try done; [|by exists (VPtr None), h].
  destruct Hv as (x & z & Hx & Hz & Hv). simplify_eq.
  destruct (newCopy_spec t f h l x Hf Hv Hx) as (y & h' & E & Hp & Hy & Hs & Hr).
  exists (VPtr (Some (length h))), h'. split; [cbn; by erewrite mbind_run|]. split_and!; [done|cbn; eauto|].
  cbn. intros k [->|(z & Hz & Hk)]; [done|]. simplify_eq. specialize (Hr k Hk). lia.
Qed.

(** A method that returns a copy of what its receiver points to. *)
Definition methodCopies (t : gtype) (method : option nat → Mem (option nat)) : Prop :=
  ∀ h l, typed (TPtr t) h (VPtr (Some l)) →
    ∃ l' h', method (Some l) h = Some (Some l', h') ∧ copyOf (TPtr t) h (VPtr (Some l)) h h' (VPtr (Some l')).

Lemma copyPtrBy_copies t method : methodCopies t method → copies (TPtr t) (copyPtrBy method).
Proof.
  intros Hm h v Hv. destruct v as [| | | |[l|]| | |]; try done; [|by exists (VPtr None), h].
  destruct (Hm h l Hv) as (l' & h' & E & Hc). exists (VPtr (Some l')), h'. split; [cbn; by erewrite mbind_run|done].
Qed.

(** Elements copied so far. *)
Definition copied (t : gtype) (h : memory) (b : nat) (h' : memory) (x y : gval) : Prop := same t h x h' y ∧ ∀ k, reach t h' y k → b ≤ k.

Lemma copied_write t h b h' l c x y : copied t h b h' x y → l < b → copied t h b (<[l := c]> h') x y.
Proof. intros [Hs Hr] Hl. by apply write_below. Qed.

Lemma copied_grow t h b h' h1 x y : copied t h b h' x y → h' `prefix_of` h1 → copied t h b h1 x y.
Proof. intros [Hs Hr] Hp. by eapply above_grow. Qed.

Lemma array_run h a ys : h !! a = Some (CArr ys) → reads (λ h, array h a) h = Some (ys, h).
Proof. intros Ha. apply reads_run. unfold array. by rewrite Ha. Qed.

Lemma storeElem_run h a i v ys : h !! a = Some (CArr ys) → i < length ys → storeElem a i v h = Some (tt, <[a := CArr (<[i := v]> ys)]> h).
Proof.
  intros Ha Hi. unfold storeElem. erewrite mbind_run by (apply array_run, Ha).
  rewrite decide_True by done. apply write_run. by eapply lookup_lt_Some.
Qed.

Lemma loadElem_run h s xs i x : window h s = Some xs → xs !! i = Some x → loadElem s i h = Some (x, h).
Proof. intros Hw Hi. apply reads_run. by rewrite Hw. Qed.

(** The loop over the elements, from some index on. *)
Lemma copyElems_spec t f h s xs n : ∀ i h1 ys,
  copies t f → window h s = Some xs → Forall (typed t h) xs → length xs = i + n → length ys = i + n →
  h `prefix_of` h1 → h1 !! length h = Some (CArr ys) → Forall2 (copied t h (S (length h)) h1) (take i xs) (take i ys) →
  ∃ h' ys', copyElems f s (length h) (seq i n) h1 = Some (tt, h') ∧ h `prefix_of` h' ∧
    h' !! length h = Some (CArr ys') ∧ Forall2 (copied t h (S (length h)) h') xs ys'.
Proof.
  induction n as [|n IH]; intros i h1 ys Hf Hw Hxs Hlx Hly Hp Ha Hdone.
  { exists h1, ys. split_and!; [done..|]. rewrite !take_ge in Hdone by lia. done. }
  destruct (lookup_lt_is_Some_2 xs i) as [x Hx]; [lia|].
  pose proof (Forall_lookup_1 _ _ _ _ Hxs Hx) as Htx.
  destruct (copies_at t f h x h1 Hf Htx Hp) as (y & h2 & E & Hp2 & Hs & Hr).
  assert (Hlt : length h < length h1) by (by eapply lookup_lt_Some).
  pose proof (prefix_lookup _ _ _ _ Hp2 Ha) as Ha2.
  assert (Hcy : copied t h (S (length h)) h2 x y) by (split; [done|]; intros k Hk; specialize (Hr k Hk); lia).
  edestruct (IH (S i) (<[length h := CArr (<[i := y]> ys)]> h2) (<[i := y]> ys)) as (h' & ys' & E' & Hrest);
    [done|done|done|lia|rewrite length_insert; lia|..].
  - apply prefix_write; [by etrans|done].
  - apply list_lookup_insert_eq. apply prefix_of_length in Hp2. lia.
  - rewrite (take_S_r _ _ _ Hx), (take_S_r (<[i := y]> ys) i y) by (apply list_lookup_insert_eq; lia).
    rewrite take_insert_ge by done. apply Forall2_app; [|constructor; [apply copied_write; [done|lia]|done]].
    revert Hdone. apply Forall2_in_impl. intros x' y' _ _ Hc. apply copied_write; [by eapply copied_grow|lia].
  - exists h', ys'. split; [|done]. cbn [seq copyElems].
    erewrite mbind_run by (eapply loadElem_run; [by eapply window_grow|done]).
    erewrite mbind_run by done. erewrite mbind_run by (apply storeElem_run; [done|lia]). done.
Qed.

Lemma window_length h s xs : window h s = Some xs → length xs = sh_len s.
Proof.
  unfold window. destruct (h !! sh_arr s) as [[]|]; try done. case_decide; [|done]. intros [= <-].
  rewrite length_take, length_drop. lia.
Qed.

Lemma window_whole h a ys n : h !! a = Some (CArr ys) → length ys = n → window h (mkHeader a 0 n n) = Some ys.
Proof. intros Ha <-. unfold window. cbn. rewrite Ha. by rewrite decide_True, drop_0, take_ge. Qed.

Lemma typed_elems t h s xs : typed (TSlice t) h (VSlice (Some s)) → window h s = Some xs → Forall (typed t h) xs.
Proof.
  intros (xs' & ys & Hx & Hy & Hs) Hw. simplify_eq. apply Forall_forall. intros x Hin.
  apply list_elem_of_lookup in Hin as [i Hi]. exact (Forall2_lookup_lr _ _ _ _ _ _ Hs Hi Hi).
Qed.

(** A new array of copied elements is a copy of the slice. *)
Lemma slice_copied t h h' s xs ys :
  window h s = Some xs → h `prefix_of` h' → h' !! length h = Some (CArr ys) → Forall2 (copied t h (S (length h)) h') xs ys →
  copyOf (TSlice t) h (VSlice (Some s)) h h' (VSlice (Some (mkHeader (length h) 0 (sh_len s) (sh_len s)))).
Proof.
  intros Hw Hp Ha Hc. pose proof (Forall2_length _ _ _ Hc) as Hl. pose proof (window_length _ _ _ Hw) as Hlw.
  assert (Hw' := window_whole _ _ _ (sh_len s) Ha ltac:(congruence)).
  split_and!; [done|..].
  - cbn. exists xs, ys. split_and!; [done..|]. eapply Forall2_impl; [exact Hc|]. by intros x y [? ?].
  - cbn. intros k [->|(ys' & y & Hy & Hin & Hk)]; [done|]. simplify_eq.
    apply list_elem_of_lookup in Hin as [i Hi]. destruct (Forall2_lookup_r _ _ _ _ _ Hc Hi) as (x & _ & _ & Hr).
    specialize (Hr k Hk). lia.
Qed.

Lemma copySlice_copies t f : copies t f → copies (TSlice t) (copySlice t f).
Proof.
  intros Hf h v Hv. destruct v as [| | | | |[s|]| |]; try done; [|by exists (VSlice None), h].
  destruct (window h s) as [xs|] eqn:Hw; [|by destruct Hv as (? & ? & ? & _); congruence].
  pose proof (window_length _ _ _ Hw) as Hl.
  edestruct (copyElems_spec t f h s xs (sh_len s) 0 (h ++ [CArr (replicate (sh_len s) (zero t))])) as (h' & ys & E & Hp & Ha & Hc);
    [done|done|by eapply typed_elems|done|apply length_replicate|apply alloc_prefix|by apply alloc_kept|by rewrite !take_0|].
  eexists _, h'. split; [|by eapply slice_copied].
  cbn. erewrite mbind_run by done. by erewrite mbind_run.
Qed.

Lemma copySliceFlat_copies t : flat t = true → copies (TSlice t) (copySliceFlat t).
Proof.
  intros Hf h v Hv. destruct v as [| | | | |[s|]| |]; try done; [|by exists (VSlice None), h].
  destruct (window h s) as [xs|] eqn:Hw; [|by destruct Hv as (? & ? & ? & _); congruence].
  pose proof (window_length _ _ _ Hw) as Hl.
  set (h1 := h ++ [CArr (replicate (sh_len s) (zero t))]).
  assert (Ha : h1 !! length h = Some (CArr (replicate (sh_len s) (zero t)))) by (by apply alloc_kept).
  exists (VSlice (Some (mkHeader (length h) 0 (sh_len s) (sh_len s)))), (<[length h := CArr xs]> h1). split.
  - cbn. erewrite mbind_run by done. erewrite mbind_run by (apply reads_run, (window_grow h); [apply alloc_prefix|done]).
    erewrite mbind_run by (apply array_run, Ha).
    rewrite take_ge, drop_ge, app_nil_r by (rewrite ?length_replicate; lia).
    erewrite mbind_run by (apply write_run; by eapply lookup_lt_Some). done.
  - eapply slice_copied; [done|by apply prefix_write; [apply alloc_prefix|]|apply list_lookup_insert_eq; by eapply lookup_lt_Some|].
    pose proof (typed_elems _ _ _ _ Hv Hw) as Ht. apply Forall_Forall2_diag. eapply Forall_impl; [exact Ht|]. intros x Hx.
    split; [by eapply flat_typed|]. intros k Hk. by apply flat_reach in Hk.
Qed.

(** *** Maps *)

Lemma copyEntries_run l kvs : ∀ h m, h !! l = Some (CMap m) →
  copyEntries l kvs h = Some (tt, <[l := CMap (foldl (λ m kv, <[kv.1 := kv.2]> m) m kvs)]> h).
Proof.
  induction kvs as [|[k x] kvs IH]; intros h m Hl; cbn.
  { by rewrite list_insert_id. }
  assert (l < length h) by (by eapply lookup_lt_Some).
  erewrite mbind_run.
  2: { unfold storeKey. erewrite mbind_run by (apply reads_run; unfold entries; by rewrite Hl). by apply write_run. }
  rewrite (IH _ (<[k := x]> m)) by (by apply list_lookup_insert_eq). by rewrite list_insert_insert_eq.
Qed.

(** Inserting the entries of a map in any order builds the map. *)
Lemma insert_entries (m : gmap string gval) kvs : kvs ≡ₚ map_to_list m → foldl (λ m kv, <[kv.1 := kv.2]> m) ∅ kvs = m.
Proof.
  intros Hk. trans (list_to_map (reverse kvs) : gmap string gval).
  { clear Hk. induction kvs as [|[k x] kvs IH] using rev_ind; [done|]. by rewrite foldl_snoc, reverse_snoc, IH. }
  rewrite <- (list_to_map_to_list m). apply list_to_map_proper; [|by rewrite reverse_Permutation].
  rewrite reverse_Permutation, Hk. apply NoDup_fst_map_to_list.
Qed.

Lemma copyMap_copies `{MapRange} t : flat t = true → copies (TMap t) copyMap.
Proof.
  intros Hf h v Hv. destruct v as [| | | | | |[l|]|]; try done; [|by exists (VMap None), h].
  destruct Hv as (m & m' & Hm & Hm' & Hv). simplify_eq. set (h1 := h ++ [CMap ∅]).
  assert (Ha : h1 !! length h = Some (CMap ∅)) by (by apply alloc_kept).
  exists (VMap (Some (length h))), (<[length h := CMap m]> h1). split.
  - cbn. erewrite mbind_run by done.
    erewrite mbind_run by (apply reads_run; by rewrite (entries_grow h _ l m (alloc_prefix _ _) Hm)).
    erewrite mbind_run by (by apply copyEntries_run). by rewrite (insert_entries m) by apply rangeOrder_entries.
  - assert (E : entries (<[length h := CMap m]> h1) (length h) = Some m).
    { unfold entries. rewrite list_lookup_insert_eq; [done|]. by eapply lookup_lt_Some. }
    split_and!; [by apply prefix_write; [apply alloc_prefix|]|..]; cbn.
    + exists m, m. split_and!; [done..|]. revert Hv. apply mapRel_impl. intros k x y Hx Hy Hxy. simplify_eq.
      by eapply flat_typed.
    + intros k [->|(? & n & x & _ & _ & Hk)]; [done|]. by apply flat_reach in Hk.
Qed.

(** *** Structs *)

Fixpoint typeOf (n : string) (fs : list (string * gtype)) : option gtype :=
  match fs with [] => None | (m, t) :: fs => if String.eqb m n then Some t else typeOf n fs end.

(** Field names are distinct, and a field that no statement mentions holds no references. *)
Definition coversFields (fs : list (string * gtype)) (names : list string) : bool :=
  bool_decide (NoDup fs.*1) && forallb (λ f, bool_decide (f.1 ∈ names) || flat f.2) fs.

(** Every statement copies its field. *)
Fixpoint copyStmts (fs : list (string * gtype)) (prog : list (string * Copier)) : Prop :=
  match prog with
  | [] => True
  | (n, f) :: prog => match typeOf n fs with Some t => copies t f ∧ copyStmts fs prog | None => False end
  end.

Lemma typeOf_lookup n fs t : typeOf n fs = Some t → ∃ i, fs !! i = Some (n, t).
Proof.
  induction fs as [|[m u] fs IH]; [done|]. cbn. destruct (String.eqb_spec m n) as [->|]; [intros [= ->]; by exists 0|].
  intros Ht. destruct (IH Ht) as [i Hi]. by exists (S i).
Qed.
Lemma fst_lookup {A} (xs : list (string * A)) i n x : xs !! i = Some (n, x) → xs.*1 !! i = Some n.
Proof. intros Hi. by rewrite list_lookup_fmap, Hi. Qed.

Lemma fieldOf_lookup n xs i x : NoDup xs.*1 → xs !! i = Some (n, x) → fieldOf n xs = Some x.
Proof.
  revert i. induction xs as [|[m z] xs IH]; intros i Hnd Hi; [done|]. cbn in *. apply NoDup_cons in Hnd as [Hm Hnd].
  destruct i as [|i]; [injection Hi as -> ->; by rewrite decide_True|]. cbn in Hi. rewrite decide_False; [by eapply IH|].
  intros ->. apply Hm. eapply list_elem_of_lookup_2. by eapply fst_lookup.
Qed.
Lemma setField_insert n v xs i x : NoDup xs.*1 → xs !! i = Some (n, x) → setField n v xs = <[i := (n, v)]> xs.
Proof.
  revert i. induction xs as [|[m z] xs IH]; intros i Hnd Hi; [done|]. cbn in *. apply NoDup_cons in Hnd as [Hm Hnd].
  destruct i as [|i]; [injection Hi as -> ->; by rewrite decide_True|]. cbn in *. rewrite decide_False; [f_equal; by apply IH|].
  intros ->. apply Hm. eapply list_elem_of_lookup_2. by eapply fst_lookup.
Qed.

(** Field [i] of the two structs, the second a copy unless a statement will still write it. *)
Definition fieldDone (fs : list (string * gtype)) (h h' : memory) (xs ys : list (string * gval)) (pending : list string) : Prop :=
  ∀ i n t, fs !! i = Some (n, t) → ∃ x y, xs !! i = Some (n, x) ∧ ys !! i = Some (n, y) ∧ typed t h x ∧
    (n ∉ pending → copied t h (length h) h' x y).

Lemma names_of (fs : list (string * gtype)) (xs : list (string * gval)) :
  length xs = length fs → (∀ i n t, fs !! i = Some (n, t) → ∃ x, xs !! i = Some (n, x)) → xs.*1 = fs.*1.
Proof.
  intros Hl Hf. apply list_eq_same_length with (length fs); rewrite ?length_fmap; try done.
  intros i n n' Hi Hn Hn'. apply list_lookup_fmap_Some in Hn' as ([m t] & -> & Hm).
  destruct (Hf i m t Hm) as (x & Hx). apply fst_lookup in Hx. by simplify_eq/=.
Qed.

Lemma copyFields_spec fs h xs prog : ∀ h1 ys,
  NoDup fs.*1 → copyStmts fs prog → h `prefix_of` h1 → length xs = length fs → length ys = length fs →
  fieldDone fs h h1 xs ys prog.*1 →
  ∃ ys' h', copyFields xs prog ys h1 = Some (ys', h') ∧ h `prefix_of` h' ∧ length ys' = length fs ∧ fieldDone fs h h' xs ys' [].
Proof.
  induction prog as [|[n f] prog IH]; intros h1 ys Hnd Hok Hp Hlx Hly Hd; [by exists ys, h1|].
  cbn in Hok. destruct (typeOf n fs) as [t|] eqn:Ht; [|done]. destruct Hok as [Hf Hok].
  apply typeOf_lookup in Ht as [i Hi]. destruct (Hd i n t Hi) as (x & y0 & Hx & Hy0 & Htx & _).
  assert (Hnx : xs.*1 = fs.*1) by (apply names_of; [done|]; intros ??? Hj; destruct (Hd _ _ _ Hj) as (? & ? & ? & _); eauto).
  assert (Hny : ys.*1 = fs.*1) by (apply names_of; [done|]; intros ??? Hj; destruct (Hd _ _ _ Hj) as (? & ? & _ & ? & _); eauto).
  destruct (copies_at t f h x h1 Hf Htx Hp) as (y & h2 & E & Hp2 & Hs & Hr).
  destruct (IH h2 (setField n y ys)) as (ys' & h' & E' & Hrest); [done|done|by etrans|done|..].
  - rewrite (setField_insert _ _ _ i y0) by (by rewrite ?Hny). by rewrite length_insert.
  - rewrite (setField_insert _ _ _ i y0) by (by rewrite ?Hny). intros j m u Hj.
    destruct (Hd j m u Hj) as (z & w & Hz & Hw & Htz & Hc). destruct (decide (i = j)) as [<-|Hij].
    + simplify_eq. exists x, y. rewrite list_lookup_insert_eq by (by eapply lookup_lt_Some). split_and!; [done..|].
      intros _. split; [done|]. intros k Hk. specialize (Hr k Hk). apply prefix_of_length in Hp. lia.
    + exists z, w. rewrite list_lookup_insert_ne by done. split_and!; [done..|]. intros Hm. eapply copied_grow; [|done].
      apply Hc. apply not_elem_of_cons. split; [|done]. intros ->. apply Hij.
      apply (NoDup_lookup _ _ _ n Hnd); by eapply fst_lookup.
  - exists ys', h'. split; [|done]. cbn. erewrite mbind_run by (apply reads_run; eapply fieldOf_lookup; [by rewrite Hnx|done]).
    by erewrite mbind_run.
Qed.

Lemma copyStruct_copies fs prog : coversFields fs prog.*1 = true → copyStmts fs prog → copies (TStruct fs) (copyStruct prog).
Proof.
  intros Hc Hok h v Hv. apply andb_true_iff in Hc as [Hnd%bool_decide_eq_true Hc]. rewrite forallb_forall in Hc.
  apply same_struct in Hv as (xs & ys & -> & [= <-] & Hl & _ & Hs).
  destruct (copyFields_spec fs h xs prog h xs) as (ys & h' & E & Hp & Hl' & Hd); [done..| |].
  - intros i n t Hi. destruct (Hs i n t Hi) as (x & y & Hx & Hy & Hxy). simplify_eq. exists x, x. split_and!; [done..|]. intros Hn.
    assert (Hf : flat t = true).
    { specialize (Hc (n, t)). apply orb_true_iff in Hc as [Hc|Hc]; [by apply bool_decide_eq_true in Hc|done|].
      apply list_elem_of_In. by eapply list_elem_of_lookup_2. }
    split; [by eapply flat_typed|]. intros k Hk. by apply flat_reach in Hk.
  - exists (VStruct ys), h'. split; [cbn; by erewrite mbind_run|]. split_and!; [done|..].
    + apply same_struct. exists xs, ys. split_and!; [done..|]. intros i n t Hi.
      destruct (Hd i n t Hi) as (x & y & Hx & Hy & _ & Hxy). exists x, y. split_and!; [done..|]. apply Hxy, not_elem_of_nil.
    + intros k (i & n & t & m & y & Hi & Hy & Hk)%reach_struct. destruct (Hd i n t Hi) as (x & y' & Hx & Hy' & _ & Hxy). simplify_eq.
      by apply Hxy; [apply not_elem_of_nil|].
Qed.

(** *** DeepCopy *)

(** What is promised to a caller: the copy keeps the content whatever happens to memory that was there before or
    is allocated later, and the original whatever happens to memory that is new. *)
Definition isolatedCopy (t : gtype) (h : memory) (l : nat) (h' : memory) (l' : nat) : Prop :=
  h `prefix_of` h' ∧
  (∀ h2, (∀ k, length h ≤ k < length h' → h2 !! k = h' !! k) → same (TPtr t) h (VPtr (Some l)) h2 (VPtr (Some l'))) ∧
  (∀ h2, (∀ k, k < length h → h2 !! k = h' !! k) → same (TPtr t) h (VPtr (Some l)) h2 (VPtr (Some l))).

Lemma DeepCopy_method t f : copies t f → methodCopies t (DeepCopy t f).
Proof.
  intros Hf h l Hv. destruct (copyPtr_copies t f Hf h _ Hv) as (v' & h' & E & Hc). cbn in E.
  unfold DeepCopy. unfold mbind, Mem_bind in *. destruct (newCopy t f l h) as [[l' h'']|]; [|done]. injection E as <- ->.
  by exists l', h'.
Qed.

Lemma method_isolated t method h l : methodCopies t method → typed (TPtr t) h (VPtr (Some l)) →
  ∃ l' h', method (Some l) h = Some (Some l', h') ∧ isolatedCopy t h l h' l'.
Proof.
  intros Hm Hv. destruct (Hm h l Hv) as (l' & h' & E & Hp & Hs & Hr).
  exists l', h'. split; [done|]. split_and!; [done|..]; intros h2 Hh.
  - eapply same_frame; [done..|]. intros k Hk. apply Hh. split; [by apply Hr|]. by eapply reach_bound; [apply same_sym|].
  - eapply same_frame; [exact Hv|done|]. intros k Hk. pose proof (reach_bound _ _ _ _ _ _ Hv Hk) as Hlt.
    rewrite Hh by done. by apply prefix_lookup_lt.
Qed.

(** *** Automation *)

Create HintDb copying discriminated.
#[export] Hint Resolve copyPtr_copies copyPtrBy_copies copySlice_copies copySliceFlat_copies copyMap_copies assign_copies : copying.
#[export] Hint Extern 5 (flat _ = true) => reflexivity : copying.

(** [DeepCopyInto] of a struct: the fields are covered, and each statement copies. *)
Ltac copy_struct := apply copyStruct_copies; [reflexivity|cbn; auto 20 with copying].
