(* ===== verification/DeepCopyCode.v ===== *)
(** * The deep copy code of the API types

    [zz_generated.deepcopy.go]: for each struct of [api/v1alpha1] its type with the fields in their order, [DeepCopyInto]
    as the statements the file has for it, in their order, [DeepCopy] and, for the objects and lists, [DeepCopyObject].
    The types of the Kubernetes libraries, and their own copying methods, are parameters: [Kubernetes] names what the
    code uses of them and [KubernetesCopies] what it relies on.

    A named string type ([RecoveryType], [PlanState]) is a string here. *)

From S2P Require Import Prelude.
From S2P Require Import GoMemory.
From S2P Require Import GoCopy.

(** ** The Kubernetes libraries *)

Class Kubernetes := {
  TypeMeta : gtype;
  ObjectMeta : gtype;
  ListMeta : gtype;
  LocalObjectReference : gtype;
  Toleration : gtype;
  Affinity : gtype;
  SecretKeySelector : gtype;
  ConfigMapKeySelector : gtype;
  ObjectMeta_DeepCopyInto : Copier;
  ListMeta_DeepCopyInto : Copier;
  Toleration_DeepCopyInto : Copier;
  Affinity_DeepCopyInto : Copier;
  SecretKeySelector_DeepCopyInto : Copier;
  ConfigMapKeySelector_DeepCopyInto : Copier;
  Time_DeepCopy : option nat → Mem (option nat)
}.

(** [metav1.Time]: an instant. *)
Definition Time : gtype := TTime.

(** The two structs that are copied by assignment hold strings only; the methods copy their receivers. *)
Class KubernetesCopies `{!Kubernetes} : Prop := {
  TypeMeta_flat : flat TypeMeta = true;
  LocalObjectReference_flat : flat LocalObjectReference = true;
  ObjectMeta_copies : copies ObjectMeta ObjectMeta_DeepCopyInto;
  ListMeta_copies : copies ListMeta ListMeta_DeepCopyInto;
  Toleration_copies : copies Toleration Toleration_DeepCopyInto;
  Affinity_copies : copies Affinity Affinity_DeepCopyInto;
  SecretKeySelector_copies : copies SecretKeySelector SecretKeySelector_DeepCopyInto;
  ConfigMapKeySelector_copies : copies ConfigMapKeySelector ConfigMapKeySelector_DeepCopyInto;
  Time_copies : methodCopies Time Time_DeepCopy
}.
#[export] Hint Resolve TypeMeta_flat LocalObjectReference_flat ObjectMeta_copies ListMeta_copies Toleration_copies
  Affinity_copies SecretKeySelector_copies ConfigMapKeySelector_copies Time_copies : copying.

Section deep_copy.
Context `{!MapRange, !Kubernetes}.

(** ** Recovery plans *)

Definition ApprovalSelector_type : gtype := TStruct [
  ("RecoveryType", TStr); ("NodeName", TStr); ("NodeSelector", TMap TStr)].
Definition ApprovalSelector_DeepCopyInto : Copier := copyStruct [
  ("NodeSelector", copyMap)].
Definition ApprovalSelector_DeepCopy : option nat → Mem (option nat) :=
  DeepCopy ApprovalSelector_type ApprovalSelector_DeepCopyInto.

Definition ContainerFirmwareSource_type : gtype := TStruct [
  ("Name", TStr); ("InsecureSkipTLSVerify", TBool)].
Definition ContainerFirmwareSource_DeepCopyInto : Copier := copyStruct [].
Definition ContainerFirmwareSource_DeepCopy : option nat → Mem (option nat) :=
  DeepCopy ContainerFirmwareSource_type ContainerFirmwareSource_DeepCopyInto.

Definition DrainSpec_type : gtype := TStruct [
  ("Enable", TPtr TBool); ("TimeoutSeconds", TInt); ("NamespacesToSkip", TSlice TStr)].
Definition DrainSpec_DeepCopyInto : Copier := copyStruct [
  ("Enable", copyPtr TBool assign); ("NamespacesToSkip", copySliceFlat TStr)].
Definition DrainSpec_DeepCopy : option nat → Mem (option nat) := DeepCopy DrainSpec_type DrainSpec_DeepCopyInto.

Definition VolumeFirmwareSource_type : gtype := TStruct [
  ("Name", TStr)].
Definition VolumeFirmwareSource_DeepCopyInto : Copier := copyStruct [].
Definition VolumeFirmwareSource_DeepCopy : option nat → Mem (option nat) :=
  DeepCopy VolumeFirmwareSource_type VolumeFirmwareSource_DeepCopyInto.

Definition FirmwareSource_type : gtype := TStruct [
  ("ContainerSource", TPtr ContainerFirmwareSource_type); ("VolumeSource", TPtr VolumeFirmwareSource_type)].
Definition FirmwareSource_DeepCopyInto : Copier := copyStruct [
  ("ContainerSource", copyPtr ContainerFirmwareSource_type assign);
  ("VolumeSource", copyPtr VolumeFirmwareSource_type assign)].
Definition FirmwareSource_DeepCopy : option nat → Mem (option nat) :=
  DeepCopy FirmwareSource_type FirmwareSource_DeepCopyInto.

Definition FirmwareSpec_type : gtype := TStruct [
  ("Source", FirmwareSource_type); ("File", TStr)].
Definition FirmwareSpec_DeepCopyInto : Copier := copyStruct [
  ("Source", FirmwareSource_DeepCopyInto)].
Definition FirmwareSpec_DeepCopy : option nat → Mem (option nat) :=
  DeepCopy FirmwareSpec_type FirmwareSpec_DeepCopyInto.

Definition RecoveryOverride_type : gtype := TStruct [
  ("RecoveryType", TStr)].
Definition RecoveryOverride_DeepCopyInto : Copier := copyStruct [].
Definition RecoveryOverride_DeepCopy : option nat → Mem (option nat) :=
  DeepCopy RecoveryOverride_type RecoveryOverride_DeepCopyInto.

Definition RecoveryApproval_type : gtype := TStruct [
  ("ID", TStr); ("EventID", TStr); ("Selector", TPtr ApprovalSelector_type);
  ("Override", TPtr RecoveryOverride_type); ("Persistent", TBool); ("Consumed", TBool); ("Comment", TStr)].
Definition RecoveryApproval_DeepCopyInto : Copier := copyStruct [
  ("Selector", copyPtr ApprovalSelector_type ApprovalSelector_DeepCopyInto);
  ("Override", copyPtr RecoveryOverride_type assign)].
Definition RecoveryApproval_DeepCopy : option nat → Mem (option nat) :=
  DeepCopy RecoveryApproval_type RecoveryApproval_DeepCopyInto.

Definition XpuSmiSpec_type : gtype := TStruct [
  ("Image", TStr); ("PullPolicy", TStr); ("InsecureSkipTLSVerify", TBool)].
Definition XpuSmiSpec_DeepCopyInto : Copier := copyStruct [].
Definition XpuSmiSpec_DeepCopy : option nat → Mem (option nat) :=
  DeepCopy XpuSmiSpec_type XpuSmiSpec_DeepCopyInto.

Definition RecoveryTimeoutsSpec_type : gtype := TStruct [
  ("ResetSeconds", TInt); ("ReflashSeconds", TInt)].
Definition RecoveryTimeoutsSpec_DeepCopyInto : Copier := copyStruct [].
Definition RecoveryTimeoutsSpec_DeepCopy : option nat → Mem (option nat) :=
  DeepCopy RecoveryTimeoutsSpec_type RecoveryTimeoutsSpec_DeepCopyInto.

Definition GPURecoveryPlanSpec_type : gtype := TStruct [
  ("DeviceID", TStr); ("SubDeviceID", TStr); ("SubVendorID", TStr);
  ("Approvals", TSlice RecoveryApproval_type); ("XpuSmi", XpuSmiSpec_type); ("DefaultResetType", TStr);
  ("Firmware", TPtr FirmwareSpec_type); ("Tolerations", TSlice Toleration); ("Drain", DrainSpec_type);
  ("Timeouts", RecoveryTimeoutsSpec_type); ("SkipImageVerification", TBool)].
Definition GPURecoveryPlanSpec_DeepCopyInto : Copier := copyStruct [
  ("Approvals", copySlice RecoveryApproval_type RecoveryApproval_DeepCopyInto); ("XpuSmi", assign);
  ("Firmware", copyPtr FirmwareSpec_type FirmwareSpec_DeepCopyInto);
  ("Tolerations", copySlice Toleration Toleration_DeepCopyInto); ("Drain", DrainSpec_DeepCopyInto);
  ("Timeouts", assign)].
Definition GPURecoveryPlanSpec_DeepCopy : option nat → Mem (option nat) :=
  DeepCopy GPURecoveryPlanSpec_type GPURecoveryPlanSpec_DeepCopyInto.

Definition RecoveryTypeSpec_type : gtype := TStruct [
  ("Type", TStr); ("SuggestedType", TStr)].
Definition RecoveryTypeSpec_DeepCopyInto : Copier := copyStruct [].
Definition RecoveryTypeSpec_DeepCopy : option nat → Mem (option nat) :=
  DeepCopy RecoveryTypeSpec_type RecoveryTypeSpec_DeepCopyInto.

Definition RecoveryEvent_type : gtype := TStruct [
  ("ID", TStr); ("ApprovalID", TStr); ("ApprovalMatchedAt", TPtr Time); ("NodeName", TStr); ("GPUBDF", TStr);
  ("Reason", TStr); ("RecoveryType", RecoveryTypeSpec_type); ("State", TStr); ("StateMessage", TStr);
  ("ImageVerifyGeneration", TInt); ("DrainStartedAt", TPtr Time); ("PodsBlockingDrain", TSlice TStr);
  ("ClaimsBlockingReset", TSlice TStr); ("JobName", TStr); ("PastJobs", TSlice TStr); ("LastUpdated", TPtr Time)].
Definition RecoveryEvent_DeepCopyInto : Copier := copyStruct [
  ("ApprovalMatchedAt", copyPtrBy Time_DeepCopy); ("RecoveryType", assign);
  ("DrainStartedAt", copyPtrBy Time_DeepCopy); ("PodsBlockingDrain", copySliceFlat TStr);
  ("ClaimsBlockingReset", copySliceFlat TStr); ("PastJobs", copySliceFlat TStr);
  ("LastUpdated", copyPtrBy Time_DeepCopy)].
Definition RecoveryEvent_DeepCopy : option nat → Mem (option nat) :=
  DeepCopy RecoveryEvent_type RecoveryEvent_DeepCopyInto.

Definition GPURecoveryPlanStatus_type : gtype := TStruct [
  ("State", TStr); ("Messages", TSlice TStr); ("Events", TSlice RecoveryEvent_type)].
Definition GPURecoveryPlanStatus_DeepCopyInto : Copier := copyStruct [
  ("Messages", copySliceFlat TStr); ("Events", copySlice RecoveryEvent_type RecoveryEvent_DeepCopyInto)].
Definition GPURecoveryPlanStatus_DeepCopy : option nat → Mem (option nat) :=
  DeepCopy GPURecoveryPlanStatus_type GPURecoveryPlanStatus_DeepCopyInto.

Definition GPURecoveryPlan_type : gtype := TStruct [
  ("TypeMeta", TypeMeta); ("ObjectMeta", ObjectMeta); ("Spec", GPURecoveryPlanSpec_type);
  ("Status", GPURecoveryPlanStatus_type)].
Definition GPURecoveryPlan_DeepCopyInto : Copier := copyStruct [
  ("TypeMeta", assign); ("ObjectMeta", ObjectMeta_DeepCopyInto); ("Spec", GPURecoveryPlanSpec_DeepCopyInto);
  ("Status", GPURecoveryPlanStatus_DeepCopyInto)].
Definition GPURecoveryPlan_DeepCopy : option nat → Mem (option nat) :=
  DeepCopy GPURecoveryPlan_type GPURecoveryPlan_DeepCopyInto.
Definition GPURecoveryPlan_DeepCopyObject : option nat → Mem iface :=
  DeepCopyObject "GPURecoveryPlan" GPURecoveryPlan_type GPURecoveryPlan_DeepCopyInto.

Definition GPURecoveryPlanCustomDefaulter_type : gtype := TStruct [].
Definition GPURecoveryPlanCustomDefaulter_DeepCopyInto : Copier := copyStruct [].
Definition GPURecoveryPlanCustomDefaulter_DeepCopy : option nat → Mem (option nat) :=
  DeepCopy GPURecoveryPlanCustomDefaulter_type GPURecoveryPlanCustomDefaulter_DeepCopyInto.

Definition GPURecoveryPlanCustomValidator_type : gtype := TStruct [].
Definition GPURecoveryPlanCustomValidator_DeepCopyInto : Copier := copyStruct [].
Definition GPURecoveryPlanCustomValidator_DeepCopy : option nat → Mem (option nat) :=
  DeepCopy GPURecoveryPlanCustomValidator_type GPURecoveryPlanCustomValidator_DeepCopyInto.

Definition GPURecoveryPlanList_type : gtype := TStruct [
  ("TypeMeta", TypeMeta); ("ListMeta", ListMeta); ("Items", TSlice GPURecoveryPlan_type)].
Definition GPURecoveryPlanList_DeepCopyInto : Copier := copyStruct [
  ("TypeMeta", assign); ("ListMeta", ListMeta_DeepCopyInto);
  ("Items", copySlice GPURecoveryPlan_type GPURecoveryPlan_DeepCopyInto)].
Definition GPURecoveryPlanList_DeepCopy : option nat → Mem (option nat) :=
  DeepCopy GPURecoveryPlanList_type GPURecoveryPlanList_DeepCopyInto.
Definition GPURecoveryPlanList_DeepCopyObject : option nat → Mem iface :=
  DeepCopyObject "GPURecoveryPlanList" GPURecoveryPlanList_type GPURecoveryPlanList_DeepCopyInto.

(** ** Firmware updates *)

Definition GPUFirmwareFile_type : gtype := TStruct [
  ("Type", TStr); ("FileName", TStr); ("Checksum", TStr)].
Definition GPUFirmwareFile_DeepCopyInto : Copier := copyStruct [].
Definition GPUFirmwareFile_DeepCopy : option nat → Mem (option nat) :=
  DeepCopy GPUFirmwareFile_type GPUFirmwareFile_DeepCopyInto.

Definition GPUFirmwareContent_type : gtype := TStruct [
  ("ContainerImage", TStr); ("Files", TSlice GPUFirmwareFile_type)].
Definition GPUFirmwareContent_DeepCopyInto : Copier := copyStruct [
  ("Files", copySliceFlat GPUFirmwareFile_type)].
Definition GPUFirmwareContent_DeepCopy : option nat → Mem (option nat) :=
  DeepCopy GPUFirmwareContent_type GPUFirmwareContent_DeepCopyInto.

Definition GPUFirmwareUpdateSpec_type : gtype := TStruct [
  ("Content", GPUFirmwareContent_type); ("UpdateMethod", TStr); ("UpdaterImage", TStr);
  ("ImagePullSecret", TStr); ("PCIDeviceID", TStr); ("UpdateTaint", TStr); ("Tolerations", TSlice Toleration);
  ("NodeSelector", TMap TStr); ("InsecureSkipTLSVerify", TBool); ("HoldAfterCanary", TBool)].
Definition GPUFirmwareUpdateSpec_DeepCopyInto : Copier := copyStruct [
  ("Content", GPUFirmwareContent_DeepCopyInto); ("Tolerations", copySlice Toleration Toleration_DeepCopyInto);
  ("NodeSelector", copyMap)].
Definition GPUFirmwareUpdateSpec_DeepCopy : option nat → Mem (option nat) :=
  DeepCopy GPUFirmwareUpdateSpec_type GPUFirmwareUpdateSpec_DeepCopyInto.

Definition GPUFirmwareUpdateSubsetStatus_type : gtype := TStruct [
  ("All", TSlice TStr); ("Pending", TSlice TStr); ("Draining", TSlice TStr); ("Updating", TSlice TStr);
  ("Completed", TSlice TStr); ("Error", TSlice TStr); ("Jobs", TSlice TStr)].
Definition GPUFirmwareUpdateSubsetStatus_DeepCopyInto : Copier := copyStruct [
  ("All", copySliceFlat TStr); ("Pending", copySliceFlat TStr); ("Draining", copySliceFlat TStr);
  ("Updating", copySliceFlat TStr); ("Completed", copySliceFlat TStr); ("Error", copySliceFlat TStr);
  ("Jobs", copySliceFlat TStr)].
Definition GPUFirmwareUpdateSubsetStatus_DeepCopy : option nat → Mem (option nat) :=
  DeepCopy GPUFirmwareUpdateSubsetStatus_type GPUFirmwareUpdateSubsetStatus_DeepCopyInto.

Definition GPUFirmwareUpdateStatus_type : gtype := TStruct [
  ("State", TStr); ("Messages", TSlice TStr); ("NodeInfos", GPUFirmwareUpdateSubsetStatus_type)].
Definition GPUFirmwareUpdateStatus_DeepCopyInto : Copier := copyStruct [
  ("Messages", copySliceFlat TStr); ("NodeInfos", GPUFirmwareUpdateSubsetStatus_DeepCopyInto)].
Definition GPUFirmwareUpdateStatus_DeepCopy : option nat → Mem (option nat) :=
  DeepCopy GPUFirmwareUpdateStatus_type GPUFirmwareUpdateStatus_DeepCopyInto.

Definition GPUFirmwareUpdate_type : gtype := TStruct [
  ("TypeMeta", TypeMeta); ("ObjectMeta", ObjectMeta); ("Spec", GPUFirmwareUpdateSpec_type);
  ("Status", GPUFirmwareUpdateStatus_type)].
Definition GPUFirmwareUpdate_DeepCopyInto : Copier := copyStruct [
  ("TypeMeta", assign); ("ObjectMeta", ObjectMeta_DeepCopyInto); ("Spec", GPUFirmwareUpdateSpec_DeepCopyInto);
  ("Status", GPUFirmwareUpdateStatus_DeepCopyInto)].
Definition GPUFirmwareUpdate_DeepCopy : option nat → Mem (option nat) :=
  DeepCopy GPUFirmwareUpdate_type GPUFirmwareUpdate_DeepCopyInto.
Definition GPUFirmwareUpdate_DeepCopyObject : option nat → Mem iface :=
  DeepCopyObject "GPUFirmwareUpdate" GPUFirmwareUpdate_type GPUFirmwareUpdate_DeepCopyInto.

Definition GPUFirmwareUpdateCustomValidator_type : gtype := TStruct [].
Definition GPUFirmwareUpdateCustomValidator_DeepCopyInto : Copier := copyStruct [].
Definition GPUFirmwareUpdateCustomValidator_DeepCopy : option nat → Mem (option nat) :=
  DeepCopy GPUFirmwareUpdateCustomValidator_type GPUFirmwareUpdateCustomValidator_DeepCopyInto.

Definition GPUFirmwareUpdateList_type : gtype := TStruct [
  ("TypeMeta", TypeMeta); ("ListMeta", ListMeta); ("Items", TSlice GPUFirmwareUpdate_type)].
Definition GPUFirmwareUpdateList_DeepCopyInto : Copier := copyStruct [
  ("TypeMeta", assign); ("ListMeta", ListMeta_DeepCopyInto);
  ("Items", copySlice GPUFirmwareUpdate_type GPUFirmwareUpdate_DeepCopyInto)].
Definition GPUFirmwareUpdateList_DeepCopy : option nat → Mem (option nat) :=
  DeepCopy GPUFirmwareUpdateList_type GPUFirmwareUpdateList_DeepCopyInto.
Definition GPUFirmwareUpdateList_DeepCopyObject : option nat → Mem iface :=
  DeepCopyObject "GPUFirmwareUpdateList" GPUFirmwareUpdateList_type GPUFirmwareUpdateList_DeepCopyInto.

(** ** Cluster policies *)

Definition BuildArg_type : gtype := TStruct [
  ("Name", TStr); ("Value", TStr)].
Definition BuildArg_DeepCopyInto : Copier := copyStruct [].
Definition BuildArg_DeepCopy : option nat → Mem (option nat) := DeepCopy BuildArg_type BuildArg_DeepCopyInto.

Definition CDISpec_type : gtype := TStruct [
  ("StaticHostPath", TStr); ("DynamicHostPath", TStr)].
Definition CDISpec_DeepCopyInto : Copier := copyStruct [].
Definition CDISpec_DeepCopy : option nat → Mem (option nat) := DeepCopy CDISpec_type CDISpec_DeepCopyInto.

Definition LocalQueueSpec_type : gtype := TStruct [
  ("Name", TStr); ("Namespace", TStr)].
Definition LocalQueueSpec_DeepCopyInto : Copier := copyStruct [].
Definition LocalQueueSpec_DeepCopy : option nat → Mem (option nat) :=
  DeepCopy LocalQueueSpec_type LocalQueueSpec_DeepCopyInto.

Definition ClusterQueueSpec_type : gtype := TStruct [
  ("Name", TStr); ("LocalQueues", TSlice LocalQueueSpec_type)].
Definition ClusterQueueSpec_DeepCopyInto : Copier := copyStruct [
  ("LocalQueues", copySliceFlat LocalQueueSpec_type)].
Definition ClusterQueueSpec_DeepCopy : option nat → Mem (option nat) :=
  DeepCopy ClusterQueueSpec_type ClusterQueueSpec_DeepCopyInto.

Definition KueueQueueSpec_type : gtype := TStruct [
  ("EqualResources", TSlice ClusterQueueSpec_type)].
Definition KueueQueueSpec_DeepCopyInto : Copier := copyStruct [
  ("EqualResources", copySlice ClusterQueueSpec_type ClusterQueueSpec_DeepCopyInto)].
Definition KueueQueueSpec_DeepCopy : option nat → Mem (option nat) :=
  DeepCopy KueueQueueSpec_type KueueQueueSpec_DeepCopyInto.

Definition HealthinessSpec_type : gtype := TStruct [
  ("CheckIntervalSeconds", TInt); ("CoreTemperatureThreshold", TInt); ("MemoryTemperatureThreshold", TInt)].
Definition HealthinessSpec_DeepCopyInto : Copier := copyStruct [].
Definition HealthinessSpec_DeepCopy : option nat → Mem (option nat) :=
  DeepCopy HealthinessSpec_type HealthinessSpec_DeepCopyInto.

Definition DynamicResourceAllocationSpec_type : gtype := TStruct [
  ("Image", TStr); ("LogLevel", TInt); ("PodHealthCheck", TBool); ("ManageBinding", TBool);
  ("Affinity", TPtr Affinity)].
Definition DynamicResourceAllocationSpec_DeepCopyInto : Copier := copyStruct [
  ("Affinity", copyPtr Affinity Affinity_DeepCopyInto)].
Definition DynamicResourceAllocationSpec_DeepCopy : option nat → Mem (option nat) :=
  DeepCopy DynamicResourceAllocationSpec_type DynamicResourceAllocationSpec_DeepCopyInto.

Definition DevicePluginSpec_type : gtype := TStruct [
  ("PluginImage", TStr); ("LevelzeroImage", TStr); ("AllowIDs", TSlice TStr); ("DenyIDs", TSlice TStr);
  ("ByPathMode", TStr); ("LogLevel", TInt); ("Affinity", TPtr Affinity)].
Definition DevicePluginSpec_DeepCopyInto : Copier := copyStruct [
  ("AllowIDs", copySliceFlat TStr); ("DenyIDs", copySliceFlat TStr);
  ("Affinity", copyPtr Affinity Affinity_DeepCopyInto)].
Definition DevicePluginSpec_DeepCopy : option nat → Mem (option nat) :=
  DeepCopy DevicePluginSpec_type DevicePluginSpec_DeepCopyInto.

Definition OTLPHeader_type : gtype := TStruct [
  ("Name", TStr); ("ValueFrom", SecretKeySelector)].
Definition OTLPHeader_DeepCopyInto : Copier := copyStruct [
  ("ValueFrom", SecretKeySelector_DeepCopyInto)].
Definition OTLPHeader_DeepCopy : option nat → Mem (option nat) :=
  DeepCopy OTLPHeader_type OTLPHeader_DeepCopyInto.

Definition OTLPTLSSpec_type : gtype := TStruct [
  ("CA", TPtr ConfigMapKeySelector); ("ClientCertSecret", TPtr LocalObjectReference); ("ServerName", TStr);
  ("InsecureSkipVerify", TBool)].
Definition OTLPTLSSpec_DeepCopyInto : Copier := copyStruct [
  ("CA", copyPtr ConfigMapKeySelector ConfigMapKeySelector_DeepCopyInto);
  ("ClientCertSecret", copyPtr LocalObjectReference assign)].
Definition OTLPTLSSpec_DeepCopy : option nat → Mem (option nat) :=
  DeepCopy OTLPTLSSpec_type OTLPTLSSpec_DeepCopyInto.

Definition OTLPExporterSpec_type : gtype := TStruct [
  ("Endpoint", TStr); ("Headers", TSlice OTLPHeader_type); ("TLS", TPtr OTLPTLSSpec_type)].
Definition OTLPExporterSpec_DeepCopyInto : Copier := copyStruct [
  ("Headers", copySlice OTLPHeader_type OTLPHeader_DeepCopyInto);
  ("TLS", copyPtr OTLPTLSSpec_type OTLPTLSSpec_DeepCopyInto)].
Definition OTLPExporterSpec_DeepCopy : option nat → Mem (option nat) :=
  DeepCopy OTLPExporterSpec_type OTLPExporterSpec_DeepCopyInto.

Definition OTLPSpec_type : gtype := TStruct [
  ("HTTP", TPtr OTLPExporterSpec_type); ("GRPC", TPtr OTLPExporterSpec_type)].
Definition OTLPSpec_DeepCopyInto : Copier := copyStruct [
  ("HTTP", copyPtr OTLPExporterSpec_type OTLPExporterSpec_DeepCopyInto);
  ("GRPC", copyPtr OTLPExporterSpec_type OTLPExporterSpec_DeepCopyInto)].
Definition OTLPSpec_DeepCopy : option nat → Mem (option nat) := DeepCopy OTLPSpec_type OTLPSpec_DeepCopyInto.

Definition XpuManagerSpec_type : gtype := TStruct [
  ("Image", TStr); ("LogLevel", TInt); ("ConfigMapOverride", TStr); ("MonitoringResource", TStr);
  ("Affinity", TPtr Affinity); ("RestartOnDeviceRecovery", TStr); ("InfoLogs", TBool); ("CrashLog", TBool);
  ("OTLP", TPtr OTLPSpec_type)].
Definition XpuManagerSpec_DeepCopyInto : Copier := copyStruct [
  ("Affinity", copyPtr Affinity Affinity_DeepCopyInto); ("OTLP", copyPtr OTLPSpec_type OTLPSpec_DeepCopyInto)].
Definition XpuManagerSpec_DeepCopy : option nat → Mem (option nat) :=
  DeepCopy XpuManagerSpec_type XpuManagerSpec_DeepCopyInto.

Definition KernelModuleBuildSpec_type : gtype := TStruct [
  ("DockerfileConfigMap", LocalObjectReference); ("BuildArgs", TSlice BuildArg_type);
  ("Secrets", TSlice LocalObjectReference)].
Definition KernelModuleBuildSpec_DeepCopyInto : Copier := copyStruct [
  ("DockerfileConfigMap", assign); ("BuildArgs", copySliceFlat BuildArg_type);
  ("Secrets", copySliceFlat LocalObjectReference)].
Definition KernelModuleBuildSpec_DeepCopy : option nat → Mem (option nat) :=
  DeepCopy KernelModuleBuildSpec_type KernelModuleBuildSpec_DeepCopyInto.

Definition RegistryTLSSpec_type : gtype := TStruct [
  ("Insecure", TBool); ("InsecureSkipTLSVerify", TBool)].
Definition RegistryTLSSpec_DeepCopyInto : Copier := copyStruct [].
Definition RegistryTLSSpec_DeepCopy : option nat → Mem (option nat) :=
  DeepCopy RegistryTLSSpec_type RegistryTLSSpec_DeepCopyInto.

Definition KernelMappingSpec_type : gtype := TStruct [
  ("Regexp", TStr); ("ContainerImage", TStr); ("Build", TPtr KernelModuleBuildSpec_type);
  ("InTreeModulesToRemove", TSlice TStr); ("RegistryTLS", TPtr RegistryTLSSpec_type)].
Definition KernelMappingSpec_DeepCopyInto : Copier := copyStruct [
  ("Build", copyPtr KernelModuleBuildSpec_type KernelModuleBuildSpec_DeepCopyInto);
  ("InTreeModulesToRemove", copySliceFlat TStr); ("RegistryTLS", copyPtr RegistryTLSSpec_type assign)].
Definition KernelMappingSpec_DeepCopy : option nat → Mem (option nat) :=
  DeepCopy KernelMappingSpec_type KernelMappingSpec_DeepCopyInto.

Definition KernelModuleSpec_type : gtype := TStruct [
  ("ModuleName", TStr); ("Version", TStr); ("KernelMappings", TSlice KernelMappingSpec_type);
  ("ModulesLoadingOrder", TSlice TStr); ("FirmwarePath", TStr); ("RegistryTLS", TPtr RegistryTLSSpec_type)].
Definition KernelModuleSpec_DeepCopyInto : Copier := copyStruct [
  ("KernelMappings", copySlice KernelMappingSpec_type KernelMappingSpec_DeepCopyInto);
  ("ModulesLoadingOrder", copySliceFlat TStr); ("RegistryTLS", copyPtr RegistryTLSSpec_type assign)].
Definition KernelModuleSpec_DeepCopy : option nat → Mem (option nat) :=
  DeepCopy KernelModuleSpec_type KernelModuleSpec_DeepCopyInto.

Definition ClusterPolicySpec_type : gtype := TStruct [
  ("ResourceRegistration", TStr); ("ResourceMonitoring", TBool); ("UseNFDLabeling", TBool);
  ("PrometheusIntegration", TBool); ("EnableKueue", TBool); ("Kueue", TPtr KueueQueueSpec_type);
  ("HealthinessSpec", TPtr HealthinessSpec_type);
  ("DynamicResourceAllocationSpec", DynamicResourceAllocationSpec_type);
  ("DevicePluginSpec", DevicePluginSpec_type); ("XpuManagerSpec", XpuManagerSpec_type);
  ("PullSecret", TPtr LocalObjectReference); ("NodeSelector", TMap TStr); ("Tolerations", TSlice Toleration);
  ("LogLevel", TInt); ("KernelModule", TPtr KernelModuleSpec_type); ("CDI", CDISpec_type)].
Definition ClusterPolicySpec_DeepCopyInto : Copier := copyStruct [
  ("Kueue", copyPtr KueueQueueSpec_type KueueQueueSpec_DeepCopyInto);
  ("HealthinessSpec", copyPtr HealthinessSpec_type assign);
  ("DynamicResourceAllocationSpec", DynamicResourceAllocationSpec_DeepCopyInto);
  ("DevicePluginSpec", DevicePluginSpec_DeepCopyInto); ("XpuManagerSpec", XpuManagerSpec_DeepCopyInto);
  ("PullSecret", copyPtr LocalObjectReference assign); ("NodeSelector", copyMap);
  ("Tolerations", copySlice Toleration Toleration_DeepCopyInto);
  ("KernelModule", copyPtr KernelModuleSpec_type KernelModuleSpec_DeepCopyInto); ("CDI", assign)].
Definition ClusterPolicySpec_DeepCopy : option nat → Mem (option nat) :=
  DeepCopy ClusterPolicySpec_type ClusterPolicySpec_DeepCopyInto.

Definition ClusterPolicyStatus_type : gtype := TStruct [
  ("DevicePluginStatus", TStr); ("DRAStatus", TStr); ("XPUManagerStatus", TStr); ("KMMStatus", TStr);
  ("Errors", TSlice TStr)].
Definition ClusterPolicyStatus_DeepCopyInto : Copier := copyStruct [
  ("Errors", copySliceFlat TStr)].
Definition ClusterPolicyStatus_DeepCopy : option nat → Mem (option nat) :=
  DeepCopy ClusterPolicyStatus_type ClusterPolicyStatus_DeepCopyInto.

Definition ClusterPolicy_type : gtype := TStruct [
  ("TypeMeta", TypeMeta); ("ObjectMeta", ObjectMeta); ("Spec", ClusterPolicySpec_type);
  ("Status", ClusterPolicyStatus_type)].
Definition ClusterPolicy_DeepCopyInto : Copier := copyStruct [
  ("TypeMeta", assign); ("ObjectMeta", ObjectMeta_DeepCopyInto); ("Spec", ClusterPolicySpec_DeepCopyInto);
  ("Status", ClusterPolicyStatus_DeepCopyInto)].
Definition ClusterPolicy_DeepCopy : option nat → Mem (option nat) :=
  DeepCopy ClusterPolicy_type ClusterPolicy_DeepCopyInto.
Definition ClusterPolicy_DeepCopyObject : option nat → Mem iface :=
  DeepCopyObject "ClusterPolicy" ClusterPolicy_type ClusterPolicy_DeepCopyInto.

Definition ClusterPolicyCustomDefaulter_type : gtype := TStruct [].
Definition ClusterPolicyCustomDefaulter_DeepCopyInto : Copier := copyStruct [].
Definition ClusterPolicyCustomDefaulter_DeepCopy : option nat → Mem (option nat) :=
  DeepCopy ClusterPolicyCustomDefaulter_type ClusterPolicyCustomDefaulter_DeepCopyInto.

Definition ClusterPolicyCustomValidator_type : gtype := TStruct [].
Definition ClusterPolicyCustomValidator_DeepCopyInto : Copier := copyStruct [].
Definition ClusterPolicyCustomValidator_DeepCopy : option nat → Mem (option nat) :=
  DeepCopy ClusterPolicyCustomValidator_type ClusterPolicyCustomValidator_DeepCopyInto.

Definition ClusterPolicyList_type : gtype := TStruct [
  ("TypeMeta", TypeMeta); ("ListMeta", ListMeta); ("Items", TSlice ClusterPolicy_type)].
Definition ClusterPolicyList_DeepCopyInto : Copier := copyStruct [
  ("TypeMeta", assign); ("ListMeta", ListMeta_DeepCopyInto);
  ("Items", copySlice ClusterPolicy_type ClusterPolicy_DeepCopyInto)].
Definition ClusterPolicyList_DeepCopy : option nat → Mem (option nat) :=
  DeepCopy ClusterPolicyList_type ClusterPolicyList_DeepCopyInto.
Definition ClusterPolicyList_DeepCopyObject : option nat → Mem iface :=
  DeepCopyObject "ClusterPolicyList" ClusterPolicyList_type ClusterPolicyList_DeepCopyInto.

(** ** All of it *)

Definition deepCopies : list (string * gtype * (option nat → Mem (option nat))) := [
    ("ApprovalSelector", ApprovalSelector_type, ApprovalSelector_DeepCopy);
    ("ContainerFirmwareSource", ContainerFirmwareSource_type, ContainerFirmwareSource_DeepCopy);
    ("DrainSpec", DrainSpec_type, DrainSpec_DeepCopy);
    ("VolumeFirmwareSource", VolumeFirmwareSource_type, VolumeFirmwareSource_DeepCopy);
    ("FirmwareSource", FirmwareSource_type, FirmwareSource_DeepCopy);
    ("FirmwareSpec", FirmwareSpec_type, FirmwareSpec_DeepCopy);
    ("RecoveryOverride", RecoveryOverride_type, RecoveryOverride_DeepCopy);
    ("RecoveryApproval", RecoveryApproval_type, RecoveryApproval_DeepCopy);
    ("XpuSmiSpec", XpuSmiSpec_type, XpuSmiSpec_DeepCopy);
    ("RecoveryTimeoutsSpec", RecoveryTimeoutsSpec_type, RecoveryTimeoutsSpec_DeepCopy);
    ("GPURecoveryPlanSpec", GPURecoveryPlanSpec_type, GPURecoveryPlanSpec_DeepCopy);
    ("RecoveryTypeSpec", RecoveryTypeSpec_type, RecoveryTypeSpec_DeepCopy);
    ("RecoveryEvent", RecoveryEvent_type, RecoveryEvent_DeepCopy);
    ("GPURecoveryPlanStatus", GPURecoveryPlanStatus_type, GPURecoveryPlanStatus_DeepCopy);
    ("GPURecoveryPlan", GPURecoveryPlan_type, GPURecoveryPlan_DeepCopy);
    ("GPURecoveryPlanCustomDefaulter", GPURecoveryPlanCustomDefaulter_type, GPURecoveryPlanCustomDefaulter_DeepCopy);
    ("GPURecoveryPlanCustomValidator", GPURecoveryPlanCustomValidator_type, GPURecoveryPlanCustomValidator_DeepCopy);
    ("GPURecoveryPlanList", GPURecoveryPlanList_type, GPURecoveryPlanList_DeepCopy);
    ("GPUFirmwareFile", GPUFirmwareFile_type, GPUFirmwareFile_DeepCopy);
    ("GPUFirmwareContent", GPUFirmwareContent_type, GPUFirmwareContent_DeepCopy);
    ("GPUFirmwareUpdateSpec", GPUFirmwareUpdateSpec_type, GPUFirmwareUpdateSpec_DeepCopy);
    ("GPUFirmwareUpdateSubsetStatus", GPUFirmwareUpdateSubsetStatus_type, GPUFirmwareUpdateSubsetStatus_DeepCopy);
    ("GPUFirmwareUpdateStatus", GPUFirmwareUpdateStatus_type, GPUFirmwareUpdateStatus_DeepCopy);
    ("GPUFirmwareUpdate", GPUFirmwareUpdate_type, GPUFirmwareUpdate_DeepCopy);
    ("GPUFirmwareUpdateCustomValidator", GPUFirmwareUpdateCustomValidator_type, GPUFirmwareUpdateCustomValidator_DeepCopy);
    ("GPUFirmwareUpdateList", GPUFirmwareUpdateList_type, GPUFirmwareUpdateList_DeepCopy);
    ("BuildArg", BuildArg_type, BuildArg_DeepCopy);
    ("CDISpec", CDISpec_type, CDISpec_DeepCopy);
    ("LocalQueueSpec", LocalQueueSpec_type, LocalQueueSpec_DeepCopy);
    ("ClusterQueueSpec", ClusterQueueSpec_type, ClusterQueueSpec_DeepCopy);
    ("KueueQueueSpec", KueueQueueSpec_type, KueueQueueSpec_DeepCopy);
    ("HealthinessSpec", HealthinessSpec_type, HealthinessSpec_DeepCopy);
    ("DynamicResourceAllocationSpec", DynamicResourceAllocationSpec_type, DynamicResourceAllocationSpec_DeepCopy);
    ("DevicePluginSpec", DevicePluginSpec_type, DevicePluginSpec_DeepCopy);
    ("OTLPHeader", OTLPHeader_type, OTLPHeader_DeepCopy);
    ("OTLPTLSSpec", OTLPTLSSpec_type, OTLPTLSSpec_DeepCopy);
    ("OTLPExporterSpec", OTLPExporterSpec_type, OTLPExporterSpec_DeepCopy);
    ("OTLPSpec", OTLPSpec_type, OTLPSpec_DeepCopy);
    ("XpuManagerSpec", XpuManagerSpec_type, XpuManagerSpec_DeepCopy);
    ("KernelModuleBuildSpec", KernelModuleBuildSpec_type, KernelModuleBuildSpec_DeepCopy);
    ("RegistryTLSSpec", RegistryTLSSpec_type, RegistryTLSSpec_DeepCopy);
    ("KernelMappingSpec", KernelMappingSpec_type, KernelMappingSpec_DeepCopy);
    ("KernelModuleSpec", KernelModuleSpec_type, KernelModuleSpec_DeepCopy);
    ("ClusterPolicySpec", ClusterPolicySpec_type, ClusterPolicySpec_DeepCopy);
    ("ClusterPolicyStatus", ClusterPolicyStatus_type, ClusterPolicyStatus_DeepCopy);
    ("ClusterPolicy", ClusterPolicy_type, ClusterPolicy_DeepCopy);
    ("ClusterPolicyCustomDefaulter", ClusterPolicyCustomDefaulter_type, ClusterPolicyCustomDefaulter_DeepCopy);
    ("ClusterPolicyCustomValidator", ClusterPolicyCustomValidator_type, ClusterPolicyCustomValidator_DeepCopy);
    ("ClusterPolicyList", ClusterPolicyList_type, ClusterPolicyList_DeepCopy)].

Definition deepCopyObjects : list (string * gtype * (option nat → Mem iface)) := [
    ("GPURecoveryPlan", GPURecoveryPlan_type, GPURecoveryPlan_DeepCopyObject);
    ("GPURecoveryPlanList", GPURecoveryPlanList_type, GPURecoveryPlanList_DeepCopyObject);
    ("GPUFirmwareUpdate", GPUFirmwareUpdate_type, GPUFirmwareUpdate_DeepCopyObject);
    ("GPUFirmwareUpdateList", GPUFirmwareUpdateList_type, GPUFirmwareUpdateList_DeepCopyObject);
    ("ClusterPolicy", ClusterPolicy_type, ClusterPolicy_DeepCopyObject);
    ("ClusterPolicyList", ClusterPolicyList_type, ClusterPolicyList_DeepCopyObject)].
End deep_copy.
