(* ===== verification/DeepCopySample.v ===== *)
(** * A plan in memory

    An instance of what the deep copy code takes from the Kubernetes libraries, with the fields the operator itself
    uses, and the memory of a plan with one event and one approval. *)

From S2P Require Import Prelude.
From S2P Require Import GoMemory.
From S2P Require Import GoCopy.
From S2P Require Import DeepCopyCode.

(** ** An instance of the libraries *)

#[refine] Definition sampleRange : MapRange := {| rangeOrder := λ _, map_to_list |}.
Proof. done. Defined.

Definition namedType : gtype := TStruct [("Name", TStr)].
Definition keyType : gtype := TStruct [("Name", TStr); ("Key", TStr); ("Optional", TPtr TBool)].

Definition sampleKube : Kubernetes := {|
  TypeMeta := TStruct [("Kind", TStr); ("APIVersion", TStr)];
  ObjectMeta := TStruct [("Name", TStr); ("Labels", TMap TStr); ("Finalizers", TSlice TStr)];
  ListMeta := TStruct [("ResourceVersion", TStr); ("RemainingItemCount", TPtr TInt)];
  LocalObjectReference := namedType;
  Toleration := TStruct [("Key", TStr); ("TolerationSeconds", TPtr TInt)];
  Affinity := TStruct [("NodeAffinity", TPtr namedType)];
  SecretKeySelector := keyType;
  ConfigMapKeySelector := keyType;
  ObjectMeta_DeepCopyInto := copyStruct [("Labels", @copyMap sampleRange); ("Finalizers", copySliceFlat TStr)];
  ListMeta_DeepCopyInto := copyStruct [("RemainingItemCount", copyPtr TInt assign)];
  Toleration_DeepCopyInto := copyStruct [("TolerationSeconds", copyPtr TInt assign)];
  Affinity_DeepCopyInto := copyStruct [("NodeAffinity", copyPtr namedType assign)];
  SecretKeySelector_DeepCopyInto := copyStruct [("Optional", copyPtr TBool assign)];
  ConfigMapKeySelector_DeepCopyInto := copyStruct [("Optional", copyPtr TBool assign)];
  Time_DeepCopy := DeepCopy TTime assign
|}.

Lemma sampleKube_copies : @KubernetesCopies sampleKube.
Proof. split; [done|done|copy_struct..|]. apply DeepCopy_method. auto with copying. Qed.

(** ** A plan *)

Definition sl (a n : nat) : gval := VSlice (Some (mkHeader a 0 n n)).

Definition sampleEvent : gval := VStruct [
  ("ID", VStr "ev-1"); ("ApprovalID", VStr "ap-1"); ("ApprovalMatchedAt", VPtr (Some 3)); ("NodeName", VStr "node-a");
  ("GPUBDF", VStr "0000:03:00.0"); ("Reason", VStr "wedged");
  ("RecoveryType", VStruct [("Type", VStr "sbr"); ("SuggestedType", VStr "")]); ("State", VStr "in-progress");
  ("StateMessage", VStr ""); ("ImageVerifyGeneration", VInt 2); ("DrainStartedAt", VPtr None);
  ("PodsBlockingDrain", VSlice None); ("ClaimsBlockingReset", VSlice None); ("JobName", VStr "job-2");
  ("PastJobs", VSlice (Some (mkHeader 2 0 1 4))); ("LastUpdated", VPtr (Some 3))].

Definition sampleApproval : gval := VStruct [
  ("ID", VStr "ap-1"); ("EventID", VStr ""); ("Selector", VPtr (Some 5)); ("Override", VPtr None); ("Persistent", VBool false);
  ("Consumed", VBool false); ("Comment", VStr "")].

Definition samplePlan : gval := VStruct [
  ("TypeMeta", VStruct [("Kind", VStr "GPURecoveryPlan"); ("APIVersion", VStr "intel.com/v1alpha1")]);
  ("ObjectMeta", VStruct [("Name", VStr "plan"); ("Labels", VMap None); ("Finalizers", VSlice None)]);
  ("Spec", VStruct [
     ("DeviceID", VStr "0x1234"); ("SubDeviceID", VStr ""); ("SubVendorID", VStr ""); ("Approvals", sl 4 1);
     ("XpuSmi", VStruct [("Image", VStr "xpu"); ("PullPolicy", VStr ""); ("InsecureSkipTLSVerify", VBool false)]);
     ("DefaultResetType", VStr "sbr"); ("Firmware", VPtr None); ("Tolerations", VSlice None);
     ("Drain", VStruct [("Enable", VPtr None); ("TimeoutSeconds", VInt 300); ("NamespacesToSkip", VSlice None)]);
     ("Timeouts", VStruct [("ResetSeconds", VInt 60); ("ReflashSeconds", VInt 600)]); ("SkipImageVerification", VBool false)]);
  ("Status", VStruct [("State", VStr "active"); ("Messages", VSlice None); ("Events", sl 1 1)])].

Definition sampleHeap : memory := [
  CVal samplePlan; CArr [sampleEvent]; CArr [VStr "job-1"; VStr ""; VStr ""; VStr ""]; CVal (VTime 100);
  CArr [sampleApproval];
  CVal (VStruct [("RecoveryType", VStr "sbr"); ("NodeName", VStr ""); ("NodeSelector", VMap (Some 6))]);
  CMap {["zone" := VStr "a"]}].

Lemma sampleHeap_typed : typed (TPtr (@GPURecoveryPlan_type sampleKube)) sampleHeap (VPtr (Some 0)).
Proof. apply wellTyped_typed. vm_compute. reflexivity. Qed.

(** ** Editing the plan *)

(** The event is settled in place: [ev.State = "succeeded"], [ev.PastJobs = append(ev.PastJobs, ev.JobName)], which has room
    in the backing array, and the approval is marked consumed. *)
Definition settledEvent (v : gval) : gval :=
  match v with
  | VStruct xs => VStruct (setField "PastJobs" (VSlice (Some (mkHeader 2 0 2 4))) (setField "State" (VStr "succeeded") xs))
  | _ => v
  end.
Definition consumedApproval (v : gval) : gval := match v with VStruct xs => VStruct (setField "Consumed" (VBool true) xs) | _ => v end.
Definition edited (h : memory) : memory :=
  <[4 := CArr [consumedApproval sampleApproval]]> (<[2 := CArr [VStr "job-1"; VStr "job-2"; VStr ""; VStr ""]]>
    (<[1 := CArr [settledEvent sampleEvent]]> h)).
