(* ===== verification/DeepCopyFacts.v ===== *)
(** * The deep copy code copies deeply

    One lemma for each type, all by the same argument: every field that can hold a reference has a statement, and the
    statement copies a field of its type.  Then the promise of [DeepCopy] and [DeepCopyObject] for all of them. *)

From S2P Require Import Prelude.
From S2P Require Import GoMemory.
From S2P Require Import GoCopy.
From S2P Require Import DeepCopyCode.
From S2P Require Import DeepCopySample.

Section deep_copy_facts.
Context `{!MapRange, !Kubernetes, !KubernetesCopies}.

Lemma ApprovalSelector_copies : copies ApprovalSelector_type ApprovalSelector_DeepCopyInto.
Proof. copy_struct. Qed.
#[local] Hint Resolve ApprovalSelector_copies : copying.
Lemma ContainerFirmwareSource_copies : copies ContainerFirmwareSource_type ContainerFirmwareSource_DeepCopyInto.
Proof. copy_struct. Qed.
#[local] Hint Resolve ContainerFirmwareSource_copies : copying.
Lemma DrainSpec_copies : copies DrainSpec_type DrainSpec_DeepCopyInto.
Proof. copy_struct. Qed.
#[local] Hint Resolve DrainSpec_copies : copying.
Lemma VolumeFirmwareSource_copies : copies VolumeFirmwareSource_type VolumeFirmwareSource_DeepCopyInto.
Proof. copy_struct. Qed.
#[local] Hint Resolve VolumeFirmwareSource_copies : copying.
Lemma FirmwareSource_copies : copies FirmwareSource_type FirmwareSource_DeepCopyInto.
Proof. copy_struct. Qed.
#[local] Hint Resolve FirmwareSource_copies : copying.
Lemma FirmwareSpec_copies : copies FirmwareSpec_type FirmwareSpec_DeepCopyInto.
Proof. copy_struct. Qed.
#[local] Hint Resolve FirmwareSpec_copies : copying.
Lemma RecoveryOverride_copies : copies RecoveryOverride_type RecoveryOverride_DeepCopyInto.
Proof. copy_struct. Qed.
#[local] Hint Resolve RecoveryOverride_copies : copying.
Lemma RecoveryApproval_copies : copies RecoveryApproval_type RecoveryApproval_DeepCopyInto.
Proof. copy_struct. Qed.
#[local] Hint Resolve RecoveryApproval_copies : copying.
Lemma XpuSmiSpec_copies : copies XpuSmiSpec_type XpuSmiSpec_DeepCopyInto.
Proof. copy_struct. Qed.
#[local] Hint Resolve XpuSmiSpec_copies : copying.
Lemma RecoveryTimeoutsSpec_copies : copies RecoveryTimeoutsSpec_type RecoveryTimeoutsSpec_DeepCopyInto.
Proof. copy_struct. Qed.
#[local] Hint Resolve RecoveryTimeoutsSpec_copies : copying.
Lemma GPURecoveryPlanSpec_copies : copies GPURecoveryPlanSpec_type GPURecoveryPlanSpec_DeepCopyInto.
Proof. copy_struct. Qed.
#[local] Hint Resolve GPURecoveryPlanSpec_copies : copying.
Lemma RecoveryTypeSpec_copies : copies RecoveryTypeSpec_type RecoveryTypeSpec_DeepCopyInto.
Proof. copy_struct. Qed.
#[local] Hint Resolve RecoveryTypeSpec_copies : copying.
Lemma RecoveryEvent_copies : copies RecoveryEvent_type RecoveryEvent_DeepCopyInto.
Proof. copy_struct. Qed.
#[local] Hint Resolve RecoveryEvent_copies : copying.
Lemma GPURecoveryPlanStatus_copies : copies GPURecoveryPlanStatus_type GPURecoveryPlanStatus_DeepCopyInto.
Proof. copy_struct. Qed.
#[local] Hint Resolve GPURecoveryPlanStatus_copies : copying.
Lemma GPURecoveryPlan_copies : copies GPURecoveryPlan_type GPURecoveryPlan_DeepCopyInto.
Proof. copy_struct. Qed.
#[local] Hint Resolve GPURecoveryPlan_copies : copying.
Lemma GPURecoveryPlanCustomDefaulter_copies : copies GPURecoveryPlanCustomDefaulter_type GPURecoveryPlanCustomDefaulter_DeepCopyInto.
Proof. copy_struct. Qed.
#[local] Hint Resolve GPURecoveryPlanCustomDefaulter_copies : copying.
Lemma GPURecoveryPlanCustomValidator_copies : copies GPURecoveryPlanCustomValidator_type GPURecoveryPlanCustomValidator_DeepCopyInto.
Proof. copy_struct. Qed.
#[local] Hint Resolve GPURecoveryPlanCustomValidator_copies : copying.
Lemma GPURecoveryPlanList_copies : copies GPURecoveryPlanList_type GPURecoveryPlanList_DeepCopyInto.
Proof. copy_struct. Qed.
#[local] Hint Resolve GPURecoveryPlanList_copies : copying.
Lemma GPUFirmwareFile_copies : copies GPUFirmwareFile_type GPUFirmwareFile_DeepCopyInto.
Proof. copy_struct. Qed.
#[local] Hint Resolve GPUFirmwareFile_copies : copying.
Lemma GPUFirmwareContent_copies : copies GPUFirmwareContent_type GPUFirmwareContent_DeepCopyInto.
Proof. copy_struct. Qed.
#[local] Hint Resolve GPUFirmwareContent_copies : copying.
Lemma GPUFirmwareUpdateSpec_copies : copies GPUFirmwareUpdateSpec_type GPUFirmwareUpdateSpec_DeepCopyInto.
Proof. copy_struct. Qed.
#[local] Hint Resolve GPUFirmwareUpdateSpec_copies : copying.
Lemma GPUFirmwareUpdateSubsetStatus_copies : copies GPUFirmwareUpdateSubsetStatus_type GPUFirmwareUpdateSubsetStatus_DeepCopyInto.
Proof. copy_struct. Qed.
#[local] Hint Resolve GPUFirmwareUpdateSubsetStatus_copies : copying.
Lemma GPUFirmwareUpdateStatus_copies : copies GPUFirmwareUpdateStatus_type GPUFirmwareUpdateStatus_DeepCopyInto.
Proof. copy_struct. Qed.
#[local] Hint Resolve GPUFirmwareUpdateStatus_copies : copying.
Lemma GPUFirmwareUpdate_copies : copies GPUFirmwareUpdate_type GPUFirmwareUpdate_DeepCopyInto.
Proof. copy_struct. Qed.
#[local] Hint Resolve GPUFirmwareUpdate_copies : copying.
Lemma GPUFirmwareUpdateCustomValidator_copies : copies GPUFirmwareUpdateCustomValidator_type GPUFirmwareUpdateCustomValidator_DeepCopyInto.
Proof. copy_struct. Qed.
#[local] Hint Resolve GPUFirmwareUpdateCustomValidator_copies : copying.
Lemma GPUFirmwareUpdateList_copies : copies GPUFirmwareUpdateList_type GPUFirmwareUpdateList_DeepCopyInto.
Proof. copy_struct. Qed.
#[local] Hint Resolve GPUFirmwareUpdateList_copies : copying.
Lemma BuildArg_copies : copies BuildArg_type BuildArg_DeepCopyInto.
Proof. copy_struct. Qed.
#[local] Hint Resolve BuildArg_copies : copying.
Lemma CDISpec_copies : copies CDISpec_type CDISpec_DeepCopyInto.
Proof. copy_struct. Qed.
#[local] Hint Resolve CDISpec_copies : copying.
Lemma LocalQueueSpec_copies : copies LocalQueueSpec_type LocalQueueSpec_DeepCopyInto.
Proof. copy_struct. Qed.
#[local] Hint Resolve LocalQueueSpec_copies : copying.
Lemma ClusterQueueSpec_copies : copies ClusterQueueSpec_type ClusterQueueSpec_DeepCopyInto.
Proof. copy_struct. Qed.
#[local] Hint Resolve ClusterQueueSpec_copies : copying.
Lemma KueueQueueSpec_copies : copies KueueQueueSpec_type KueueQueueSpec_DeepCopyInto.
Proof. copy_struct. Qed.
#[local] Hint Resolve KueueQueueSpec_copies : copying.
Lemma HealthinessSpec_copies : copies HealthinessSpec_type HealthinessSpec_DeepCopyInto.
Proof. copy_struct. Qed.
#[local] Hint Resolve HealthinessSpec_copies : copying.
Lemma DynamicResourceAllocationSpec_copies : copies DynamicResourceAllocationSpec_type DynamicResourceAllocationSpec_DeepCopyInto.
Proof. copy_struct. Qed.
#[local] Hint Resolve DynamicResourceAllocationSpec_copies : copying.
Lemma DevicePluginSpec_copies : copies DevicePluginSpec_type DevicePluginSpec_DeepCopyInto.
Proof. copy_struct. Qed.
#[local] Hint Resolve DevicePluginSpec_copies : copying.
Lemma OTLPHeader_copies : copies OTLPHeader_type OTLPHeader_DeepCopyInto.
Proof. copy_struct. Qed.
#[local] Hint Resolve OTLPHeader_copies : copying.
Lemma OTLPTLSSpec_copies : copies OTLPTLSSpec_type OTLPTLSSpec_DeepCopyInto.
Proof. copy_struct. Qed.
#[local] Hint Resolve OTLPTLSSpec_copies : copying.
Lemma OTLPExporterSpec_copies : copies OTLPExporterSpec_type OTLPExporterSpec_DeepCopyInto.
Proof. copy_struct. Qed.
#[local] Hint Resolve OTLPExporterSpec_copies : copying.
Lemma OTLPSpec_copies : copies OTLPSpec_type OTLPSpec_DeepCopyInto.
Proof. copy_struct. Qed.
#[local] Hint Resolve OTLPSpec_copies : copying.
Lemma XpuManagerSpec_copies : copies XpuManagerSpec_type XpuManagerSpec_DeepCopyInto.
Proof. copy_struct. Qed.
#[local] Hint Resolve XpuManagerSpec_copies : copying.
Lemma KernelModuleBuildSpec_copies : copies KernelModuleBuildSpec_type KernelModuleBuildSpec_DeepCopyInto.
Proof. copy_struct. Qed.
#[local] Hint Resolve KernelModuleBuildSpec_copies : copying.
Lemma RegistryTLSSpec_copies : copies RegistryTLSSpec_type RegistryTLSSpec_DeepCopyInto.
Proof. copy_struct. Qed.
#[local] Hint Resolve RegistryTLSSpec_copies : copying.
Lemma KernelMappingSpec_copies : copies KernelMappingSpec_type KernelMappingSpec_DeepCopyInto.
Proof. copy_struct. Qed.
#[local] Hint Resolve KernelMappingSpec_copies : copying.
Lemma KernelModuleSpec_copies : copies KernelModuleSpec_type KernelModuleSpec_DeepCopyInto.
Proof. copy_struct. Qed.
#[local] Hint Resolve KernelModuleSpec_copies : copying.
Lemma ClusterPolicySpec_copies : copies ClusterPolicySpec_type ClusterPolicySpec_DeepCopyInto.
Proof. copy_struct. Qed.
#[local] Hint Resolve ClusterPolicySpec_copies : copying.
Lemma ClusterPolicyStatus_copies : copies ClusterPolicyStatus_type ClusterPolicyStatus_DeepCopyInto.
Proof. copy_struct. Qed.
#[local] Hint Resolve ClusterPolicyStatus_copies : copying.
Lemma ClusterPolicy_copies : copies ClusterPolicy_type ClusterPolicy_DeepCopyInto.
Proof. copy_struct. Qed.
#[local] Hint Resolve ClusterPolicy_copies : copying.
Lemma ClusterPolicyCustomDefaulter_copies : copies ClusterPolicyCustomDefaulter_type ClusterPolicyCustomDefaulter_DeepCopyInto.
Proof. copy_struct. Qed.
#[local] Hint Resolve ClusterPolicyCustomDefaulter_copies : copying.
Lemma ClusterPolicyCustomValidator_copies : copies ClusterPolicyCustomValidator_type ClusterPolicyCustomValidator_DeepCopyInto.
Proof. copy_struct. Qed.
#[local] Hint Resolve ClusterPolicyCustomValidator_copies : copying.
Lemma ClusterPolicyList_copies : copies ClusterPolicyList_type ClusterPolicyList_DeepCopyInto.
Proof. copy_struct. Qed.
#[local] Hint Resolve ClusterPolicyList_copies : copying.

(** Every method of the tables is the one of a type whose [DeepCopyInto] copies. *)
Lemma deepCopies_generated n t f : (n, t, f) ∈ deepCopies → ∃ into, copies t into ∧ f = DeepCopy t into.
Proof.
  unfold deepCopies. intros Hin. repeat (apply elem_of_cons in Hin as [[= -> -> ->]|Hin]; [eexists; split; [|reflexivity]; auto with copying|]).
  by apply not_elem_of_nil in Hin.
Qed.

Lemma deepCopyObjects_generated n t g : (n, t, g) ∈ deepCopyObjects → ∃ into, copies t into ∧ g = DeepCopyObject n t into.
Proof.
  unfold deepCopyObjects. intros Hin. repeat (apply elem_of_cons in Hin as [[= -> -> ->]|Hin]; [eexists; split; [|reflexivity]; auto with copying|]).
  by apply not_elem_of_nil in Hin.
Qed.

(** C25: The deep copy of every API type, and [DeepCopyObject] of every object and list, returns for every well-formed
    object without a panic; the copy has the content the object had, and keeps it whatever is later written to memory
    that existed before or is allocated afterwards, while nothing written to the memory of the copy shows in the
    original.  The copy of a nil pointer is nil, and as an interface it is the nil interface, not one that holds a nil
    pointer. *)
Theorem deep_copies_isolated h :
  (∀ n t f, (n, t, f) ∈ deepCopies →
     f None h = Some (None, h) ∧
     ∀ l, typed (TPtr t) h (VPtr (Some l)) → ∃ l' h', f (Some l) h = Some (Some l', h') ∧ isolatedCopy t h l h' l') ∧
  (∀ n t g, (n, t, g) ∈ deepCopyObjects →
     g None h = Some (INil, h) ∧
     ∀ l, typed (TPtr t) h (VPtr (Some l)) → ∃ l' h', g (Some l) h = Some (IPtr n (Some l'), h') ∧ isolatedCopy t h l h' l').
Proof.
  split; intros n t f Hin.
  - apply deepCopies_generated in Hin as (into & Hc & ->). split; [done|]. intros l Hl.
    apply method_isolated; [by apply DeepCopy_method|done].
  - apply deepCopyObjects_generated in Hin as (into & Hc & ->). split; [done|]. intros l Hl.
    destruct (method_isolated _ _ _ _ (DeepCopy_method _ _ Hc) Hl) as (l' & h' & E & Hi). exists l', h'. split; [|done].
    unfold DeepCopyObject. by rewrite (mbind_run _ _ _ _ _ E).
Qed.
End deep_copy_facts.

Lemma deep_copies_isolated_witness : ∃ l' h',
  @GPURecoveryPlan_DeepCopyObject sampleRange sampleKube (Some 0) sampleHeap = Some (IPtr "GPURecoveryPlan" (Some l'), h') ∧
  isolatedCopy (@GPURecoveryPlan_type sampleKube) sampleHeap 0 h' l'.
Proof.
  apply (proj2 (@deep_copies_isolated sampleRange sampleKube sampleKube_copies sampleHeap) "GPURecoveryPlan"
    (@GPURecoveryPlan_type sampleKube) (@GPURecoveryPlan_DeepCopyObject sampleRange sampleKube)).
  - apply elem_of_cons. by left.
  - exact sampleHeap_typed.
Defined.
