(* ===== verification/Manifests.v ===== *)
(** * The embedded manifests

    [config/deployments/deployments.go] and [config/samples/samples.go]: a manifest is embedded in the binary as text,
    decoded on every call into a new object, and copied before it is handed out.  Callers edit what they get in place
    (container images, arguments, mounts), in pass after pass; here it is shown that no edit reaches a later call.
    The values that manifests decode to, where passes use them, are in [PolicyDaemonSets] (also the two device classes,
    which are edited before they are returned), [PolicyXpum], [PolicyMisc] and [RecoveryNaming].

    The decoder, the types of the Kubernetes libraries and the embedded bytes, by the path of the directive, are
    parameters. *)

From S2P Require Import Prelude.
From S2P Require Import GoMemory.
From S2P Require Import GoCopy.
From S2P Require Import DeepCopyCode.
From S2P Require Import DeepCopySample.

(** ** What the code is given *)

Inductive kind :=
| DaemonSet | Service | ServiceAccount | ClusterRole | ClusterRoleBinding
| ValidatingAdmissionPolicy | ValidatingAdmissionPolicyBinding | DeviceClass | ResourceClaimTemplate | NodeFeatureRule | ServiceMonitor | Job.

(** [yaml.Unmarshal] into a variable of the type: what it leaves there, or that it fails. *)
Class Decoder := {
  unmarshal : gtype → string → Mem (option gval);
  embedded : string → string;
  kindType : kind → gtype;
  kindCopy : kind → option nat → Mem (option nat);
  AnyValue : gtype;                       (* interface{} *)
  Float64 : gtype
}.

(** The decoder returns, it leaves memory alone that exists, and whether it fails and what content it decodes depends
    on the text only.  [DeepCopy] copies. *)
Class DecoderLaws `{!Decoder} : Prop := {
  unmarshal_new : ∀ t s h, ∃ r h', unmarshal t s h = Some (r, h') ∧ h `prefix_of` h' ∧
    ∀ v, r = Some v → typed t h' v ∧ ∀ k, reach t h' v k → length h ≤ k;
  unmarshal_text : ∀ t s h1 h2 r1 r2 h1' h2',
    unmarshal t s h1 = Some (r1, h1') → unmarshal t s h2 = Some (r2, h2') →
    match r1, r2 with Some v1, Some v2 => same t h1' v1 h2' v2 | None, None => True | _, _ => False end;
  kind_copies : ∀ k, methodCopies (kindType k) (kindCopy k)
}.

Section manifests.
Context `{!Decoder}.

(** ** The collector configuration *)

Definition InfoLogsConfig_type : gtype := TStruct [
  ("Enabled", TBool); ("InstanceName", TStr)].
Definition IntelXPUReceiver_type : gtype := TStruct [
  ("CollectionInterval", TStr); ("InitialDelay", TStr); ("Timeout", TInt); ("SamplingInterval", TStr);
  ("FailOnSysmanInit", TBool); ("InfoLogs", TPtr InfoLogsConfig_type); ("Metrics", TMap AnyValue)].
Definition IntelCrashlogReceiver_type : gtype := TStruct [
  ("Directory", TStr); ("Glob", TStr); ("IgnoreOlderThan", TStr); ("AddAttributes", TMap TStr)].
Definition OTelReceivers_type : gtype := TStruct [
  ("IntelXPU", IntelXPUReceiver_type); ("IntelCrashlog", TPtr IntelCrashlogReceiver_type)].
Definition KeyValues_type : gtype := TStruct [
  ("Key", TStr); ("Values", TSlice TStr)].
Definition StateCondition_type : gtype := TStruct [
  ("Value", Float64); ("ParentFilters", TSlice KeyValues_type)].
Definition StatusState_type : gtype := TStruct [
  ("StateName", TStr); ("Conditions", TSlice StateCondition_type)].
Definition StatusRule_type : gtype := TStruct [
  ("Name", TStr); ("SourceMetric", TStr); ("ParentMetric", TStr); ("ParentRefAttribute", TStr);
  ("ParentFilters", TSlice KeyValues_type); ("ComponentFilters", TSlice KeyValues_type);
  ("CopyAttributes", TSlice TStr); ("AddAttributes", TMap TStr); ("States", TSlice StatusState_type)].
Definition IntelXPUStatusProcessor_type : gtype := TStruct [
  ("Rules", TSlice StatusRule_type)].
Definition OTelProcessors_type : gtype := TStruct [
  ("IntelXPUStatus", IntelXPUStatusProcessor_type)].
Definition HWSeverityMapping_type : gtype := TStruct [
  ("Severity", TStr); ("Message", TStr)].
Definition HWStatusMapping_type : gtype := TStruct [
  ("HealthDomain", TStr); ("Filters", TSlice KeyValues_type); ("StateMapping", TMap HWSeverityMapping_type)].
Definition IntelXPUInfoExporter_type : gtype := TStruct [
  ("Endpoint", TStr); ("HWStatusMappings", TSlice HWStatusMapping_type)].
Definition PrometheusExporter_type : gtype := TStruct [
  ("Endpoint", TStr)].
Definition OTLPExporterTLS_type : gtype := TStruct [
  ("Insecure", TBool); ("InsecureSkipVerify", TBool); ("CAFile", TStr); ("CertFile", TStr); ("KeyFile", TStr);
  ("ServerNameOverride", TStr)].
Definition OTLPExporter_type : gtype := TStruct [
  ("Endpoint", TStr); ("Headers", TMap TStr); ("TLS", TPtr OTLPExporterTLS_type)].
Definition OTelExporters_type : gtype := TStruct [
  ("IntelXPUInfo", IntelXPUInfoExporter_type); ("Prometheus", PrometheusExporter_type);
  ("OTLPHTTP", TPtr OTLPExporter_type); ("OTLPGRPC", TPtr OTLPExporter_type)].
Definition OTelLogs_type : gtype := TStruct [
  ("Level", TStr); ("DisableStacktrace", TBool)].
Definition OTelTelemetry_type : gtype := TStruct [
  ("Logs", OTelLogs_type)].
Definition PipelineMetrics_type : gtype := TStruct [
  ("Receivers", TSlice TStr); ("Processors", TSlice TStr); ("Exporters", TSlice TStr)].
Definition PipelineLogs_type : gtype := TStruct [
  ("Receivers", TSlice TStr); ("Processors", TSlice TStr); ("Exporters", TSlice TStr)].
Definition OTelPipelines_type : gtype := TStruct [
  ("Metrics", PipelineMetrics_type); ("Logs", TPtr PipelineLogs_type)].
Definition OTelService_type : gtype := TStruct [
  ("Telemetry", OTelTelemetry_type); ("Pipelines", OTelPipelines_type)].
Definition OTelConfig_type : gtype := TStruct [
  ("Receivers", OTelReceivers_type); ("Processors", OTelProcessors_type); ("Exporters", OTelExporters_type);
  ("Extensions", TMap AnyValue); ("Service", OTelService_type)].

(** ** Decoding *)

(** [var result T; err := yaml.Unmarshal(content, &result); if err != nil { panic(err) }; return &result]. *)
Definition getManifest (t : gtype) (content : string) : Mem nat :=
  result ← new t;
  r ← unmarshal t content;
  match r with
  | Some v => _ ← store result v; mret result
  | None => fault
  end.

Definition getDaemonset (content : string) : Mem nat := getManifest (kindType DaemonSet) content.
Definition getService (content : string) : Mem nat := getManifest (kindType Service) content.
Definition getServiceAccount (content : string) : Mem nat := getManifest (kindType ServiceAccount) content.
Definition getClusterRole (content : string) : Mem nat := getManifest (kindType ClusterRole) content.
Definition getClusterRoleBinding (content : string) : Mem nat := getManifest (kindType ClusterRoleBinding) content.
Definition getAdmissionPolicy (content : string) : Mem nat := getManifest (kindType ValidatingAdmissionPolicy) content.
Definition getAdmissionPolicyBinding (content : string) : Mem nat := getManifest (kindType ValidatingAdmissionPolicyBinding) content.
Definition getDeviceClass (content : string) : Mem nat := getManifest (kindType DeviceClass) content.
Definition getResourceClaimTemplate (content : string) : Mem nat := getManifest (kindType ResourceClaimTemplate) content.
Definition getNodeFeatureRule (content : string) : Mem nat := getManifest (kindType NodeFeatureRule) content.
Definition getServiceMonitor (content : string) : Mem nat := getManifest (kindType ServiceMonitor) content.
Definition getJob (content : string) : Mem nat := getManifest (kindType Job) content.
Definition getOTelConfig (content : string) : Mem nat := getManifest OTelConfig_type content.

(** ** The manifests *)

Definition loadXpuManagerDaemonset : Mem (option nat) :=
  result ← getDaemonset (embedded "xpum/xpum.yaml"); kindCopy DaemonSet (Some result).
Definition loadXpuManagerOTelConfig : Mem (option nat) :=
  result ← getOTelConfig (embedded "xpum/otel-config.yaml"); mret (Some result).
Definition loadDevicePluginDaemonset : Mem (option nat) :=
  result ← getDaemonset (embedded "dp/dp.yaml"); kindCopy DaemonSet (Some result).
Definition loadDynamicResourceAllocationDaemonset : Mem (option nat) :=
  result ← getDaemonset (embedded "dra/daemonset.yaml"); kindCopy DaemonSet (Some result).
Definition loadDynamicResourceAllocationClusterRole : Mem (option nat) :=
  result ← getClusterRole (embedded "dra/clusterrole.yaml"); kindCopy ClusterRole (Some result).
Definition loadDynamicResourceAllocationClusterRoleBinding : Mem (option nat) :=
  result ← getClusterRoleBinding (embedded "dra/clusterrolebinding.yaml");
  kindCopy ClusterRoleBinding (Some result).
Definition loadDynamicResourceAllocationServiceAccount : Mem (option nat) :=
  result ← getServiceAccount (embedded "dra/serviceaccount.yaml"); kindCopy ServiceAccount (Some result).
Definition loadDynamicResourceAllocationValidatingAdmissionPolicy : Mem (option nat) :=
  result ← getAdmissionPolicy (embedded "dra/admissionpolicy.yaml");
  kindCopy ValidatingAdmissionPolicy (Some result).
Definition loadDynamicResourceAllocationValidatingAdmissionPolicyBinding : Mem (option nat) :=
  result ← getAdmissionPolicyBinding (embedded "dra/admissionpolicybinding.yaml");
  kindCopy ValidatingAdmissionPolicyBinding (Some result).
Definition loadDynamicResourceAllocationMonitorClaimTemplate : Mem (option nat) :=
  result ← getResourceClaimTemplate (embedded "dra/monitorclaimtemplate.yaml");
  kindCopy ResourceClaimTemplate (Some result).
Definition loadNFDNodeFeatureRulesGpu : Mem (option nat) :=
  result ← getNodeFeatureRule (embedded "nfd/node-feature-rules-gpu.yaml");
  kindCopy NodeFeatureRule (Some result).
Definition loadPrometheusServiceMonitor : Mem (option nat) :=
  result ← getServiceMonitor (embedded "prometheus/service-monitor.yaml");
  kindCopy ServiceMonitor (Some result).
Definition loadXpuManagerService : Mem (option nat) :=
  result ← getService (embedded "xpum/service.yaml"); kindCopy Service (Some result).
Definition loadXpuManagerFWUpdateJob : Mem (option nat) :=
  result ← getJob (embedded "xpum/xpum-fwupdate-job.yaml"); kindCopy Job (Some result).
Definition loadXpuManagerResetJob : Mem (option nat) :=
  result ← getJob (embedded "xpum/xpum-reset-job.yaml"); kindCopy Job (Some result).

Definition manifests : list (string * gtype * Mem (option nat)) := [
    ("XpuManagerDaemonset", kindType DaemonSet, loadXpuManagerDaemonset);
    ("XpuManagerOTelConfig", OTelConfig_type, loadXpuManagerOTelConfig);
    ("DevicePluginDaemonset", kindType DaemonSet, loadDevicePluginDaemonset);
    ("DynamicResourceAllocationDaemonset", kindType DaemonSet, loadDynamicResourceAllocationDaemonset);
    ("DynamicResourceAllocationClusterRole", kindType ClusterRole, loadDynamicResourceAllocationClusterRole);
    ("DynamicResourceAllocationClusterRoleBinding", kindType ClusterRoleBinding, loadDynamicResourceAllocationClusterRoleBinding);
    ("DynamicResourceAllocationServiceAccount", kindType ServiceAccount, loadDynamicResourceAllocationServiceAccount);
    ("DynamicResourceAllocationValidatingAdmissionPolicy", kindType ValidatingAdmissionPolicy, loadDynamicResourceAllocationValidatingAdmissionPolicy);
    ("DynamicResourceAllocationValidatingAdmissionPolicyBinding", kindType ValidatingAdmissionPolicyBinding, loadDynamicResourceAllocationValidatingAdmissionPolicyBinding);
    ("DynamicResourceAllocationMonitorClaimTemplate", kindType ResourceClaimTemplate, loadDynamicResourceAllocationMonitorClaimTemplate);
    ("NFDNodeFeatureRulesGpu", kindType NodeFeatureRule, loadNFDNodeFeatureRulesGpu);
    ("PrometheusServiceMonitor", kindType ServiceMonitor, loadPrometheusServiceMonitor);
    ("XpuManagerService", kindType Service, loadXpuManagerService);
    ("XpuManagerFWUpdateJob", kindType Job, loadXpuManagerFWUpdateJob);
    ("XpuManagerResetJob", kindType Job, loadXpuManagerResetJob)].

(** ** The images of the sample policies *)

Section samples.
Context `{!Kubernetes}.

Definition getClusterPolicy (content : string) : Mem nat := getManifest ClusterPolicy_type content.

(** [p.F.G.H]. *)
Fixpoint fieldPath (path : list string) (v : gval) : option gval :=
  match path, v with
  | [], _ => Some v
  | n :: path, VStruct xs => x ← fieldOf n xs; fieldPath path x
  | _, _ => None
  end.
Definition loadString (l : nat) (path : list string) : Mem string :=
  reads (λ h, x ← target h l; y ← fieldPath path x; match y with VStr s => Some s | _ => None end).

Definition ListCollateralImages : Mem (gset string) :=
  dpcp ← getClusterPolicy (embedded "deviceplugin/clusterpolicy.yaml");
  dracp ← getClusterPolicy (embedded "dra/clusterpolicy.yaml");
  basecp ← getClusterPolicy (embedded "base/clusterpolicy.yaml");
  dp ← loadString dpcp ["Spec"; "DevicePluginSpec"; "PluginImage"];
  dra ← loadString dracp ["Spec"; "DynamicResourceAllocationSpec"; "Image"];
  xpu ← loadString basecp ["Spec"; "XpuManagerSpec"; "Image"];
  mret ({[dp]} ∪ {[dra]} ∪ {[xpu]}).
End samples.
End manifests.

(** ** Every call gives a new object *)

Section facts.
Context `{!Decoder, !DecoderLaws}.

Definition accepted (t : gtype) (s : string) : Prop := ∃ h v h', unmarshal t s h = Some (Some v, h').

(** The object has the content of the text. *)
Definition holdsText (t : gtype) (s : string) (h : memory) (l : nat) : Prop :=
  ∀ hd v hd', unmarshal t s hd = Some (Some v, hd') → ∃ x, target h l = Some x ∧ same t hd' v h x.

(** The object consists of memory that is new. *)
Definition newObject (t : gtype) (h h' : memory) (l : nat) : Prop :=
  h `prefix_of` h' ∧ typed (TPtr t) h' (VPtr (Some l)) ∧ ∀ k, reach (TPtr t) h' (VPtr (Some l)) k → length h ≤ k.

Lemma getManifest_new t s h : accepted t s → ∃ l h', getManifest t s h = Some (l, h') ∧ newObject t h h' l ∧ holdsText t s h' l.
Proof.
  intros (hd & w & hd' & Hw). set (h1 := h ++ [CVal (zero t)]).
  assert (Hl1 : length h1 = S (length h)) by (unfold h1; rewrite length_app; cbn; lia).
  destruct (unmarshal_new t s h1) as (r & h2 & E & Hp & Hr).
  destruct r as [v|]; [|by pose proof (unmarshal_text _ _ _ _ _ _ _ _ Hw E)].
  destruct (Hr v eq_refl) as [Hv Hn].
  assert (Hlt : length h < length h2) by (apply prefix_of_length in Hp; lia).
  assert (Hs : ∀ hd v0 hd', unmarshal t s hd = Some (Some v0, hd') → same t hd' v0 (<[length h := CVal v]> h2) v).
  { intros hd0 v0 hd0' E0. pose proof (unmarshal_text _ _ _ _ _ _ _ _ E0 E) as Hsame. cbn in Hsame.
    eapply write_below; [done|exact Hn|lia]. }
  assert (Hx : target (<[length h := CVal v]> h2) (length h) = Some v) by (unfold target; by rewrite list_lookup_insert_eq).
  assert (Hp' : h `prefix_of` <[length h := CVal v]> h2) by (apply prefix_write; [etrans; [apply alloc_prefix|exact Hp]|done]).
  exists (length h), (<[length h := CVal v]> h2). split_and!.
  - unfold getManifest. erewrite mbind_run by done. rewrite (mbind_run _ _ _ _ _ E). erewrite mbind_run by (by apply write_run). done.
  - split_and!; [done| |].
    + exists v, v. split_and!; [done..|]. eapply same_trans; [apply same_sym|]; by eapply Hs.
    + cbn. intros k [->|(x & Hx' & Hk)]; [done|]. simplify_eq.
      destruct (write_below t h2 v h2 v (length h) (CVal v) (length h1) Hv Hn) as [_ Hb]; [lia|]. specialize (Hb k Hk). lia.
  - intros hd0 v0 hd0' E0. exists v. split; [done|]. by eapply Hs.
Qed.

Lemma getManifest_panics t s h : ¬ accepted t s → getManifest t s h = None.
Proof.
  intros Hn. destruct (unmarshal_new t s (h ++ [CVal (zero t)])) as (r & h2 & E & _ & _). unfold getManifest.
  erewrite mbind_run by done. rewrite (mbind_run _ _ _ _ _ E). destruct r as [v|]; [|done]. destruct Hn. by exists (h ++ [CVal (zero t)]), v, h2.
Qed.

(** Handing out the object, or a copy of it. *)
Definition handsOut (t : gtype) (out : nat → Mem (option nat)) : Prop :=
  (∀ l, out l = mret (Some l)) ∨ ∃ method, methodCopies t method ∧ ∀ l, out l = method (Some l).

Lemma handsOut_new t s h out : handsOut t out → accepted t s →
  ∃ l h', (result ← getManifest t s; out result) h = Some (Some l, h') ∧ newObject t h h' l ∧ holdsText t s h' l.
Proof.
  intros Ho Ha. destruct (getManifest_new t s h Ha) as (l & h1 & E & (Hp & Ht & Hr) & Hc). rewrite (mbind_run _ _ _ _ _ E).
  destruct Ho as [Ho|(method & Hm & Ho)]; rewrite Ho; [by exists l, h1|].
  destruct (Hm h1 l Ht) as (l' & h' & E' & Hp' & Hs & Hr'). exists l', h'. split_and!; [done| |].
  - split_and!; [by etrans|eapply same_trans; [by apply same_sym|done]|]. intros k Hk. specialize (Hr' k Hk).
    apply prefix_of_length in Hp. lia.
  - intros hd v hd' Ev. destruct (Hc _ _ _ Ev) as (x & Hx & Hvx). destruct Hs as (x' & y & Hx' & Hy & Hxy). simplify_eq.
    exists y. split; [done|]. by eapply same_trans.
Qed.

Lemma manifests_generated n t load : (n, t, load) ∈ manifests →
  ∃ path out, handsOut t out ∧ load = (result ← getManifest t (embedded path); out result).
Proof.
  unfold manifests. intros Hin.
  repeat (apply elem_of_cons in Hin as [[= -> -> ->]|Hin];
    [eexists _, _; split; [|reflexivity]; first [by left|right; eexists; split; [apply kind_copies|done]]|]).
  by apply not_elem_of_nil in Hin.
Qed.

(** A manifest either panics on every call, because its text does not decode, or every call returns; then what it
    returns is new, and has the content of the text: two calls return equal objects whatever was done to the memory of
    the first in between. *)
Theorem manifests_new n t load : (n, t, load) ∈ manifests →
  (∀ h, load h = None) ∨
  (∀ h, ∃ l h', load h = Some (Some l, h') ∧ newObject t h h' l) ∧
  (∀ h1 l1 h1' h2 l2 h2', load h1 = Some (Some l1, h1') → load h2 = Some (Some l2, h2') →
     same (TPtr t) h1' (VPtr (Some l1)) h2' (VPtr (Some l2))).
Proof.
  intros (path & out & Ho & ->)%manifests_generated. set (s := embedded path).
  destruct (unmarshal_new t s []) as (r & h0 & E0 & _ & _). destruct r as [v|].
  - right. assert (Ha : accepted t s) by (by exists [], v, h0). split.
    + intros h. destruct (handsOut_new t s h out Ho Ha) as (l & h' & E & Hn & _). eauto.
    + intros h1 l1 h1' h2 l2 h2' E1 E2.
      destruct (handsOut_new t s h1 out Ho Ha) as (l & h & E & _ & Hc1). rewrite E in E1. injection E1 as -> ->.
      destruct (handsOut_new t s h2 out Ho Ha) as (l & h & E' & _ & Hc2). rewrite E' in E2. injection E2 as -> ->.
      destruct (Hc1 _ _ _ E0) as (x & Hx & Hvx), (Hc2 _ _ _ E0) as (y & Hy & Hvy).
      exists x, y. split_and!; [done..|]. eapply same_trans; [by apply same_sym|done].
  - left. intros h. unfold mbind, Mem_bind. rewrite getManifest_panics; [done|]. intros (h1 & w & h1' & E1).
    by pose proof (unmarshal_text _ _ _ _ _ _ _ _ E1 E0).
Qed.
End facts.

(** ** An instance *)

(** A decoder that knows documents without fields. *)
Definition sampleDecoder : Decoder := {|
  unmarshal := λ t s, mret (if decide (s = "{}") then Some (zero t) else None);
  embedded := λ path, if decide (path = "dp/dp.yaml") then "{}" else "";
  kindType := λ _, namedType;
  kindCopy := λ _, DeepCopy namedType assign;
  AnyValue := TStr;
  Float64 := TInt
|}.

Lemma sampleDecoder_laws : @DecoderLaws sampleDecoder.
Proof.
  split.
  - intros t s h. eexists _, h. split; [reflexivity|]. split; [done|]. intros v. case_decide; [|done]. intros [= <-].
    split; [apply zero_same|]. intros k Hk. by apply zero_reach in Hk.
  - intros t s h1 h2 r1 r2 h1' h2'. cbn. intros [= <- <-] [= <- <-]. case_decide; [apply zero_same|done].
  - intros k. apply DeepCopy_method, assign_copies. done.
Qed.

Example samples_load :
  @loadDevicePluginDaemonset sampleDecoder sampleHeap = Some (Some 8, sampleHeap ++ [CVal (zero namedType); CVal (zero namedType)]) ∧
  @loadXpuManagerDaemonset sampleDecoder sampleHeap = None.
Proof. vm_compute. done. Qed.
