(* ===== verification/GoStrings.v ===== *)
(** * Go strings

    A Go string is a byte sequence; the model uses [String.string], whose characters are bytes.
    This file holds what the operator uses of the packages [strings], [unicode/utf8],
    [encoding/hex] and [path/filepath], and the byte-level lemmas about them. *)

From Stdlib Require Import Ascii NArith Lia.
From S2P Require Import Prelude.

Abbreviation s2l := String.list_ascii_of_string.
Abbreviation l2s := String.string_of_list_ascii.

(** [len(s)], in bytes. *)
Definition slen (s : string) : nat := String.length s.

Lemma s2l_app s t : s2l (s +:+ t) = s2l s ++ s2l t.
Proof. induction s as [|a s IH]; simpl; [done|]. by rewrite IH. Qed.

Lemma l2s_app l k : l2s (l ++ k) = l2s l +:+ l2s k.
Proof. induction l as [|a l IH]; simpl; [done|]. by rewrite IH. Qed.

Lemma s2l_l2s l : s2l (l2s l) = l.
Proof. apply String.list_ascii_of_string_of_list_ascii. Qed.

Lemma l2s_s2l s : l2s (s2l s) = s.
Proof. apply String.string_of_list_ascii_of_string. Qed.

Lemma s2l_inj s t : s2l s = s2l t → s = t.
Proof. intros H. by rewrite <- (l2s_s2l s), H, l2s_s2l. Qed.

Lemma slen_s2l s : slen s = length (s2l s).
Proof. induction s as [|a s IH]; simpl; [done|]. unfold slen in *. simpl. by rewrite IH. Qed.

Lemma slen_l2s l : slen (l2s l) = length l.
Proof. by rewrite slen_s2l, s2l_l2s. Qed.

Lemma slen_app s t : slen (s +:+ t) = slen s + slen t.
Proof. by rewrite !slen_s2l, s2l_app, length_app. Qed.

Lemma slen_empty s : slen s = 0 ↔ s = "".
Proof. by destruct s. Qed.

Create Rewrite HintDb gostr.
#[export] Hint Rewrite slen_app slen_l2s s2l_app s2l_l2s l2s_s2l : gostr.

(** [s[:n]] for [n <= len(s)]. *)
Definition strTake (n : nat) (s : string) : string := l2s (take n (s2l s)).

Lemma slen_strTake n s : slen (strTake n s) = n `min` slen s.
Proof. unfold strTake. by rewrite slen_l2s, length_take, slen_s2l. Qed.

(** ** Package [strings] *)

Fixpoint dropWhile {A} (p : A → bool) (l : list A) : list A :=
  match l with
  | [] => []
  | x :: l' => if p x then dropWhile p l' else l
  end.

Fixpoint takeWhile {A} (p : A → bool) (l : list A) : list A :=
  match l with
  | [] => []
  | x :: l' => if p x then x :: takeWhile p l' else []
  end.

Definition inCutset (cutset : string) (c : ascii) : bool := bool_decide (c ∈ s2l cutset).

Definition trimRightL (p : ascii → bool) (l : list ascii) : list ascii :=
  reverse (dropWhile p (reverse l)).

(** [strings.TrimRight] and [strings.Trim] for an ASCII cutset. *)
Definition trimRight (s cutset : string) : string := l2s (trimRightL (inCutset cutset) (s2l s)).
Definition trim (s cutset : string) : string :=
  l2s (trimRightL (inCutset cutset) (dropWhile (inCutset cutset) (s2l s))).

Fixpoint prefixL (p l : list ascii) : bool :=
  match p, l with
  | [], _ => true
  | a :: p', b :: l' => Ascii.eqb a b && prefixL p' l'
  | _, [] => false
  end.

Definition hasPrefix (s p : string) : bool := prefixL (s2l p) (s2l s).
Definition hasSuffix (s p : string) : bool := prefixL (reverse (s2l p)) (reverse (s2l s)).

Fixpoint containsL (l p : list ascii) : bool :=
  prefixL p l || match l with [] => false | _ :: l' => containsL l' p end.

(** [strings.Contains(s, sub)] *)
Definition contains (s sub : string) : bool := containsL (s2l s) (s2l sub).

(** [strings.Join] *)
Fixpoint join (sep : string) (l : list string) : string :=
  match l with
  | [] => ""
  | [x] => x
  | x :: l' => x +:+ sep +:+ join sep l'
  end.

(** [strings.Split] at a one-byte separator: at least one piece, possibly empty. *)
Fixpoint splitL (sep : ascii) (l : list ascii) : list (list ascii) :=
  match l with
  | [] => [[]]
  | c :: l' =>
      if Ascii.eqb c sep then [] :: splitL sep l'
      else match splitL sep l' with
           | p :: ps => (c :: p) :: ps
           | [] => [[c]]
           end
  end.
Definition split (sep : ascii) (s : string) : list string := l2s <$> splitL sep (s2l s).

(** [slices.Sort] and [sort.Strings]: bytewise. *)
Definition sortStrings (l : list string) : list string := merge_sort String.le l.

Lemma sortStrings_perm l : sortStrings l ≡ₚ l.
Proof. apply merge_sort_Permutation. Qed.

Lemma elem_of_sortStrings x l : x ∈ sortStrings l ↔ x ∈ l.
Proof. by rewrite sortStrings_perm. Qed.

(** The order the names were collected in does not show. *)
Lemma sortStrings_unique l k : l ≡ₚ k → sortStrings l = sortStrings k.
Proof.
  intros Hp. apply (Sorted_unique String.le); [apply (Sorted_merge_sort _)..|]. by rewrite !sortStrings_perm.
Qed.

Lemma splitL_none sep l : Forall (λ c, c ≠ sep) l → splitL sep l = [l].
Proof.
  induction 1 as [|c l Hc _ IH]; [done|]. simpl. rewrite IH. by destruct (Ascii.eqb_spec c sep).
Qed.

Lemma splitL_app sep l k : Forall (λ c, c ≠ sep) l → splitL sep (l ++ sep :: k) = l :: splitL sep k.
Proof.
  induction 1 as [|c l Hc _ IH]; simpl; [by rewrite Ascii.eqb_refl|]. rewrite IH. by destruct (Ascii.eqb_spec c sep).
Qed.

(** Splitting undoes joining when the separator occurs in no piece. *)
Lemma split_join sep l :
  l ≠ [] → Forall (λ s, sep ∉ s2l s) l → split sep (join (l2s [sep]) l) = l.
Proof.
  intros Hne HF. assert (∀ s, sep ∉ s2l s → Forall (λ c, c ≠ sep) (s2l s)) as Hsep.
  { intros s Hs. apply Forall_forall. intros c Hc ->. done. }
  unfold split. induction HF as [|s l Hs HF IH]; [done|]. destruct l as [|t l].
  - simpl. rewrite splitL_none by auto. by rewrite fmap_cons, l2s_s2l.
  - change (join (l2s [sep]) (s :: t :: l)) with (s +:+ l2s [sep] +:+ join (l2s [sep]) (t :: l)).
    rewrite !s2l_app, s2l_l2s. cbn [app]. rewrite splitL_app by auto. rewrite fmap_cons, l2s_s2l. f_equal. by apply IH.
Qed.

Lemma dropWhile_suffix {A} (p : A → bool) l : ∃ k, l = k ++ dropWhile p l ∧ Forall (λ x, p x = true) k.
Proof.
  induction l as [|x l (k & Hk & Hp)]; simpl; [by exists []|].
  destruct (p x) eqn:Hx; [|by exists []].
  exists (x :: k). split; [simpl; by f_equal|by constructor].
Qed.

Lemma dropWhile_head {A} (p : A → bool) l x l' : dropWhile p l = x :: l' → p x = false.
Proof. induction l as [|y l IH]; simpl; [done|]. destruct (p y) eqn:?; [auto|]. by intros [= -> ->]. Qed.

Lemma dropWhile_length {A} (p : A → bool) l : length (dropWhile p l) ≤ length l.
Proof. induction l as [|y l IH]; simpl; [lia|]. destruct (p y); simpl; lia. Qed.

Lemma dropWhile_Forall {A} (p : A → bool) (P : A → Prop) l : Forall P l → Forall P (dropWhile p l).
Proof. induction 1; simpl; [done|]. destruct (p x); auto. Qed.

Lemma dropWhile_none {A} (p : A → bool) l :
  (∀ x, head l = Some x → p x = false) → dropWhile p l = l.
Proof. destruct l as [|x l]; simpl; [done|]. intros H. by rewrite (H x). Qed.

Lemma trimRightL_Forall p (P : ascii → Prop) l : Forall P l → Forall P (trimRightL p l).
Proof.
  intros H. unfold trimRightL. rewrite Forall_reverse.
  apply dropWhile_Forall. by rewrite Forall_reverse.
Qed.

Lemma trimRightL_length p l : length (trimRightL p l) ≤ length l.
Proof.
  unfold trimRightL. rewrite length_reverse.
  etrans; [apply dropWhile_length|]. by rewrite length_reverse.
Qed.

Lemma trimRightL_none p l : (∀ x, last l = Some x → p x = false) → trimRightL p l = l.
Proof.
  intros H. unfold trimRightL. rewrite dropWhile_none, reverse_involutive; [done|].
  intros x Hx. apply H. by rewrite <- head_reverse.
Qed.

Lemma trimRightL_last p l x : last (trimRightL p l) = Some x → p x = false.
Proof.
  unfold trimRightL. rewrite last_reverse.
  destruct (dropWhile p (reverse l)) as [|y k] eqn:Hd; simpl; [done|].
  intros [= ->]. by eapply dropWhile_head.
Qed.

Lemma trimRightL_nil p l : trimRightL p l = [] → Forall (λ x, p x = true) l.
Proof.
  unfold trimRightL. destruct (dropWhile_suffix p (reverse l)) as (k & Hk & HF).
  intros Hnil. apply (f_equal reverse) in Hnil. rewrite reverse_involutive in Hnil.
  rewrite <- (reverse_involutive l), Hk. change (reverse []) with (@nil ascii) in Hnil.
  by rewrite Hnil, app_nil_r, Forall_reverse.
Qed.

Lemma trimRightL_head p l x : head (trimRightL p l) = Some x → head l = Some x.
Proof.
  unfold trimRightL. destruct (dropWhile_suffix p (reverse l)) as (k & Hk & _).
  intros Hx. rewrite <- (reverse_involutive l), Hk, reverse_app.
  destruct (reverse (dropWhile p (reverse l))); [done|]. done.
Qed.

(** ** Decimal numbers *)

Definition itoa (z : Z) : string := pretty z.

(** ** Package [encoding/hex] *)

Definition hexDigit (n : N) : ascii :=
  ascii_of_N (if (n <? 10)%N then 48 + n else 87 + n)%N.

Definition isHexLower (c : ascii) : bool :=
  let n := N_of_ascii c in ((48 <=? n) && (n <=? 57) || (97 <=? n) && (n <=? 102))%N.

Definition hexEncode (l : list N) : string :=
  l2s (l ≫= λ b, [hexDigit (b / 16)%N; hexDigit (b mod 16)%N]).

Lemma hexDigit_hex n : (n < 16)%N → isHexLower (hexDigit n) = true.
Proof.
  intros Hn. assert (n ∈ (N.of_nat <$> seq 0 16)) as Hin.
  { apply list_elem_of_fmap. exists (N.to_nat n). rewrite N2Nat.id. split; [done|].
    apply elem_of_seq. lia. }
  revert Hin. generalize n; clear. intros n Hin. simpl in Hin.
  repeat (apply elem_of_cons in Hin as [->|Hin]; [done|]). by apply not_elem_of_nil in Hin.
Qed.

Lemma hexEncode_hex l : Forall (λ b, b < 256)%N l → Forall (λ c, isHexLower c = true) (s2l (hexEncode l)).
Proof.
  unfold hexEncode. rewrite s2l_l2s. induction 1 as [|b l Hb _ IH]; simpl; [constructor|].
  repeat constructor; try apply IH; apply hexDigit_hex.
  - apply N.Div0.div_lt_upper_bound. lia.
  - by apply N.mod_lt.
Qed.

Lemma hexEncode_length l : slen (hexEncode l) = 2 * length l.
Proof.
  unfold hexEncode. rewrite slen_l2s. induction l as [|b l IH]; [done|].
  rewrite bind_cons, length_app, IH. simpl. lia.
Qed.

(** ** Package [unicode/utf8] *)

Definition bytes (s : string) : list N := N_of_ascii <$> s2l s.

(** [utf8.RuneStart] *)
Definition runeStart (b : N) : bool := negb (N.land b 192 =? 128)%N.

Definition between (lo hi b : N) : bool := ((lo <=? b) && (b <=? hi))%N.
Definition isCont (b : N) : bool := between 128 191 b.

(** The width of the well-formed UTF-8 sequence a byte string starts with, if it starts with one. *)
Definition runeWidth (l : list N) : option nat :=
  match l with
  | [] => None
  | b0 :: t =>
      if between 0 127 b0 then Some 1
      else if between 194 223 b0 then
        match t with b1 :: _ => if isCont b1 then Some 2 else None | [] => None end
      else if between 224 239 b0 then
        match t with
        | b1 :: b2 :: _ =>
            let lo := (if b0 =? 224 then 160 else 128)%N in
            let hi := (if b0 =? 237 then 159 else 191)%N in
            if between lo hi b1 && isCont b2 then Some 3 else None
        | _ => None
        end
      else if between 240 244 b0 then
        match t with
        | b1 :: b2 :: b3 :: _ =>
            let lo := (if b0 =? 240 then 144 else 128)%N in
            let hi := (if b0 =? 244 then 143 else 191)%N in
            if between lo hi b1 && isCont b2 && isCont b3 then Some 4 else None
        | _ => None
        end
      else None
  end.

Definition runeError : N := 65533%N.

(** [utf8.DecodeRune] on a non-empty byte string: the rune and its width. *)
Definition decodeRune (l : list N) : N * nat :=
  match runeWidth l, l with
  | Some 1, b0 :: _ => (b0, 1)
  | Some 2, b0 :: b1 :: _ => (N.lor (N.shiftl (N.land b0 31) 6) (N.land b1 63), 2)
  | Some 3, b0 :: b1 :: b2 :: _ =>
      (N.lor (N.shiftl (N.land b0 15) 12) (N.lor (N.shiftl (N.land b1 63) 6) (N.land b2 63)), 3)
  | Some 4, b0 :: b1 :: b2 :: b3 :: _ =>
      (N.lor (N.shiftl (N.land b0 7) 18)
        (N.lor (N.shiftl (N.land b1 63) 12) (N.lor (N.shiftl (N.land b2 63) 6) (N.land b3 63))), 4)
  | _, _ => (runeError, 1)
  end.

Fixpoint runesFuel (fuel : nat) (l : list N) : list N :=
  match fuel, l with
  | S fuel', _ :: _ => let '(r, n) := decodeRune l in r :: runesFuel fuel' (drop n l)
  | _, _ => []
  end.

(** [for _, r := range s]; every step consumes a byte, so [len(s)] steps are enough. *)
Definition runes (s : string) : list N := runesFuel (slen s) (bytes s).

Inductive validUTF8 : list N → Prop :=
| validUTF8_nil : validUTF8 []
| validUTF8_rune l n : runeWidth l = Some n → validUTF8 (drop n l) → validUTF8 l.

Lemma isCont_not_start b : isCont b = true → runeStart b = false.
Proof.
  unfold isCont, between, runeStart. intros H.
  apply andb_true_iff in H as [H1%N.leb_le H2%N.leb_le].
  assert (b ∈ (N.of_nat <$> seq 128 64)) as Hin.
  { apply list_elem_of_fmap. exists (N.to_nat b). rewrite N2Nat.id. split; [done|].
    apply elem_of_seq. lia. }
  clear H1 H2. simpl in Hin.
  repeat (apply elem_of_cons in Hin as [->|Hin]; [done|]). by apply not_elem_of_nil in Hin.
Qed.

Lemma between_cont lo hi b : (128 ≤ lo)%N → (hi ≤ 191)%N → between lo hi b = true → isCont b = true.
Proof. unfold isCont, between. rewrite !andb_true_iff, !N.leb_le. lia. Qed.

(** A well-formed sequence is complete, its later bytes are continuation bytes, and it does not
    depend on what follows it. *)
Lemma runeWidth_spec l n :
  runeWidth l = Some n →
  0 < n ≤ length l ∧
  (∀ i b, 0 < i < n → l !! i = Some b → runeStart b = false) ∧
  (∀ k, n ≤ k → runeWidth (take k l) = Some n).
Proof.
  destruct l as [|b0 t]; [done|]. unfold runeWidth.
  destruct (between 0 127 b0) eqn:E0.
  { intros [= <-]. split_and!; simpl; [lia|lia|intros; lia|].
    intros [|k] ?; [lia|]. simpl. by rewrite E0. }
  destruct (between 194 223 b0) eqn:E1.
  { destruct t as [|b1 t]; [done|]. destruct (isCont b1) eqn:C1; [|done].
    intros [= <-]. split_and!; simpl; [lia|lia| |].
    - intros [|[|i]] b ?; simpl; [lia|intros [= ->]; by apply isCont_not_start|lia].
    - intros [|[|k]] ?; [lia..|]. simpl. by rewrite E0, E1, C1. }
  destruct (between 224 239 b0) eqn:E2.
  { destruct t as [|b1 [|b2 t]]; [done..|]. cbv zeta.
    destruct (between _ _ b1) eqn:C1; [|done]. destruct (isCont b2) eqn:C2; [|done].
    intros [= <-]. split_and!; simpl; [lia|lia| |].
    - intros [|[|[|i]]] b ?; simpl; [lia| |intros [= ->]; by apply isCont_not_start|lia].
      intros [= ->]. apply isCont_not_start. eapply between_cont, C1; repeat case_match; lia.
    - intros [|[|[|k]]] ?; [lia..|]. simpl. by rewrite E0, E1, E2, C1, C2. }
  destruct (between 240 244 b0) eqn:E3; [|done].
  destruct t as [|b1 [|b2 [|b3 t]]]; [done..|]. cbv zeta.
  destruct (between _ _ b1) eqn:C1; [|done]. destruct (isCont b2) eqn:C2; [|done].
  destruct (isCont b3) eqn:C3; [|done].
  intros [= <-]. split_and!; simpl; [lia|lia| |].
  - intros [|[|[|[|i]]]] b ?; simpl;
      [lia| |intros [= ->]; by apply isCont_not_start|intros [= ->]; by apply isCont_not_start|lia].
    intros [= ->]. apply isCont_not_start. eapply between_cont, C1; repeat case_match; lia.
  - intros [|[|[|[|k]]]] ?; [lia..|]. simpl. by rewrite E0, E1, E2, E3, C1, C2, C3.
Qed.

(** Cutting valid UTF-8 before a rune start leaves valid UTF-8. *)
Lemma validUTF8_take l k :
  validUTF8 l → (∀ b, l !! k = Some b → runeStart b = true) → validUTF8 (take k l).
Proof.
  intros Hv. revert k. induction Hv as [|l n Hn Hv IH]; intros k Hk.
  { rewrite take_nil. constructor. }
  destruct (runeWidth_spec l n Hn) as (Hlen & Hcont & Htake).
  destruct (decide (k = 0)) as [->|Hk0]; [constructor|].
  destruct (decide (k < n)) as [Hlt|Hge].
  - destruct (lookup_lt_is_Some_2 l k) as [b Hb]; [lia|].
    specialize (Hk b Hb). by rewrite (Hcont k b) in Hk by (done || lia).
  - apply (validUTF8_rune _ n); [apply Htake; lia|].
    rewrite skipn_firstn_comm. apply IH. intros b Hb. apply Hk.
    rewrite lookup_drop in Hb. by replace (n + (k - n)) with k in Hb by lia.
Qed.

Lemma validUTF8_app l k : validUTF8 l → validUTF8 k → validUTF8 (l ++ k).
Proof.
  intros Hl Hk. induction Hl as [|l n Hn Hl IH]; [done|].
  destruct (runeWidth_spec l n Hn) as (Hlen & _ & _).
  apply (validUTF8_rune _ n); [|by rewrite drop_app_le by lia].
  destruct (runeWidth (l ++ k)) as [m|] eqn:Hm.
  - destruct (runeWidth_spec _ _ Hm) as (_ & _ & Hm').
    clear IH Hl. destruct l as [|b0 [|b1 [|b2 [|b3 t]]]]; try done;
      unfold runeWidth in Hn, Hm; simpl in Hn, Hm; cbv zeta in Hn, Hm;
      repeat case_match; simplify_eq; done.
  - exfalso. clear IH Hl. destruct l as [|b0 [|b1 [|b2 [|b3 t]]]]; try done;
      unfold runeWidth in Hn, Hm; simpl in Hn, Hm; cbv zeta in Hn, Hm;
      repeat case_match; simplify_eq; done.
Qed.
