(* ===== verification/Regex.v ===== *)
(** * Regular expressions

    The anchored patterns ([^...$]) the operator compiles with package [regexp], as data, and an
    executable matcher by Brzozowski derivatives proved equal to the language of the pattern. *)

From Stdlib Require Import Ascii NArith.
From S2P Require Import Prelude GoStrings.

Inductive regex :=
| RNone
| REps
| RChar (p : ascii → bool)
| RCat (r1 r2 : regex)
| RAlt (r1 r2 : regex)
| RStar (r : regex).

(** The language of a pattern. *)
Inductive reIn : regex → list ascii → Prop :=
| reIn_eps : reIn REps []
| reIn_char p c : p c = true → reIn (RChar p) [c]
| reIn_cat r1 r2 l1 l2 : reIn r1 l1 → reIn r2 l2 → reIn (RCat r1 r2) (l1 ++ l2)
| reIn_alt_l r1 r2 l : reIn r1 l → reIn (RAlt r1 r2) l
| reIn_alt_r r1 r2 l : reIn r2 l → reIn (RAlt r1 r2) l
| reIn_star_nil r : reIn (RStar r) []
| reIn_star_cons r l1 l2 : reIn r l1 → reIn (RStar r) l2 → reIn (RStar r) (l1 ++ l2).

Fixpoint nullable (r : regex) : bool :=
  match r with
  | RNone | RChar _ => false
  | REps | RStar _ => true
  | RCat r1 r2 => nullable r1 && nullable r2
  | RAlt r1 r2 => nullable r1 || nullable r2
  end.

Fixpoint deriv (c : ascii) (r : regex) : regex :=
  match r with
  | RNone | REps => RNone
  | RChar p => if p c then REps else RNone
  | RCat r1 r2 =>
      if nullable r1 then RAlt (RCat (deriv c r1) r2) (deriv c r2) else RCat (deriv c r1) r2
  | RAlt r1 r2 => RAlt (deriv c r1) (deriv c r2)
  | RStar r1 => RCat (deriv c r1) (RStar r1)
  end.

Fixpoint matchL (r : regex) (l : list ascii) : bool :=
  match l with
  | [] => nullable r
  | c :: l' => matchL (deriv c r) l'
  end.

(** [pattern.MatchString(s)] for a pattern anchored at both ends. *)
Definition matchString (r : regex) (s : string) : bool := matchL r (s2l s).

Lemma reIn_RNone l : ¬ reIn RNone l.
Proof. intros H. inversion H. Qed.

Lemma reIn_REps l : reIn REps l ↔ l = [].
Proof. split; [by inversion 1|intros ->; constructor]. Qed.

Lemma reIn_RChar p l : reIn (RChar p) l ↔ ∃ c, l = [c] ∧ p c = true.
Proof. split; [inversion 1; eauto|intros (c & -> & ?); by constructor]. Qed.

Lemma reIn_RCat r1 r2 l : reIn (RCat r1 r2) l ↔ ∃ l1 l2, l = l1 ++ l2 ∧ reIn r1 l1 ∧ reIn r2 l2.
Proof. split; [inversion 1; subst; eauto|intros (l1 & l2 & -> & ? & ?); by constructor]. Qed.

Lemma reIn_RAlt r1 r2 l : reIn (RAlt r1 r2) l ↔ reIn r1 l ∨ reIn r2 l.
Proof. split; [inversion 1; auto|intros [?|?]; [by apply reIn_alt_l|by apply reIn_alt_r]]. Qed.

Lemma reIn_RStar_cons c r l :
  reIn (RStar r) (c :: l) ↔ ∃ l1 l2, l = l1 ++ l2 ∧ reIn r (c :: l1) ∧ reIn (RStar r) l2.
Proof.
  split.
  - intros H. remember (RStar r) as s eqn:Hs. remember (c :: l) as k eqn:Hk.
    revert Hs Hk. induction H as [| | | | | |r' l1 l2 H1 _ H2 IH]; intros [= ->] Hk; [done|].
    destruct l1 as [|c' l1]; simpl in Hk; [by apply IH|].
    injection Hk as -> <-. eauto.
  - intros (l1 & l2 & -> & H1 & H2).
    change (c :: l1 ++ l2) with ((c :: l1) ++ l2). by constructor.
Qed.

Lemma nullable_spec r : nullable r = true ↔ reIn r [].
Proof.
  induction r as [| |p|r1 IH1 r2 IH2|r1 IH1 r2 IH2|r IH]; simpl.
  - split; [done|intros []%reIn_RNone].
  - split; [constructor|done].
  - split; [done|]. rewrite reIn_RChar. by intros (? & ? & ?).
  - rewrite andb_true_iff, IH1, IH2, reIn_RCat. split.
    + intros [??]. by exists [], [].
    + intros (l1 & l2 & H & ? & ?). symmetry in H. by apply app_nil in H as [-> ->].
  - by rewrite orb_true_iff, IH1, IH2, reIn_RAlt.
  - split; [constructor|done].
Qed.

Lemma deriv_spec c r l : reIn (deriv c r) l ↔ reIn r (c :: l).
Proof.
  revert l. induction r as [| |p|r1 IH1 r2 IH2|r1 IH1 r2 IH2|r IH]; intros l; simpl.
  - split; intros []%reIn_RNone.
  - rewrite reIn_REps. split; [intros []%reIn_RNone|done].
  - rewrite reIn_RChar. destruct (p c) eqn:Hp.
    + rewrite reIn_REps. split; [intros ->; eauto|by intros (? & [= -> ->] & ?)].
    + split; [intros []%reIn_RNone|]. intros (? & [= <- ->] & ?). congruence.
  - assert (reIn (RCat (deriv c r1) r2) l ↔ ∃ l1 l2, l = l1 ++ l2 ∧ reIn r1 (c :: l1) ∧ reIn r2 l2)
      as Hcat by (rewrite reIn_RCat; by setoid_rewrite IH1).
    rewrite (reIn_RCat r1 r2).
    assert ((∃ l1 l2, c :: l = l1 ++ l2 ∧ reIn r1 l1 ∧ reIn r2 l2) ↔
            (∃ l1 l2, l = l1 ++ l2 ∧ reIn r1 (c :: l1) ∧ reIn r2 l2) ∨ reIn r1 [] ∧ reIn r2 (c :: l))
      as ->.
    { split.
      - intros ([|c' l1] & l2 & H & ? & ?); simpl in H; [subst; by right|].
        injection H as <- ->. left. eauto.
      - intros [(l1 & l2 & -> & ? & ?)|[??]]; [by exists (c :: l1), l2|by exists [], (c :: l)]. }
    destruct (nullable r1) eqn:Hn.
    + rewrite reIn_RAlt, Hcat, IH2. apply nullable_spec in Hn. naive_solver.
    + rewrite Hcat. assert (¬ reIn r1 []); [|naive_solver].
      intros H%nullable_spec. congruence.
  - by rewrite !reIn_RAlt, IH1, IH2.
  - rewrite reIn_RCat, reIn_RStar_cons. by setoid_rewrite IH.
Qed.

(** The matcher decides the language. *)
Lemma matchL_spec r l : matchL r l = true ↔ reIn r l.
Proof.
  revert r. induction l as [|c l IH]; intros r; simpl; [apply nullable_spec|].
  by rewrite IH, deriv_spec.
Qed.

(** ** Building patterns *)

(** [r{n}] *)
Fixpoint rep (n : nat) (r : regex) : regex :=
  match n with
  | 0 => REps
  | S n' => RCat r (rep n' r)
  end.

Definition lit (c : ascii) : regex := RChar (Ascii.eqb c).

Definition inRange (lo hi : ascii) (c : ascii) : bool :=
  (N_of_ascii lo <=? N_of_ascii c)%N && (N_of_ascii c <=? N_of_ascii hi)%N.

(** The characters a pattern can consume. *)
Fixpoint reChars (P : ascii → Prop) (r : regex) : Prop :=
  match r with
  | RNone | REps => True
  | RChar p => ∀ c, p c = true → P c
  | RCat r1 r2 | RAlt r1 r2 => reChars P r1 ∧ reChars P r2
  | RStar r => reChars P r
  end.

Lemma reIn_chars P r l : reChars P r → reIn r l → Forall P l.
Proof.
  intros HP H. induction H; simpl in HP; rewrite ?Forall_app, ?Forall_singleton; try done; naive_solver.
Qed.

Lemma reIn_rep_char n p l : reIn (rep n (RChar p)) l ↔ length l = n ∧ Forall (λ c, p c = true) l.
Proof.
  revert l. induction n as [|n IH]; intros l; simpl.
  { rewrite reIn_REps. destruct l; simpl; split; [done|naive_solver|done|naive_solver]. }
  rewrite reIn_RCat. setoid_rewrite reIn_RChar. setoid_rewrite IH. split.
  - intros (l1 & l2 & -> & (c & -> & Hc) & Hl & HF). simpl. split; [lia|by constructor].
  - intros [Hl HF]. destruct l as [|c l]; [done|]. inversion HF; subst.
    exists [c], l. split_and!; [done|eauto|simpl in Hl; lia|done].
Qed.

(** A test on all 256 bytes, so that a statement about every character is decided by computation. *)
Definition allAscii : list ascii := ascii_of_nat <$> seq 0 256.

Lemma allAscii_complete c : c ∈ allAscii.
Proof.
  apply list_elem_of_fmap. exists (nat_of_ascii c). rewrite ascii_nat_embedding.
  split; [done|]. apply elem_of_seq. pose proof (nat_ascii_bounded c). lia.
Qed.

Lemma forall_ascii (p : ascii → bool) : forallb p allAscii = true → ∀ c, p c = true.
Proof.
  intros H c. rewrite forallb_forall in H. apply H, list_elem_of_In, allAscii_complete.
Qed.
