(* ===== verification/Sha256.v ===== *)
(** * SHA-256

    [crypto/sha256.Sum256], which the operator uses to shorten names and to check firmware files,
    as the executable function of FIPS 180-4: words are [N] below 2^32 with wrap-around. *)

From Stdlib Require Import Ascii NArith Lia.
From S2P Require Import Prelude GoStrings.

#[local] Open Scope N_scope.

Definition w32 (x : N) : N := N.land x 4294967295.
Definition add32 (x y : N) : N := w32 (x + y).
Definition rotr (n x : N) : N := N.lor (N.shiftr x n) (w32 (N.shiftl x (32 - n))).
Definition not32 (x : N) : N := N.lxor x 4294967295.

Definition Ch (x y z : N) : N := N.lxor (N.land x y) (N.land (not32 x) z).
Definition Maj (x y z : N) : N := N.lxor (N.land x y) (N.lxor (N.land x z) (N.land y z)).
Definition bigSigma0 (x : N) : N := N.lxor (rotr 2 x) (N.lxor (rotr 13 x) (rotr 22 x)).
Definition bigSigma1 (x : N) : N := N.lxor (rotr 6 x) (N.lxor (rotr 11 x) (rotr 25 x)).
Definition smallSigma0 (x : N) : N := N.lxor (rotr 7 x) (N.lxor (rotr 18 x) (N.shiftr x 3)).
Definition smallSigma1 (x : N) : N := N.lxor (rotr 17 x) (N.lxor (rotr 19 x) (N.shiftr x 10)).

(** The constants are, as the standard defines them, the first 32 bits of the fractional parts of the cube
    roots of the first 64 primes and of the square roots of the first eight. *)
Definition isPrime (n : nat) : bool := forallb (λ d, negb (n mod d =? 0)%nat) (seq 2 (n - 2)).
Definition primes : list N := N.of_nat <$> filter (λ n, isPrime n = true) (seq 2 310).

(** The largest [x] below 2^bits with [x ^ k <= n], bit by bit. *)
Fixpoint rootFrom (k : N) (bits : nat) (x n : N) : N :=
  match bits with
  | O => x
  | S b => let y := x + N.shiftl 1 (N.of_nat b) in rootFrom k b (if y ^ k <=? n then y else x) n
  end.
Definition rootFraction (k p : N) : N := w32 (rootFrom k 40 0 (N.shiftl p (32 * k))).

Definition K256 : list N := Eval vm_compute in rootFraction 3 <$> primes.
Definition H256 : list N := Eval vm_compute in rootFraction 2 <$> take 8 primes.

(** The [n] low-order bytes of [x], most significant first. *)
Fixpoint beBytes (n : nat) (x : N) : list N :=
  match n with
  | O => []
  | S n' => N.land (N.shiftr x (8 * N.of_nat n')) 255 :: beBytes n' x
  end.

Definition pad (msg : list N) : list N :=
  let len := length msg in
  let zeros := ((119 - len mod 64) mod 64)%nat in
  msg ++ [128] ++ replicate zeros 0 ++ beBytes 8 (8 * N.of_nat len).

Definition word (b : list N) : N := foldl (λ acc x, N.lor (N.shiftl acc 8) x) 0 b.

Fixpoint chunks {A} (fuel n : nat) (l : list A) : list (list A) :=
  match fuel, l with
  | S fuel', _ :: _ => take n l :: chunks fuel' n (drop n l)
  | _, _ => []
  end.

(** The message schedule, newest word first. *)
Fixpoint schedule (n : nat) (ws : list N) : list N :=
  match n with
  | O => ws
  | S n' =>
      let w := add32 (add32 (smallSigma1 (nth 1 ws 0)) (nth 6 ws 0))
                     (add32 (smallSigma0 (nth 14 ws 0)) (nth 15 ws 0)) in
      schedule n' (w :: ws)
  end.

Definition round (st : list N) (kw : N * N) : list N :=
  match st with
  | [a; b; c; d; e; f; g; h] =>
      let t1 := add32 (add32 h (bigSigma1 e)) (add32 (Ch e f g) (add32 kw.1 kw.2)) in
      let t2 := add32 (bigSigma0 a) (Maj a b c) in
      [add32 t1 t2; a; b; c; add32 d t1; e; f; g]
  | _ => st
  end.

Definition compress (st block : list N) : list N :=
  let w16 := word <$> chunks 16 4 block in
  let ws := reverse (schedule 48 (reverse w16)) in
  zip_with add32 st (foldl round st (zip K256 ws)).

(** [sha256.Sum256] *)
Definition sha256 (msg : list N) : list N :=
  let p := pad msg in
  foldl compress H256 (chunks (length p) 64 p) ≫= beBytes 4.

Definition sha256hex (s : string) : string := hexEncode (sha256 (bytes s)).

Example sha256_abc :
  sha256hex "abc" = "ba7816bf8f01cfea414140de5dae2223b00361a396177a9cb410ff61f20015ad".
Proof. vm_compute. reflexivity. Qed.

Example sha256_two_blocks :
  sha256hex "abcdbcdecdefdefgefghfghighijhijkijkljklmklmnlmnomnopnopq"
  = "248d6a61d20638b8e5c026930c3e6039a33ce45964ff2167f6ecedd419db06c1".
Proof. vm_compute. reflexivity. Qed.

Lemma beBytes_length n x : length (beBytes n x) = n.
Proof. induction n as [|n IH]; simpl; [done|]. by rewrite IH. Qed.

Lemma beBytes_byte n x : Forall (λ b, b < 256) (beBytes n x).
Proof.
  induction n as [|n IH]; simpl; constructor; [|done].
  change 255 with (N.ones 8). rewrite N.land_ones. by apply N.mod_lt.
Qed.

Lemma round_length st kw : length (round st kw) = length st.
Proof. unfold round. by repeat case_match; subst. Qed.

Lemma rounds_length st kws : length (foldl round st kws) = length st.
Proof. revert st. induction kws as [|kw kws IH]; intros st; simpl; [done|]. by rewrite IH, round_length. Qed.

Lemma compress_length st block : length (compress st block) = length st.
Proof. unfold compress. rewrite length_zip_with, rounds_length. lia. Qed.

Lemma compress_blocks_length st blocks : length (foldl compress st blocks) = length st.
Proof. revert st. induction blocks as [|b bs IH]; intros st; simpl; [done|]. by rewrite IH, compress_length. Qed.

Lemma sha256_byte msg : Forall (λ b, b < 256) (sha256 msg).
Proof. unfold sha256. apply Forall_bind, Forall_true. intros x. apply beBytes_byte. Qed.

Lemma bind_beBytes_length n l : length (l ≫= beBytes n) = (length l * n)%nat.
Proof.
  induction l as [|x l IH]; [done|]. rewrite bind_cons, length_app, beBytes_length, IH. simpl. lia.
Qed.

Lemma sha256_length msg : length (sha256 msg) = 32%nat.
Proof. unfold sha256. by rewrite bind_beBytes_length, compress_blocks_length. Qed.

Lemma sha256hex_hex s : Forall (λ c, isHexLower c = true) (s2l (sha256hex s)).
Proof. apply hexEncode_hex, sha256_byte. Qed.

Lemma sha256hex_length s : slen (sha256hex s) = 64%nat.
Proof. unfold sha256hex. by rewrite hexEncode_length, sha256_length. Qed.
