(* ===== verification/KubeTypes.v ===== *)
(** * Kubernetes objects

    The fields the operator reads or writes of the API objects it handles.  Timestamps are
    nanoseconds since the epoch; a nil pointer or a zero [metav1.Time] is [None]; a Go map is a
    [gmap]. *)

From S2P Require Import Prelude.

Definition labels := gmap string string.

(** ** Nodes *)

Record Taint := mkTaint {
  taint_key : string;
  taint_value : string;
  taint_effect : string;
  taint_timeAdded : option Z;
}.

Definition TaintEffectNoSchedule : string := "NoSchedule".

Record Node := mkNode {
  node_name : string;
  node_labels : labels;
  node_taints : list Taint;
  node_deletionTimestamp : option Z;
  node_conditions : list (string * string);  (* type, status *)
}.

Definition set_node_taints (ts : list Taint) (n : Node) : Node :=
  mkNode (node_name n) (node_labels n) ts (node_deletionTimestamp n) (node_conditions n).

#[global] Instance Taint_eq_dec : EqDecision Taint.
Proof. solve_decision. Defined.

(** ** Pods *)

Record Container := mkContainer {
  c_name : string;
  c_image : string;
  c_imagePullPolicy : string;
  c_command : list string;
  c_args : list string;
  c_limits : labels;
}.

Record PodResourceClaim := mkPodResourceClaim {
  prc_claimName : option string;
  prc_templateName : option string;
}.

Record Pod := mkPod {
  pod_namespace : string;
  pod_name : string;
  pod_uid : string;
  pod_nodeName : string;
  pod_labels : labels;
  pod_annotations : labels;
  pod_ownerKinds : list string;
  pod_phase : string;
  pod_deletionTimestamp : option Z;
  pod_containers : list Container;
  pod_resourceClaims : list PodResourceClaim;
  pod_claimStatuses : list (option string);  (* Status.ResourceClaimStatuses[].ResourceClaimName *)
}.

Definition PodRunning : string := "Running".
Definition PodSucceeded : string := "Succeeded".
Definition PodFailed : string := "Failed".

(** ** Dynamic resource allocation *)

Record DeviceRequest := mkDeviceRequest {
  dr_exactly : option string;             (* Exactly.DeviceClassName *)
  dr_firstAvailable : list string;        (* FirstAvailable[].DeviceClassName *)
}.

Record AllocResult := mkAllocResult {
  ar_driver : string;
  ar_pool : string;
  ar_device : string;
  ar_adminAccess : option bool;
}.

Record ConsumerRef := mkConsumerRef {
  cr_apiGroup : string;
  cr_resource : string;
  cr_name : string;
  cr_uid : string;
}.

Record ResourceClaim := mkResourceClaim {
  rc_namespace : string;
  rc_name : string;
  rc_requests : list DeviceRequest;
  rc_allocation : option (list AllocResult);
  rc_reservedFor : list ConsumerRef;
}.

Record ResourceClaimTemplate := mkResourceClaimTemplate {
  rct_namespace : string;
  rct_name : string;
  rct_requests : list DeviceRequest;
}.

(** An attribute value is its [StringValue], [None] when it is of another type. *)
Record Device := mkDevice {
  dev_name : string;
  dev_attributes : gmap string (option string);
  dev_taints : list string;               (* taint keys *)
}.

Record ResourceSlice := mkResourceSlice {
  rs_name : string;
  rs_driver : string;
  rs_nodeName : option string;
  rs_pool : string;
  rs_devices : list Device;
}.

(** ** Jobs *)

Record Toleration := mkToleration {
  tol_key : string;
  tol_operator : string;
  tol_value : string;
  tol_effect : string;
}.

Definition TolerationOpExists : string := "Exists".

Record PodSpec := mkPodSpec {
  ps_nodeName : string;
  ps_nodeSelector : labels;
  ps_tolerations : list Toleration;
  ps_imagePullSecrets : list string;
  ps_serviceAccountName : string;
  ps_initContainers : list Container;
  ps_containers : list Container;
}.

Record JobCondition := mkJobCondition {
  jc_type : string;
  jc_status : string;
  jc_reason : string;
  jc_message : string;
}.

Definition JobComplete : string := "Complete".
Definition JobFailed : string := "Failed".
Definition ConditionTrue : string := "True".

Record Job := mkJob {
  job_namespace : string;
  job_name : string;
  job_labels : labels;
  job_owner : option string;              (* the controller reference *)
  job_creationTimestamp : option Z;
  job_deletionTimestamp : option Z;
  job_activeDeadlineSeconds : option Z;
  job_backoffLimit : option Z;
  job_completions : option Z;
  job_template : PodSpec;
  job_conditions : list JobCondition;
  job_startTime : option Z;
  job_succeeded : Z;
  job_failed : Z;
}.

(** The zero [batch.Job{}], which a failed [Get] leaves in the caller's variable. *)
Definition emptyPodSpec : PodSpec := mkPodSpec "" ∅ [] [] "" [] [].
Definition emptyJob : Job :=
  mkJob "" "" ∅ None None None None None None emptyPodSpec [] None 0 0.

#[global] Instance JobCondition_eq_dec : EqDecision JobCondition.
Proof. solve_decision. Defined.

#[global] Instance Toleration_eq_dec : EqDecision Toleration.
Proof. solve_decision. Defined.

(** ** OpenShift and RBAC objects *)

Inductive json :=
| JNull
| JBool (b : bool)
| JNum (z : Z)                            (* int64 *)
| JStr (s : string)
| JList (l : list json)
| JObj (l : list (string * json)).

Record SCC := mkSCC {
  scc_apiVersion : string;
  scc_kind : string;
  scc_name : string;
  scc_resourceVersion : string;
  scc_fields : list (string * json);
}.

Definition set_scc_resourceVersion (rv : string) (s : SCC) : SCC :=
  mkSCC (scc_apiVersion s) (scc_kind s) (scc_name s) rv (scc_fields s).

Record PolicyRule := mkPolicyRule {
  pr_apiGroups : list string;
  pr_resources : list string;
  pr_resourceNames : list string;
  pr_verbs : list string;
}.

Record ClusterRole := mkClusterRole { cro_name : string; cro_rules : list PolicyRule }.

Record ClusterRoleBinding := mkClusterRoleBinding {
  crb_name : string;
  crb_roleKind : string;
  crb_roleName : string;
  crb_subjects : list (string * string * string);  (* kind, name, namespace *)
}.
