(* ===== verification/ApiTypes.v ===== *)
(** * The operator's custom resources

    The Go types of [api/v1alpha1] for the GPURecoveryPlan and GPUFirmwareUpdate resources, field
    by field.  An enumeration the CRD schema closes is an inductive type; its ["" ] zero value is a
    constructor of its own.  A nil pointer is [None].  A nil slice and an empty one are both
    [[]]. *)

From S2P Require Import Prelude KubeTypes.

(** ** GPURecoveryPlan *)

Inductive RecoveryType :=
| RecoveryTypeUnset
| RecoveryTypeSBR
| RecoveryTypeSlot
| RecoveryTypeAMC
| RecoveryTypeReflash.

Definition RecoveryType_string (rt : RecoveryType) : string :=
  match rt with
  | RecoveryTypeUnset => ""
  | RecoveryTypeSBR => "sbr"
  | RecoveryTypeSlot => "slot"
  | RecoveryTypeAMC => "amc"
  | RecoveryTypeReflash => "reflash"
  end.

Inductive RecoveryEventState :=
| RecoveryEventStateUnset
| RecoveryEventStateWaitingApproval
| RecoveryEventStateMissingFirmware
| RecoveryEventStateBlocked
| RecoveryEventStateDraining
| RecoveryEventStateInProgress
| RecoveryEventStateSucceeded
| RecoveryEventStateFailed.

Inductive PlanState :=
| PlanStateUnset
| PlanStateIdle
| PlanStateError
| PlanStateActive.

#[global] Instance RecoveryType_eq_dec : EqDecision RecoveryType.
Proof. solve_decision. Defined.

#[global] Instance RecoveryEventState_eq_dec : EqDecision RecoveryEventState.
Proof. solve_decision. Defined.

#[global] Instance PlanState_eq_dec : EqDecision PlanState.
Proof. solve_decision. Defined.

Record ApprovalSelector := mkApprovalSelector {
  sel_RecoveryType : RecoveryType;
  sel_NodeName : string;
  sel_NodeSelector : labels;
}.

Record RecoveryOverride := mkRecoveryOverride { ov_RecoveryType : RecoveryType }.

Record RecoveryApproval := mkRecoveryApproval {
  ap_ID : string;
  ap_EventID : string;
  ap_Selector : option ApprovalSelector;
  ap_Override : option RecoveryOverride;
  ap_Persistent : bool;
  ap_Consumed : bool;
  ap_Comment : string;
}.

Definition set_ap_Consumed (b : bool) (a : RecoveryApproval) : RecoveryApproval :=
  mkRecoveryApproval (ap_ID a) (ap_EventID a) (ap_Selector a) (ap_Override a) (ap_Persistent a) b
    (ap_Comment a).

Definition set_ap_ID (i : string) (a : RecoveryApproval) : RecoveryApproval :=
  mkRecoveryApproval i (ap_EventID a) (ap_Selector a) (ap_Override a) (ap_Persistent a)
    (ap_Consumed a) (ap_Comment a).

Record ContainerFirmwareSource := mkContainerFirmwareSource {
  cfs_Name : string;
  cfs_InsecureSkipTLSVerify : bool;
}.

Record VolumeFirmwareSource := mkVolumeFirmwareSource { vfs_Name : string }.

Record FirmwareSource := mkFirmwareSource {
  fs_ContainerSource : option ContainerFirmwareSource;
  fs_VolumeSource : option VolumeFirmwareSource;
}.

Record FirmwareSpec := mkFirmwareSpec {
  fw_Source : FirmwareSource;
  fw_File : string;
}.

Record DrainSpec := mkDrainSpec {
  dr_Enable : option bool;
  dr_TimeoutSeconds : Z;                  (* int32 *)
  dr_NamespacesToSkip : list string;
}.

(** [DrainSpec.Enabled] *)
Definition Enabled (d : DrainSpec) : bool :=
  match dr_Enable d with
  | None => true
  | Some b => b
  end.

Record RecoveryTimeoutsSpec := mkRecoveryTimeoutsSpec {
  to_ResetSeconds : Z;                    (* int32 *)
  to_ReflashSeconds : Z;                  (* int32 *)
}.

Record XpuSmiSpec := mkXpuSmiSpec {
  xs_Image : string;
  xs_PullPolicy : string;
  xs_InsecureSkipTLSVerify : bool;
}.

Record GPURecoveryPlanSpec := mkGPURecoveryPlanSpec {
  sp_DeviceID : string;
  sp_SubDeviceID : string;
  sp_SubVendorID : string;
  sp_Approvals : list RecoveryApproval;
  sp_XpuSmi : XpuSmiSpec;
  sp_DefaultResetType : RecoveryType;
  sp_Firmware : option FirmwareSpec;
  sp_Tolerations : list Toleration;
  sp_Drain : DrainSpec;
  sp_Timeouts : RecoveryTimeoutsSpec;
  sp_SkipImageVerification : bool;
}.

Definition set_sp_Approvals (l : list RecoveryApproval) (s : GPURecoveryPlanSpec) :
    GPURecoveryPlanSpec :=
  mkGPURecoveryPlanSpec (sp_DeviceID s) (sp_SubDeviceID s) (sp_SubVendorID s) l (sp_XpuSmi s)
    (sp_DefaultResetType s) (sp_Firmware s) (sp_Tolerations s) (sp_Drain s) (sp_Timeouts s)
    (sp_SkipImageVerification s).

Definition set_sp_XpuSmi (x : XpuSmiSpec) (s : GPURecoveryPlanSpec) : GPURecoveryPlanSpec :=
  mkGPURecoveryPlanSpec (sp_DeviceID s) (sp_SubDeviceID s) (sp_SubVendorID s) (sp_Approvals s) x
    (sp_DefaultResetType s) (sp_Firmware s) (sp_Tolerations s) (sp_Drain s) (sp_Timeouts s)
    (sp_SkipImageVerification s).

Record RecoveryTypeSpec := mkRecoveryTypeSpec {
  rt_Type : RecoveryType;
  rt_SuggestedType : RecoveryType;
}.

(** [RecoveryTypeSpec.IsReflash] *)
Definition IsReflash (rt : RecoveryTypeSpec) : bool := bool_decide (rt_Type rt = RecoveryTypeReflash).

Record RecoveryEvent := mkRecoveryEvent {
  evt_ID : string;
  evt_ApprovalID : string;
  evt_ApprovalMatchedAt : option Z;
  evt_NodeName : string;
  evt_GPUBDF : string;
  evt_Reason : string;
  evt_RecoveryType : RecoveryTypeSpec;
  evt_State : RecoveryEventState;
  evt_StateMessage : string;
  evt_ImageVerifyGeneration : Z;          (* int64 *)
  evt_DrainStartedAt : option Z;
  evt_PodsBlockingDrain : list string;
  evt_ClaimsBlockingReset : list string;
  evt_JobName : string;
  evt_PastJobs : list string;
  evt_LastUpdated : option Z;
}.

Definition set_evt_approval (id : string) (at_ : option Z) (e : RecoveryEvent) : RecoveryEvent :=
  mkRecoveryEvent (evt_ID e) id at_ (evt_NodeName e) (evt_GPUBDF e) (evt_Reason e)
    (evt_RecoveryType e) (evt_State e) (evt_StateMessage e) (evt_ImageVerifyGeneration e)
    (evt_DrainStartedAt e) (evt_PodsBlockingDrain e) (evt_ClaimsBlockingReset e) (evt_JobName e)
    (evt_PastJobs e) (evt_LastUpdated e).

Definition set_evt_state (st : RecoveryEventState) (msg : string) (now : Z) (e : RecoveryEvent) :
    RecoveryEvent :=
  mkRecoveryEvent (evt_ID e) (evt_ApprovalID e) (evt_ApprovalMatchedAt e) (evt_NodeName e)
    (evt_GPUBDF e) (evt_Reason e) (evt_RecoveryType e) st msg (evt_ImageVerifyGeneration e)
    (evt_DrainStartedAt e) (evt_PodsBlockingDrain e) (evt_ClaimsBlockingReset e) (evt_JobName e)
    (evt_PastJobs e) (Some now).

Definition set_evt_LastUpdated (t : option Z) (e : RecoveryEvent) : RecoveryEvent :=
  mkRecoveryEvent (evt_ID e) (evt_ApprovalID e) (evt_ApprovalMatchedAt e) (evt_NodeName e)
    (evt_GPUBDF e) (evt_Reason e) (evt_RecoveryType e) (evt_State e) (evt_StateMessage e)
    (evt_ImageVerifyGeneration e) (evt_DrainStartedAt e) (evt_PodsBlockingDrain e)
    (evt_ClaimsBlockingReset e) (evt_JobName e) (evt_PastJobs e) t.

Definition set_evt_StateMessage (m : string) (e : RecoveryEvent) : RecoveryEvent :=
  mkRecoveryEvent (evt_ID e) (evt_ApprovalID e) (evt_ApprovalMatchedAt e) (evt_NodeName e)
    (evt_GPUBDF e) (evt_Reason e) (evt_RecoveryType e) (evt_State e) m
    (evt_ImageVerifyGeneration e) (evt_DrainStartedAt e) (evt_PodsBlockingDrain e)
    (evt_ClaimsBlockingReset e) (evt_JobName e) (evt_PastJobs e) (evt_LastUpdated e).

Definition set_evt_ImageVerifyGeneration (g : Z) (e : RecoveryEvent) : RecoveryEvent :=
  mkRecoveryEvent (evt_ID e) (evt_ApprovalID e) (evt_ApprovalMatchedAt e) (evt_NodeName e)
    (evt_GPUBDF e) (evt_Reason e) (evt_RecoveryType e) (evt_State e) (evt_StateMessage e) g
    (evt_DrainStartedAt e) (evt_PodsBlockingDrain e) (evt_ClaimsBlockingReset e) (evt_JobName e)
    (evt_PastJobs e) (evt_LastUpdated e).

Definition set_evt_DrainStartedAt (t : option Z) (e : RecoveryEvent) : RecoveryEvent :=
  mkRecoveryEvent (evt_ID e) (evt_ApprovalID e) (evt_ApprovalMatchedAt e) (evt_NodeName e)
    (evt_GPUBDF e) (evt_Reason e) (evt_RecoveryType e) (evt_State e) (evt_StateMessage e)
    (evt_ImageVerifyGeneration e) t (evt_PodsBlockingDrain e) (evt_ClaimsBlockingReset e)
    (evt_JobName e) (evt_PastJobs e) (evt_LastUpdated e).

Definition set_evt_blockers (pods claims : list string) (e : RecoveryEvent) : RecoveryEvent :=
  mkRecoveryEvent (evt_ID e) (evt_ApprovalID e) (evt_ApprovalMatchedAt e) (evt_NodeName e)
    (evt_GPUBDF e) (evt_Reason e) (evt_RecoveryType e) (evt_State e) (evt_StateMessage e)
    (evt_ImageVerifyGeneration e) (evt_DrainStartedAt e) pods claims (evt_JobName e)
    (evt_PastJobs e) (evt_LastUpdated e).

Definition set_evt_RecoveryType (rt : RecoveryTypeSpec) (e : RecoveryEvent) : RecoveryEvent :=
  mkRecoveryEvent (evt_ID e) (evt_ApprovalID e) (evt_ApprovalMatchedAt e) (evt_NodeName e)
    (evt_GPUBDF e) (evt_Reason e) rt (evt_State e) (evt_StateMessage e)
    (evt_ImageVerifyGeneration e) (evt_DrainStartedAt e) (evt_PodsBlockingDrain e)
    (evt_ClaimsBlockingReset e) (evt_JobName e) (evt_PastJobs e) (evt_LastUpdated e).

Definition set_evt_need (id : string) (rt : RecoveryTypeSpec) (reason : string)
    (e : RecoveryEvent) : RecoveryEvent :=
  mkRecoveryEvent id (evt_ApprovalID e) (evt_ApprovalMatchedAt e) (evt_NodeName e)
    (evt_GPUBDF e) reason rt (evt_State e) (evt_StateMessage e) (evt_ImageVerifyGeneration e)
    (evt_DrainStartedAt e) (evt_PodsBlockingDrain e) (evt_ClaimsBlockingReset e) (evt_JobName e)
    (evt_PastJobs e) (evt_LastUpdated e).

Definition set_evt_jobs (job : string) (past : list string) (e : RecoveryEvent) : RecoveryEvent :=
  mkRecoveryEvent (evt_ID e) (evt_ApprovalID e) (evt_ApprovalMatchedAt e) (evt_NodeName e)
    (evt_GPUBDF e) (evt_Reason e) (evt_RecoveryType e) (evt_State e) (evt_StateMessage e)
    (evt_ImageVerifyGeneration e) (evt_DrainStartedAt e) (evt_PodsBlockingDrain e)
    (evt_ClaimsBlockingReset e) job past (evt_LastUpdated e).

Record GPURecoveryPlanStatus := mkGPURecoveryPlanStatus {
  st_State : PlanState;
  st_Messages : list string;
  st_Events : list RecoveryEvent;
}.

Record GPURecoveryPlan := mkGPURecoveryPlan {
  plan_Name : string;
  plan_Generation : Z;                    (* int64 *)
  plan_DeletionTimestamp : option Z;
  plan_Finalizers : list string;
  plan_Spec : GPURecoveryPlanSpec;
  plan_Status : GPURecoveryPlanStatus;
}.

#[global] Instance RecoveryTypeSpec_eq_dec : EqDecision RecoveryTypeSpec.
Proof. solve_decision. Defined.

#[global] Instance RecoveryEvent_eq_dec : EqDecision RecoveryEvent.
Proof. solve_decision. Defined.

#[global] Instance GPURecoveryPlanStatus_eq_dec : EqDecision GPURecoveryPlanStatus.
Proof. solve_decision. Defined.

#[global] Instance ContainerFirmwareSource_eq_dec : EqDecision ContainerFirmwareSource.
Proof. solve_decision. Defined.

#[global] Instance VolumeFirmwareSource_eq_dec : EqDecision VolumeFirmwareSource.
Proof. solve_decision. Defined.

#[global] Instance FirmwareSource_eq_dec : EqDecision FirmwareSource.
Proof. solve_decision. Defined.

#[global] Instance FirmwareSpec_eq_dec : EqDecision FirmwareSpec.
Proof. solve_decision. Defined.

#[global] Instance ApprovalSelector_eq_dec : EqDecision ApprovalSelector.
Proof. solve_decision. Defined.

#[global] Instance RecoveryOverride_eq_dec : EqDecision RecoveryOverride.
Proof. solve_decision. Defined.

#[global] Instance RecoveryApproval_eq_dec : EqDecision RecoveryApproval.
Proof. solve_decision. Defined.

Definition emptyEvent : RecoveryEvent :=
  mkRecoveryEvent "" "" None "" "" "" (mkRecoveryTypeSpec RecoveryTypeUnset RecoveryTypeUnset)
    RecoveryEventStateUnset "" 0 None [] [] "" [] None.

#[global] Instance RecoveryEvent_inhabited : Inhabited RecoveryEvent := populate emptyEvent.

Definition set_plan_Spec (s : GPURecoveryPlanSpec) (p : GPURecoveryPlan) : GPURecoveryPlan :=
  mkGPURecoveryPlan (plan_Name p) (plan_Generation p) (plan_DeletionTimestamp p)
    (plan_Finalizers p) s (plan_Status p).

Definition set_plan_Status (s : GPURecoveryPlanStatus) (p : GPURecoveryPlan) : GPURecoveryPlan :=
  mkGPURecoveryPlan (plan_Name p) (plan_Generation p) (plan_DeletionTimestamp p)
    (plan_Finalizers p) (plan_Spec p) s.

Definition set_plan_Finalizers (l : list string) (p : GPURecoveryPlan) : GPURecoveryPlan :=
  mkGPURecoveryPlan (plan_Name p) (plan_Generation p) (plan_DeletionTimestamp p) l (plan_Spec p)
    (plan_Status p).

Definition plan_Events (p : GPURecoveryPlan) : list RecoveryEvent := st_Events (plan_Status p).
Definition plan_Messages (p : GPURecoveryPlan) : list string := st_Messages (plan_Status p).
Definition plan_Approvals (p : GPURecoveryPlan) : list RecoveryApproval := sp_Approvals (plan_Spec p).

Definition set_plan_Events (l : list RecoveryEvent) (p : GPURecoveryPlan) : GPURecoveryPlan :=
  set_plan_Status
    (mkGPURecoveryPlanStatus (st_State (plan_Status p)) (st_Messages (plan_Status p)) l) p.

Definition set_plan_Messages (l : list string) (p : GPURecoveryPlan) : GPURecoveryPlan :=
  set_plan_Status
    (mkGPURecoveryPlanStatus (st_State (plan_Status p)) l (st_Events (plan_Status p))) p.

Definition set_plan_State (s : PlanState) (p : GPURecoveryPlan) : GPURecoveryPlan :=
  set_plan_Status
    (mkGPURecoveryPlanStatus s (st_Messages (plan_Status p)) (st_Events (plan_Status p))) p.

Definition set_plan_Approvals (l : list RecoveryApproval) (p : GPURecoveryPlan) : GPURecoveryPlan :=
  set_plan_Spec (set_sp_Approvals l (plan_Spec p)) p.

(** ** GPUFirmwareUpdate *)

Record GPUFirmwareFile := mkGPUFirmwareFile {
  ff_Type : string;
  ff_FileName : string;
  ff_Checksum : string;
}.

Record GPUFirmwareContent := mkGPUFirmwareContent {
  fc_ContainerImage : string;
  fc_Files : list GPUFirmwareFile;
}.

Record GPUFirmwareUpdateSpec := mkGPUFirmwareUpdateSpec {
  fus_Content : GPUFirmwareContent;
  fus_UpdateMethod : string;
  fus_UpdaterImage : string;
  fus_ImagePullSecret : string;
  fus_PCIDeviceID : string;
  fus_UpdateTaint : string;
  fus_Tolerations : list Toleration;
  fus_NodeSelector : labels;
  fus_InsecureSkipTLSVerify : bool;
  fus_HoldAfterCanary : bool;
}.

Record GPUFirmwareUpdateSubsetStatus := mkGPUFirmwareUpdateSubsetStatus {
  ni_All : list string;
  ni_Pending : list string;
  ni_Draining : list string;
  ni_Updating : list string;
  ni_Completed : list string;
  ni_Error : list string;
  ni_Jobs : list string;
}.

Record GPUFirmwareUpdateStatus := mkGPUFirmwareUpdateStatus {
  fst_State : string;
  fst_Messages : list string;
  fst_NodeInfos : GPUFirmwareUpdateSubsetStatus;
}.

Record GPUFirmwareUpdate := mkGPUFirmwareUpdate {
  fu_Name : string;
  fu_DeletionTimestamp : option Z;
  fu_Finalizers : list string;
  fu_Spec : GPUFirmwareUpdateSpec;
  fu_Status : GPUFirmwareUpdateStatus;
}.

#[global] Instance GPUFirmwareFile_eq_dec : EqDecision GPUFirmwareFile.
Proof. solve_decision. Defined.

#[global] Instance GPUFirmwareContent_eq_dec : EqDecision GPUFirmwareContent.
Proof. solve_decision. Defined.
