(* ===== verification/Common.v ===== *)
(** * Shared definitions of the controllers

    [internal/controller/common]: the GPU identifiers and device taints ([gpu.go]), the operator
    options ([opts.go]), the requeue request ([requeue.go]) and the image verification request
    ([contentimage_verifier.go]). *)

From S2P Require Import Prelude GoStrings KubeTypes.

Definition XeResource : string := "gpu.intel.com/xe".
Definition I915Resource : string := "gpu.intel.com/i915".
Definition GPUDeviceClass : string := "gpu.intel.com".
Definition DeviceAttrDeviceID : string := "pciId".
Definition DeviceAttrBDF : string := "pciAddress".
Definition DeviceTaintKeyReset : string := "health-xpumd-gpu.wedged".
Definition DeviceTaintKeyReflash : string := "health-Survivability".
Definition DeviceTaintKeyXpumdReflash : string := "health-xpumd-gpu.survivability".

Inductive DeviceRecovery :=
| DeviceRecoveryNone
| DeviceRecoveryReset
| DeviceRecoveryReflash.

#[global] Instance DeviceRecovery_eq_dec : EqDecision DeviceRecovery.
Proof. solve_decision. Defined.

Definition RecoveryForDeviceTaint (taintKey : string) : DeviceRecovery :=
  if bool_decide (taintKey = DeviceTaintKeyReset) then DeviceRecoveryReset
  else if bool_decide (taintKey = DeviceTaintKeyXpumdReflash ∨ taintKey = DeviceTaintKeyReflash)
  then DeviceRecoveryReflash
  else DeviceRecoveryNone.

Record ControllerOpts := mkControllerOpts {
  ReqName : string;
  Namespace : string;
  SecretName : string;
  RequeueDelay : Z;
  DRAEnable : bool;
  OpenShift : bool;
  KMMEnable : bool;
  ModuleLoaderServiceAccountName : string;
  KMMModuleReadyLabel : string;
}.

(** [RequeueReconcileErr{Err: cause}]; the text is that of [Error]. *)
Definition RequeueReconcileErr (cause : option GoErr) : GoErr :=
  mkErr RequeueReconcile
    match cause with
    | None => "sub-controller requested a requeue"
    | Some e => etext e
    end.

(** [errors.Is(err, RequeueReconcileErr{})] *)
Definition isRequeue (e : GoErr) : bool := bool_decide (ekind e = RequeueReconcile).

Record ImageFile := mkImageFile { if_Name : string; if_Checksum : string }.

Record ImageVerifyRequest := mkImageVerifyRequest {
  iv_Image : string;
  iv_PullSecret : string;
  iv_InsecureSkipTLSVerify : bool;
  iv_Files : list ImageFile;
}.

(** What a reconcile returns to the controller runtime. *)
Record Result := mkResult { RequeueAfter : Z }.
Definition noResult : Result := mkResult 0.
