(* ===== verification/PolicyTypes.v ===== *)
(** * ClusterPolicy: the API types

    [api/v1alpha1/clusterpolicy_types.go], field by field.  An affinity and a resource the code only
    passes on are [json]; a [LocalObjectReference] is its name, a key selector the pair of object name and
    key; a nil pointer is [None]. *)

From S2P Require Import Prelude KubeTypes.

Definition CDIDefaultStaticHostPath : string := "/etc/cdi".
Definition CDIDefaultDynamicHostPath : string := "/var/run/cdi".

Record KeySelector := mkKeySelector { ks_Name : string; ks_Key : string }.

Record DynamicResourceAllocationSpec := mkDynamicResourceAllocationSpec {
  dra_Image : string;
  dra_LogLevel : Z;
  dra_PodHealthCheck : bool;
  dra_ManageBinding : bool;
  dra_Affinity : option json;
}.

Record CDISpec := mkCDISpec { cdi_StaticHostPath : string; cdi_DynamicHostPath : string }.

Definition WithDefaults (c : CDISpec) : CDISpec :=
  mkCDISpec
    (if bool_decide (cdi_StaticHostPath c = "") then CDIDefaultStaticHostPath else cdi_StaticHostPath c)
    (if bool_decide (cdi_DynamicHostPath c = "") then CDIDefaultDynamicHostPath else cdi_DynamicHostPath c).

Record HealthinessSpec := mkHealthinessSpec {
  hs_CheckIntervalSeconds : Z;
  hs_CoreTemperatureThreshold : Z;
  hs_MemoryTemperatureThreshold : Z;
}.

Record DevicePluginSpec := mkDevicePluginSpec {
  dp_PluginImage : string;
  dp_LevelzeroImage : string;
  dp_AllowIDs : list string;
  dp_DenyIDs : list string;
  dp_ByPathMode : string;
  dp_LogLevel : Z;
  dp_Affinity : option json;
}.

Record OTLPHeader := mkOTLPHeader { oh_Name : string; oh_ValueFrom : KeySelector }.

Record OTLPTLSSpec := mkOTLPTLSSpec {
  ot_CA : option KeySelector;
  ot_ClientCertSecret : option string;
  ot_ServerName : string;
  ot_InsecureSkipVerify : bool;
}.

Record OTLPExporterSpec := mkOTLPExporterSpec {
  oe_Endpoint : string;
  oe_Headers : list OTLPHeader;
  oe_TLS : option OTLPTLSSpec;
}.

Record OTLPSpec := mkOTLPSpec { otlp_HTTP : option OTLPExporterSpec; otlp_GRPC : option OTLPExporterSpec }.

(** [XpumRestartMode] is a string type; these are its named values. *)
Definition XpumRestartOnRecoveredDevice : string := "OnRecoveredDevice".
Definition XpumRestartAlways : string := "Always".
Definition XpumRestartDisabled : string := "Disabled".

Record XpuManagerSpec := mkXpuManagerSpec {
  xpu_Image : string;
  xpu_LogLevel : Z;
  xpu_ConfigMapOverride : string;
  xpu_MonitoringResource : string;
  xpu_Affinity : option json;
  xpu_RestartOnDeviceRecovery : string;
  xpu_InfoLogs : bool;
  xpu_CrashLog : bool;
  xpu_OTLP : option OTLPSpec;
}.

Record RegistryTLSSpec := mkRegistryTLSSpec { rt_Insecure : bool; rt_InsecureSkipTLSVerify : bool }.

Record BuildArg := mkBuildArg { ba_Name : string; ba_Value : string }.

Record KernelModuleBuildSpec := mkKernelModuleBuildSpec {
  kb_DockerfileConfigMap : string;
  kb_BuildArgs : list BuildArg;
  kb_Secrets : list string;
}.

Record KernelMappingSpec := mkKernelMappingSpec {
  kms_Regexp : string;
  kms_ContainerImage : string;
  kms_Build : option KernelModuleBuildSpec;
  kms_InTreeModulesToRemove : list string;
  kms_RegistryTLS : option RegistryTLSSpec;
}.

Record KernelModuleSpec := mkKernelModuleSpec {
  km_ModuleName : string;
  km_Version : string;
  km_KernelMappings : list KernelMappingSpec;
  km_ModulesLoadingOrder : list string;
  km_FirmwarePath : string;
  km_RegistryTLS : option RegistryTLSSpec;
}.

Record LocalQueueSpec := mkLocalQueueSpec { lq_Name : string; lq_Namespace : string }.
Record ClusterQueueSpec := mkClusterQueueSpec { cq_Name : string; cq_LocalQueues : list LocalQueueSpec }.
Record KueueQueueSpec := mkKueueQueueSpec { kq_EqualResources : list ClusterQueueSpec }.

Record ClusterPolicySpec := mkClusterPolicySpec {
  cps_ResourceRegistration : string;
  cps_ResourceMonitoring : bool;
  cps_UseNFDLabeling : bool;
  cps_PrometheusIntegration : bool;
  cps_EnableKueue : bool;
  cps_Kueue : option KueueQueueSpec;
  cps_HealthinessSpec : option HealthinessSpec;
  cps_DynamicResourceAllocationSpec : DynamicResourceAllocationSpec;
  cps_DevicePluginSpec : DevicePluginSpec;
  cps_XpuManagerSpec : XpuManagerSpec;
  cps_PullSecret : option string;
  cps_NodeSelector : labels;
  cps_Tolerations : list Toleration;
  cps_LogLevel : Z;
  cps_KernelModule : option KernelModuleSpec;
  cps_CDI : CDISpec;
}.

Record ClusterPolicyStatus := mkClusterPolicyStatus {
  cpst_DevicePluginStatus : string;
  cpst_DRAStatus : string;
  cpst_XPUManagerStatus : string;
  cpst_KMMStatus : string;
  cpst_Errors : list string;
}.

Record ClusterPolicy := mkClusterPolicy {
  cp_Name : string;
  cp_DeletionTimestamp : option Z;
  cp_Finalizers : list string;
  cp_Spec : ClusterPolicySpec;
  cp_Status : ClusterPolicyStatus;
}.

#[global] Instance ClusterPolicyStatus_eq_dec : EqDecision ClusterPolicyStatus.
Proof. solve_decision. Defined.

(** [ResourceRegistration] modes, of [clusterpolicy_controller.go] *)
Definition resourceModeDRA : string := "dra".
Definition resourceModeDP : string := "dp".

(** The label of the xpum pods, of [xpumanager_controller.go] *)
Definition xpuLabel : string := "app".
Definition xpuValue : string := "intel-xpumanager".
