(* ===== verification/PolicyObjects.v ===== *)
(** * ClusterPolicy: the objects its controllers handle

    The parts of the Kubernetes objects that the ClusterPolicy controllers read or write, and the exchanges
    they have with the API server about them.  Parts the code only carries along are [json]. *)

From Stdlib Require Import List.
From S2P Require Import Prelude KubeTypes PolicyTypes.

Fixpoint json_dec (x y : json) {struct x} : {x = y} + {x ≠ y}.
Proof.
  decide equality.
  - apply bool_dec.
  - apply Z.eq_dec.
  - apply String.string_dec.
  - apply (List.list_eq_dec json_dec).
  - apply List.list_eq_dec. intros [a b] [c d]. destruct (String.string_dec a c), (json_dec b d); [left; congruence|right; congruence..].
Defined.
#[global] Instance json_eq_dec : EqDecision json := json_dec.

(** ** DaemonSets *)

Inductive VolumeSource :=
| VSHostPath (path : string) (type : option string)
| VSConfigMap (name : string) (items : list (string * string)) (mode : option Z)
| VSSecret (name : string) (items : list (string * string)) (mode : option Z)
| VSOther (j : json).

Record Volume := mkVolume { vol_Name : string; vol_Source : VolumeSource }.

Record VolumeMount := mkVolumeMount { vm_Name : string; vm_MountPath : string; vm_ReadOnly : bool }.

Inductive EnvSource := EnvValue (v : string) | EnvField (path : string) | EnvSecret (k : KeySelector) | EnvOther (j : json).
Record EnvVar := mkEnvVar { env_Name : string; env_Source : EnvSource }.

(** A gRPC probe. *)
Record Probe := mkProbe {
  pb_FailureThreshold : Z;
  pb_PeriodSeconds : Z;
  pb_TimeoutSeconds : Z;
  pb_Port : Z;
  pb_Service : string;
}.

(** Of the SELinux options only the type is set or read. *)
Record SecurityContext := mkSecurityContext { sc_SELinuxType : option string; sc_rest : json }.

Record DContainer := mkDContainer {
  dc_Name : string;
  dc_Image : string;
  dc_Args : list string;
  dc_Env : list EnvVar;
  dc_Ports : list (string * Z);                       (* name, container port *)
  dc_StartupProbe : option Probe;
  dc_LivenessProbe : option Probe;
  dc_Limits : option (gmap string string);
  dc_Requests : option (gmap string string);
  dc_Claims : list string;
  dc_VolumeMounts : list VolumeMount;
  dc_SecurityContext : option SecurityContext;
}.

Record DPodSpec := mkDPodSpec {
  dps_ServiceAccountName : string;
  dps_NodeSelector : labels;
  dps_Tolerations : list Toleration;
  dps_Affinity : option json;
  dps_ImagePullSecrets : list string;
  dps_Volumes : list Volume;
  dps_Containers : list DContainer;
  dps_ResourceClaims : list (string * option string); (* name, claim template *)
}.

Record DaemonSet := mkDaemonSet {
  ds_Name : string;
  ds_Namespace : string;
  ds_Labels : labels;
  ds_Annotations : labels;                            (* of the pod template *)
  ds_Spec : DPodSpec;                                 (* of the pod template *)
  ds_NumberReady : Z;
  ds_DesiredNumberScheduled : Z;
}.

(** ** KMM modules *)

Record TLSOptions := mkTLSOptions { tls_Insecure : bool; tls_InsecureSkipTLSVerify : bool }.

Record Build := mkBuild {
  b_DockerfileConfigMap : string;
  b_Secrets : list string;
  b_Selector : labels;
  b_BuildArgs : list (string * string);
}.

Record KernelMapping := mkKernelMapping {
  kmap_Regexp : string;
  kmap_ContainerImage : string;
  kmap_InTreeModulesToRemove : list string;
  kmap_RegistryTLS : option TLSOptions;
  kmap_Build : option Build;
}.

Record ModuleLoaderContainerSpec := mkModuleLoaderContainerSpec {
  mlc_ModuleName : string;
  mlc_FirmwarePath : string;
  mlc_ModulesLoadingOrder : list string;
  mlc_Version : string;
  mlc_InTreeModulesToRemove : list string;
  mlc_ImagePullPolicy : string;
  mlc_RegistryTLS : TLSOptions;
  mlc_KernelMappings : list KernelMapping;
}.

Record ModuleLoaderSpec := mkModuleLoaderSpec { ml_Container : ModuleLoaderContainerSpec; ml_ServiceAccountName : string }.

Record KmmModule := mkKmmModule {
  mod_Name : string;
  mod_Namespace : string;
  mod_DeletionTimestamp : option Z;
  mod_Owner : option string;
  mod_Selector : labels;
  mod_Tolerations : list Toleration;
  mod_ImageRepoSecret : option string;
  mod_ModuleLoader : option ModuleLoaderSpec;
  mod_AvailableNumber : Z;                            (* of Status.ModuleLoader *)
  mod_DesiredNumber : Z;
}.

(** ** Other objects *)

Record DeviceClass := mkDeviceClass { dcl_Name : string; dcl_Selectors : list string; dcl_ExtendedResourceName : option string }.

Record ConfigMap := mkConfigMap { cm_Namespace : string; cm_Name : string; cm_Labels : labels;
  cm_Data : option (gmap string string);              (* [None] is the nil map *)
}.

Record NodeFeatureRule := mkNodeFeatureRule {
  nfr_Name : string; nfr_Namespace : string; nfr_Labels : labels; nfr_Spec : json }.

(** Amounts are counted in billionths, the finest scale of a [resource.Quantity]. *)
Definition Quantity := Z.

Record ResourceFlavor := mkResourceFlavor { rf_Name : string; rf_Labels : labels }.
Record ClusterQueue := mkClusterQueue {
  kcq_Name : string;
  kcq_Labels : option labels;                         (* [None] is the nil map *)
  kcq_CoveredResources : list string;
  kcq_Flavor : string;
  kcq_Quotas : list (string * Quantity);
  kcq_rest : json;                                    (* the other fields of the spec *)
}.
Record LocalQueue := mkLocalQueue {
  klq_Name : string;
  klq_Namespace : string;
  klq_Labels : option labels;
  klq_ClusterQueue : string;
  klq_rest : json;
}.

(** What Kueue's resource counting reads of nodes and slices; of a device, whether it has attributes or
    capacity. *)
Record KueueNode := mkKueueNode { kn_Name : string; kn_Allocatable : gmap string Quantity }.
Record KueueSlice := mkKueueSlice {
  ksl_Driver : string; ksl_NodeName : option string; ksl_Devices : list bool }.

Inductive Kind :=
| KDaemonSet | KModule | KConfigMap | KClaimTemplate | KServiceAccount | KClusterRole | KClusterRoleBinding | KDeviceClass
| KAdmissionPolicy | KAdmissionPolicyBinding | KServiceMonitor | KService | KNodeFeatureRule | KResourceFlavor
| KClusterQueue | KLocalQueue | KSCC.

Record Ref := mkRef { ref_Kind : Kind; ref_Namespace : string; ref_Name : string }.

Inductive Obj :=
| ODaemonSet (d : DaemonSet)
| OConfigMap (c : ConfigMap)
| OClaimTemplate (ns name : string)
| OServiceAccount (ns name : string)
| ODraClusterRole (name : string)
| ODraClusterRoleBinding (name ns roleRef : string) (subjects : list (string * string))  (* name, namespace *)
| ODeviceClass (d : DeviceClass)
| OAdmissionPolicy (name matchExpression : string)
| OAdmissionPolicyBinding (name policyName : string)
| OServiceMonitor (ns name : string) (l : labels) (matchNames : list string)
| OService (ns name : string) (l : labels)
| ONodeFeatureRule (r : NodeFeatureRule)
| OResourceFlavor (f : ResourceFlavor)
| OClusterQueue (q : ClusterQueue)
| OLocalQueue (q : LocalQueue).

(** ** The exchanges *)

Inductive PolEv :=
| PvGetPolicy (name : string) (r : res ClusterPolicy)
| PvUpdatePolicy (cp : ClusterPolicy) (r : res ClusterPolicy)
| PvUpdatePolicyStatus (cp : ClusterPolicy) (r : res ClusterPolicy)
| PvListPolicies (r : res (list ClusterPolicy))
| PvListCRDs (r : res (list string))
| PvGetCRDScope (name : string) (r : res string)
| PvGetDaemonSet (ns name : string) (r : res DaemonSet)
| PvGetModule (ns name : string) (r : res KmmModule)
| PvCreateModule (m : KmmModule) (r : res KmmModule)
| PvPatchModule (m : KmmModule) (r : res KmmModule)
| PvGetConfigMap (ns name : string) (r : res ConfigMap)
| PvGetDeviceClass (name : string) (r : res DeviceClass)
| PvGetNodeFeatureRule (ns name : string) (r : res NodeFeatureRule)
| PvGetResourceFlavor (name : string) (r : res ResourceFlavor)
| PvGetClusterQueue (name : string) (r : res ClusterQueue)
| PvGetLocalQueue (ns name : string) (r : res LocalQueue)
| PvListServiceMonitors (ns : string) (l : labels) (r : res (list string))
| PvListServices (ns : string) (l : labels) (r : res (list string))
| PvListClusterQueues (l : labels) (r : res (list string))
| PvListLocalQueues (l : labels) (r : res (list (string * string)))   (* name, namespace *)
| PvListNodes (r : res (list KueueNode))
| PvListSlices (r : res (list KueueSlice))
| PvSetControllerReference (owner : string) (o : Ref) (r : res unit)
| PvCreate (o : Obj) (r : res unit)
| PvUpdate (o : Obj) (r : res unit)
| PvPatch (o : Obj) (r : res unit)
| PvDelete (o : Ref) (r : res unit)
| PvDeleteAllOf (k : Kind) (l : labels) (r : res unit).

#[global] Instance VolumeSource_eq_dec : EqDecision VolumeSource.
Proof. solve_decision. Defined.
#[global] Instance Volume_eq_dec : EqDecision Volume.
Proof. solve_decision. Defined.
#[global] Instance VolumeMount_eq_dec : EqDecision VolumeMount.
Proof. solve_decision. Defined.
#[global] Instance KeySelector_eq_dec : EqDecision KeySelector.
Proof. solve_decision. Defined.
#[global] Instance EnvSource_eq_dec : EqDecision EnvSource.
Proof. solve_decision. Defined.
#[global] Instance EnvVar_eq_dec : EqDecision EnvVar.
Proof. solve_decision. Defined.
#[global] Instance Probe_eq_dec : EqDecision Probe.
Proof. solve_decision. Defined.
#[global] Instance SecurityContext_eq_dec : EqDecision SecurityContext.
Proof. solve_decision. Defined.
#[global] Instance DContainer_eq_dec : EqDecision DContainer.
Proof. solve_decision. Defined.
#[global] Instance DPodSpec_eq_dec : EqDecision DPodSpec.
Proof. solve_decision. Defined.
#[global] Instance DaemonSet_eq_dec : EqDecision DaemonSet.
Proof. solve_decision. Defined.
#[global] Instance TLSOptions_eq_dec : EqDecision TLSOptions.
Proof. solve_decision. Defined.
#[global] Instance Build_eq_dec : EqDecision Build.
Proof. solve_decision. Defined.
#[global] Instance KernelMapping_eq_dec : EqDecision KernelMapping.
Proof. solve_decision. Defined.
#[global] Instance ModuleLoaderContainerSpec_eq_dec : EqDecision ModuleLoaderContainerSpec.
Proof. solve_decision. Defined.
#[global] Instance ModuleLoaderSpec_eq_dec : EqDecision ModuleLoaderSpec.
Proof. solve_decision. Defined.
#[global] Instance KmmModule_eq_dec : EqDecision KmmModule.
Proof. solve_decision. Defined.
#[global] Instance DeviceClass_eq_dec : EqDecision DeviceClass.
Proof. solve_decision. Defined.
#[global] Instance Kind_eq_dec : EqDecision Kind.
Proof. solve_decision. Defined.
#[global] Instance Ref_eq_dec : EqDecision Ref.
Proof. solve_decision. Defined.
