(* ===== verification/Client.v ===== *)
(** * The outside world

    The API server, the container registry, the pod logs and the clock are parameters of the model:
    an [Env] answers every request as an arbitrary function of the exchanges so far.  Nothing is
    assumed of the answers, so a theorem stated for every [Env] covers failures, stale caches and
    any interleaving with the other clients of the API server.

    Every exchange is logged with its answer.  The log is what trace properties are about. *)

From S2P Require Import Prelude KubeTypes ApiTypes Common PolicyTypes PolicyObjects.

Inductive Ev :=
| EvNow (t : Z)
(* custom resources *)
| EvGetPlan (direct : bool) (name : string) (r : res GPURecoveryPlan)
| EvUpdatePlan (p : GPURecoveryPlan) (r : res GPURecoveryPlan)
| EvUpdatePlanStatus (p : GPURecoveryPlan) (r : res GPURecoveryPlan)
| EvListPlans (r : res (list GPURecoveryPlan))
| EvGetFU (name : string) (r : res GPUFirmwareUpdate)
| EvUpdateFU (f : GPUFirmwareUpdate) (r : res GPUFirmwareUpdate)
| EvUpdateFUStatus (f : GPUFirmwareUpdate) (r : res GPUFirmwareUpdate)
(* nodes and pods *)
| EvListNodes (sel : labels) (r : res (list Node))
| EvGetNode (name : string) (r : res Node)
| EvUpdateNode (n : Node) (r : res unit)
| EvListPodsOnNode (node : string) (r : res (list Pod))
| EvListPods (ns key value : string) (r : res (list Pod))
| EvGetPod (ns name : string) (r : res Pod)
| EvEvict (ns name : string) (r : res unit)
| EvLogs (ns pod container : string) (r : res (list string))
(* dynamic resource allocation *)
| EvListSlices (r : res (list ResourceSlice))
| EvListClaims (r : res (list ResourceClaim))
| EvGetClaim (ns name : string) (r : res ResourceClaim)
| EvGetClaimTemplate (ns name : string) (r : res ResourceClaimTemplate)
(* jobs *)
| EvSetControllerReference (owner : string) (j : Job) (r : res unit)
| EvCreateJob (j : Job) (r : res unit)
| EvGetJob (ns name : string) (r : res Job)
| EvDeleteJob (ns name : string) (r : res unit)
| EvListJobs (ns key value : string) (r : res (list Job))
(* registry *)
| EvVerifyImage (q : ImageVerifyRequest) (r : res unit)
(* OpenShift *)
| EvGetSCC (name : string) (r : res string)
| EvCreateSCC (s : SCC) (r : res unit)
| EvUpdateSCC (s : SCC) (r : res unit)
| EvDeleteSCC (name : string) (r : res unit)
| EvCreateOrPatchRole (c : ClusterRole) (r : res unit)
| EvDeleteRole (name : string) (r : res unit)
| EvCreateOrPatchRoleBinding (c : ClusterRoleBinding) (r : res unit)
| EvDeleteRoleBinding (name : string) (r : res unit)
| EvGetServiceAccount (ns name : string) (r : res unit)
| EvCreateServiceAccount (ns name : string) (r : res unit)
| EvDeleteServiceAccount (ns name : string) (r : res unit)
(* the objects of ClusterPolicy *)
| EvPolicy (e : PolEv).

Class Env := {
  env_now : list Ev → Z;
  env_getPlan : list Ev → bool → string → res GPURecoveryPlan;
  env_updatePlan : list Ev → GPURecoveryPlan → res GPURecoveryPlan;
  env_updatePlanStatus : list Ev → GPURecoveryPlan → res GPURecoveryPlan;
  env_listPlans : list Ev → res (list GPURecoveryPlan);
  env_getFU : list Ev → string → res GPUFirmwareUpdate;
  env_updateFU : list Ev → GPUFirmwareUpdate → res GPUFirmwareUpdate;
  env_updateFUStatus : list Ev → GPUFirmwareUpdate → res GPUFirmwareUpdate;
  env_listNodes : list Ev → labels → res (list Node);
  env_getNode : list Ev → string → res Node;
  env_updateNode : list Ev → Node → res unit;
  env_listPodsOnNode : list Ev → string → res (list Pod);
  env_listPods : list Ev → string → string → string → res (list Pod);
  env_getPod : list Ev → string → string → res Pod;
  env_evict : list Ev → string → string → res unit;
  env_logs : list Ev → string → string → string → res (list string);
  env_listSlices : list Ev → res (list ResourceSlice);
  env_listClaims : list Ev → res (list ResourceClaim);
  env_getClaim : list Ev → string → string → res ResourceClaim;
  env_getClaimTemplate : list Ev → string → string → res ResourceClaimTemplate;
  env_setControllerReference : list Ev → string → Job → res unit;
  env_createJob : list Ev → Job → res unit;
  env_getJob : list Ev → string → string → res Job;
  env_deleteJob : list Ev → string → string → res unit;
  env_listJobs : list Ev → string → string → string → res (list Job);
  env_verifyImage : list Ev → ImageVerifyRequest → res unit;
  env_getSCC : list Ev → string → res string;
  env_createSCC : list Ev → SCC → res unit;
  env_updateSCC : list Ev → SCC → res unit;
  env_deleteSCC : list Ev → string → res unit;
  env_createOrPatchRole : list Ev → ClusterRole → res unit;
  env_deleteRole : list Ev → string → res unit;
  env_createOrPatchRoleBinding : list Ev → ClusterRoleBinding → res unit;
  env_deleteRoleBinding : list Ev → string → res unit;
  env_getServiceAccount : list Ev → string → string → res unit;
  env_createServiceAccount : list Ev → string → string → res unit;
  env_deleteServiceAccount : list Ev → string → string → res unit;

  (** The order in which [range] visits a map: some permutation of its entries. *)
  env_range : ∀ {A : Type}, list Ev → list A → list A;
  env_range_perm : ∀ {A : Type} h (l : list A), env_range h l ≡ₚ l;

  (** [validation.IsDNS1123Subdomain], [IsDNS1123Label] of the API machinery: the list of the
      problems found with a name. *)
  isDNS1123Subdomain : string → list string;
  isDNS1123Label : string → list string;

  (** The attempts [retry.DefaultRetry] allows. *)
  retrySteps : nat;
}.

Abbreviation Op S := (M Ev S).

(** The loop of [retry.RetryOnConflict]: [fn] is run again while it reports a conflict and the backoff
    allows another attempt. *)
Fixpoint retryLoop {E S : Type} (steps : nat) (fn : M E S (option GoErr)) : M E S (option GoErr) :=
  r ← fn;
  match r, steps with
  | Some e, S (S _ as steps') => if isConflict e then retryLoop steps' fn else mret (Some e)
  | _, _ => mret r
  end.

Section Requests.
Context `{!Env} {St : Type}.

Definition Now : Op St Z := exchange env_now EvNow.
Definition GetPlan d n : Op St _ := exchange (λ h, env_getPlan h d n) (EvGetPlan d n).
Definition UpdatePlan p : Op St _ := exchange (λ h, env_updatePlan h p) (EvUpdatePlan p).
Definition UpdatePlanStatus p : Op St _ :=
  exchange (λ h, env_updatePlanStatus h p) (EvUpdatePlanStatus p).
Definition ListPlans : Op St _ := exchange env_listPlans EvListPlans.
Definition GetFU n : Op St _ := exchange (λ h, env_getFU h n) (EvGetFU n).
Definition UpdateFU f : Op St _ := exchange (λ h, env_updateFU h f) (EvUpdateFU f).
Definition UpdateFUStatus f : Op St _ := exchange (λ h, env_updateFUStatus h f) (EvUpdateFUStatus f).
Definition ListNodes sel : Op St _ := exchange (λ h, env_listNodes h sel) (EvListNodes sel).
Definition GetNode n : Op St _ := exchange (λ h, env_getNode h n) (EvGetNode n).
Definition UpdateNode n : Op St _ := exchange (λ h, env_updateNode h n) (EvUpdateNode n).
Definition ListPodsOnNode n : Op St _ :=
  exchange (λ h, env_listPodsOnNode h n) (EvListPodsOnNode n).
Definition ListPods ns k v : Op St _ := exchange (λ h, env_listPods h ns k v) (EvListPods ns k v).
Definition GetPod ns n : Op St _ := exchange (λ h, env_getPod h ns n) (EvGetPod ns n).
Definition Evict ns n : Op St _ := exchange (λ h, env_evict h ns n) (EvEvict ns n).
Definition Logs ns p c : Op St _ := exchange (λ h, env_logs h ns p c) (EvLogs ns p c).
Definition ListSlices : Op St _ := exchange env_listSlices EvListSlices.
Definition ListClaims : Op St _ := exchange env_listClaims EvListClaims.
Definition GetClaim ns n : Op St _ := exchange (λ h, env_getClaim h ns n) (EvGetClaim ns n).
Definition GetClaimTemplate ns n : Op St _ :=
  exchange (λ h, env_getClaimTemplate h ns n) (EvGetClaimTemplate ns n).
Definition SetControllerReference o j : Op St _ :=
  exchange (λ h, env_setControllerReference h o j) (EvSetControllerReference o j).
Definition CreateJob j : Op St _ := exchange (λ h, env_createJob h j) (EvCreateJob j).
Definition GetJob ns n : Op St _ := exchange (λ h, env_getJob h ns n) (EvGetJob ns n).
Definition DeleteJob ns n : Op St _ := exchange (λ h, env_deleteJob h ns n) (EvDeleteJob ns n).
Definition ListJobs ns k v : Op St _ := exchange (λ h, env_listJobs h ns k v) (EvListJobs ns k v).
Definition VerifyImage q : Op St _ := exchange (λ h, env_verifyImage h q) (EvVerifyImage q).
Definition GetSCC n : Op St _ := exchange (λ h, env_getSCC h n) (EvGetSCC n).
Definition CreateSCC s : Op St _ := exchange (λ h, env_createSCC h s) (EvCreateSCC s).
Definition UpdateSCC s : Op St _ := exchange (λ h, env_updateSCC h s) (EvUpdateSCC s).
Definition DeleteSCC n : Op St _ := exchange (λ h, env_deleteSCC h n) (EvDeleteSCC n).
Definition CreateOrPatchRole c : Op St _ :=
  exchange (λ h, env_createOrPatchRole h c) (EvCreateOrPatchRole c).
Definition DeleteRole n : Op St _ := exchange (λ h, env_deleteRole h n) (EvDeleteRole n).
Definition CreateOrPatchRoleBinding c : Op St _ :=
  exchange (λ h, env_createOrPatchRoleBinding h c) (EvCreateOrPatchRoleBinding c).
Definition DeleteRoleBinding n : Op St _ :=
  exchange (λ h, env_deleteRoleBinding h n) (EvDeleteRoleBinding n).
Definition GetServiceAccount ns n : Op St _ :=
  exchange (λ h, env_getServiceAccount h ns n) (EvGetServiceAccount ns n).
Definition CreateServiceAccountObj ns n : Op St _ :=
  exchange (λ h, env_createServiceAccount h ns n) (EvCreateServiceAccount ns n).
Definition DeleteServiceAccount ns n : Op St _ :=
  exchange (λ h, env_deleteServiceAccount h ns n) (EvDeleteServiceAccount ns n).

(** [for k, v := range m] for a map given by its entries: the order is not specified. *)
Definition rangeMap {A} (l : list A) : Op St (list A) := λ w, (env_range (log w) l, w).

(** [retry.RetryOnConflict(retry.DefaultRetry, fn)] *)
Definition RetryOnConflict (fn : Op St (option GoErr)) : Op St (option GoErr) :=
  retryLoop retrySteps fn.
End Requests.

Lemma wp_rangeMap `{!Env} {S A} (l : list A) (Q : list A → World Ev S → Prop) w :
  (∀ l', l' ≡ₚ l → Q l' w) → wp (rangeMap l) Q w.
Proof. intros HQ. apply HQ, env_range_perm. Qed.

Lemma keeps_rangeMap `{!Env} {S A} (R : World Ev S → World Ev S → Prop) `{!PreOrder R} (l : list A) :
  keeps R (rangeMap l).
Proof. intros w. simpl. reflexivity. Qed.
#[export] Hint Extern 1 (keeps _ (rangeMap _)) => apply keeps_rangeMap; apply _ : keeps.

Lemma keeps_RetryOnConflict `{!Env} {S} (R : World Ev S → World Ev S → Prop) `{!PreOrder R} fn :
  keeps R fn → keeps R (RetryOnConflict fn).
Proof.
  intros Hfn. unfold RetryOnConflict. induction retrySteps as [|n IH]; simpl.
  - keeps_auto.
  - apply keeps_bind; [apply _|done|]. intros [e|]; [|apply keeps_ret; apply _].
    destruct n as [|n']; [apply keeps_ret; apply _|].
    destruct (isConflict e); [done|apply keeps_ret; apply _].
Qed.
