(* ===== verification/Drain.v ===== *)
(** * Node taints and pod drains

    [internal/controller/common/drain.go]: the primitives both the GPU recovery and the firmware
    update controllers use to clear a node, and what they guarantee whatever the API server
    answers.  The last part states them against an API server that stores nodes ([NodeServer]). *)

From Stdlib Require Import Ascii.
From S2P Require Import Prelude GoStrings KubeTypes ApiTypes Common Client.

Inductive drainAction := drainIgnore | drainEvict | drainAwait.

#[global] Instance drainAction_eq_dec : EqDecision drainAction.
Proof. solve_decision. Defined.

Definition mirrorPodAnnotation : string := "kubernetes.io/config.mirror".

Definition taintsEqual (a b : Taint) : bool :=
  bool_decide (taint_key a = taint_key b) && bool_decide (taint_value a = taint_value b)
  && bool_decide (taint_effect a = taint_effect b).

(** [IndexPodByNodeName]: the index entries of a pod. *)
Definition IndexPodByNodeName (pod : Pod) : list string :=
  if bool_decide (pod_nodeName pod = "") then [] else [pod_nodeName pod].

(** A firstAvailable alternative counts like an exact request. *)
Definition requestsIntelGPU (requests : list DeviceRequest) : bool :=
  existsb (λ req,
    bool_decide (dr_exactly req = Some GPUDeviceClass)
    || existsb (λ fa, bool_decide (fa = GPUDeviceClass)) (dr_firstAvailable req)) requests.

(** The reason is [Some] exactly when the Go function returns true. *)
Definition DrainNeverEvicts (pod : Pod) (operatorNamespace : string) (skipNamespaces : list string) :
    option string :=
  if bool_decide (pod_namespace pod = operatorNamespace) then Some "operator namespace"
  else if bool_decide (pod_namespace pod ∈ skipNamespaces) then Some "namespace in namespacesToSkip"
  else if bool_decide (is_Some (pod_annotations pod !! mirrorPodAnnotation)) then Some "static pod"
  else if existsb (λ k, bool_decide (k = "DaemonSet")) (pod_ownerKinds pod) then Some "DaemonSet pod"
  else None.

Definition classifyPodForDrain (pod : Pod) (operatorNamespace : string)
    (skipNamespaces : list string) : drainAction * string :=
  match DrainNeverEvicts pod operatorNamespace skipNamespaces with
  | Some reason => (drainIgnore, reason)
  | None =>
      if bool_decide (pod_phase pod = PodSucceeded) || bool_decide (pod_phase pod = PodFailed)
      then (drainIgnore, "already " +:+ pod_phase pod)
      else
        match pod_deletionTimestamp pod with
        | Some _ => (drainAwait, "already terminating")
        | None => (drainEvict, "evictable")
        end
  end.

(** A pod is evicted when nothing protects it, it has not ended and it is not going away. *)
Lemma classifyPodForDrain_evict pod ns skip :
  (classifyPodForDrain pod ns skip).1 = drainEvict ↔
  pod_namespace pod ≠ ns ∧ pod_namespace pod ∉ skip ∧ pod_annotations pod !! mirrorPodAnnotation = None ∧
  "DaemonSet" ∉ pod_ownerKinds pod ∧ pod_phase pod ≠ PodSucceeded ∧ pod_phase pod ≠ PodFailed ∧
  pod_deletionTimestamp pod = None.
Proof.
  assert (existsb (λ k, bool_decide (k = "DaemonSet")) (pod_ownerKinds pod)
          = bool_decide ("DaemonSet" ∈ pod_ownerKinds pod)) as Hds.
  { apply eq_true_iff_eq. rewrite existsb_exists, bool_decide_eq_true. setoid_rewrite <- list_elem_of_In.
    setoid_rewrite bool_decide_eq_true. naive_solver. }
  unfold classifyPodForDrain, DrainNeverEvicts. rewrite Hds. unfold is_Some.
  destruct (pod_annotations pod !! mirrorPodAnnotation) as [v|] eqn:Ha.
  - split; [|naive_solver]. repeat case_bool_decide; simpl; try done. destruct_and?. naive_solver.
  - rewrite (bool_decide_false (∃ x, None = Some x)) by naive_solver.
    destruct (pod_deletionTimestamp pod); repeat case_bool_decide; simpl; naive_solver.
Qed.

(** [errors.Join] *)
Definition errorsJoin (errs : list GoErr) : option GoErr :=
  match errs with
  | [] => None
  | _ => Some (errorf (join (String (ascii_of_nat 10) "") (etext <$> errs)))
  end.

Section Drain.
Context `{!Env} {St : Type}.

Definition EnsureNodeTaint (nodeName : string) (taint : Taint) : Op St (res bool) :=
  r ← GetNode nodeName;
  match r with
  | Err e => mret (Err (wrapErr ("failed to get node " +:+ nodeName +:+ ": ") e))
  | Ok node =>
      if existsb (λ t, taintsEqual t taint) (node_taints node) then mret (Ok false)
      else
        u ← UpdateNode (set_node_taints (node_taints node ++ [taint]) node);
        match u with
        | Err e =>
            mret (Err (wrapErr ("failed to update node " +:+ nodeName +:+ " with taint "
                                +:+ taint_key taint +:+ ": ") e))
        | Ok _ => mret (Ok true)
        end
  end.

Definition RemoveNodeTaint (nodeName : string) (taint : Taint) : Op St (res bool) :=
  r ← GetNode nodeName;
  match r with
  | Err e => mret (Err (wrapErr ("failed to get node " +:+ nodeName +:+ ": ") e))
  | Ok node =>
      let removed := existsb (λ t, taintsEqual t taint) (node_taints node) in
      let kept := filter (λ t, taintsEqual t taint = false) (node_taints node) in
      if negb removed then mret (Ok false)
      else
        u ← UpdateNode (set_node_taints kept node);
        match u with
        | Err e =>
            mret (Err (wrapErr ("failed to remove taint " +:+ taint_key taint +:+ " from node "
                                +:+ nodeName +:+ ": ") e))
        | Ok _ => mret (Ok true)
        end
  end.

Definition NodesWithTaint (taint : Taint) : Op St (res (list string)) :=
  r ← ListNodes ∅;
  match r with
  | Err e => mret (Err (wrapErr "failed to list nodes: " e))
  | Ok nodes =>
      mret (Ok (node_name <$> filter (λ n, existsb (λ t, taintsEqual t taint) (node_taints n) = true)
                                nodes))
  end.

Definition podsOnNode (nodeName : string) : Op St (res (list Pod)) :=
  r ← ListPodsOnNode nodeName;
  match r with
  | Err e => mret (Err (wrapErr ("failed to list pods on node " +:+ nodeName +:+ ": ") e))
  | Ok pods => mret (Ok pods)
  end.

Definition podClaimsIntelGPU (claims : list PodResourceClaim) (namespace : string) :
    Op St (res bool) :=
  o ← foldUntil (λ (_ : unit) rc,
        a ← match prc_claimName rc with
            | None => mret None
            | Some n =>
                r ← GetClaim namespace n;
                match r with
                | Err e => mret (Some (Err (wrapErr ("failed to get ResourceClaim " +:+ n +:+ ": ") e)))
                | Ok c => mret (if requestsIntelGPU (rc_requests c) then Some (Ok true) else None)
                end
            end;
        match a with
        | Some r => mret (inr r)
        | None =>
            match prc_templateName rc with
            | None => mret (inl tt)
            | Some n =>
                r ← GetClaimTemplate namespace n;
                match r with
                | Err e =>
                    mret (inr (Err (wrapErr ("failed to get ResourceClaimTemplate " +:+ n +:+ ": ") e)))
                | Ok c => mret (if requestsIntelGPU (rct_requests c) then inr (Ok true) else inl tt)
                end
            end
        end) tt claims;
  mret match o with
       | inr r => r
       | inl _ => Ok false
       end.

Definition holdsExtendedResource (pod : Pod) : bool :=
  existsb (λ cnt, bool_decide (is_Some (c_limits cnt !! XeResource))
                  || bool_decide (is_Some (c_limits cnt !! I915Resource))) (pod_containers pod).

Definition GPUPodsOnNode (nodeName : string) : Op St (res (list Pod)) :=
  r ← podsOnNode nodeName;
  match r with
  | Err e => mret (Err e)
  | Ok pods =>
      o ← foldUntil (λ gpuPods pod,
            let include := holdsExtendedResource pod in
            c ← (if negb include && negb (bool_decide (pod_resourceClaims pod = []))
                 then podClaimsIntelGPU (pod_resourceClaims pod) (pod_namespace pod)
                 else mret (Ok include));
            match c with
            | Err e =>
                mret (inr (wrapErr ("failed to check ResourceClaims for pod " +:+ pod_name pod +:+ ": ") e))
            | Ok isGPU => mret (inl (if isGPU : bool then gpuPods ++ [pod] else gpuPods))
            end) [] pods;
      mret match o with
           | inr e => Err e
           | inl gpuPods => Ok gpuPods
           end
  end.

Definition PodsBlockingDrain (nodeName operatorNamespace : string) (skipNamespaces : list string) :
    Op St (res (list Pod * list Pod)) :=
  r ← podsOnNode nodeName;
  match r with
  | Err e => mret (Err e)
  | Ok pods =>
      b ← foldEach (λ '(toEvict, toAwait) pod,
            match (classifyPodForDrain pod operatorNamespace skipNamespaces).1 with
            | drainEvict => mret (toEvict ++ [pod], toAwait)
            | drainAwait => mret (toEvict, toAwait ++ [pod])
            | drainIgnore => mret (toEvict, toAwait)
            end) ([], []) pods;
      mret (Ok b)
  end.

Definition evictPod (pod : Pod) : Op St (option GoErr) :=
  r ← Evict (pod_namespace pod) (pod_name pod);
  match r with
  | Err e =>
      mret (Some (wrapErr ("failed to evict pod " +:+ pod_namespace pod +:+ "/" +:+ pod_name pod
                           +:+ ": ") e))
  | Ok _ => mret None
  end.

Definition EvictPods (pods : list Pod) : Op St (option GoErr) :=
  errs ← foldEach (λ errs pod,
           match pod_deletionTimestamp pod with
           | Some _ => mret errs
           | None =>
               e ← evictPod pod;
               match e with
               | None => mret errs
               | Some err =>
                   if isNotFound err then mret errs
                   else if isTooManyRequests err then mret errs
                   else mret (errs ++ [err])
               end
           end) [] pods;
  mret (errorsJoin errs).
End Drain.

(** ** What the primitives do to the world, for every environment *)

Section DrainFacts.
Context `{!Env} {St : Type}.

Definition isRead (e : Ev) : Prop :=
  match e with
  | EvNow _ | EvGetPlan _ _ _ | EvListPlans _ | EvGetFU _ _ | EvListNodes _ _ | EvGetNode _ _
  | EvListPodsOnNode _ _ | EvListPods _ _ _ _ | EvGetPod _ _ _ | EvLogs _ _ _ _ | EvListSlices _
  | EvListClaims _ | EvGetClaim _ _ _ | EvGetClaimTemplate _ _ _ | EvGetJob _ _ _
  | EvListJobs _ _ _ _ | EvVerifyImage _ _ | EvGetSCC _ _ | EvGetServiceAccount _ _ _ => True
  | _ => False
  end.

(** The pod an eviction is for was still running. *)
Definition evictsOneOf (pods : list Pod) (e : Ev) : Prop :=
  ∃ pod r, pod ∈ pods ∧ pod_deletionTimestamp pod = None ∧
    e = EvEvict (pod_namespace pod) (pod_name pod) r.

Lemma EnsureNodeTaint_sameMem n t : keeps (@sameMem _ St) (EnsureNodeTaint n t).
Proof. unfold EnsureNodeTaint. keeps_auto. Qed.

Lemma RemoveNodeTaint_sameMem n t : keeps (@sameMem _ St) (RemoveNodeTaint n t).
Proof. unfold RemoveNodeTaint. keeps_auto. Qed.

Lemma NodesWithTaint_sameMem t : keeps (@sameMem _ St) (NodesWithTaint t).
Proof. unfold NodesWithTaint. keeps_auto. Qed.

Lemma NodesWithTaint_reads t : keeps (@logged _ St isRead) (NodesWithTaint t).
Proof. unfold NodesWithTaint. keeps_auto. Qed.

Lemma PodsBlockingDrain_sameMem n ns skip : keeps (@sameMem _ St) (PodsBlockingDrain n ns skip).
Proof. unfold PodsBlockingDrain, podsOnNode. keeps_auto. Qed.

Lemma PodsBlockingDrain_reads n ns skip : keeps (@logged _ St isRead) (PodsBlockingDrain n ns skip).
Proof. unfold PodsBlockingDrain, podsOnNode. keeps_auto. Qed.

Lemma GPUPodsOnNode_sameMem n : keeps (@sameMem _ St) (GPUPodsOnNode n).
Proof. unfold GPUPodsOnNode, podsOnNode, podClaimsIntelGPU. keeps_auto. Qed.

Lemma GPUPodsOnNode_reads n : keeps (@logged _ St isRead) (GPUPodsOnNode n).
Proof. unfold GPUPodsOnNode, podsOnNode, podClaimsIntelGPU. keeps_auto. Qed.

Lemma EvictPods_sameMem pods : keeps (@sameMem _ St) (EvictPods pods).
Proof. unfold EvictPods, evictPod. keeps_auto. Qed.

Lemma EvictPods_logged pods : keeps (@logged _ St (evictsOneOf pods)) (EvictPods pods).
Proof.
  unfold EvictPods, evictPod. apply keeps_bind; [apply _| |intros ?; apply keeps_ret; apply _].
  apply keeps_foldEach; [apply _|]. intros errs pod Hin.
  destruct (pod_deletionTimestamp pod) eqn:Hd; [apply keeps_ret; apply _|].
  apply keeps_bind; [apply _| |keeps_auto].
  apply keeps_bind; [apply _| |keeps_auto].
  apply keeps_exchange_logged. intros r. by exists pod, r.
Qed.

Lemma EnsureNodeTaint_grows n t : keeps (@grows _ St) (EnsureNodeTaint n t).
Proof. unfold EnsureNodeTaint. keeps_auto. Qed.

Lemma EvictPods_grows pods : keeps (@grows _ St) (EvictPods pods).
Proof. unfold EvictPods, evictPod. keeps_auto. Qed.

(** The node [EnsureNodeTaint] writes is the node it has just read, without the taint, with the taint
    appended. *)
Definition taintWrite (nodeName : string) (t : Taint) (h : list Ev) (e : Ev) : Prop :=
  isRead e ∨ ∃ h' n r, h = EvGetNode nodeName (Ok n) :: h' ∧
    existsb (λ x, taintsEqual x t) (node_taints n) = false ∧
    e = EvUpdateNode (set_node_taints (node_taints n ++ [t]) n) r.

(** The node [RemoveNodeTaint] writes is the node it has just read without the taints equal to it. *)
Definition untaintWrite (nodeName : string) (t : Taint) (h : list Ev) (e : Ev) : Prop :=
  isRead e ∨ ∃ h' n r, h = EvGetNode nodeName (Ok n) :: h' ∧
    e = EvUpdateNode (set_node_taints (filter (λ x, taintsEqual x t = false) (node_taints n)) n) r.

Lemma EnsureNodeTaint_logged n t : keeps (@loggedIn _ St (taintWrite n t)) (EnsureNodeTaint n t).
Proof.
  apply keeps_intro. intros w. unfold EnsureNodeTaint. wp_steps.
  assert (∀ x, taintWrite n t (log w) (EvGetNode n x)) as Hr by by left.
  destruct (env_getNode (log w) n) as [nd|e] eqn:Hg; wp_steps; [|by exists [EvGetNode n (Err e)]].
  destruct (existsb _ _) eqn:Ht; wp_steps; [by exists [EvGetNode n (Ok nd)]|].
  case_match; wp_steps; eexists [_; _]; (split; [done|]); split; try done; right; by eauto 10.
Qed.

Lemma RemoveNodeTaint_logged n t : keeps (@loggedIn _ St (untaintWrite n t)) (RemoveNodeTaint n t).
Proof.
  apply keeps_intro. intros w. unfold RemoveNodeTaint. wp_steps.
  assert (∀ x, untaintWrite n t (log w) (EvGetNode n x)) as Hr by by left.
  destruct (env_getNode (log w) n) as [nd|e] eqn:Hg; wp_steps; [|by exists [EvGetNode n (Err e)]].
  destruct (existsb _ _) eqn:Ht; cbn [negb]; wp_steps; [|by exists [EvGetNode n (Ok nd)]].
  case_match; wp_steps; eexists [_; _]; (split; [done|]); split; try done; right; by eauto 10.
Qed.

(** A successful [PodsBlockingDrain] splits the pods the API server listed on the node. *)
Lemma PodsBlockingDrain_spec n ns skip (w : World Ev St) :
  wp (PodsBlockingDrain n ns skip) (λ r w',
    match r with
    | Err _ => True
    | Ok (toEvict, toAwait) =>
        ∃ pods, env_listPodsOnNode (log w) n = Ok pods ∧
          log w' = EvListPodsOnNode n (Ok pods) :: log w ∧
          toEvict = filter (λ p, (classifyPodForDrain p ns skip).1 = drainEvict) pods ∧
          toAwait = filter (λ p, (classifyPodForDrain p ns skip).1 = drainAwait) pods
    end) w.
Proof.
  unfold PodsBlockingDrain, podsOnNode. wp_steps.
  destruct (env_listPodsOnNode (log w) n) as [pods|e] eqn:Hl; wp_steps; [|done].
  set (w1 := mkWorld _ _).
  eapply wp_mono.
  { apply (wp_foldEach _ (λ done b w', w' = w1 ∧
       b.1 = filter (λ p, (classifyPodForDrain p ns skip).1 = drainEvict) done ∧
       b.2 = filter (λ p, (classifyPodForDrain p ns skip).1 = drainAwait) done)); [done|].
    intros pre p post [ev aw] w' _ (-> & Hev & Haw); simpl in *.
    destruct (classifyPodForDrain p ns skip).1 eqn:Hc; wp_steps;
      (split_and!; [done|..]); simpl; rewrite filter_app, filter_cons, filter_nil, Hc;
      rewrite ?decide_True, ?decide_False by done; rewrite ?app_nil_r; congruence. }
  intros [ev aw] w' (-> & Hev & Haw). wp_steps. by exists pods.
Qed.

(** The log between [B] and [h] shows that the pod uses a GPU: through an extended resource, or through
    a claim or claim template that requests the GPU device class. *)
Definition claimShown (B h : list Ev) (ns : string) (rc : PodResourceClaim) (b : bool) : Prop :=
  ∃ n c, prc_claimName rc = Some n ∧ seen B h (EvGetClaim ns n (Ok c)) ∧ requestsIntelGPU (rc_requests c) = b.
Definition templateShown (B h : list Ev) (ns : string) (rc : PodResourceClaim) (b : bool) : Prop :=
  ∃ n c, prc_templateName rc = Some n ∧ seen B h (EvGetClaimTemplate ns n (Ok c)) ∧ requestsIntelGPU (rct_requests c) = b.

Definition gpuPod (B h : list Ev) (pod : Pod) : Prop :=
  holdsExtendedResource pod = true ∨
  ∃ rc, rc ∈ pod_resourceClaims pod ∧
    (claimShown B h (pod_namespace pod) rc true ∨ templateShown B h (pod_namespace pod) rc true).

(** It shows that the pod uses none. *)
Definition noGPUClaim (B h : list Ev) (ns : string) (rc : PodResourceClaim) : Prop :=
  (prc_claimName rc = None ∨ claimShown B h ns rc false) ∧
  (prc_templateName rc = None ∨ templateShown B h ns rc false).
Definition notGPUPod (B h : list Ev) (pod : Pod) : Prop :=
  holdsExtendedResource pod = false ∧ ∀ rc, rc ∈ pod_resourceClaims pod → noGPUClaim B h (pod_namespace pod) rc.

(** It shows the node without GPU pods. *)
Definition nodeFree (B h : list Ev) (n : string) : Prop :=
  ∃ pods, seen B h (EvListPodsOnNode n (Ok pods)) ∧ ∀ pod, pod ∈ pods → notGPUPod B h pod.

Section Mono.
Context {B h h' : list Ev} (Hs : h `suffix_of` h').

Lemma claimShown_mono ns rc b : claimShown B h ns rc b → claimShown B h' ns rc b.
Proof using Hs. intros (n & c & ? & ? & ?). exists n, c. split_and!; [done|by eapply seen_mono|done]. Qed.

Lemma templateShown_mono ns rc b : templateShown B h ns rc b → templateShown B h' ns rc b.
Proof using Hs. intros (n & c & ? & ? & ?). exists n, c. split_and!; [done|by eapply seen_mono|done]. Qed.

Lemma gpuPod_mono pod : gpuPod B h pod → gpuPod B h' pod.
Proof using Hs.
  intros [?|(rc & Hrc & Hc)]; [by left|right]. exists rc. split; [done|].
  destruct Hc; [left; by apply claimShown_mono|right; by apply templateShown_mono].
Qed.

Lemma noGPUClaim_mono ns rc : noGPUClaim B h ns rc → noGPUClaim B h' ns rc.
Proof using Hs.
  intros [[?|?] [?|?]]; split; auto using claimShown_mono, templateShown_mono.
Qed.

Lemma notGPUPod_mono pod : notGPUPod B h pod → notGPUPod B h' pod.
Proof using Hs. intros [? Hc]. split; [done|]. intros rc Hrc. apply noGPUClaim_mono. by apply Hc. Qed.

Lemma nodeFree_mono n : nodeFree B h n → nodeFree B h' n.
Proof using Hs.
  intros (pods & ? & Hp). exists pods. split; [by eapply seen_mono|]. intros pod Hin. apply notGPUPod_mono. by apply Hp.
Qed.
End Mono.

Lemma podClaimsIntelGPU_spec B claims ns (w : World Ev St) :
  B `suffix_of` log w →
  wp (podClaimsIntelGPU claims ns) (λ r w', mem w' = mem w ∧ log w `suffix_of` log w' ∧
    match r with
    | Ok true => ∃ rc, rc ∈ claims ∧ (claimShown B (log w') ns rc true ∨ templateShown B (log w') ns rc true)
    | Ok false => ∀ rc, rc ∈ claims → noGPUClaim B (log w') ns rc
    | Err _ => True
    end) w.
Proof.
  intros HB. unfold podClaimsIntelGPU. apply wp_bind. eapply wp_mono.
  { apply (wp_foldUntil _ (λ done _ w', mem w' = mem w ∧ log w `suffix_of` log w' ∧
        ∀ rc, rc ∈ done → noGPUClaim B (log w') ns rc)
      (λ r w', mem w' = mem w ∧ log w `suffix_of` log w' ∧
        match r with
        | Ok true => ∃ rc, rc ∈ claims ∧ (claimShown B (log w') ns rc true ∨ templateShown B (log w') ns rc true)
        | Ok false => False
        | Err _ => True
        end)).
    { split_and!; [done..|]. intros rc []%not_elem_of_nil. }
    intros pre rc post [] w1 Hsplit (Hm & Hg & Hpre). assert (rc ∈ claims) as Hin by (rewrite Hsplit; set_solver).
    apply wp_bind.
    (* the claim *)
    apply (wp_mono _ (λ a w', mem w' = mem w ∧ log w1 `suffix_of` log w' ∧
      match a with
      | None => prc_claimName rc = None ∨ claimShown B (log w') ns rc false
      | Some (Ok true) => claimShown B (log w') ns rc true
      | Some (Ok false) => False
      | Some (Err _) => True
      end)).
    { destruct (prc_claimName rc) as [n|] eqn:Hn; [|apply wp_ret; by split_and!; auto]. wp_steps.
      assert (∀ x, log w1 `suffix_of` EvGetClaim ns n x :: log w1) as Hs by (intros x; by eexists [_]).
      destruct (env_getClaim (log w1) ns n) as [c|e]; [|apply wp_ret; by split_and!; [|apply Hs|]].
      assert (∀ b, requestsIntelGPU (rc_requests c) = b → claimShown B (EvGetClaim ns n (Ok c) :: log w1) ns rc b) as Hsh.
      { intros b Hb. exists n, c. split_and!; [done|apply seen_now; by etrans|done]. }
      apply wp_ret. destruct (requestsIntelGPU (rc_requests c)) eqn:Hr; split_and!; try done; [apply Hs|by apply Hsh|apply Hs|].
      right. by apply Hsh. }
    intros a w2 (Hm2 & Hg2 & Ha). assert (log w `suffix_of` log w2) as Hg02 by by etrans.
    destruct a as [[[]|e]|]; [apply wp_ret; split_and!; [done..|by eauto]|done|by apply wp_ret|].
    (* the template *)
    assert (∀ w3, mem w3 = mem w2 → log w2 `suffix_of` log w3 → prc_templateName rc = None ∨ templateShown B (log w3) ns rc false →
      mem w3 = mem w ∧ log w `suffix_of` log w3 ∧ ∀ x, x ∈ pre ++ [rc] → noGPUClaim B (log w3) ns x) as Hnext.
    { intros w3 Hm3 Hg3 Ht. assert (log w1 `suffix_of` log w3) as Hg13 by by etrans.
      split_and!; [congruence|by etrans|]. intros x [Hx|Hx%list_elem_of_singleton]%elem_of_app.
      - eapply noGPUClaim_mono; [exact Hg13|]. by apply Hpre.
      - subst x. split; [|done]. destruct Ha as [?|?]; [by left|right]. eapply claimShown_mono; [exact Hg3|done]. }
    destruct (prc_templateName rc) as [n|] eqn:Hn; [|apply wp_ret; apply Hnext; auto]. wp_steps.
    assert (∀ x, log w2 `suffix_of` EvGetClaimTemplate ns n x :: log w2) as Hs by (intros x; by eexists [_]).
    destruct (env_getClaimTemplate (log w2) ns n) as [c|e]; [|apply wp_ret; split_and!; [done|etrans; [done|apply Hs]|done]].
    assert (∀ b, requestsIntelGPU (rct_requests c) = b → templateShown B (EvGetClaimTemplate ns n (Ok c) :: log w2) ns rc b) as Hsh.
    { intros b Hb. exists n, c. split_and!; [done|apply seen_now; by etrans|done]. }
    apply wp_ret. destruct (requestsIntelGPU (rct_requests c)) eqn:Hr.
    - split_and!; [done|etrans; [done|apply Hs]|]. exists rc. split; [done|]. right. by apply Hsh.
    - apply Hnext; [done|apply Hs|]. right. by apply Hsh. }
  cbn beta. intros [[]|r] w1 (Hm & Hg & Hall); apply wp_ret; split_and!; try done. by destruct r as [[]|].
Qed.

(** [GPUPodsOnNode] splits the pods listed on the node by whether they use a GPU. *)
Lemma GPUPodsOnNode_spec B n (w : World Ev St) :
  B `suffix_of` log w →
  wp (GPUPodsOnNode n) (λ r w', mem w' = mem w ∧ log w `suffix_of` log w' ∧
    match r with
    | Ok gpuPods => ∃ pods, seen B (log w') (EvListPodsOnNode n (Ok pods)) ∧
        (∀ pod, pod ∈ gpuPods → pod ∈ pods ∧ gpuPod B (log w') pod) ∧
        ∀ pod, pod ∈ pods → pod ∈ gpuPods ∨ notGPUPod B (log w') pod
    | Err _ => True
    end) w.
Proof.
  intros HB. unfold GPUPodsOnNode, podsOnNode. apply wp_bind, wp_bind, wp_exchange.
  assert (∀ x, log w `suffix_of` EvListPodsOnNode n x :: log w) as Hs by (intros x; by eexists [_]).
  destruct (env_listPodsOnNode (log w) n) as [pods|e]; [|apply wp_ret, wp_ret; by split_and!; [|apply Hs|]].
  apply wp_ret. set (h1 := EvListPodsOnNode n (Ok pods) :: log w).
  assert (seen B h1 (EvListPodsOnNode n (Ok pods))) as Hseen by by apply seen_now.
  apply wp_bind. eapply wp_mono.
  { apply (wp_foldUntil _ (λ done gp w', mem w' = mem w ∧ h1 `suffix_of` log w' ∧
        (∀ pod, pod ∈ gp → pod ∈ pods ∧ gpuPod B (log w') pod) ∧
        ∀ pod, pod ∈ done → pod ∈ gp ∨ notGPUPod B (log w') pod)
      (λ _ w', mem w' = mem w ∧ h1 `suffix_of` log w')).
    { split_and!; [done..| |]; by intros pod []%not_elem_of_nil. }
    intros pre pod post gp w1 Hsplit (Hm & Hg & Hgp & Hpre).
    assert (pod ∈ pods) as Hin by (rewrite Hsplit; set_solver). cbv zeta. apply wp_bind.
    assert (B `suffix_of` log w1) as HB1 by (etrans; [exact HB|]; etrans; [apply Hs|exact Hg]).
    apply (wp_mono _ (λ c w', mem w' = mem w ∧ log w1 `suffix_of` log w' ∧
      match c with Ok true => gpuPod B (log w') pod | Ok false => notGPUPod B (log w') pod | Err _ => True end)).
    { destruct (holdsExtendedResource pod) eqn:Hext; cbn [negb andb].
      { apply wp_ret. split_and!; [done..|by left]. }
      case_bool_decide as Hnil; cbn [negb].
      { apply wp_ret. split_and!; [done..|]. split; [done|]. rewrite Hnil. by intros rc []%not_elem_of_nil. }
      eapply wp_mono; [by apply (podClaimsIntelGPU_spec B)|]. cbn beta. intros [[]|e] w2 (Hm2 & Hg2 & Hc).
      - split_and!; [congruence|done|by right].
      - split_and!; [congruence|done|by split].
      - by split_and!; [congruence|..]. }
    intros [b|e] w2 (Hm2 & Hg2 & Hc); apply wp_ret; [|split; [done|by etrans]].
    split_and!; [done|by etrans| |].
    - intros x. destruct b; [intros [Hx|Hx%list_elem_of_singleton]%elem_of_app|intros Hx].
      + destruct (Hgp x Hx). split; [done|]. by eapply gpuPod_mono.
      + by subst x.
      + destruct (Hgp x Hx). split; [done|]. by eapply gpuPod_mono.
    - intros x [Hx|Hx%list_elem_of_singleton]%elem_of_app.
      + destruct (Hpre x Hx) as [?|?]; [left; destruct b; set_solver|right; by eapply notGPUPod_mono].
      + subst x. destruct b; [left; set_solver|by right]. }
  cbn beta. intros [gp|e] w1.
  - intros (Hm & Hg & Hgp & Hall). apply wp_ret. split_and!; [done|etrans; [apply Hs|done]|]. exists pods.
    split_and!; [by eapply seen_mono|done|done].
  - intros [Hm Hg]. apply wp_ret. split_and!; [done|etrans; [apply Hs|done]|done].
Qed.
End DrainFacts.

#[export] Hint Resolve EnsureNodeTaint_sameMem RemoveNodeTaint_sameMem NodesWithTaint_sameMem
  PodsBlockingDrain_sameMem GPUPodsOnNode_sameMem EvictPods_sameMem NodesWithTaint_reads
  PodsBlockingDrain_reads GPUPodsOnNode_reads : keeps.
