(* ===== verification/ImageVerifier.v ===== *)
(** * The content image verifier

    [internal/controller/common/contentimage_verifier.go].  The registry, the Secret reader and the parsers
    of references and of docker configurations are parameters; an exported image is the list of its tar
    entries and the error that ended the stream early, if any.  The pipe and the goroutine that feed the
    export to the reader are the handing over of that list; closing the read end never fails. *)

From Stdlib Require Import Ascii.
From S2P Require Import Prelude GoStrings Sha256 Common.

(** ** Paths *)

(** [path.Clean] of a rooted path, component by component: empty and [.] components go, [..] takes the one
    before it along, and none leads above the root.  The stack holds the components kept, last first. *)
Definition cleanStep (stack : list string) (c : string) : list string :=
  if bool_decide (c = "") || bool_decide (c = ".") then stack
  else if bool_decide (c = "..") then tail stack
  else c :: stack.

Definition cleanRooted (p : string) : string := "/" +:+ join "/" (reverse (foldl cleanStep [] (split "/"%char p))).

Definition trimPrefix (s p : string) : string :=
  if hasPrefix s p then l2s (drop (slen p) (s2l s)) else s.

Definition normalizeImagePath (p : string) : string := trimPrefix (cleanRooted p) "/".

(** ** The exported file system *)

Record TarEntry := mkTarEntry {
  te_name : string;
  te_regular : bool;             (* Typeflag == tar.TypeReg *)
  te_content : res string;       (* what copying the entry's data gives *)
}.

(** Why no credentials could be built from a pull secret. *)
Inductive KeychainError :=
| SecretUnreadable (secret : string) (e : GoErr)
| SecretKeyMissing (secret key : string)
| SecretMalformed (secret : string) (e : GoErr).

Inductive VerifyError :=
| DuplicateRequest (name : string)
| ReadError (e : GoErr)
| NotRegular (base : string)
| HashError (base : string) (e : GoErr)
| ChecksumMismatch (base expected actual : string)
| FileNotInImage (name : string)
| BadReference (image : string) (e : GoErr)
| AuthError (e : KeychainError)
| ResolveError (image : string) (e : GoErr)
| PullError (image : string) (e : GoErr).

Fixpoint wanted (want : gmap string string) (files : list ImageFile) : gmap string string + VerifyError :=
  match files with
  | [] => inl want
  | f :: files' =>
      let n := normalizeImagePath (if_Name f) in
      match want !! n with
      | Some _ => inr (DuplicateRequest (if_Name f))
      | None => wanted (<[n := if_Checksum f]> want) files'
      end
  end.

Definition digest (content : string) : string := "sha256:" +:+ sha256hex content.

(** The check of an entry that is wanted with the checksum [expected]. *)
Definition checkEntry (base expected : string) (e : TarEntry) : option VerifyError :=
  if bool_decide (expected = "") then None
  else if negb (te_regular e) then Some (NotRegular base)
  else match te_content e with
       | Err err => Some (HashError base err)
       | Ok c => if bool_decide (digest c = expected) then None else Some (ChecksumMismatch base expected (digest c))
       end.

(** The loop over the tar stream, which ends early once everything wanted was found. *)
Fixpoint scanExport (want : gmap string string) (found : gset string) (entries : list TarEntry)
    (streamErr : option GoErr) : gset string + VerifyError :=
  match entries with
  | [] => match streamErr with None => inl found | Some e => inr (ReadError e) end
  | e :: entries' =>
      let base := normalizeImagePath (te_name e) in
      match want !! base with
      | None => scanExport want found entries' streamErr
      | Some expected =>
          match checkEntry base expected e with
          | Some err => inr err
          | None =>
              let found' := {[base]} ∪ found in
              if bool_decide (size found' = size want) then inl found'
              else scanExport want found' entries' streamErr
          end
      end
  end.

Section Verifier.
(** The order in which [range] visits a map. *)
Context (order : list string → list string).

Definition verifyChecksumsFromExport (entries : list TarEntry) (streamErr : option GoErr) (files : list ImageFile) :
    option VerifyError :=
  match wanted ∅ files with
  | inr err => Some err
  | inl want =>
      match scanExport want ∅ entries streamErr with
      | inr err => Some err
      | inl found =>
          match filter (λ n, n ∉ found) (order (map_to_list want).*1) with
          | n :: _ => Some (FileNotInImage n)
          | [] => None
          end
      end
  end.

(** ** Registry credentials *)

Context {Auth : Type}.

Inductive Keychain := DefaultKeychain | DockerConfigKeychain (auths : gmap string Auth).

(** [dockerConfigKeychain.Resolve]: [None] is [authn.Anonymous]. *)
Definition hostMatches (registry host : string) : bool :=
  bool_decide (trimPrefix (trimPrefix host "https://") "http://" = registry) || bool_decide (host = registry).

Definition Resolve (auths : gmap string Auth) (registry : string) : option Auth :=
  match filter (λ h, hostMatches registry h = true) (order (map_to_list auths).*1) with
  | h :: _ => auths !! h
  | [] => None
  end.

(** What the verifier asks of the outside. *)
Record Registry := mkRegistry {
  parseReference : string → res string;
  getSecret : string → res (gmap string string);          (* the data of a Secret of the operator's namespace *)
  unmarshalDockerConfig : string → res (gmap string Auth);
  remoteHead : string → Keychain → bool → res unit;
  remoteImage : string → Keychain → bool → res (list TarEntry * option GoErr);
}.

Context (reg : Registry).

Definition DockerConfigJsonKey : string := ".dockerconfigjson".

Definition buildKeychain (pullSecretName : string) : Keychain + KeychainError :=
  if bool_decide (pullSecretName = "") then inl DefaultKeychain
  else
    match getSecret reg pullSecretName with
    | Err e => inr (SecretUnreadable pullSecretName e)
    | Ok data =>
        match data !! DockerConfigJsonKey with
        | None => inr (SecretKeyMissing pullSecretName DockerConfigJsonKey)
        | Some cfg =>
            match unmarshalDockerConfig reg cfg with
            | Err e => inr (SecretMalformed pullSecretName e)
            | Ok auths => inl (DockerConfigKeychain auths)
            end
        end
    end.

Definition VerifyImageWith (req : ImageVerifyRequest) : option VerifyError :=
  match parseReference reg (iv_Image req) with
  | Err e => Some (BadReference (iv_Image req) e)
  | Ok ref =>
      match buildKeychain (iv_PullSecret req) with
      | inr e => Some (AuthError e)
      | inl keychain =>
          if bool_decide (length (iv_Files req) = 0) then
            match remoteHead reg ref keychain (iv_InsecureSkipTLSVerify req) with
            | Err e => Some (ResolveError (iv_Image req) e)
            | Ok _ => None
            end
          else
            match remoteImage reg ref keychain (iv_InsecureSkipTLSVerify req) with
            | Err e => Some (PullError (iv_Image req) e)
            | Ok (entries, streamErr) => verifyChecksumsFromExport entries streamErr (iv_Files req)
            end
      end
  end.
End Verifier.
