(* ===== verification/ImageVerifierFacts.v ===== *)
(** * The content image verifier: what a passed check says *)

From Stdlib Require Import Ascii.
From S2P Require Import Prelude GoStrings Regex Sha256 KubeTypes ApiTypes Common ImageVerifier.

(** ** Normalized paths *)

(** The components of a normalized path. *)
Definition pathComps (p : string) : list string := reverse (foldl cleanStep [] (split "/"%char p)).

Lemma normalize_comps p : normalizeImagePath p = join "/" (pathComps p).
Proof.
  unfold normalizeImagePath, cleanRooted, trimPrefix. fold (pathComps p). set (j := join "/" (pathComps p)).
  assert (hasPrefix ("/" +:+ j) "/" = true) as -> by done. simpl. by rewrite drop_0, l2s_s2l.
Qed.

(** A component that is kept: it names something, and is one component. *)
Definition realComp (c : string) : Prop := c ≠ "" ∧ c ≠ "." ∧ c ≠ ".." ∧ "/"%char ∉ s2l c.

Lemma splitL_noSep sep l : Forall (λ p, sep ∉ p) (splitL sep l).
Proof.
  induction l as [|c l IH]; simpl; [repeat constructor; by apply not_elem_of_nil|].
  destruct (Ascii.eqb_spec c sep) as [->|Hc]; [constructor; [by apply not_elem_of_nil|done]|].
  destruct (splitL sep l) as [|p ps]; [repeat constructor; set_solver|].
  inversion IH; subst. constructor; [set_solver|done].
Qed.

Lemma cleanStep_real stack c : Forall realComp stack → "/"%char ∉ s2l c → Forall realComp (cleanStep stack c).
Proof.
  intros HF Hc. unfold cleanStep. destruct (bool_decide_reflect (c = "")), (bool_decide_reflect (c = ".")); try done.
  simpl. case_bool_decide; [|by constructor]. destruct HF; [constructor|done].
Qed.

Lemma pathComps_real p : Forall realComp (pathComps p).
Proof.
  unfold pathComps. rewrite Forall_reverse. assert (Forall (λ c, "/"%char ∉ s2l c) (split "/"%char p)) as Hs.
  { unfold split. rewrite Forall_fmap. eapply Forall_impl; [apply splitL_noSep|]. intros l Hl. simpl. by rewrite s2l_l2s. }
  assert (Forall realComp []) as Hnil by constructor. revert Hnil Hs. generalize (@nil string).
  induction (split "/"%char p) as [|c l IH]; intros stack Hst Hs; [done|]. inversion Hs; subst. simpl.
  apply IH; [by apply cleanStep_real|done].
Qed.

(** Real components are all kept. *)
Lemma clean_real stack l : Forall realComp l → foldl cleanStep stack l = reverse l ++ stack.
Proof.
  intros HF. revert stack. induction HF as [|c l (H1 & H2 & H3 & _) HF IH]; intros stack; [done|]. simpl.
  rewrite IH. unfold cleanStep. rewrite !bool_decide_false by done. simpl. by rewrite reverse_cons, <- app_assoc.
Qed.

Lemma pathComps_join l : Forall realComp l → pathComps (join "/" l) = l.
Proof.
  intros HF. destruct l as [|c l]; [done|]. unfold pathComps. change "/" with (l2s ["/"%char]).
  rewrite split_join; [|done|].
  - rewrite clean_real by done. by rewrite app_nil_r, reverse_involutive.
  - eapply Forall_impl; [exact HF|]. by intros x (_ & _ & _ & ?).
Qed.

Lemma normalize_idem p : normalizeImagePath (normalizeImagePath p) = normalizeImagePath p.
Proof. rewrite !normalize_comps, pathComps_join; [done|apply pathComps_real]. Qed.

Lemma split_slash c p : "/"%char ∉ s2l c → split "/"%char (c +:+ "/" +:+ p) = c :: split "/"%char p.
Proof.
  intros Hc. unfold split. rewrite !s2l_app. change (s2l "/") with ["/"%char]. cbn [app].
  rewrite splitL_app, fmap_cons, l2s_s2l; [done|]. apply Forall_forall. by intros x Hx ->.
Qed.

(** A leading slash or [./] makes no difference. *)
Lemma normalize_rooted p : normalizeImagePath ("/" +:+ p) = normalizeImagePath p.
Proof.
  rewrite !normalize_comps. unfold pathComps. change ("/" +:+ p) with ("" +:+ "/" +:+ p).
  rewrite split_slash; [done|]. apply not_elem_of_nil.
Qed.
Lemma normalize_dot p : normalizeImagePath ("./" +:+ p) = normalizeImagePath p.
Proof.
  rewrite !normalize_comps. unfold pathComps. change ("./" +:+ p) with ("." +:+ "/" +:+ p).
  rewrite split_slash; [done|]. set_solver.
Qed.

(** ** The scan *)

Definition fileKey (f : ImageFile) : string := normalizeImagePath (if_Name f).
Definition entryKey (e : TarEntry) : string := normalizeImagePath (te_name e).

(** The entry is the file asked for: any entry when no checksum is declared, else a regular file whose
    content has that SHA-256. *)
Definition entryIs (f : ImageFile) (e : TarEntry) : Prop :=
  entryKey e = fileKey f ∧
  (if_Checksum f = "" ∨ te_regular e = true ∧ ∃ c, te_content e = Ok c ∧ digest c = if_Checksum f).

Lemma checkEntry_none n c e :
  checkEntry n c e = None ↔ c = "" ∨ te_regular e = true ∧ ∃ x, te_content e = Ok x ∧ digest x = c.
Proof.
  unfold checkEntry. case_bool_decide as Hc; [naive_solver|]. destruct (te_regular e); simpl; [|naive_solver].
  destruct (te_content e) as [x|err]; [|naive_solver]. case_bool_decide; naive_solver.
Qed.

Lemma wanted_sound want files want' :
  wanted want files = inl want' →
  NoDup (fileKey <$> files) ∧ (∀ f, f ∈ files → want !! fileKey f = None) ∧
  ∀ n c, want' !! n = Some c ↔ want !! n = Some c ∨ ∃ f, f ∈ files ∧ fileKey f = n ∧ if_Checksum f = c.
Proof.
  revert want. induction files as [|f files IH]; intros want Hw; simpl in Hw.
  { injection Hw as <-. split_and!; [constructor|by intros ? ?%not_elem_of_nil|]. intros n c. split; [by left|].
    intros [?|(? & ?%not_elem_of_nil & _)]; done. }
  fold (fileKey f) in Hw. destruct (want !! fileKey f) as [?|] eqn:Hf; [done|].
  destruct (IH _ Hw) as (Hnd & Hfree & Hiff). split_and!.
  - simpl. constructor; [|done]. intros (g & Hg & Hin)%list_elem_of_fmap. specialize (Hfree g Hin).
    by rewrite <- Hg, lookup_insert_eq in Hfree.
  - intros g [->|Hg]%elem_of_cons; [done|]. specialize (Hfree g Hg). by apply lookup_insert_None in Hfree as [? _].
  - intros n c. rewrite Hiff. destruct (decide (n = fileKey f)) as [->|Hn].
    + rewrite lookup_insert_eq, Hf. split.
      * intros [[= <-]|(g & Hg & Hk & Hc)]; right; [exists f|exists g]; set_solver.
      * intros [?|(g & [->|Hg]%elem_of_cons & Hk & Hc)]; [done|left; by rewrite Hc|right; by exists g].
    + rewrite lookup_insert_ne by done. split.
      * intros [?|(g & Hg & Hk & Hc)]; [by left|right; exists g; set_solver].
      * intros [?|(g & [->|Hg]%elem_of_cons & Hk & Hc)]; [by left|done|right; by exists g].
Qed.

Lemma wanted_complete want files :
  NoDup (fileKey <$> files) → (∀ f, f ∈ files → want !! fileKey f = None) → ∃ want', wanted want files = inl want'.
Proof.
  revert want. induction files as [|f files IH]; intros want Hnd Hfree; [by eexists|]. simpl in *. fold (fileKey f).
  apply NoDup_cons in Hnd as [Hni Hnd]. rewrite (Hfree f) by left. apply IH; [done|]. intros g Hg.
  rewrite lookup_insert_ne; [apply Hfree; by right|]. intros Heq. apply Hni. rewrite Heq. by apply list_elem_of_fmap_2.
Qed.

Lemma scan_sound want found entries serr found' :
  scanExport want found entries serr = inl found' →
  ∀ n, n ∈ found' → n ∈ found ∨ ∃ e c, e ∈ entries ∧ entryKey e = n ∧ want !! n = Some c ∧ checkEntry n c e = None.
Proof.
  revert found. induction entries as [|e entries IH]; intros found Hs n Hn; simpl in Hs.
  { destruct serr; [done|]. injection Hs as <-. by left. }
  fold (entryKey e) in Hs. assert (∀ fnd, scanExport want fnd entries serr = inl found' →
    (∀ m, m ∈ fnd → m ∈ found ∨ ∃ e' c, e' ∈ e :: entries ∧ entryKey e' = m ∧ want !! m = Some c ∧ checkEntry m c e' = None) →
    n ∈ found ∨ ∃ e' c, e' ∈ e :: entries ∧ entryKey e' = n ∧ want !! n = Some c ∧ checkEntry n c e' = None) as Hrec.
  { intros fnd Hf Hm. destruct (IH _ Hf n Hn) as [Hin|(e' & c & Hin & Hr)]; [by apply Hm|]. right. exists e', c. set_solver. }
  destruct (want !! entryKey e) as [c|] eqn:Hw; [|apply (Hrec found Hs); by left].
  destruct (checkEntry (entryKey e) c e) as [?|] eqn:Hc; [done|].
  assert (∀ m, m ∈ {[entryKey e]} ∪ found → m ∈ found ∨
    ∃ e' c, e' ∈ e :: entries ∧ entryKey e' = m ∧ want !! m = Some c ∧ checkEntry m c e' = None) as Hadd.
  { intros m [->%elem_of_singleton|Hm]%elem_of_union; [|by left]. right. exists e, c. set_solver. }
  case_bool_decide; [injection Hs as <-; by apply Hadd|]. by apply (Hrec _ Hs).
Qed.

Lemma scan_complete want found entries serr :
  found ⊆ dom want → size found < size want → NoDup (entryKey <$> entries) →
  (∀ n, n ∈ found → n ∉ entryKey <$> entries) →
  (∀ n c, want !! n = Some c → n ∉ found → ∃ e, e ∈ entries ∧ entryKey e = n ∧ checkEntry n c e = None) →
  scanExport want found entries serr = inl (dom want).
Proof.
  revert found. induction entries as [|e entries IH]; intros found Hsub Hsize Hnd Hfresh Hall.
  { exfalso. assert (dom want ⊆ found) as Hd.
    { intros n [c Hc]%elem_of_dom. destruct (decide (n ∈ found)) as [|Hn]; [done|].
      by destruct (Hall n c Hc Hn) as (e & ?%not_elem_of_nil & _). }
    apply subseteq_size in Hd. rewrite size_dom in Hd. lia. }
  simpl. fold (entryKey e). simpl in Hnd, Hfresh. apply NoDup_cons in Hnd as [Hni Hnd].
  destruct (want !! entryKey e) as [c|] eqn:Hw.
  - assert (entryKey e ∉ found) as Hnf by (intros Hf; destruct (Hfresh _ Hf); left).
    destruct (Hall _ _ Hw Hnf) as (e' & He' & Hk & Hc). assert (e' = e) as ->.
    { apply elem_of_cons in He' as [->|He']; [done|]. destruct Hni. rewrite <- Hk. by apply list_elem_of_fmap_2. }
    rewrite Hc. assert ({[entryKey e]} ∪ found ⊆ dom want) as Hsub'.
    { intros n [->%elem_of_singleton|?]%elem_of_union; [|by apply Hsub]. apply elem_of_dom. by eexists. }
    case_bool_decide as Hs.
    + f_equal. apply set_subseteq_size_eq; [done|]. rewrite size_dom. lia.
    + apply IH; [done| |done| |].
      * apply subseteq_size in Hsub'. rewrite size_dom in Hsub'. lia.
      * intros n [->%elem_of_singleton|Hf]%elem_of_union; [done|]. intros Hin. apply (Hfresh n Hf). by right.
      * intros n c' Hc' Hn. destruct (Hall n c' Hc') as (e2 & [->|He2]%elem_of_cons & Hk2 & Hc2); [set_solver|set_solver|by exists e2].
  - apply IH; try done.
    + intros n Hf Hin. apply (Hfresh n Hf). by right.
    + intros n c Hc Hn. destruct (Hall n c Hc Hn) as (e2 & [->|He2]%elem_of_cons & Hk2 & Hc2); [congruence|by exists e2].
Qed.

(** ** The whole check *)

Lemma fileKey_inj files f g : NoDup (fileKey <$> files) → f ∈ files → g ∈ files → fileKey f = fileKey g → f = g.
Proof.
  intros Hnd [i Hi]%list_elem_of_lookup [j Hj]%list_elem_of_lookup Hk. assert (i = j) as ->; [|congruence].
  eapply NoDup_lookup; [done| |]; rewrite list_lookup_fmap; [rewrite Hi|rewrite Hj]; simpl; by rewrite ?Hk.
Qed.

Section Verifier.
Context (order : list string → list string) (Horder : ∀ l, order l ≡ₚ l).

Lemma filter_order_nil (found : gset string) (want : gmap string string) :
  filter (λ n, n ∉ found) (order (map_to_list want).*1) = [] ↔ dom want ⊆ found.
Proof.
  split.
  - intros Hf n [c Hc]%elem_of_dom. destruct (decide (n ∈ found)) as [|Hn]; [done|]. exfalso.
    assert (n ∈ filter (λ m, m ∉ found) (order (map_to_list want).*1)) as Hin.
    { apply list_elem_of_filter. split; [done|]. rewrite Horder. apply list_elem_of_fmap. exists (n, c).
      split; [done|]. by apply elem_of_map_to_list. }
    rewrite Hf in Hin. by apply not_elem_of_nil in Hin.
  - intros Hd. apply elem_of_nil_inv. intros n [Hni Hn]%list_elem_of_filter. rewrite Horder in Hn. apply Hni, Hd.
    apply list_elem_of_fmap in Hn as ([m c] & -> & Hm%elem_of_map_to_list). apply elem_of_dom. by eexists.
Qed.

Lemma verify_sound entries serr files :
  verifyChecksumsFromExport order entries serr files = None →
  NoDup (fileKey <$> files) ∧ ∀ f, f ∈ files → ∃ e, e ∈ entries ∧ entryIs f e.
Proof.
  unfold verifyChecksumsFromExport. destruct (wanted ∅ files) as [want|] eqn:Hw; [|done].
  destruct (scanExport want ∅ entries serr) as [found|] eqn:Hs; [|done].
  destruct (filter _ _) eqn:Hf; [|done]. intros _. apply filter_order_nil in Hf.
  destruct (wanted_sound _ _ _ Hw) as (Hnd & _ & Hiff). split; [done|]. intros f Hin.
  assert (want !! fileKey f = Some (if_Checksum f)) as Hl by (apply Hiff; right; by exists f).
  assert (fileKey f ∈ found) as Hfnd by (apply Hf, elem_of_dom; by eexists).
  destruct (scan_sound _ _ _ _ _ Hs _ Hfnd) as [?%not_elem_of_empty|(e & c & He & Hk & Hc & Hce)]; [done|].
  rewrite Hl in Hc. injection Hc as <-. exists e. split; [done|]. split; [done|]. by apply checkEntry_none in Hce.
Qed.

Lemma verify_complete entries serr files :
  files ≠ [] → NoDup (entryKey <$> entries) → NoDup (fileKey <$> files) →
  (∀ f, f ∈ files → ∃ e, e ∈ entries ∧ entryIs f e) → verifyChecksumsFromExport order entries serr files = None.
Proof.
  intros Hne Hnd Hfiles Hall. unfold verifyChecksumsFromExport.
  destruct (wanted_complete ∅ files Hfiles) as [want Hw]; [intros; apply lookup_empty|]. rewrite Hw.
  destruct (wanted_sound _ _ _ Hw) as (_ & _ & Hiff).
  rewrite scan_complete; [|set_solver| |done|set_solver|].
  - assert (filter (λ n, n ∉ dom want) (order (map_to_list want).*1) = []) as -> by by apply filter_order_nil. done.
  - rewrite size_empty. destruct files as [|f files]; [done|].
    assert (want !! fileKey f = Some (if_Checksum f)) as Hl by (apply Hiff; right; exists f; by split_and!; [left|..]).
    destruct (decide (size want = 0)) as [Hz|]; [|lia]. apply map_size_empty_inv in Hz. by rewrite Hz in Hl.
  - intros n c [?|(f & Hin & <- & <-)]%Hiff _; [by rewrite lookup_empty in *|].
    destruct (Hall f Hin) as (e & He & Hk & Hc). exists e. split_and!; [done|done|]. by apply checkEntry_none.
Qed.

(** C30: the streaming check of an exported image, which stops reading as soon as it has found everything, is
    the declarative one: it passes exactly when no two requests name the same path and every requested file is
    an entry of the image, matched up to a leading slash, [.] and [..], and, where a checksum is declared,
    regular and with that SHA-256. The image lists each path once, as a merged file system does. An error
    that would end the stream after the last wanted file is never met. *)
Theorem verify_exact entries serr files :
  files ≠ [] → NoDup (entryKey <$> entries) →
  verifyChecksumsFromExport order entries serr files = None ↔
  NoDup (fileKey <$> files) ∧ ∀ f, f ∈ files → ∃ e, e ∈ entries ∧ entryIs f e.
Proof. intros Hne Hnd. split; [apply verify_sound|]. intros [Hf Hall]. by apply verify_complete. Qed.

(** ** Credentials *)

Context {Auth : Type}.

Lemma Resolve_sound (auths : gmap string Auth) registry a :
  Resolve order auths registry = Some a → ∃ host, auths !! host = Some a ∧ hostMatches registry host = true.
Proof.
  unfold Resolve. destruct (filter _ _) as [|h l] eqn:Hf; [done|]. intros Ha. exists h. split; [done|].
  assert (h ∈ filter (λ h, hostMatches registry h = true) (order (map_to_list auths).*1)) as Hin by (rewrite Hf; left).
  by apply list_elem_of_filter in Hin as [? _].
Qed.

Lemma Resolve_none (auths : gmap string Auth) registry :
  Resolve order auths registry = None ↔ ∀ host, is_Some (auths !! host) → hostMatches registry host = false.
Proof.
  assert (∀ h, h ∈ order (map_to_list auths).*1 ↔ is_Some (auths !! h)) as Hin.
  { intros h. rewrite Horder, list_elem_of_fmap. split.
    - intros ([k v] & -> & Hkv%elem_of_map_to_list). by eexists.
    - intros [v Hv]. exists (h, v). split; [done|]. by apply elem_of_map_to_list. }
  unfold Resolve. destruct (filter _ _) as [|h l] eqn:Hf.
  - split; [|done]. intros _ host Hs%Hin. apply not_true_is_false. intros Hm.
    assert (host ∈ filter (λ h, hostMatches registry h = true) (order (map_to_list auths).*1)) as Hx
      by by apply list_elem_of_filter.
    rewrite Hf in Hx. by apply not_elem_of_nil in Hx.
  - assert (h ∈ filter (λ h, hostMatches registry h = true) (order (map_to_list auths).*1)) as Hx by (rewrite Hf; left).
    apply list_elem_of_filter in Hx as [Hm Hs%Hin]. split; [intros Hn; destruct Hs; congruence|].
    intros Hall. by rewrite (Hall h Hs) in Hm.
Qed.

(** When one host of the configuration matches, its credentials are used whatever order the map is visited in;
    several matching hosts leave the choice to that order. *)
Lemma Resolve_unique (auths : gmap string Auth) registry host a :
  auths !! host = Some a → hostMatches registry host = true →
  (∀ h b, auths !! h = Some b → hostMatches registry h = true → b = a) →
  Resolve order auths registry = Some a.
Proof.
  intros Ha Hm Hu. destruct (Resolve order auths registry) as [b|] eqn:Hr.
  - destruct (Resolve_sound _ _ _ Hr) as (h & Hb & Hmh). f_equal. eauto.
  - rewrite Resolve_none in Hr. rewrite (Hr host) in Hm by by eexists. done.
Qed.

(** ** What a passed check of a request says *)

Lemma VerifyImageWith_files (reg : @Registry Auth) req :
  VerifyImageWith order reg req = None → iv_Files req ≠ [] →
  ∃ ref kc entries serr, parseReference reg (iv_Image req) = Ok ref ∧
    remoteImage reg ref kc (iv_InsecureSkipTLSVerify req) = Ok (entries, serr) ∧
    verifyChecksumsFromExport order entries serr (iv_Files req) = None.
Proof.
  unfold VerifyImageWith. destruct (parseReference reg _) as [ref|] eqn:Href; [|done].
  destruct (buildKeychain reg _) as [kc|]; [|done]. destruct (iv_Files req) eqn:Hfs; [done|]. simpl.
  destruct (remoteImage reg ref kc _) as [[entries serr]|] eqn:Hi; [|done]. intros Hv _. by exists ref, kc, entries, serr.
Qed.

End Verifier.

(** ** An image with one firmware file *)

Definition demoFile : ImageFile := mkImageFile "/fwupdate/gfx.bin" (digest "firmware").
Definition demoExport : list TarEntry :=
  [mkTarEntry "./fwupdate" false (Ok ""); mkTarEntry "./fwupdate/gfx.bin" true (Ok "firmware")].

Lemma verify_exact_witness :
  NoDup (fileKey <$> [demoFile]) ∧ ∀ f, f ∈ [demoFile] → ∃ e, e ∈ demoExport ∧ entryIs f e.
Proof.
  apply (verify_exact id (λ l, Permutation_refl l) demoExport (Some (errorf "unexpected EOF")) [demoFile]).
  - discriminate.
  - apply (bool_decide_unpack _). vm_compute. exact I.
  - vm_compute. reflexivity.
Defined.
