(* ===== verification/Cluster.v ===== *)
(** * A concrete API server

    [clusterEnv c] answers every request from the contents of a cluster [c], replaying the writes of
    the log.  It shows that the interfaces the theorems are stated against have an implementation,
    and it is the environment the examples and witnesses run in. *)

From Stdlib Require Import Ascii.
From S2P Require Import Prelude GoStrings Regex KubeTypes ApiTypes Common Client Drain.

(** ** DNS-1123 names, as the API machinery documents them

    A label is one to 63 characters of [a-z0-9-], starting and ending alphanumeric; a subdomain is
    labels separated by dots, 253 characters at most. *)

Definition dnsAlnum (c : ascii) : bool := inRange "a" "z" c || inRange "0" "9" c.
Definition dnsInner (c : ascii) : bool := dnsAlnum c || Ascii.eqb c "-".

Definition dnsLabelRe : regex :=
  RCat (RChar dnsAlnum) (RAlt REps (RCat (RStar (RChar dnsInner)) (RChar dnsAlnum))).
Definition dnsSubdomainRe : regex := RCat dnsLabelRe (RStar (RCat (lit ".") dnsLabelRe)).

Definition dnsSubdomain (s : string) : bool := (slen s <=? 253)%nat && matchString dnsSubdomainRe s.
Definition dnsLabel (s : string) : bool := (slen s <=? 63)%nat && matchString dnsLabelRe s.

(** What the operator relies on: the checker accepts exactly the documented names. *)
Class DNSChecker `{!Env} := {
  dns_subdomain : ∀ s, isDNS1123Subdomain s = [] ↔ dnsSubdomain s = true;
  dns_label : ∀ s, isDNS1123Label s = [] ↔ dnsLabel s = true;
}.

(** ** An API server that stores nodes *)

Definition hasTaint (t : Taint) (n : Node) : bool := existsb (λ x, taintsEqual x t) (node_taints n).

Class NodeServer `{!Env} := {
  ns_nodes : list Ev → gmap string Node;
  ns_named : ∀ h n x, ns_nodes h !! n = Some x → node_name x = n;
  ns_get : ∀ h n x, env_getNode h n = Ok x → ns_nodes h !! n = Some x;
  ns_list : ∀ h l x, env_listNodes h ∅ = Ok l → x ∈ l ↔ ns_nodes h !! node_name x = Some x;
  ns_write : ∀ h x, ns_nodes (EvUpdateNode x (Ok tt) :: h) = <[node_name x := x]> (ns_nodes h);
  ns_frame : ∀ h e, (∀ x, e ≠ EvUpdateNode x (Ok tt)) → ns_nodes (e :: h) = ns_nodes h;
}.

(** ** An API server that stores the status of plans

    The status subresource is written through [Status().Update] alone: another write leaves every
    status as it is, a status write stores the status it carries, and reads see what is stored. *)

Definition emptyPlanStatus : GPURecoveryPlanStatus := mkGPURecoveryPlanStatus PlanStateUnset [] [].

Class PlanServer `{!Env} := {
  ps_status : list Ev → string → GPURecoveryPlanStatus;
  ps_get : ∀ h n p, env_getPlan h true n = Ok p → plan_Status p = ps_status h n;
  ps_update : ∀ h q p, env_updatePlan h q = Ok p → plan_Status p = ps_status h (plan_Name q);
  ps_write : ∀ h p a n, ps_status (EvUpdatePlanStatus p a :: h) n = plan_Status p ∨
               ps_status (EvUpdatePlanStatus p a :: h) n = ps_status h n;
  ps_frame : ∀ h e n, (∀ p a, e ≠ EvUpdatePlanStatus p a) → ps_status (e :: h) n = ps_status h n;
}.

Lemma taintsEqual_refl t : taintsEqual t t = true.
Proof. unfold taintsEqual. by rewrite !bool_decide_true by done. Qed.

Lemma hasTaint_app t ts x n :
  hasTaint t (set_node_taints (ts ++ [x]) n) = existsb (λ y, taintsEqual y t) ts || taintsEqual x t.
Proof. unfold hasTaint. simpl. rewrite existsb_app. simpl. by rewrite orb_false_r. Qed.

Lemma hasTaint_filter t n :
  hasTaint t (set_node_taints (filter (λ x, taintsEqual x t = false) (node_taints n)) n) = false.
Proof.
  unfold hasTaint. simpl. induction (node_taints n) as [|x l IH]; [done|].
  rewrite filter_cons. destruct (taintsEqual x t) eqn:Hx.
  - by rewrite decide_False by done.
  - rewrite decide_True by done. simpl. by rewrite Hx.
Qed.

Section NodeServerFacts.
Context `{!Env, !NodeServer} {St : Type}.

(** Between [w] and [w'] only the node [n] may have changed, from [x] to [x']. *)
Definition onlyNode (n : string) (P : Node → Node → Prop) (w w' : World Ev St) : Prop :=
  ∃ x x', ns_nodes (log w) !! n = Some x ∧ P x x' ∧
    ns_nodes (log w') = <[n := x']> (ns_nodes (log w)).

Lemma EnsureNodeTaint_server n t (w : World Ev St) :
  wp (EnsureNodeTaint n t) (λ r w',
    match r with
    | Err _ => ns_nodes (log w') = ns_nodes (log w)
    | Ok added =>
        onlyNode n (λ x x', hasTaint t x = negb added ∧
          x' = if added then set_node_taints (node_taints x ++ [t]) x else x) w w'
    end) w.
Proof.
  unfold EnsureNodeTaint. wp_steps.
  destruct (env_getNode (log w) n) as [x|e] eqn:Hg; wp_steps; [|by rewrite ns_frame].
  pose proof (ns_get _ _ _ Hg) as Hx.
  destruct (existsb _ (node_taints x)) eqn:Ht; wp_steps.
  - exists x, x. cbn [log]. rewrite ns_frame, insert_id by done. done.
  - destruct (env_updateNode _ _) as [[]|e] eqn:Hu; wp_steps.
    + exists x. eexists. split; [done|]. split; [done|].
      cbn [log]. rewrite ns_write, ns_frame by done. simpl. by rewrite (ns_named _ _ _ Hx).
    + by rewrite !ns_frame.
Qed.

Lemma RemoveNodeTaint_server n t (w : World Ev St) :
  wp (RemoveNodeTaint n t) (λ r w',
    match r with
    | Err _ => ns_nodes (log w') = ns_nodes (log w)
    | Ok removed =>
        onlyNode n (λ x x', hasTaint t x = removed ∧
          x' = if removed
               then set_node_taints (filter (λ y, taintsEqual y t = false) (node_taints x)) x
               else x) w w'
    end) w.
Proof.
  unfold RemoveNodeTaint. wp_steps.
  destruct (env_getNode (log w) n) as [x|e] eqn:Hg; wp_steps; [|by rewrite ns_frame].
  pose proof (ns_get _ _ _ Hg) as Hx.
  destruct (existsb _ (node_taints x)) eqn:Ht; simpl negb; cbn iota; wp_steps.
  - destruct (env_updateNode _ _) as [[]|e] eqn:Hu; wp_steps.
    + exists x. eexists. split; [done|]. split; [done|].
      cbn [log]. rewrite ns_write, ns_frame by done. simpl. by rewrite (ns_named _ _ _ Hx).
    + by rewrite !ns_frame.
  - exists x, x. cbn [log]. rewrite ns_frame, insert_id by done. done.
Qed.

Lemma NodesWithTaint_server t (w : World Ev St) :
  wp (NodesWithTaint t) (λ r w', ns_nodes (log w') = ns_nodes (log w) ∧
    match r with
    | Err _ => True
    | Ok names => ∀ n, n ∈ names ↔ ∃ x, ns_nodes (log w) !! n = Some x ∧ hasTaint t x = true
    end) w.
Proof.
  unfold NodesWithTaint. wp_steps.
  destruct (env_listNodes (log w) ∅) as [l|e] eqn:Hl; wp_steps;
    (split; [by rewrite ns_frame|]); [|done].
  intros n. rewrite list_elem_of_fmap. setoid_rewrite list_elem_of_filter. split.
  - intros (x & -> & Ht & Hin). exists x. split; [|done]. by eapply ns_list.
  - intros (x & Hx & Ht). exists x. pose proof (ns_named _ _ _ Hx) as <-. split; [done|].
    split; [done|]. by eapply ns_list.
Qed.
End NodeServerFacts.

(** ** The cluster *)

Record Cluster := mkCluster {
  cl_now : Z;
  cl_plans : list GPURecoveryPlan;
  cl_fus : list GPUFirmwareUpdate;
  cl_nodes : list Node;
  cl_pods : list Pod;
  cl_slices : list ResourceSlice;
  cl_claims : list ResourceClaim;
  cl_jobs : list Job;
  cl_images : list string;                (* the images the registry can serve *)
  cl_logs : list string;
}.

Definition notFound (what : string) : GoErr := mkErr NotFound (what +:+ " not found").

Definition firstOr {A} (e : GoErr) (l : list A) : res A :=
  match l with
  | [] => Err e
  | x :: _ => Ok x
  end.

Section ClusterEnv.
Context (c : Cluster).

Definition initNodes : gmap string Node := list_to_map ((λ n, (node_name n, n)) <$> cl_nodes c).

Definition nodesAt (h : list Ev) : gmap string Node :=
  foldr (λ e m, match e with EvUpdateNode x (Ok _) => <[node_name x := x]> m | _ => m end) initNodes h.

Definition statusOf (m : gmap string GPURecoveryPlan) (n : string) : GPURecoveryPlanStatus :=
  match m !! n with Some p => plan_Status p | None => emptyPlanStatus end.

Definition plansAt (h : list Ev) : gmap string GPURecoveryPlan :=
  foldr (λ e m, match e with
                | EvUpdatePlan _ (Ok p) => <[plan_Name p := set_plan_Status (statusOf m (plan_Name p)) p]> m
                | EvUpdatePlanStatus p (Ok _) =>
                    match m !! plan_Name p with
                    | Some q => <[plan_Name p := set_plan_Status (plan_Status p) q]> m
                    | None => m
                    end
                | _ => m
                end) (list_to_map ((λ p, (plan_Name p, p)) <$> cl_plans c)) h.

Definition fusAt (h : list Ev) : gmap string GPUFirmwareUpdate :=
  foldr (λ e m, match e with
                | EvUpdateFU _ (Ok f) | EvUpdateFUStatus _ (Ok f) => <[fu_Name f := f]> m
                | _ => m
                end) (list_to_map ((λ f, (fu_Name f, f)) <$> cl_fus c)) h.

Definition podsAt (h : list Ev) : list Pod :=
  filter (λ p, existsb (λ e, match e with
                             | EvEvict ns n (Ok _) =>
                                 bool_decide (ns = pod_namespace p) && bool_decide (n = pod_name p)
                             | _ => false
                             end) h = false) (cl_pods c).

Definition jobsAt (h : list Ev) : list Job :=
  foldr (λ e l, match e with
                | EvCreateJob j (Ok _) => j :: l
                | EvDeleteJob ns n (Ok _) =>
                    filter (λ j, job_namespace j ≠ ns ∨ job_name j ≠ n) l
                | _ => l
                end) (cl_jobs c) h.

Definition findJob (h : list Ev) (ns n : string) : list Job :=
  filter (λ j, job_namespace j = ns ∧ job_name j = n) (jobsAt h).

#[local] Instance clusterEnv : Env := {
  env_now _ := cl_now c;
  env_getPlan h _ n := match plansAt h !! n with Some p => Ok p | None => Err (notFound n) end;
  env_updatePlan h p :=
    match plansAt h !! plan_Name p with
    | Some q => Ok (mkGPURecoveryPlan (plan_Name q) (plan_Generation q + 1) (plan_DeletionTimestamp q)
                      (plan_Finalizers p) (plan_Spec p) (plan_Status q))
    | None => Err (notFound (plan_Name p))
    end;
  env_updatePlanStatus h p :=
    match plansAt h !! plan_Name p with
    | Some q => Ok (set_plan_Status (plan_Status p) q)
    | None => Err (notFound (plan_Name p))
    end;
  env_listPlans h := Ok (snd <$> map_to_list (plansAt h));
  env_getFU h n := match fusAt h !! n with Some f => Ok f | None => Err (notFound n) end;
  env_updateFU h f :=
    match fusAt h !! fu_Name f with
    | Some q => Ok (mkGPUFirmwareUpdate (fu_Name q) (fu_DeletionTimestamp q) (fu_Finalizers f)
                      (fu_Spec f) (fu_Status q))
    | None => Err (notFound (fu_Name f))
    end;
  env_updateFUStatus h f :=
    match fusAt h !! fu_Name f with
    | Some q => Ok (mkGPUFirmwareUpdate (fu_Name q) (fu_DeletionTimestamp q) (fu_Finalizers q)
                      (fu_Spec q) (fu_Status f))
    | None => Err (notFound (fu_Name f))
    end;
  env_listNodes h sel := Ok (filter (λ n, sel ⊆ node_labels n) (snd <$> map_to_list (nodesAt h)));
  env_getNode h n := match nodesAt h !! n with Some x => Ok x | None => Err (notFound n) end;
  env_updateNode h x :=
    match nodesAt h !! node_name x with Some _ => Ok tt | None => Err (notFound (node_name x)) end;
  env_listPodsOnNode h n := Ok (filter (λ p, n ∈ IndexPodByNodeName p) (podsAt h));
  env_listPods h ns k v :=
    Ok (filter (λ p, pod_namespace p = ns ∧ pod_labels p !! k = Some v) (podsAt h));
  env_getPod h ns n :=
    firstOr (notFound n) (filter (λ p, pod_namespace p = ns ∧ pod_name p = n) (podsAt h));
  env_evict h ns n :=
    match filter (λ p, pod_namespace p = ns ∧ pod_name p = n) (podsAt h) with
    | [] => Err (notFound n)
    | _ => Ok tt
    end;
  env_logs _ _ _ _ := Ok (cl_logs c);
  env_listSlices _ := Ok (cl_slices c);
  env_listClaims _ := Ok (cl_claims c);
  env_getClaim _ ns n :=
    firstOr (notFound n) (filter (λ x, rc_namespace x = ns ∧ rc_name x = n) (cl_claims c));
  env_getClaimTemplate _ _ n := Err (notFound n);
  env_setControllerReference _ _ _ := Ok tt;
  env_createJob h j :=
    match findJob h (job_namespace j) (job_name j) with
    | [] => Ok tt
    | _ => Err (mkErr AlreadyExists (job_name j +:+ " already exists"))
    end;
  env_getJob h ns n := firstOr (notFound n) (findJob h ns n);
  env_deleteJob h ns n := match findJob h ns n with [] => Err (notFound n) | _ => Ok tt end;
  env_listJobs h ns k v :=
    Ok (filter (λ j, job_namespace j = ns ∧ job_labels j !! k = Some v) (jobsAt h));
  env_verifyImage _ q :=
    if bool_decide (iv_Image q ∈ cl_images c) then Ok tt else Err (errorf "manifest unknown");
  env_getSCC _ n := Err (notFound n);
  env_createSCC _ _ := Ok tt;
  env_updateSCC _ _ := Ok tt;
  env_deleteSCC _ _ := Ok tt;
  env_createOrPatchRole _ _ := Ok tt;
  env_deleteRole _ _ := Ok tt;
  env_createOrPatchRoleBinding _ _ := Ok tt;
  env_deleteRoleBinding _ _ := Ok tt;
  env_getServiceAccount _ _ n := Err (notFound n);
  env_createServiceAccount _ _ _ := Ok tt;
  env_deleteServiceAccount _ _ _ := Ok tt;
  env_range _ _ l := l;
  env_range_perm _ _ l := reflexivity l;
  isDNS1123Subdomain s := if dnsSubdomain s then [] else ["a lowercase RFC 1123 subdomain is required"];
  isDNS1123Label s := if dnsLabel s then [] else ["a lowercase RFC 1123 label is required"];
  retrySteps := 5;
}.

Lemma clusterEnv_dns : DNSChecker.
Proof.
  split; intros s; simpl.
  - by destruct (dnsSubdomain s).
  - by destruct (dnsLabel s).
Qed.

Lemma nodesAt_named h n x : nodesAt h !! n = Some x → node_name x = n.
Proof.
  induction h as [|e h IH]; simpl.
  - unfold initNodes. intros H%elem_of_list_to_map_2.
    apply list_elem_of_fmap in H as (y & [= -> ->] & _). done.
  - destruct e as [| | | | | | | | | |y [[]|]| | | | | | | | | | | | | | | | | | | | | | | | | | | ]; try done.
    rewrite lookup_insert. case_decide; [congruence|done].
Qed.

(** The cluster stores the status of plans. *)
Definition clusterEnv_plans : PlanServer.
Proof.
  refine {| ps_status h n := statusOf (plansAt h) n |}.
  - intros h n p. simpl. unfold statusOf. destruct (plansAt h !! n); [|done]. by intros [= ->].
  - intros h q p. simpl. unfold statusOf. destruct (plansAt h !! plan_Name q); [|done]. by intros [= <-].
  - intros h p a n. unfold statusOf. simpl. destruct a as [q|e]; [|by right].
    destruct (plansAt h !! plan_Name p) as [x|] eqn:Hx; [|by right].
    rewrite lookup_insert. case_decide; [by left|by right].
  - intros h e n He. unfold statusOf at 1. simpl.
    destruct e as [| |q [p|]|p a| | | | | | | | | | | | | | | | | | | | | | | | | | | | | | | | | | ]; try done.
    + rewrite lookup_insert. by case_decide; subst.
    + by destruct (He p a).
Defined.

(** The cluster is an API server that stores nodes. *)
Definition clusterEnv_nodes : NodeServer.
Proof.
  refine {| ns_nodes := nodesAt |}.
  - apply nodesAt_named.
  - intros h n x. simpl. case_match; congruence.
  - intros h l x [= <-]. rewrite list_elem_of_filter, list_elem_of_fmap. split.
    + intros (_ & [n y] & -> & Hy%elem_of_map_to_list). simpl.
      by rewrite (nodesAt_named _ _ _ Hy).
    + intros Hx. split; [apply map_empty_subseteq|].
      exists (node_name x, x). split; [done|]. by apply elem_of_map_to_list.
  - done.
  - intros h e He. simpl. destruct e; try done. destruct r as [[]|]; [|done]. by destruct (He n).
Defined.
End ClusterEnv.

Definition emptyCluster : Cluster := mkCluster 0 [] [] [] [] [] [] [] [] [].

(** An environment with another registry. *)
Definition withVerify (E : Env) (v : ImageVerifyRequest → res unit) : Env :=
  {| env_now := @env_now E; env_getPlan := @env_getPlan E; env_updatePlan := @env_updatePlan E;
     env_updatePlanStatus := @env_updatePlanStatus E; env_listPlans := @env_listPlans E; env_getFU := @env_getFU E;
     env_updateFU := @env_updateFU E; env_updateFUStatus := @env_updateFUStatus E; env_listNodes := @env_listNodes E;
     env_getNode := @env_getNode E; env_updateNode := @env_updateNode E; env_listPodsOnNode := @env_listPodsOnNode E;
     env_listPods := @env_listPods E; env_getPod := @env_getPod E; env_evict := @env_evict E; env_logs := @env_logs E;
     env_listSlices := @env_listSlices E; env_listClaims := @env_listClaims E; env_getClaim := @env_getClaim E;
     env_getClaimTemplate := @env_getClaimTemplate E; env_setControllerReference := @env_setControllerReference E;
     env_createJob := @env_createJob E; env_getJob := @env_getJob E; env_deleteJob := @env_deleteJob E;
     env_listJobs := @env_listJobs E; env_verifyImage _ := v; env_getSCC := @env_getSCC E;
     env_createSCC := @env_createSCC E; env_updateSCC := @env_updateSCC E; env_deleteSCC := @env_deleteSCC E;
     env_createOrPatchRole := @env_createOrPatchRole E; env_deleteRole := @env_deleteRole E;
     env_createOrPatchRoleBinding := @env_createOrPatchRoleBinding E;
     env_deleteRoleBinding := @env_deleteRoleBinding E; env_getServiceAccount := @env_getServiceAccount E;
     env_createServiceAccount := @env_createServiceAccount E; env_deleteServiceAccount := @env_deleteServiceAccount E;
     env_range := @env_range E; env_range_perm := @env_range_perm E;
     isDNS1123Subdomain := @isDNS1123Subdomain E; isDNS1123Label := @isDNS1123Label E; retrySteps := @retrySteps E |}.
