(* ===== verification/RecoveryNaming.v ===== *)
(** * GPU recovery: needs, names and command lines

    The pure helpers of [internal/controller/gpurecoveryplan/gpurecoveryplan_helpers.go]: what a
    device taint calls for, the event ID and Job name built from it, the shell command lines of the
    recovery Jobs and the deadlines they run under; and the constants of
    [gpurecoveryplan_const.go]. *)

From Stdlib Require Import Ascii NArith.
From S2P Require Import Prelude GoStrings Regex Sha256 KubeTypes ApiTypes Common Client Drain Cluster.

Definition recoveryPlanFinalizer : string := "gpurecoveryplan.intel.com/finalizer".
Definition recoveryJobLabelPlan : string := "gpurecoveryplan.intel.com/plan".
Definition recoveryJobLabelEvent : string := "gpurecoveryplan.intel.com/event".
Definition reasonWedged : string := "gpu-wedged".
Definition reasonSurvivability : string := "survivability-mode".
Definition resetJobContainer : string := "resetter".
Definition reflashJobContainer : string := "updater".
Definition reflashCopyContainer : string := "fw-copy".
Definition firmwareImageDir : string := "/fwupdate".
Definition reflashStagingDir : string := "/update".
Definition recoveryResourcePart : string := "gpu-recovery".
Definition maxStatusMessages : nat := 50.
Definition maxStatusEvents : nat := 1000.
Definition maxStateMessageLen : nat := 200.
Definition maxPodsBlockingDrainReported : nat := 10.
Definition recoveryTaintKey : string := "gpurecoveryplan.intel.com/recovery".
Definition defaultDrainTimeout : Z := 300 * Second.
Definition defaultResetJobTimeout : Z := 300.
Definition defaultReflashJobTimeout : Z := 600.
Definition recoveryJobVerdictGrace : Z := 60 * Second.
Definition maxRecoveryNameLen : nat := 63.
Definition nodeSegmentMax : nat := 26.
Definition idHashLen : nat := 6.

(** ** Needs *)

Record deviceKey := mkDeviceKey { dk_node : string; dk_bdf : string }.
Record deviceNeed := mkDeviceNeed { need_rt : RecoveryType; need_reason : string }.

#[global] Instance deviceKey_eq_dec : EqDecision deviceKey.
Proof. solve_decision. Defined.

#[global] Instance deviceKey_countable : Countable deviceKey.
Proof.
  apply (inj_countable' (λ k, (dk_node k, dk_bdf k)) (λ p, mkDeviceKey p.1 p.2)). by intros [].
Defined.

#[global] Instance deviceNeed_eq_dec : EqDecision deviceNeed.
Proof. solve_decision. Defined.

(** [deviceNeed{}] *)
Definition noNeed : deviceNeed := mkDeviceNeed RecoveryTypeUnset "".

Definition deviceAttributeString (attrs : gmap string (option string)) (name : string) : string :=
  match attrs !! name with
  | Some (Some v) => v
  | _ => ""
  end.

Definition resetTypeOrDefault (rt : RecoveryType) : RecoveryType :=
  if bool_decide (rt = RecoveryTypeUnset) then RecoveryTypeSBR else rt.

Definition taintToDeviceNeed (taintKey : string) (defaultReset : RecoveryType) : option deviceNeed :=
  match RecoveryForDeviceTaint taintKey with
  | DeviceRecoveryReset => Some (mkDeviceNeed (resetTypeOrDefault defaultReset) reasonWedged)
  | DeviceRecoveryReflash => Some (mkDeviceNeed RecoveryTypeReflash reasonSurvivability)
  | DeviceRecoveryNone => None
  end.

Definition recoveryTypePriority (rt : RecoveryType) : nat :=
  match rt with
  | RecoveryTypeReflash => 2
  | RecoveryTypeSBR | RecoveryTypeSlot | RecoveryTypeAMC => 1
  | RecoveryTypeUnset => 0
  end.

Definition higherPriorityNeed (a b : deviceNeed) : deviceNeed :=
  if (recoveryTypePriority (need_rt a) <? recoveryTypePriority (need_rt b))%nat then b else a.

(** ** Names *)

(** [unicode.ToLower], as far as [sanitizeSegment] can tell: besides A-Z the only runes with an
    ASCII lower case are U+0130 and U+212A, and every other rune stays outside ASCII. *)
Definition lowerRune (r : N) : N :=
  (if (65 <=? r) && (r <=? 90) then r + 32
   else if r =? 304 then 105
   else if r =? 8490 then 107
   else r)%N.

Definition segmentRune (r : N) : ascii :=
  let r := lowerRune r in
  if ((97 <=? r) && (r <=? 122) || (48 <=? r) && (r <=? 57) || (r =? 45))%N
  then ascii_of_N r else "-"%char.

Definition sanitizeSegment (s : string) : string := trim (l2s (segmentRune <$> runes s)) "-".

Definition hashSegment (s : string) : string := strTake idHashLen (sha256hex s).

Definition nodeSegment (nodeName : string) : string :=
  let safe := sanitizeSegment nodeName in
  if (slen safe <=? nodeSegmentMax)%nat then safe
  else trim (strTake (nodeSegmentMax - idHashLen - 1) safe) "-" +:+ "-" +:+ hashSegment nodeName.

Definition idBudget : nat := maxRecoveryNameLen - slen "recovery-" - slen "-99".

Section Names.
Context `{!Env}.

Definition generateEventID (nodeName bdf : string) (rt : RecoveryType) : string :=
  let id := "evt-" +:+ nodeSegment nodeName +:+ "-" +:+ RecoveryType_string rt +:+ "-"
            +:+ sanitizeSegment bdf in
  if negb (bool_decide (isDNS1123Subdomain id = [])) || (idBudget <? slen id)%nat
  then "evt-" +:+ RecoveryType_string rt +:+ "-" +:+ hashSegment (nodeName +:+ "/" +:+ bdf)
  else id.

Definition recoveryJobName (eventID : string) (attempt : nat) : string :=
  let name := "recovery-" +:+ eventID +:+ "-" +:+ itoa (Z.of_nat attempt) in
  if (slen name <=? maxRecoveryNameLen)%nat && bool_decide (isDNS1123Subdomain name = []) then name
  else "recovery-" +:+ hashSegment eventID +:+ "-" +:+ itoa (Z.of_nat attempt).
End Names.

(** ** Command lines *)

Definition isHex (c : ascii) : bool := inRange "0" "9" c || inRange "a" "f" c || inRange "A" "F" c.

Definition deviceBDFPattern : regex :=
  RCat (rep 4 (RChar isHex)) (RCat (lit ":") (RCat (rep 2 (RChar isHex)) (RCat (lit ":")
    (RCat (rep 2 (RChar isHex)) (RCat (lit ".") (RChar (inRange "0" "7"))))))).

Definition validDeviceBDF (bdf : string) : bool := matchString deviceBDFPattern bdf.

Definition buildResetCommand (bdf : string) (rt : RecoveryType) : string :=
  match rt with
  | RecoveryTypeSBR => "xpu-smi config -d " +:+ bdf +:+ " --reset"
  | RecoveryTypeSlot => "xpu-smi config -d " +:+ bdf +:+ " --coldreset --force-reset-gpus"
  | RecoveryTypeAMC => "xpu-smi amc --gpureset -d " +:+ bdf +:+ " -y"
  | _ => ""
  end.

Definition buildFDOFlashCommand (bdf file : string) : string :=
  "xpu-smi updatefw -d " +:+ bdf +:+ " -t FDO -f " +:+ reflashStagingDir +:+ "/" +:+ file
  +:+ " -y --force".

Definition firmwareImagePath (file : string) : string := firmwareImageDir +:+ "/" +:+ file.

(** ** Jobs *)

(** [containerByName] returns a pointer into the list: the update is applied to the first container
    with the name. *)
Fixpoint updateContainer (name : string) (f : Container → Container) (l : list Container) :
    list Container :=
  match l with
  | [] => []
  | c :: l' => if bool_decide (c_name c = name) then f c :: l' else c :: updateContainer name f l'
  end.

Definition applyXpuSmiImage (plan : GPURecoveryPlan) (c : Container) : Container :=
  let x := sp_XpuSmi (plan_Spec plan) in
  mkContainer (c_name c) (xs_Image x) (xs_PullPolicy x) (c_command c) (c_args c) (c_limits c).

Definition set_c_args (args : list string) (c : Container) : Container :=
  mkContainer (c_name c) (c_image c) (c_imagePullPolicy c) (c_command c) args (c_limits c).

Definition set_c_image (image : string) (c : Container) : Container :=
  mkContainer (c_name c) image (c_imagePullPolicy c) (c_command c) (c_args c) (c_limits c).

Definition recoveryJobTimeout (plan : GPURecoveryPlan) (evt : RecoveryEvent) : Z :=
  let t := sp_Timeouts (plan_Spec plan) in
  if IsReflash (evt_RecoveryType evt) then
    if (0 <? to_ReflashSeconds t)%Z then to_ReflashSeconds t else defaultReflashJobTimeout
  else if (0 <? to_ResetSeconds t)%Z then to_ResetSeconds t
  else defaultResetJobTimeout.

(** [deployments.XpuManagerResetJob] and [XpuManagerFWUpdateJob]: the embedded templates
    [xpum/xpum-reset-job.yaml] and [xpum/xpum-fwupdate-job.yaml], as far as the operator touches
    them. *)
Definition templateLimits : labels := {[ "cpu" := "100m"; "memory" := "64Mi" ]}.

Definition XpuManagerResetJob : Job :=
  mkJob "" "intel-reset-job" ∅ None None None (Some 300%Z) None None
    (mkPodSpec "" ∅ [] [] "" []
       [mkContainer "resetter" "intel/gpu-fwupdater-mock:devel" "IfNotPresent" ["/bin/sh"; "-c"]
          ["xpu-smi config -d 0000:00:00.0 --reset"] templateLimits])
    [] None 0 0.

Definition XpuManagerFWUpdateJob : Job :=
  mkJob "" "intel-fwupdate-job" ∅ None None None (Some 600%Z) None None
    (mkPodSpec "" ∅ [] [] ""
       [mkContainer "fw-copy" "ubuntu:24.04" "IfNotPresent" ["/bin/sh"; "-c"]
          ["cp /fwupdate/* /update/"] ∅]
       [mkContainer "updater" "intel/xpumanager:v1.2.27" "IfNotPresent" ["/bin/sh"; "-c"]
          ["sleep 20 && sleep $RANDOM"] templateLimits])
    [] None 0 0.
