(* ===== verification/RecoveryNamingFacts.v ===== *)
(** * GPU recovery: the names are valid, bounded and distinct

    Facts about [RecoveryNaming]: every event ID and every Job name is a DNS-1123 name within the
    63-byte label budget, distinct GPUs on plainly named nodes have distinct IDs, and no
    shell metacharacter can reach a recovery command line. *)

From Stdlib Require Import Ascii NArith Lia.
From S2P Require Import Prelude GoStrings Regex Sha256 KubeTypes ApiTypes Common Client Drain Cluster.
From S2P Require Import RecoveryNaming.

(** ** DNS names *)

Lemma reIn_star_char p l : Forall (λ c, p c = true) l → reIn (RStar (RChar p)) l.
Proof.
  induction 1 as [|c l Hc _ IH]; [constructor|].
  change (c :: l) with ([c] ++ l). constructor; [by constructor|done].
Qed.

Lemma dnsLabel_intro a l :
  dnsAlnum a = true → Forall (λ c, dnsInner c = true) l →
  (∀ x, last l = Some x → dnsAlnum x = true) → reIn dnsLabelRe (a :: l).
Proof.
  intros Ha HF Hlast. change (a :: l) with ([a] ++ l). constructor; [by constructor|].
  destruct l as [|x k _] using rev_ind; [apply reIn_alt_l; constructor|].
  apply Forall_app in HF as [HF _]. apply reIn_alt_r. constructor; [by apply reIn_star_char|].
  constructor. apply Hlast. by rewrite last_snoc.
Qed.

Lemma dnsSubdomain_intro s a l :
  s2l s = a :: l → slen s ≤ 253 → dnsAlnum a = true → Forall (λ c, dnsInner c = true) l →
  (∀ x, last l = Some x → dnsAlnum x = true) → dnsSubdomain s = true.
Proof.
  intros Hs Hlen Ha HF Hlast. unfold dnsSubdomain. apply andb_true_iff. split.
  - by apply Nat.leb_le.
  - unfold matchString. apply matchL_spec. rewrite Hs, <- (app_nil_r (a :: l)).
    constructor; [by apply dnsLabel_intro|constructor].
Qed.

Lemma isHexLower_alnum c : isHexLower c = true → dnsAlnum c = true.
Proof.
  pose proof (forall_ascii (λ c, implb (isHexLower c) (dnsAlnum c)) eq_refl c) as H. simpl in H.
  intros Hc. by rewrite Hc in H.
Qed.

Lemma dnsAlnum_inner c : dnsAlnum c = true → dnsInner c = true.
Proof. unfold dnsInner. by intros ->. Qed.

Lemma hashSegment_length s : slen (hashSegment s) = idHashLen.
Proof. unfold hashSegment. by rewrite slen_strTake, sha256hex_length. Qed.

Lemma hashSegment_alnum s : Forall (λ c, dnsAlnum c = true) (s2l (hashSegment s)).
Proof.
  unfold hashSegment, strTake. rewrite s2l_l2s. apply Forall_take.
  eapply Forall_impl; [apply sha256hex_hex|]. apply isHexLower_alnum.
Qed.

Lemma Forall_inner_alnum l : Forall (λ c, dnsAlnum c = true) l → Forall (λ c, dnsInner c = true) l.
Proof. intros H. eapply Forall_impl; [done|]. apply dnsAlnum_inner. Qed.

Lemma last_app_alnum (k l : list ascii) x :
  l ≠ [] → Forall (λ c, dnsAlnum c = true) l → last (k ++ l) = Some x → dnsAlnum x = true.
Proof.
  intros Hne HF Hx. destruct (exists_last Hne) as (l' & y & ->).
  rewrite app_assoc, last_snoc in Hx. simplify_eq.
  apply Forall_app in HF as [_ HF]. by rewrite Forall_singleton in HF.
Qed.

(** Decimal digits. *)
Lemma itoa_digits n : Forall (λ c, dnsAlnum c = true) (s2l (itoa (Z.of_nat n))) ∧ itoa (Z.of_nat n) ≠ "".
Proof.
  assert (itoa (Z.of_nat n) = pretty (N.of_nat n)) as ->.
  { unfold itoa. destruct n; [done|]. simpl. done. }
  generalize (N.of_nat n) as x. clear n. intros x.
  assert (∀ m : N, dnsAlnum (pretty_N_char m) = true) as Hchar.
  { intros m. unfold pretty_N_char. by repeat case_match. }
  assert (∀ (m : N) s, Forall (λ c, dnsAlnum c = true) (s2l s) →
            Forall (λ c, dnsAlnum c = true) (s2l (pretty_N_go m s))) as Hgo.
  { induction m as [m IH] using (well_founded_induction N.lt_wf_0). intros s Hs.
    destruct (decide (0 < m)%N) as [Hm|Hm].
    - rewrite pretty_N_go_step by done. apply IH; [by apply N.div_lt|]. by constructor.
    - replace m with 0%N by lia. by rewrite pretty_N_go_0. }
  assert (∀ (m : N) s, s ≠ "" → pretty_N_go m s ≠ "") as Hne.
  { induction m as [m IH] using (well_founded_induction N.lt_wf_0). intros s Hs.
    destruct (decide (0 < m)%N) as [Hm|Hm].
    - rewrite pretty_N_go_step by done. apply IH; [by apply N.div_lt|done].
    - replace m with 0%N by lia. by rewrite pretty_N_go_0. }
  destruct (decide (x = 0%N)) as [->|Hx]; [by repeat constructor|].
  unfold pretty, pretty_N. rewrite decide_False by done. split; [by apply Hgo; constructor|].
  rewrite pretty_N_go_step by lia. by apply Hne.
Qed.

Lemma slen_pretty_go k : ∀ (x : N) s, (x < 10 ^ N.of_nat k)%N → slen (pretty_N_go x s) ≤ k + slen s.
Proof.
  induction k as [|k IH]; intros x s Hx.
  - simpl in Hx. replace x with 0%N by lia. by rewrite pretty_N_go_0.
  - destruct (decide (0 < x)%N) as [Hpos|]; [|replace x with 0%N by lia; rewrite pretty_N_go_0; lia].
    rewrite pretty_N_go_step by done.
    etrans; [apply IH|unfold slen; simpl; lia].
    apply N.Div0.div_lt_upper_bound. rewrite Nat2N.inj_succ, N.pow_succ_r' in Hx. lia.
Qed.

(** A 64-bit counter has at most 20 digits. *)
Lemma itoa_length n : (Z.of_nat n < 2 ^ 64)%Z → slen (itoa (Z.of_nat n)) ≤ 20.
Proof.
  intros Hn. assert (itoa (Z.of_nat n) = pretty (N.of_nat n)) as ->.
  { unfold itoa. by destruct n. }
  unfold pretty, pretty_N. case_decide; [simpl; unfold slen; simpl; lia|].
  etrans; [apply (slen_pretty_go 20)|done]. simpl. lia.
Qed.

Lemma itoa_small n : n < 100 → slen (itoa (Z.of_nat n)) ≤ 2.
Proof.
  intros Hn. assert (forallb (λ n, slen (itoa (Z.of_nat n)) <=? 2) (seq 0 100) = true) as H
    by by vm_compute.
  rewrite forallb_forall in H. apply Nat.leb_le, H, in_seq. lia.
Qed.

(** ** Sanitized segments *)

Lemma segmentRune_inner r : dnsInner (segmentRune r) = true.
Proof.
  unfold segmentRune. generalize (lowerRune r) as x. intros x. case_match eqn:Hx; [|done].
  assert (x < 128)%N as Hlt.
  { rewrite !orb_true_iff, !andb_true_iff, !N.leb_le, N.eqb_eq in Hx. lia. }
  assert (N_of_ascii (ascii_of_N x) = x) as Hid by (apply N_ascii_embedding; lia).
  rewrite <- Hid in Hx. revert Hx. generalize (ascii_of_N x) as c. clear. intros c Hc.
  pose proof (forall_ascii (λ c, implb
    ((97 <=? N_of_ascii c) && (N_of_ascii c <=? 122)
     || (48 <=? N_of_ascii c) && (N_of_ascii c <=? 57) || (N_of_ascii c =? 45))%N
    (dnsInner c)) eq_refl c) as H. cbn beta in H. by rewrite Hc in H.
Qed.

Lemma inCutset_dash c : inCutset "-" c = false → dnsInner c = true → dnsAlnum c = true.
Proof.
  unfold inCutset, dnsInner. rewrite bool_decide_eq_false, orb_true_iff.
  intros Hc [?|Heq%Ascii.eqb_eq]; [done|]. subst. exfalso. apply Hc. by left.
Qed.

Lemma sanitizeSegment_inner s : Forall (λ c, dnsInner c = true) (s2l (sanitizeSegment s)).
Proof.
  unfold sanitizeSegment, trim. rewrite !s2l_l2s. apply trimRightL_Forall, dropWhile_Forall.
  apply Forall_fmap, Forall_true. intros r. apply segmentRune_inner.
Qed.

Lemma trim_inner s c : Forall (λ c, dnsInner c = true) (s2l s) → Forall (λ c, dnsInner c = true) (s2l (trim s c)).
Proof. intros H. unfold trim. rewrite s2l_l2s. by apply trimRightL_Forall, dropWhile_Forall. Qed.

Lemma strTake_inner n s :
  Forall (λ c, dnsInner c = true) (s2l s) → Forall (λ c, dnsInner c = true) (s2l (strTake n s)).
Proof. intros H. unfold strTake. rewrite s2l_l2s. by apply Forall_take. Qed.

Lemma slen_trim s c : slen (trim s c) ≤ slen s.
Proof.
  unfold trim. rewrite slen_l2s, slen_s2l. etrans; [apply trimRightL_length|apply dropWhile_length].
Qed.

Lemma nodeSegment_inner n : Forall (λ c, dnsInner c = true) (s2l (nodeSegment n)).
Proof.
  unfold nodeSegment. case_match; [apply sanitizeSegment_inner|].
  rewrite !s2l_app, !Forall_app. split_and!.
  - apply trim_inner, strTake_inner, sanitizeSegment_inner.
  - by repeat constructor.
  - apply Forall_inner_alnum, hashSegment_alnum.
Qed.

Lemma nodeSegment_length n : slen (nodeSegment n) ≤ nodeSegmentMax.
Proof.
  unfold nodeSegment. case_match eqn:Hl; [by apply Nat.leb_le|].
  rewrite !slen_app, hashSegment_length.
  assert (slen (trim (strTake (nodeSegmentMax - idHashLen - 1) (sanitizeSegment n)) "-")
          ≤ nodeSegmentMax - idHashLen - 1) as H.
  { etrans; [apply slen_trim|]. rewrite slen_strTake. lia. }
  unfold nodeSegmentMax, idHashLen in *. change (slen "-") with 1. lia.
Qed.

Lemma RecoveryType_inner rt : Forall (λ c, dnsInner c = true) (s2l (RecoveryType_string rt)).
Proof. destruct rt; by repeat constructor. Qed.

Lemma RecoveryType_length rt : slen (RecoveryType_string rt) ≤ 7.
Proof. destruct rt; unfold slen; simpl; lia. Qed.

(** ** Event IDs and Job names are valid resource names *)

Section ValidNames.
Context `{!Env} `{!DNSChecker}.

Lemma generateEventID_inner n bdf rt :
  ∃ l, s2l (generateEventID n bdf rt) = "e"%char :: l ∧ Forall (λ c, dnsInner c = true) l.
Proof.
  unfold generateEventID. case_match; cbn [String.append];
    (eexists; split; [reflexivity|]); simpl.
  - rewrite !s2l_app, !Forall_cons, !Forall_app. split_and!; try done.
    + apply RecoveryType_inner.
    + by repeat constructor.
    + apply Forall_inner_alnum, hashSegment_alnum.
  - rewrite !s2l_app, !Forall_cons, !Forall_app. split_and!; try done.
    + apply nodeSegment_inner.
    + by repeat constructor.
    + apply RecoveryType_inner.
    + by repeat constructor.
    + apply sanitizeSegment_inner.
Qed.

Lemma generateEventID_length n bdf rt : slen (generateEventID n bdf rt) ≤ idBudget.
Proof.
  unfold generateEventID. case_match eqn:Hc.
  - rewrite !slen_app, hashSegment_length. pose proof (RecoveryType_length rt).
    change (slen "evt-") with 4. change (slen "-") with 1. change idBudget with 51.
    unfold idHashLen. lia.
  - apply orb_false_iff in Hc as [_ Hc%Nat.ltb_ge]. done.
Qed.

Lemma generateEventID_subdomain n bdf rt : dnsSubdomain (generateEventID n bdf rt) = true.
Proof.
  unfold generateEventID. case_match eqn:Hc.
  - eapply dnsSubdomain_intro.
    + cbn [String.append]. reflexivity.
    + rewrite !slen_app, hashSegment_length. pose proof (RecoveryType_length rt).
      change (slen "evt-") with 4. change (slen "-") with 1. unfold idHashLen. lia.
    + done.
    + fold (s2l "vt-"). rewrite !s2l_app. simpl. rewrite !Forall_cons, !Forall_app.
      split_and!; try done; [apply RecoveryType_inner|constructor; [done|]].
      apply Forall_inner_alnum, hashSegment_alnum.
    + intros x. simpl. rewrite !s2l_app. simpl.
      rewrite (cons_middle _ _ (s2l (hashSegment _))), app_assoc, !app_comm_cons. apply last_app_alnum; [|apply hashSegment_alnum].
      intros Hnil. pose proof (hashSegment_length (n +:+ "/" +:+ bdf)) as Hl.
      by rewrite slen_s2l, Hnil in Hl.
  - apply orb_false_iff in Hc as [Hc _].
    apply negb_false_iff, bool_decide_eq_true in Hc. by apply dns_subdomain.
Qed.

(** Any name of the form [recovery-<inner>-<n>] is a valid resource name when it is short enough. *)
Lemma jobName_subdomain l n s :
  s = "recovery-" +:+ l +:+ "-" +:+ itoa (Z.of_nat n) →
  Forall (λ c, dnsInner c = true) (s2l l) → slen s ≤ 253 → dnsSubdomain s = true.
Proof.
  intros -> Hl Hlen. destruct (itoa_digits n) as [Hd Hne].
  eapply dnsSubdomain_intro; [by cbn [String.append]|done|done|..].
  - simpl. rewrite !s2l_app, !Forall_cons, !Forall_app. split_and!; try done;
      first [by repeat constructor|by apply Forall_inner_alnum].
  - intros x. simpl. rewrite !s2l_app. simpl.
    rewrite (cons_middle _ _ (s2l (itoa _))), app_assoc, !app_comm_cons. apply last_app_alnum; [|done].
    intros Hnil. apply Hne. by apply s2l_inj.
Qed.

Lemma recoveryJobName_short eventID attempt :
  (Z.of_nat attempt < 2 ^ 63)%Z →
  slen ("recovery-" +:+ hashSegment eventID +:+ "-" +:+ itoa (Z.of_nat attempt)) ≤ 36.
Proof.
  intros Ha. rewrite !slen_app, hashSegment_length. pose proof (itoa_length attempt ltac:(lia)).
  change (slen "recovery-") with 9. change (slen "-") with 1. unfold idHashLen. lia.
Qed.

(** The ID budget is what is left for an ID, so the name is not shortened. *)
Lemma recoveryJobName_readable n bdf rt attempt :
  attempt < 100 →
  recoveryJobName (generateEventID n bdf rt) attempt
  = "recovery-" +:+ generateEventID n bdf rt +:+ "-" +:+ itoa (Z.of_nat attempt).
Proof.
  intros Hlt. unfold recoveryJobName.
  destruct (generateEventID_inner n bdf rt) as (l & Hl & HF).
  pose proof (itoa_small attempt Hlt) as Hd.
  pose proof (generateEventID_length n bdf rt) as Hid. change idBudget with 51 in Hid.
  set (name := "recovery-" +:+ _).
  assert (slen name ≤ maxRecoveryNameLen) as Hname.
  { subst name. rewrite !slen_app. change (slen "recovery-") with 9. change (slen "-") with 1.
    unfold maxRecoveryNameLen. lia. }
  rewrite (proj2 (Nat.leb_le _ _) Hname), bool_decide_true; [done|].
  apply dns_subdomain. eapply jobName_subdomain; [done| |unfold maxRecoveryNameLen in *; lia].
  rewrite Hl. by constructor.
Qed.
End ValidNames.

(** ** Distinct GPUs have distinct IDs *)

Definition lowerAscii (c : ascii) : ascii := ascii_of_N (lowerRune (N_of_ascii c)).

(** [strings.ToLower] on ASCII text. *)
Definition lowerS (s : string) : string := l2s (lowerAscii <$> s2l s).

(** The twelve characters of a PCI address. *)
Lemma validDeviceBDF_inv bdf :
  validDeviceBDF bdf = true →
  ∃ a b c d e f g h i, s2l bdf = [a; b; c; d; ":"; e; f; ":"; g; h; "."; i]%char ∧
    Forall (λ x, isHex x = true) [a; b; c; d; e; f; g; h] ∧ inRange "0" "7" i = true.
Proof.
  unfold validDeviceBDF, matchString. rewrite matchL_spec. unfold deviceBDFPattern.
  intros (l1 & k1 & Hk & [H1 F1]%reIn_rep_char & R1)%reIn_RCat.
  apply reIn_RCat in R1 as (l2 & k2 & -> & (c1 & -> & Hc1%Ascii.eqb_eq)%reIn_RChar & R2).
  apply reIn_RCat in R2 as (l3 & k3 & -> & [H3 F3]%reIn_rep_char & R3).
  apply reIn_RCat in R3 as (l4 & k4 & -> & (c2 & -> & Hc2%Ascii.eqb_eq)%reIn_RChar & R4).
  apply reIn_RCat in R4 as (l5 & k5 & -> & [H5 F5]%reIn_rep_char & R5).
  apply reIn_RCat in R5 as (l6 & k6 & -> & (c3 & -> & Hc3%Ascii.eqb_eq)%reIn_RChar & R6).
  apply reIn_RChar in R6 as (i & -> & Hi). subst c1 c2 c3.
  destruct l1 as [|a [|b [|c [|d []]]]]; try done.
  destruct l3 as [|e [|f []]]; try done. destruct l5 as [|g [|h []]]; try done.
  exists a, b, c, d, e, f, g, h, i. split_and!; [by rewrite Hk| |done].
  pose proof (Forall_app_2 _ _ _ F1 (Forall_app_2 _ _ _ F3 F5)) as F. done.
Qed.

Lemma runes_ascii s : Forall (λ c, N_of_ascii c < 128)%N (s2l s) → runes s = bytes s.
Proof.
  unfold runes, bytes. rewrite slen_s2l. induction (s2l s) as [|c l IH]; intros HF; [done|].
  inversion HF as [|? ? Hc HF']; subst.
  change (length (c :: l)) with (S (length l)). rewrite fmap_cons.
  assert (decodeRune (N_of_ascii c :: (N_of_ascii <$> l)) = (N_of_ascii c, 1)) as Hd.
  { unfold decodeRune, runeWidth. assert (between 0 127 (N_of_ascii c) = true) as ->; [|done].
    unfold between. rewrite andb_true_iff, !N.leb_le. lia. }
  simpl runesFuel. rewrite Hd. simpl. f_equal. by apply IH.
Qed.

(** A PCI address is sanitized character by character. *)
Lemma sanitizeSegment_bdf bdf :
  validDeviceBDF bdf = true →
  s2l (sanitizeSegment bdf) = (λ c, segmentRune (N_of_ascii c)) <$> s2l bdf.
Proof.
  intros (a & b & c & d & e & f & g & h & i & Hs & HF & Hi)%validDeviceBDF_inv.
  assert (Forall (λ x, N_of_ascii x < 128)%N (s2l bdf)) as Hascii.
  { assert (∀ x, isHex x = true → (N_of_ascii x < 128)%N) as Hhex.
    { intros x Hx. pose proof (forall_ascii (λ x, implb (isHex x) (N_of_ascii x <? 128)%N) eq_refl x) as H.
      cbn beta in H. rewrite Hx in H. by apply N.ltb_lt. }
    assert (∀ x, inRange "0" "7" x = true → (N_of_ascii x < 128)%N) as Hdig.
    { intros x Hx. apply Hhex. unfold isHex. apply orb_true_iff. left. apply orb_true_iff. left.
      unfold inRange in *. rewrite andb_true_iff, !N.leb_le in *. simpl in *. lia. }
    rewrite Hs. repeat (apply Forall_cons in HF as [? HF]).
    repeat (constructor; [by auto|]). constructor. }
  unfold sanitizeSegment. rewrite (runes_ascii _ Hascii). unfold trim, bytes. rewrite !s2l_l2s.
  rewrite <- list_fmap_compose. change (segmentRune ∘ N_of_ascii) with (λ c, segmentRune (N_of_ascii c)).
  assert (∀ x, isHex x = true → inCutset "-" (segmentRune (N_of_ascii x)) = false) as Hcut.
  { intros x Hx. pose proof (forall_ascii (λ x, implb (isHex x)
      (negb (inCutset "-" (segmentRune (N_of_ascii x))))) eq_refl x) as H.
    cbn beta in H. rewrite Hx in H. by apply negb_true_iff. }
  apply Forall_cons in HF as [Ha _]. rewrite Hs.
  rewrite dropWhile_none; [rewrite trimRightL_none; [done|]|].
  - intros x [= <-]. apply Hcut. unfold isHex. apply orb_true_iff. left. apply orb_true_iff. left.
    unfold inRange in *. rewrite andb_true_iff, !N.leb_le in *. simpl in *. lia.
  - intros x [= <-]. by apply Hcut.
Qed.

Lemma sanitizeSegment_bdf_length bdf : validDeviceBDF bdf = true → slen (sanitizeSegment bdf) = 12.
Proof.
  intros Hv. rewrite slen_s2l, sanitizeSegment_bdf, length_fmap by done.
  by destruct (validDeviceBDF_inv _ Hv) as (? & ? & ? & ? & ? & ? & ? & ? & ? & -> & _).
Qed.

Lemma segment_lower c d :
  isHex c = true → isHex d = true → segmentRune (N_of_ascii c) = segmentRune (N_of_ascii d) →
  lowerAscii c = lowerAscii d.
Proof.
  assert (∀ x, isHex x = true → segmentRune (N_of_ascii x) = lowerAscii x) as H.
  { intros x Hx. pose proof (forall_ascii (λ x, implb (isHex x)
      (Ascii.eqb (segmentRune (N_of_ascii x)) (lowerAscii x))) eq_refl x) as H.
    cbn beta in H. rewrite Hx in H. by apply Ascii.eqb_eq. }
  intros Hc Hd. by rewrite !H.
Qed.

Section Distinct.
Context `{!Env} `{!DNSChecker}.

(** A PCI address never takes the hashed fallback. *)
Lemma generateEventID_bdf n bdf rt :
  validDeviceBDF bdf = true →
  generateEventID n bdf rt
  = "evt-" +:+ nodeSegment n +:+ "-" +:+ RecoveryType_string rt +:+ "-" +:+ sanitizeSegment bdf.
Proof.
  intros Hv. set (id := "evt-" +:+ _).
  assert (slen id ≤ idBudget) as Hlen.
  { subst id. rewrite !slen_app, (sanitizeSegment_bdf_length _ Hv).
    pose proof (nodeSegment_length n). pose proof (RecoveryType_length rt).
    change (slen "evt-") with 4. change (slen "-") with 1. change idBudget with 51.
    unfold nodeSegmentMax in *. lia. }
  assert (dnsSubdomain id = true) as Hdns.
  { subst id. eapply dnsSubdomain_intro; [by cbn [String.append]| |done|..].
    - etrans; [apply Hlen|]. change idBudget with 51. lia.
    - simpl. rewrite !s2l_app, !Forall_cons, !Forall_app. split_and!; try done;
        try apply nodeSegment_inner; try apply RecoveryType_inner; try apply sanitizeSegment_inner;
        by repeat constructor.
    - destruct (validDeviceBDF_inv _ Hv) as (a & b & c & d & e & f & g & h & i & Hs & _ & Hi).
      intros x. simpl. rewrite !s2l_app, (sanitizeSegment_bdf _ Hv), Hs. simpl.
      rewrite !last_cons, !last_app. simpl. rewrite !last_cons, !last_app. simpl. intros [= <-].
      pose proof (forall_ascii (λ i, implb (inRange "0" "7" i)
        (dnsAlnum (segmentRune (N_of_ascii i)))) eq_refl i) as H1.
      cbn beta in H1. by rewrite Hi in H1. }
  unfold generateEventID. fold id. rewrite bool_decide_true by by apply dns_subdomain.
  by rewrite (proj2 (Nat.ltb_ge _ _)).
Qed.

Lemma sanitizeSegment_bdf_inj b1 b2 :
  validDeviceBDF b1 = true → validDeviceBDF b2 = true →
  sanitizeSegment b1 = sanitizeSegment b2 → lowerS b1 = lowerS b2.
Proof.
  intros V1 V2 Heq. assert (s2l (sanitizeSegment b1) = s2l (sanitizeSegment b2)) as Hq by by rewrite Heq.
  rewrite !sanitizeSegment_bdf in Hq by done.
  assert (∀ x, inRange "0" "7" x = true → isHex x = true) as Hdig.
  { intros x Hx. pose proof (forall_ascii (λ x, implb (inRange "0" "7" x) (isHex x)) eq_refl x) as H1.
    cbn beta in H1. by rewrite Hx in H1. }
  destruct (validDeviceBDF_inv _ V1) as (a & b & c & d & e & f & g & h & i & Hs & HF & Hi).
  destruct (validDeviceBDF_inv _ V2) as (a' & b' & c' & d' & e' & f' & g' & h' & i' & Hs' & HF' & Hi').
  unfold lowerS. rewrite Hs, Hs' in *. cbn [fmap list_fmap] in *.
  rewrite !Forall_cons in HF, HF'. destruct_and!. injection Hq; intros. f_equal.
  repeat (apply (f_equal2 cons); [first [reflexivity|apply segment_lower; by auto]|]). done.
Qed.

Lemma generateEventID_inj n1 n2 b1 b2 rt1 rt2 :
  validDeviceBDF b1 = true → validDeviceBDF b2 = true →
  rt1 ≠ RecoveryTypeUnset → rt2 ≠ RecoveryTypeUnset →
  generateEventID n1 b1 rt1 = generateEventID n2 b2 rt2 →
  nodeSegment n1 = nodeSegment n2 ∧ rt1 = rt2 ∧ lowerS b1 = lowerS b2.
Proof.
  intros V1 V2 T1 T2 Heq. rewrite !generateEventID_bdf in Heq by done.
  apply (f_equal s2l) in Heq. cbn [String.append] in Heq. simpl in Heq. injection Heq as Heq.
  rewrite !s2l_app in Heq. simpl in Heq.
  assert (∀ (x y z : list ascii), x ++ "-"%char :: y ++ "-"%char :: z = (x ++ ["-"%char] ++ y ++ ["-"%char]) ++ z) as Hre.
  { intros x y z. by rewrite <- !app_assoc. }
  rewrite !Hre in Heq. apply app_inj_2 in Heq as [Hpre Hslug].
  2:{ rewrite <- !slen_s2l. by rewrite !sanitizeSegment_bdf_length. }
  split; [|split].
  - apply s2l_inj. rewrite !app_assoc in Hpre. apply app_inj_tail in Hpre as [Hpre _].
    destruct rt1, rt2; try done; try (apply (f_equal last) in Hpre; by rewrite !last_app in Hpre);
      apply app_inj_2 in Hpre as [Hpre _]; try done; by apply app_inj_tail in Hpre as [-> _].
  - rewrite !app_assoc in Hpre. apply app_inj_tail in Hpre as [Hpre _].
    destruct rt1, rt2; try done; apply (f_equal last) in Hpre; by rewrite !last_app in Hpre.
  - by apply sanitizeSegment_bdf_inj, s2l_inj.
Qed.
End Distinct.

(** ** Command lines *)

Definition isSpace (c : ascii) : bool := Ascii.eqb c " ".

(** The words of a command line that holds no quoting, expansion or control operator. *)
Fixpoint shellWordsL (cur : list ascii) (l : list ascii) : list string :=
  match l with
  | [] => [l2s (reverse cur)]
  | c :: l' => if isSpace c then l2s (reverse cur) :: shellWordsL [] l' else shellWordsL (c :: cur) l'
  end.
Definition shellWords (s : string) : list string := shellWordsL [] (s2l s).

(** The characters the shell passes through unchanged, and the space that separates words. *)
Definition shellPlain (c : ascii) : bool :=
  inRange "a" "z" c || inRange "A" "Z" c || inRange "0" "9" c
  || bool_decide (c ∈ s2l " -_./:").

Lemma shellWordsL_app cur w l :
  Forall (λ c, isSpace c = false) w → shellWordsL cur (w ++ l) = shellWordsL (reverse w ++ cur) l.
Proof.
  revert cur. induction w as [|c w IH]; intros cur HF; [done|].
  apply Forall_cons in HF as [Hc HF]. simpl. rewrite Hc, IH by done.
  by rewrite reverse_cons, <- app_assoc.
Qed.

Lemma shellWords_word w : Forall (λ c, isSpace c = false) (s2l w) → shellWords w = [w].
Proof.
  intros HF. unfold shellWords. rewrite <- (app_nil_r (s2l w)), shellWordsL_app by done.
  simpl. by rewrite app_nil_r, reverse_involutive, l2s_s2l.
Qed.

Lemma shellWords_cons w s :
  Forall (λ c, isSpace c = false) (s2l w) → shellWords (w +:+ " " +:+ s) = w :: shellWords s.
Proof.
  intros HF. unfold shellWords. rewrite s2l_app, shellWordsL_app by done. simpl.
  by rewrite app_nil_r, reverse_involutive, l2s_s2l.
Qed.

Lemma bdf_plain bdf :
  validDeviceBDF bdf = true →
  Forall (λ c, isSpace c = false) (s2l bdf) ∧ Forall (λ c, shellPlain c = true) (s2l bdf).
Proof.
  intros Hv%matchL_spec. rewrite <- Forall_and. revert Hv. apply reIn_chars.
  pose proof (λ x, forall_ascii (λ x, implb (isHex x) (negb (isSpace x) && shellPlain x)) eq_refl x) as Hhex.
  pose proof (λ x, forall_ascii (λ x, implb (inRange "0" "7" x)
    (negb (isSpace x) && shellPlain x)) eq_refl x) as Hdig.
  cbn beta in Hhex, Hdig.
  assert (∀ c, isHex c = true → isSpace c = false ∧ shellPlain c = true) as H1.
  { intros c Hc. specialize (Hhex c). rewrite Hc in Hhex.
    apply andb_true_iff in Hhex as [?%negb_true_iff ?]. done. }
  assert (∀ c, inRange "0" "7" c = true → isSpace c = false ∧ shellPlain c = true) as H2.
  { intros c Hc. specialize (Hdig c). rewrite Hc in Hdig.
    apply andb_true_iff in Hdig as [?%negb_true_iff ?]. done. }
  unfold deviceBDFPattern. cbn [reChars rep lit].
  split_and!; auto; intros c <-%Ascii.eqb_eq; done.
Qed.

(** The words [xpu-smi] is called with for a reset. *)
Definition resetArgv (bdf : string) (rt : RecoveryType) : list string :=
  match rt with
  | RecoveryTypeSBR => ["xpu-smi"; "config"; "-d"; bdf; "--reset"]
  | RecoveryTypeSlot => ["xpu-smi"; "config"; "-d"; bdf; "--coldreset"; "--force-reset-gpus"]
  | RecoveryTypeAMC => ["xpu-smi"; "amc"; "--gpureset"; "-d"; bdf; "-y"]
  | _ => [""]
  end.

(** ** Claims *)

Section Claims.
Context `{!Env} `{!DNSChecker}.

(** Whatever the node is called and whatever the DRA driver publishes as the PCI address, the
    event ID is a valid Kubernetes resource name and leaves room, under the 63-byte label limit, for
    the prefix and the attempt suffix of the Job name. *)
Theorem event_id_valid n bdf rt :
  isDNS1123Subdomain (generateEventID n bdf rt) = [] ∧
  slen "recovery-" + slen (generateEventID n bdf rt) + slen "-99" ≤ maxRecoveryNameLen.
Proof.
  split; [apply dns_subdomain, generateEventID_subdomain|].
  pose proof (generateEventID_length n bdf rt) as H1. change idBudget with 51 in H1.
  change (slen "recovery-") with 9. change (slen "-99") with 3. unfold maxRecoveryNameLen. lia.
Qed.

(** C40: a Job name is a valid resource name of 63 bytes at most, for any event ID and any attempt
    counter an [int] holds; and the first hundred attempts at one event all have Jobs of their
    own. *)
Theorem job_name_valid eventID attempt :
  (Z.of_nat attempt < 2 ^ 63)%Z →
  isDNS1123Subdomain (recoveryJobName eventID attempt) = [] ∧
  slen (recoveryJobName eventID attempt) ≤ maxRecoveryNameLen ∧
  (∀ n bdf rt attempt', eventID = generateEventID n bdf rt → attempt < 100 → attempt' < 100 →
     recoveryJobName eventID attempt = recoveryJobName eventID attempt' → attempt = attempt').
Proof.
  intros Ha. pose proof (recoveryJobName_short eventID attempt Ha) as Hshort. split_and!.
  - unfold recoveryJobName. case_match eqn:Hc.
    + by apply andb_true_iff in Hc as [_ ?%bool_decide_eq_true].
    + apply dns_subdomain. eapply jobName_subdomain; [done| |lia].
      apply Forall_inner_alnum, hashSegment_alnum.
  - unfold recoveryJobName. case_match eqn:Hc.
    + by apply andb_true_iff in Hc as [?%Nat.leb_le _].
    + unfold maxRecoveryNameLen. lia.
  - intros n bdf rt attempt' -> H1 H2. rewrite !recoveryJobName_readable by done.
    intros Heq%(f_equal s2l). rewrite !s2l_app in Heq.
    do 3 apply app_inv_head in Heq. apply s2l_inj, (inj pretty) in Heq. lia.
Qed.

(** Two GPUs get the same event ID only if they are the same device needing the same recovery,
    on nodes whose names survive sanitizing unchanged (lower-case letters, digits and inner hyphens,
    26 characters at most); PCI addresses are compared without regard to letter case, as PCI does. *)
Theorem event_id_distinct n1 n2 b1 b2 rt1 rt2 :
  nodeSegment n1 = n1 → nodeSegment n2 = n2 →
  validDeviceBDF b1 = true → validDeviceBDF b2 = true →
  rt1 ≠ RecoveryTypeUnset → rt2 ≠ RecoveryTypeUnset →
  generateEventID n1 b1 rt1 = generateEventID n2 b2 rt2 →
  n1 = n2 ∧ rt1 = rt2 ∧ lowerS b1 = lowerS b2.
Proof.
  intros P1 P2 V1 V2 T1 T2 Heq. rewrite <- P1, <- P2. by apply generateEventID_inj.
Qed.

(** The event ID does not tell apart two node names that sanitize alike: the GPUs at one PCI
    address of the nodes [gpu.1] and [gpu-1], both valid node names, share an event ID. *)
Theorem event_id_collision bdf rt :
  validDeviceBDF bdf = true →
  isDNS1123Subdomain "gpu.1" = [] ∧ isDNS1123Subdomain "gpu-1" = [] ∧
  generateEventID "gpu.1" bdf rt = generateEventID "gpu-1" bdf rt.
Proof.
  intros Hv. split_and!; [by apply dns_subdomain..|].
  by rewrite !generateEventID_bdf.
Qed.

(** For a PCI address that detection accepts, the reset command line holds no character the shell
    treats specially, and its words are exactly the intended [xpu-smi] call with the address as one
    argument. *)
Theorem reset_command_words bdf rt :
  validDeviceBDF bdf = true →
  shellWords (buildResetCommand bdf rt) = resetArgv bdf rt ∧
  Forall (λ c, shellPlain c = true) (s2l (buildResetCommand bdf rt)).
Proof.
  intros Hv. destruct (bdf_plain bdf Hv) as [Hsp Hpl]. split.
  - destruct rt; [done| | | |done]; cbn [buildResetCommand resetArgv].
    + change ("xpu-smi config -d " +:+ bdf +:+ " --reset")
        with ("xpu-smi" +:+ " " +:+ "config" +:+ " " +:+ "-d" +:+ " " +:+ bdf +:+ " " +:+ "--reset").
      by rewrite !shellWords_cons, shellWords_word by (done || by repeat constructor).
    + change ("xpu-smi config -d " +:+ bdf +:+ " --coldreset --force-reset-gpus")
        with ("xpu-smi" +:+ " " +:+ "config" +:+ " " +:+ "-d" +:+ " " +:+ bdf +:+ " " +:+ "--coldreset"
              +:+ " " +:+ "--force-reset-gpus").
      by rewrite !shellWords_cons, shellWords_word by (done || by repeat constructor).
    + change ("xpu-smi amc --gpureset -d " +:+ bdf +:+ " -y")
        with ("xpu-smi" +:+ " " +:+ "amc" +:+ " " +:+ "--gpureset" +:+ " " +:+ "-d" +:+ " " +:+ bdf
              +:+ " " +:+ "-y").
      by rewrite !shellWords_cons, shellWords_word by (done || by repeat constructor).
  - destruct rt; cbn [buildResetCommand]; [by apply Forall_nil| | | |by apply Forall_nil];
      rewrite !s2l_app, !Forall_app; split_and!; try done; by repeat constructor.
Qed.
End Claims.

Lemma event_id_valid_witness :
  slen "recovery-" + slen (@generateEventID (clusterEnv emptyCluster) "node.With_ODD" "x" RecoveryTypeSBR)
  + slen "-99" ≤ maxRecoveryNameLen.
Proof. apply (@event_id_valid (clusterEnv emptyCluster) (clusterEnv_dns _)). Defined.

Lemma job_name_valid_witness :
  slen (@recoveryJobName (clusterEnv emptyCluster) "evt-node03-sbr-0000-02-00-0" 3) ≤ maxRecoveryNameLen.
Proof.
  apply (@job_name_valid (clusterEnv emptyCluster) (clusterEnv_dns _)
           "evt-node03-sbr-0000-02-00-0" 3). vm_compute. reflexivity.
Defined.

Lemma event_id_distinct_witness :
  "node03" = "node03" ∧ RecoveryTypeSBR = RecoveryTypeSBR ∧ lowerS "0000:AB:00.0" = lowerS "0000:ab:00.0".
Proof.
  apply (@event_id_distinct (clusterEnv emptyCluster) (clusterEnv_dns _)); by vm_compute.
Defined.

Lemma event_id_collision_witness :
  @generateEventID (clusterEnv emptyCluster) "gpu.1" "0000:02:00.0" RecoveryTypeSBR
  = @generateEventID (clusterEnv emptyCluster) "gpu-1" "0000:02:00.0" RecoveryTypeSBR.
Proof.
  apply (@event_id_collision (clusterEnv emptyCluster) (clusterEnv_dns _)). vm_compute. reflexivity.
Defined.

Lemma reset_command_words_witness :
  shellWords (buildResetCommand "0000:02:00.0" RecoveryTypeAMC)
  = ["xpu-smi"; "amc"; "--gpureset"; "-d"; "0000:02:00.0"; "-y"].
Proof. apply (reset_command_words "0000:02:00.0" RecoveryTypeAMC). vm_compute. reflexivity. Defined.
