(* ===== verification/OpenShift.v ===== *)
(** * OpenShift security resources

    [internal/controller/common/openshift.go] and
    [internal/controller/gpurecoveryplan/openshift.go]: the SecurityContextConstraints, ClusterRole,
    ClusterRoleBinding and ServiceAccount under which the privileged Jobs of a custom resource
    run. *)

From S2P Require Import Prelude GoStrings KubeTypes ApiTypes Common Client Drain.

Definition SCCAPIVersion : string := "security.openshift.io/v1".
Definition SCCKind : string := "SecurityContextConstraints".

Definition BuildSCC (name : string) (spec : list (string * json)) : SCC :=
  mkSCC SCCAPIVersion SCCKind name "" spec.

Record openShiftNames := mkOpenShiftNames {
  os_sccName : string;
  os_roleName : string;
  os_bindingName : string;
  os_saName : string;
}.

Definition BuildOpenShiftNames (crName componentName : string) : openShiftNames :=
  mkOpenShiftNames
    (crName +:+ "-" +:+ componentName +:+ "-scc")
    (crName +:+ "-" +:+ componentName +:+ "-scc-role")
    (crName +:+ "-" +:+ componentName +:+ "-scc-binding")
    (crName +:+ "-" +:+ componentName +:+ "-sa").

Section OpenShift.
Context `{!Env} {St : Type}.

Definition EnsureSCC (scc : SCC) : Op St (option GoErr) :=
  r ← GetSCC (scc_name scc);
  match r with
  | Err e =>
      if isNotFound e then
        c ← CreateSCC scc;
        match c with
        | Err ce => mret (if isAlreadyExists ce then None else Some ce)
        | Ok _ => mret None
        end
      else mret (Some e)
  | Ok rv =>
      u ← UpdateSCC (set_scc_resourceVersion rv scc);
      mret match u with Err e => Some e | Ok _ => None end
  end.

Definition sccRole (roleName sccName : string) : ClusterRole :=
  mkClusterRole roleName
    [mkPolicyRule ["security.openshift.io"] ["securitycontextconstraints"] [sccName] ["use"]].

Definition CreateSCCRole (roleName sccName : string) : Op St (option GoErr) :=
  r ← CreateOrPatchRole (sccRole roleName sccName);
  mret match r with
       | Err e => Some (errorf ("failed to create or patch ClusterRole " +:+ roleName +:+ ": " +:+ etext e))
       | Ok _ => None
       end.

Definition sccRoleBinding (bindingName roleName saName namespace : string) : ClusterRoleBinding :=
  mkClusterRoleBinding bindingName "ClusterRole" roleName [("ServiceAccount", saName, namespace)].

Definition CreateSCCRoleBinding (bindingName roleName saName namespace : string) :
    Op St (option GoErr) :=
  r ← CreateOrPatchRoleBinding (sccRoleBinding bindingName roleName saName namespace);
  mret match r with
       | Err e =>
           Some (errorf ("failed to create or patch ClusterRoleBinding " +:+ bindingName +:+ ": "
                         +:+ etext e))
       | Ok _ => None
       end.

Definition CreateServiceAccount (name namespace : string) : Op St (option GoErr) :=
  r ← GetServiceAccount namespace name;
  match r with
  | Err e =>
      if isNotFound e then
        c ← CreateServiceAccountObj namespace name;
        match c with
        | Err ce => mret (if isAlreadyExists ce then None else Some ce)
        | Ok _ => mret None
        end
      else mret (Some e)
  | Ok _ => mret None
  end.

Definition DeleteOpenShiftSCCResources (sccName roleName bindingName saName namespace : string) :
    Op St unit :=
  _ ← DeleteSCC sccName;
  _ ← DeleteRole roleName;
  _ ← DeleteRoleBinding bindingName;
  if bool_decide (saName ≠ "") && bool_decide (namespace ≠ "") then
    _ ← DeleteServiceAccount namespace saName; mret tt
  else mret tt.
End OpenShift.

Definition runAsAny : json := JObj [("type", JStr "RunAsAny")].

Definition buildRecoverySCC (name : string) : SCC :=
  BuildSCC name
    [("allowPrivilegedContainer", JBool true);
     ("allowHostDirVolumePlugin", JBool true);
     ("allowHostIPC", JBool false);
     ("allowHostNetwork", JBool false);
     ("allowHostPID", JBool false);
     ("allowHostPorts", JBool false);
     ("allowPrivilegeEscalation", JBool true);
     ("allowedCapabilities", JNull);
     ("defaultAddCapabilities", JNull);
     ("fsGroup", runAsAny);
     ("readOnlyRootFilesystem", JBool false);
     ("requiredDropCapabilities", JList [JStr "ALL"]);
     ("runAsUser", runAsAny);
     ("seLinuxContext", runAsAny);
     ("seccompProfiles", JList [JStr "*"]);
     ("supplementalGroups", runAsAny);
     ("volumes", JList [JStr "hostPath"; JStr "emptyDir"]);
     ("users", JList []);
     ("groups", JList [])].

(** ** What the operations do to the world *)

(** The exchanges about OpenShift resources. *)
Definition isOpenShift (e : Ev) : Prop :=
  match e with
  | EvGetSCC _ _ | EvCreateSCC _ _ | EvUpdateSCC _ _ | EvDeleteSCC _ _ | EvCreateOrPatchRole _ _
  | EvDeleteRole _ _ | EvCreateOrPatchRoleBinding _ _ | EvDeleteRoleBinding _ _
  | EvGetServiceAccount _ _ _ | EvCreateServiceAccount _ _ _ | EvDeleteServiceAccount _ _ _ => True
  | _ => False
  end.

Section OpenShiftFacts.
Context `{!Env} {St : Type}.

Lemma EnsureSCC_sameMem scc : keeps (@sameMem _ St) (EnsureSCC scc).
Proof. unfold EnsureSCC. keeps_auto. Qed.
Lemma EnsureSCC_logged scc : keeps (@logged _ St isOpenShift) (EnsureSCC scc).
Proof. unfold EnsureSCC. keeps_auto. Qed.

Lemma CreateSCCRole_sameMem n s : keeps (@sameMem _ St) (CreateSCCRole n s).
Proof. unfold CreateSCCRole. keeps_auto. Qed.
Lemma CreateSCCRole_logged n s : keeps (@logged _ St isOpenShift) (CreateSCCRole n s).
Proof. unfold CreateSCCRole. keeps_auto. Qed.

Lemma CreateSCCRoleBinding_sameMem b r s n : keeps (@sameMem _ St) (CreateSCCRoleBinding b r s n).
Proof. unfold CreateSCCRoleBinding. keeps_auto. Qed.
Lemma CreateSCCRoleBinding_logged b r s n : keeps (@logged _ St isOpenShift) (CreateSCCRoleBinding b r s n).
Proof. unfold CreateSCCRoleBinding. keeps_auto. Qed.

Lemma CreateServiceAccount_sameMem n ns : keeps (@sameMem _ St) (CreateServiceAccount n ns).
Proof. unfold CreateServiceAccount. keeps_auto. Qed.
Lemma CreateServiceAccount_logged n ns : keeps (@logged _ St isOpenShift) (CreateServiceAccount n ns).
Proof. unfold CreateServiceAccount. keeps_auto. Qed.

Lemma DeleteOpenShiftSCCResources_sameMem a b c d e :
  keeps (@sameMem _ St) (DeleteOpenShiftSCCResources a b c d e).
Proof. unfold DeleteOpenShiftSCCResources. keeps_auto. Qed.
Lemma DeleteOpenShiftSCCResources_logged a b c d e :
  keeps (@logged _ St isOpenShift) (DeleteOpenShiftSCCResources a b c d e).
Proof. unfold DeleteOpenShiftSCCResources. keeps_auto. Qed.
End OpenShiftFacts.

#[export] Hint Resolve EnsureSCC_sameMem EnsureSCC_logged CreateSCCRole_sameMem CreateSCCRole_logged
  CreateSCCRoleBinding_sameMem CreateSCCRoleBinding_logged CreateServiceAccount_sameMem
  CreateServiceAccount_logged DeleteOpenShiftSCCResources_sameMem
  DeleteOpenShiftSCCResources_logged : keeps.
