(* ===== verification/RecoveryEvents.v ===== *)
(** * GPU recovery: events, messages and approvals

    The helpers of [internal/controller/gpurecoveryplan/gpurecoveryplan_helpers.go] that read or
    change the plan a reconcile pass holds in memory.  A pointer [evt := &plan.Status.Events[i]] is
    the index [i]. *)

From Stdlib Require Import Ascii NArith.
From S2P Require Import Prelude GoStrings KubeTypes ApiTypes Common Client Drain Cluster RecoveryNaming.

Abbreviation POp := (Op GPURecoveryPlan).

Definition getEvt (i : nat) : POp RecoveryEvent := p ← getMem; mret (plan_Events p !!! i).

Definition modEvents (f : list RecoveryEvent → list RecoveryEvent) : POp unit :=
  modMem (λ p, set_plan_Events (f (plan_Events p)) p).

Definition modEvt (i : nat) (f : RecoveryEvent → RecoveryEvent) : POp unit := modEvents (alter f i).

(** ** Bounded text *)

(** [for cut > 0 && !utf8.RuneStart(s[cut]) { cut-- }] *)
Fixpoint runeBoundary (s : list N) (cut : nat) : nat :=
  match cut with
  | 0 => 0
  | S cut' => if runeStart (s !!! cut) then cut else runeBoundary s cut'
  end.

Definition capMarker : string := "...".

Definition capString (s : string) (limit : nat) : string :=
  if (slen s <=? limit)%nat then s
  else strTake (runeBoundary (bytes s) (limit - slen capMarker)) s +:+ capMarker.

Definition capStrings (items : list string) (limit : nat) : list string :=
  if (length items <=? limit)%nat then items
  else take limit items ++ ["... and " +:+ itoa (Z.of_nat (length items - limit)) +:+ " more"].

Definition lastMessageIs (l : list string) (msg : string) : bool := bool_decide (last l = Some msg).

Definition appendMessagePlan (msg : string) (p : GPURecoveryPlan) : GPURecoveryPlan :=
  if lastMessageIs (plan_Messages p) msg then p
  else
    let l := plan_Messages p ++ [msg] in
    set_plan_Messages (drop (length l - maxStatusMessages) l) p.

Definition appendMessage (msg : string) : POp unit := modMem (appendMessagePlan msg).

(** ** Drain taint and node occupancy *)

Definition recoveryTaint (planName : string) : Taint :=
  mkTaint recoveryTaintKey planName TaintEffectNoSchedule None.

Definition needsDrain (plan : GPURecoveryPlan) (evt : RecoveryEvent) : bool :=
  if negb (Enabled (sp_Drain (plan_Spec plan))) then false
  else negb (IsReflash (evt_RecoveryType evt)).

(** The states in which a recovery owns its node. *)
Definition isActive (st : RecoveryEventState) : bool :=
  match st with
  | RecoveryEventStateDraining | RecoveryEventStateInProgress => true
  | _ => false
  end.

Fixpoint firstBusy (events : list RecoveryEvent) (evt : RecoveryEvent) : option string :=
  match events with
  | [] => None
  | other :: l =>
      if bool_decide (evt_ID other = evt_ID evt) || bool_decide (evt_NodeName other ≠ evt_NodeName evt)
      then firstBusy l evt
      else if isActive (evt_State other) then Some (evt_ID other)
      else firstBusy l evt
  end.

Definition nodeBusyWith (plan : GPURecoveryPlan) (evt : RecoveryEvent) : option string :=
  firstBusy (plan_Events plan) evt.

Record poolDevice := mkPoolDevice { pd_pool : string; pd_device : string }.

#[global] Instance poolDevice_eq_dec : EqDecision poolDevice.
Proof. solve_decision. Defined.

#[global] Instance poolDevice_countable : Countable poolDevice.
Proof.
  apply (inj_countable' (λ k, (pd_pool k, pd_device k)) (λ p, mkPoolDevice p.1 p.2)). by intros [].
Defined.

(** The claim has an allocation: the caller has checked it. *)
Definition claimHoldsDevice (claim : ResourceClaim) (devices : gset poolDevice) : bool :=
  existsb (λ res,
    bool_decide (ar_driver res = GPUDeviceClass)
    && bool_decide (mkPoolDevice (ar_pool res) (ar_device res) ∈ devices)
    && negb (bool_decide (ar_adminAccess res = Some true))) (default [] (rc_allocation claim)).

Fixpoint findEventFrom (i : nat) (events : list RecoveryEvent) (nodeName bdf : string) : option nat :=
  match events with
  | [] => None
  | e :: l =>
      if bool_decide (evt_NodeName e = nodeName) && bool_decide (evt_GPUBDF e = bdf) then Some i
      else findEventFrom (S i) l nodeName bdf
  end.

Definition findEventForDevice (plan : GPURecoveryPlan) (nodeName bdf : string) : option nat :=
  findEventFrom 0 (plan_Events plan) nodeName bdf.

(** ** Plan-wide summaries *)

Definition hasActiveJobs (plan : GPURecoveryPlan) : bool :=
  existsb (λ evt, bool_decide (evt_State evt = RecoveryEventStateInProgress)
                  || bool_decide (evt_State evt = RecoveryEventStateDraining)
                  || bool_decide (evt_State evt = RecoveryEventStateBlocked)) (plan_Events plan).

(** The image check of this event failed against the present spec. *)
Definition imageHeld (plan : GPURecoveryPlan) (evt : RecoveryEvent) : bool :=
  negb (evt_ImageVerifyGeneration evt =? 0)%Z
  && (evt_ImageVerifyGeneration evt =? plan_Generation plan)%Z.

(** What one event contributes: (anyActive, anyStuck). *)
Definition eventSummary (plan : GPURecoveryPlan) (evt : RecoveryEvent) : bool * bool :=
  match evt_State evt with
  | RecoveryEventStateWaitingApproval => if imageHeld plan evt then (false, true) else (true, false)
  | RecoveryEventStateBlocked | RecoveryEventStateDraining | RecoveryEventStateInProgress =>
      (true, false)
  | RecoveryEventStateMissingFirmware | RecoveryEventStateFailed => (false, true)
  | RecoveryEventStateSucceeded | RecoveryEventStateUnset => (false, false)
  end.

Definition planState (plan : GPURecoveryPlan) : PlanState :=
  let anyActive := existsb (λ evt, (eventSummary plan evt).1) (plan_Events plan) in
  let anyStuck := existsb (λ evt, (eventSummary plan evt).2) (plan_Events plan) in
  if anyStuck then PlanStateError else if anyActive then PlanStateActive else PlanStateIdle.

Definition updatePlanState : POp unit := modMem (λ p, set_plan_State (planState p) p).

(** ** Approvals *)

Definition referencedApprovals (plan : GPURecoveryPlan) : gset string :=
  list_to_set (filter (λ id, id ≠ "") (evt_ApprovalID <$> plan_Events plan)).

Definition prunable (plan : GPURecoveryPlan) (a : RecoveryApproval) : bool :=
  ap_Consumed a && negb (ap_Persistent a) && negb (bool_decide (ap_ID a ∈ referencedApprovals plan)).

Definition pruneConsumedApprovals (plan : GPURecoveryPlan) : GPURecoveryPlan :=
  set_plan_Approvals (filter (λ a, prunable plan a = false) (plan_Approvals plan)) plan.

Fixpoint consumeFirst (id : string) (l : list RecoveryApproval) : list RecoveryApproval :=
  match l with
  | [] => []
  | a :: l' => if bool_decide (ap_ID a = id) then set_ap_Consumed true a :: l' else a :: consumeFirst id l'
  end.

Definition setApprovalConsumed (id : string) (plan : GPURecoveryPlan) : GPURecoveryPlan :=
  set_plan_Approvals (consumeFirst id (plan_Approvals plan)) plan.

Record approvalChanges := mkApprovalChanges { ch_consumed : gset string; ch_removed : gset string }.

(** [was[a.ID] = a.Consumed], the last entry with an ID winning; a missing key reads false. *)
Definition wasConsumed (orig : list RecoveryApproval) (id : string) : bool :=
  default false (foldl (λ m a, <[ap_ID a := ap_Consumed a]> m) (∅ : gmap string bool) orig !! id).

Definition diffApprovals (orig plan : GPURecoveryPlan) : approvalChanges :=
  mkApprovalChanges
    (list_to_set (ap_ID <$> filter (λ a, ap_Consumed a = true ∧
                                         wasConsumed (plan_Approvals orig) (ap_ID a) = false)
                              (plan_Approvals plan)))
    (list_to_set (ap_ID <$> filter (λ a, ap_ID a ∉ ap_ID <$> plan_Approvals plan)
                              (plan_Approvals orig))).

Definition changesEmpty (ch : approvalChanges) : bool :=
  bool_decide (ch_consumed ch = ∅) && bool_decide (ch_removed ch = ∅).

Definition applyOne (ch : approvalChanges) (a : RecoveryApproval) : RecoveryApproval :=
  if bool_decide (ap_ID a ∈ ch_consumed ch) && negb (ap_Consumed a) then set_ap_Consumed true a else a.

Definition applyApprovals (ch : approvalChanges) (l : list RecoveryApproval) : list RecoveryApproval :=
  applyOne ch <$> filter (λ a, ap_ID a ∉ ch_removed ch) l.

(** [ch.apply(plan)]: the plan it leaves, and whether anything changed. *)
Definition applyChanges (ch : approvalChanges) (plan : GPURecoveryPlan) : GPURecoveryPlan * bool :=
  (set_plan_Approvals (applyApprovals ch (plan_Approvals plan)) plan,
   existsb (λ a, bool_decide (ap_ID a ∈ ch_removed ch)
                 || bool_decide (ap_ID a ∈ ch_consumed ch) && negb (ap_Consumed a))
     (plan_Approvals plan)).

(** ** State changes *)

Definition PullNever : string := "Never".

Section Events.
Context `{!Env}.

(** [setEventState(evt, state, format, args...)] with the formatted text; an empty format is the
    empty text.  Returns the time stamped on the event. *)
Definition setEventState (i : nat) (state : RecoveryEventState) (text : string) : POp Z :=
  evt ← getEvt i;
  let msg := capString text maxStateMessageLen in
  let stamp :=
    now ← Now;
    _ ← modEvt i (set_evt_state state msg now);
    mret now in
  if bool_decide (evt_State evt = state) && bool_decide (evt_StateMessage evt = msg) then
    match evt_LastUpdated evt with
    | Some t => mret t
    | None => stamp
    end
  else stamp.

Definition clearImageVerifyHold (i : nat) : POp unit :=
  modEvt i (λ e, set_evt_StateMessage "" (set_evt_ImageVerifyGeneration 0 e)).

Definition blockEvent (i : nat) (blockerID : string) : POp unit :=
  evt ← getEvt i;
  if bool_decide (evt_State evt = RecoveryEventStateBlocked) then mret tt
  else
    _ ← setEventState i RecoveryEventStateBlocked
          ("recovery " +:+ blockerID +:+ " is already running on node " +:+ evt_NodeName evt
           +:+ "; approval retained");
    appendMessage ("Event " +:+ evt_ID evt +:+ ": held back — recovery " +:+ blockerID
                   +:+ " is already running on node " +:+ evt_NodeName evt +:+ "; approval retained").

Definition beginDrain (i : nat) : POp unit :=
  now ← setEventState i RecoveryEventStateDraining "";
  _ ← modEvt i (set_evt_DrainStartedAt (Some now));
  evt ← getEvt i;
  appendMessage ("Event " +:+ evt_ID evt +:+ ": draining node " +:+ evt_NodeName evt +:+ " before "
                 +:+ RecoveryType_string (rt_Type (evt_RecoveryType evt)) +:+ " reset").

Definition drainTimeout (plan : GPURecoveryPlan) : Z :=
  let timeout := seconds (dr_TimeoutSeconds (sp_Drain (plan_Spec plan))) in
  if (timeout <=? 0)%Z then defaultDrainTimeout else timeout.

Definition drainDeadlineExceeded (i : nat) : POp bool :=
  evt ← getEvt i;
  match evt_DrainStartedAt evt with
  | None =>
      now ← Now;
      _ ← modEvt i (set_evt_DrainStartedAt (Some now));
      mret false
  | Some t =>
      plan ← getMem;
      now ← Now;
      mret (drainTimeout plan <? timeSince now t)%Z
  end.

Definition drainBlockerDetail (blocking claims : list string) : string :=
  itoa (Z.of_nat (length blocking)) +:+ " pod(s) still present"
  +:+ (if (0 <? length claims)%nat
       then ", " +:+ itoa (Z.of_nat (length claims)) +:+ " ResourceClaim(s) still reserving the GPU"
       else "").

Definition failDrain (i : nat) (cause : string) : POp unit :=
  _ ← modEvt i (set_evt_DrainStartedAt None);
  plan ← getMem;
  evt ← getEvt i;
  _ ← setEventState i RecoveryEventStateFailed
        ("drain of node " +:+ evt_NodeName evt +:+ " timed out after "
         +:+ itoa (dr_TimeoutSeconds (sp_Drain (plan_Spec plan))) +:+ "s (" +:+ cause
         +:+ "); reset not attempted");
  evt ← getEvt i;
  appendMessage ("Event " +:+ evt_ID evt +:+ ": " +:+ evt_StateMessage evt).

(** ** Detection *)

Definition newEvent (nodeName bdf : string) (need : deviceNeed) : RecoveryEvent :=
  mkRecoveryEvent (generateEventID nodeName bdf (need_rt need)) "" None nodeName bdf
    (need_reason need) (mkRecoveryTypeSpec (need_rt need) RecoveryTypeUnset)
    RecoveryEventStateUnset "" 0 None [] [] "" [] None.

(** The state of the fresh event is set before it is appended; it is not in the list yet. *)
Definition addRecoveryEvent (nodeName bdf : string) (need : deviceNeed) : POp string :=
  let evt := newEvent nodeName bdf need in
  now ← Now;
  _ ← modEvents (λ l, l ++ [set_evt_state RecoveryEventStateWaitingApproval "" now evt]);
  mret (evt_ID evt).

Definition escalateEvent (i : nat) (need : deviceNeed) : POp unit :=
  evt ← getEvt i;
  if (recoveryTypePriority (need_rt need) <=? recoveryTypePriority (rt_Type (evt_RecoveryType evt)))%nat
  then mret tt
  else if bool_decide (evt_State evt = RecoveryEventStateInProgress) then mret tt
  else
    let oldID := evt_ID evt in
    let oldType := rt_Type (evt_RecoveryType evt) in
    let newID := generateEventID (evt_NodeName evt) (evt_GPUBDF evt) (need_rt need) in
    _ ← modEvt i (λ e, set_evt_approval "" None
                         (set_evt_need newID (mkRecoveryTypeSpec (need_rt need) RecoveryTypeUnset)
                            (need_reason need) e));
    _ ← clearImageVerifyHold i;
    _ ← setEventState i RecoveryEventStateWaitingApproval
          ("escalated from " +:+ RecoveryType_string oldType +:+ " to "
           +:+ RecoveryType_string (need_rt need) +:+ " (" +:+ need_reason need
           +:+ "); the approval for the previous type no longer applies");
    appendMessage ("Event " +:+ oldID +:+ " escalated to " +:+ newID +:+ " on " +:+ evt_NodeName evt
                   +:+ "/" +:+ evt_GPUBDF evt +:+ " (was " +:+ RecoveryType_string oldType +:+ ", now "
                   +:+ RecoveryType_string (need_rt need)
                   +:+ "); previous approval no longer applies").

Definition addNewEvents (active : gmap deviceKey deviceNeed) : POp unit :=
  entries ← rangeMap (map_to_list active);
  skipped ← foldEach (λ skipped '(dk, need),
      plan ← getMem;
      match findEventForDevice plan (dk_node dk) (dk_bdf dk) with
      | Some i => _ ← escalateEvent i need; mret skipped
      | None =>
          if (maxStatusEvents <=? length (plan_Events plan))%nat then mret (S skipped)
          else _ ← addRecoveryEvent (dk_node dk) (dk_bdf dk) need; mret skipped
      end) 0%nat entries;
  if (0 <? skipped)%nat then
    appendMessage ("status.events is at its " +:+ itoa (Z.of_nat maxStatusEvents) +:+ "-entry limit: "
                   +:+ itoa (Z.of_nat skipped) +:+ " newly detected device(s) not recorded")
  else mret tt.

(** ** Jobs *)

Definition isTerminalCond (c : JobCondition) : bool :=
  bool_decide (jc_status c = ConditionTrue)
  && (bool_decide (jc_type c = JobComplete) || bool_decide (jc_type c = JobFailed)).

Definition jobTerminalCondition (job : Job) : option JobCondition :=
  head (filter (λ c, isTerminalCond c = true) (job_conditions job)).

Definition jobIsTerminal (job : Job) : bool :=
  match jobTerminalCondition job with Some _ => true | None => false end.

Definition jobStartedAt (job : Job) : option Z :=
  match job_startTime job with
  | Some t => Some t
  | None => job_creationTimestamp job
  end.

Definition jobDeadlineSeconds (plan : GPURecoveryPlan) (evt : RecoveryEvent) (job : Job) : Z :=
  match job_activeDeadlineSeconds job with
  | Some d => if (0 <? d)%Z then d else recoveryJobTimeout plan evt
  | None => recoveryJobTimeout plan evt
  end.

Definition verdictDeadline (deadlineSeconds : Z) : Z :=
  wrap64 (seconds deadlineSeconds + recoveryJobVerdictGrace).

Definition jobVerdictOverdue (deadlineSeconds : Z) (since : option Z) : POp bool :=
  match since with
  | None => mret false
  | Some t =>
      now ← Now;
      mret (verdictDeadline deadlineSeconds <? timeSince now t)%Z
  end.

Definition jobFailureDetail (cond : JobCondition) : string :=
  if bool_decide (jc_reason cond ≠ "") && bool_decide (jc_message cond ≠ "")
  then jc_reason cond +:+ " (" +:+ jc_message cond +:+ ")"
  else if bool_decide (jc_reason cond ≠ "") then jc_reason cond
  else if bool_decide (jc_message cond ≠ "") then jc_message cond
  else "no reason reported by the Job controller".

Definition failEventJob (i : nat) (detail : string) : POp unit :=
  evt ← getEvt i;
  let past := evt_PastJobs evt ++ [evt_JobName evt] in
  let attempt := itoa (Z.of_nat (length past)) in
  _ ← modEvt i (set_evt_jobs "" past);
  _ ← setEventState i RecoveryEventStateFailed ("attempt " +:+ attempt +:+ " failed: " +:+ detail);
  appendMessage ("Event " +:+ evt_ID evt +:+ ": attempt " +:+ attempt +:+ " failed: " +:+ detail
                 +:+ " — pods retained until taint clears").

Definition runningRecoveryJobs (ns : string) (planName : string) : POp (res (list string)) :=
  r ← ListJobs ns recoveryJobLabelPlan planName;
  mret match r with
       | Err e => Err e
       | Ok jobs =>
           Ok (job_name <$> filter (λ j, job_deletionTimestamp j = None ∧ jobIsTerminal j = false) jobs)
       end.

(** ** Node labels *)

Record nodeLabelCache := mkNodeLabelCache {
  nlc_labels : gmap string labels;
  nlc_failed : gset string;
}.

Definition newNodeLabelCache : nodeLabelCache := mkNodeLabelCache ∅ ∅.

Definition nodeLabelCacheGet (c : nodeLabelCache) (nodeName : string) :
    POp (option labels * nodeLabelCache) :=
  match nlc_labels c !! nodeName with
  | Some l => mret (Some l, c)
  | None =>
      if bool_decide (nodeName ∈ nlc_failed c) then mret (None, c)
      else
        r ← GetNode nodeName;
        match r with
        | Err _ => mret (None, mkNodeLabelCache (nlc_labels c) ({[nodeName]} ∪ nlc_failed c))
        | Ok node =>
            mret (Some (node_labels node),
                  mkNodeLabelCache (<[nodeName := node_labels node]> (nlc_labels c)) (nlc_failed c))
        end
  end.

Definition nodeSelectorMatches (sel : labels) (nodeName : string) (c : nodeLabelCache) :
    POp (bool * nodeLabelCache) :=
  if bool_decide (sel = ∅) then mret (true, c)
  else
    r ← nodeLabelCacheGet c nodeName;
    mret match r with
         | (Some l, c') => (bool_decide (sel ⊆ l), c')
         | (None, c') => (false, c')
         end.

(** ** Image verification

    [gpurecoveryplan_imageverific.go] *)

Record recoveryImage := mkRecoveryImage {
  ri_image : string;
  ri_field : string;
  ri_insecureSkipTLSVerify : bool;
  ri_files : list ImageFile;
}.

Definition recoveryImagesForEvent (plan : GPURecoveryPlan) (evt : RecoveryEvent) : list recoveryImage :=
  let x := sp_XpuSmi (plan_Spec plan) in
  (if bool_decide (xs_PullPolicy x ≠ PullNever) && bool_decide (xs_Image x ≠ "")
   then [mkRecoveryImage (xs_Image x) "spec.xpuSmi.image" (xs_InsecureSkipTLSVerify x) []]
   else [])
  ++ (if IsReflash (evt_RecoveryType evt) then
        match sp_Firmware (plan_Spec plan) with
        | Some fw =>
            match fs_ContainerSource (fw_Source fw) with
            | Some src =>
                if bool_decide (fw_File fw ≠ "") && bool_decide (cfs_Name src ≠ "")
                then [mkRecoveryImage (cfs_Name src) "spec.firmware.source.containerSource.name"
                        (cfs_InsecureSkipTLSVerify src)
                        [mkImageFile (firmwareImagePath (fw_File fw)) ""]]
                else []
            | None => []
            end
        | None => []
        end
      else []).

Definition holdForImageFix (i : nat) (img : recoveryImage) (verifyErr : GoErr) : POp unit :=
  plan ← getMem;
  _ ← modEvt i (set_evt_ImageVerifyGeneration (plan_Generation plan));
  _ ← setEventState i RecoveryEventStateWaitingApproval
        (ri_field img +:+ " (" +:+ ri_image img +:+ ") cannot be pulled: " +:+ etext verifyErr
         +:+ "; correct the plan to retry (approval retained)");
  evt ← getEvt i;
  appendMessage ("Event " +:+ evt_ID evt +:+ ": recovery held back — " +:+ evt_StateMessage evt).

Definition imageRequest (secretName : string) (img : recoveryImage) : ImageVerifyRequest :=
  mkImageVerifyRequest (ri_image img) secretName (ri_insecureSkipTLSVerify img) (ri_files img).

Definition ensureImagesUsable (secretName : string) (i : nat) : POp bool :=
  plan ← getMem;
  evt ← getEvt i;
  if sp_SkipImageVerification (plan_Spec plan) then mret true
  else if imageHeld plan evt then mret false
  else
    o ← foldUntil (λ (_ : unit) img,
          r ← VerifyImage (imageRequest secretName img);
          match r with
          | Err e => _ ← holdForImageFix i img e; mret (inr tt)
          | Ok _ => mret (inl tt)
          end) tt (recoveryImagesForEvent plan evt);
    match o with
    | inr _ => mret false
    | inl _ =>
        _ ← (if negb (evt_ImageVerifyGeneration evt =? 0)%Z
             then appendMessage ("Event " +:+ evt_ID evt
                                 +:+ ": images verified after an earlier failure; resuming recovery")
             else mret tt);
        _ ← clearImageVerifyHold i;
        mret true
    end.
End Events.
