(* ===== verification/RecoveryController.v ===== *)
(** * GPU recovery: the reconciler

    [internal/controller/gpurecoveryplan/gpurecoveryplan_controller.go].  One definition per method
    of [GPURecoveryPlanReconciler]; the plan the pass holds is the memory of the computation. *)

From S2P Require Import Prelude GoStrings KubeTypes ApiTypes Common Client Drain Cluster OpenShift.
From S2P Require Import RecoveryNaming RecoveryEvents.

(** [APIReader] tells whether a direct reader is wired; the client and the image verifier are the
    environment. *)
Record GPURecoveryPlanReconciler := mkGPURecoveryPlanReconciler {
  Opts : ControllerOpts;
  APIReader : bool;
}.

Definition containsFinalizer (p : GPURecoveryPlan) (f : string) : bool :=
  bool_decide (f ∈ plan_Finalizers p).

(** [controllerutil.AddFinalizer] and [RemoveFinalizer] *)
Definition addFinalizer (p : GPURecoveryPlan) (f : string) : GPURecoveryPlan :=
  if containsFinalizer p f then p else set_plan_Finalizers (plan_Finalizers p ++ [f]) p.
Definition removeFinalizer (p : GPURecoveryPlan) (f : string) : GPURecoveryPlan :=
  set_plan_Finalizers (filter (λ x, x ≠ f) (plan_Finalizers p)) p.

(** The recovery every tainted device of the plan's model calls for, as
    [syncRecoveryEventsFromSlices] collects it. *)
Definition scanTaint (spec : GPURecoveryPlanSpec) (key : deviceKey)
    (active : gmap deviceKey deviceNeed) (taintKey : string) : gmap deviceKey deviceNeed :=
  match taintToDeviceNeed taintKey (sp_DefaultResetType spec) with
  | None => active
  | Some need => <[key := higherPriorityNeed (default noNeed (active !! key)) need]> active
  end.

Definition scanDevice (spec : GPURecoveryPlanSpec) (nodeName : string)
    (active : gmap deviceKey deviceNeed) (dev : Device) : gmap deviceKey deviceNeed :=
  let devID := deviceAttributeString (dev_attributes dev) DeviceAttrDeviceID in
  let bdf := deviceAttributeString (dev_attributes dev) DeviceAttrBDF in
  if bool_decide (devID ≠ sp_DeviceID spec) then active
  else if bool_decide (bdf = "") then active
  else if negb (validDeviceBDF bdf) then active
  else foldl (scanTaint spec (mkDeviceKey nodeName bdf)) active (dev_taints dev).

Definition scanSlice (spec : GPURecoveryPlanSpec) (active : gmap deviceKey deviceNeed)
    (slice : ResourceSlice) : gmap deviceKey deviceNeed :=
  if bool_decide (rs_driver slice ≠ GPUDeviceClass) then active
  else
    match rs_nodeName slice with
    | None => active
    | Some nodeName => foldl (scanDevice spec nodeName) active (rs_devices slice)
    end.

Definition activeKeys (spec : GPURecoveryPlanSpec) (slices : list ResourceSlice) :
    gmap deviceKey deviceNeed := foldl (scanSlice spec) ∅ slices.

(** The DRA identities a node's slices publish for a PCI address. *)
Definition poolDevicesForBDF (slices : list ResourceSlice) (nodeName bdf : string) : gset poolDevice :=
  list_to_set (slices ≫= λ slice,
    if bool_decide (rs_nodeName slice = Some nodeName) then
      (λ dev, mkPoolDevice (rs_pool slice) (dev_name dev))
        <$> filter (λ dev, deviceAttributeString (dev_attributes dev) DeviceAttrBDF = bdf)
              (rs_devices slice)
    else []).

Section Reconciler.
Context `{!Env} (r : GPURecoveryPlanReconciler).

Definition getPlan (name : string) : POp (res GPURecoveryPlan) := GetPlan (APIReader r) name.

(** ** Jobs of an event *)

Definition deleteJobByName (jobName : string) : POp unit :=
  g ← GetJob (Namespace (Opts r)) jobName;
  match g with
  | Err _ => mret tt
  | Ok job => _ ← DeleteJob (job_namespace job) (job_name job); mret tt
  end.

Definition deleteEventJobs (evt : RecoveryEvent) : POp unit :=
  _ ← (if bool_decide (evt_JobName evt ≠ "") then deleteJobByName (evt_JobName evt) else mret tt);
  forEach deleteJobByName (evt_PastJobs evt).

Definition deleteAllJobs : POp unit :=
  plan ← getMem;
  l ← ListJobs (Namespace (Opts r)) recoveryJobLabelPlan (plan_Name plan);
  _ ← forEach (λ job, deleteJobByName (job_name job)) match l with Ok jobs => jobs | Err _ => [] end;
  forEach deleteEventJobs (plan_Events plan).

Definition prepareRecoveryJob (job : Job) (i : nat) : POp Job :=
  plan ← getMem;
  evt ← getEvt i;
  let jobName := recoveryJobName (evt_ID evt) (length (evt_PastJobs evt)) in
  let lbls := <[recoveryJobLabelEvent := evt_ID evt]>
                (<[recoveryJobLabelPlan := plan_Name plan]> (job_labels job)) in
  let named := mkJob (Namespace (Opts r)) jobName lbls (job_owner job) (job_creationTimestamp job)
                 (job_deletionTimestamp job) (job_activeDeadlineSeconds job) (job_backoffLimit job)
                 (job_completions job) (job_template job) (job_conditions job) (job_startTime job)
                 (job_succeeded job) (job_failed job) in
  s ← SetControllerReference (plan_Name plan) named;
  owner ← match s with
          | Ok _ => mret (Some (plan_Name plan))
          | Err e =>
              _ ← appendMessage ("Event " +:+ evt_ID evt +:+ ": failed to set controller reference on Job "
                                 +:+ jobName +:+ ": " +:+ etext e);
              mret (job_owner job)
          end;
  let t := job_template job in
  let secret := SecretName (Opts r) in
  mret (mkJob (Namespace (Opts r)) jobName lbls owner (job_creationTimestamp job)
          (job_deletionTimestamp job) (Some (recoveryJobTimeout plan evt)) (Some 0%Z)
          (job_completions job)
          (mkPodSpec (evt_NodeName evt) (ps_nodeSelector t)
             (mkToleration "" TolerationOpExists "" "" :: sp_Tolerations (plan_Spec plan))
             (if bool_decide (secret ≠ "") then [secret] else ps_imagePullSecrets t)
             (if OpenShift (Opts r)
              then os_saName (BuildOpenShiftNames (plan_Name plan) recoveryResourcePart)
              else ps_serviceAccountName t)
             (ps_initContainers t) (ps_containers t))
          (job_conditions job) (job_startTime job) (job_succeeded job) (job_failed job)).

Definition mapJobContainers (fi fc : list Container → list Container) (job : Job) : Job :=
  let t := job_template job in
  mkJob (job_namespace job) (job_name job) (job_labels job) (job_owner job)
    (job_creationTimestamp job) (job_deletionTimestamp job) (job_activeDeadlineSeconds job)
    (job_backoffLimit job) (job_completions job)
    (mkPodSpec (ps_nodeName t) (ps_nodeSelector t) (ps_tolerations t) (ps_imagePullSecrets t)
       (ps_serviceAccountName t) (fi (ps_initContainers t)) (fc (ps_containers t)))
    (job_conditions job) (job_startTime job) (job_succeeded job) (job_failed job).

(** [r.Create(ctx, job)], adopting a Job that is already there. *)
Definition createOrAdopt (job : Job) : POp (option GoErr) :=
  c ← CreateJob job;
  mret match c with
       | Ok _ => None
       | Err e => if isAlreadyExists e then None else Some e
       end.

Definition createResetJob (i : nat) : POp (option GoErr) :=
  plan ← getMem;
  evt ← getEvt i;
  let rt := rt_Type (evt_RecoveryType evt) in
  let cmd := buildResetCommand (evt_GPUBDF evt) rt in
  if bool_decide (cmd = "") then mret None
  else
    prepared ← prepareRecoveryJob XpuManagerResetJob i;
    let job := mapJobContainers id
                 (updateContainer resetJobContainer (λ c, set_c_args [cmd] (applyXpuSmiImage plan c)))
                 prepared in
    c ← createOrAdopt job;
    match c with
    | Some e => mret (Some (wrapErr ("creating recovery Job " +:+ job_name job +:+ ": ") e))
    | None =>
        _ ← modEvt i (λ e, set_evt_jobs (job_name job) (evt_PastJobs e) e);
        _ ← setEventState i RecoveryEventStateInProgress "";
        _ ← appendMessage ("Event " +:+ evt_ID evt +:+ ": recovery Job " +:+ job_name job
                           +:+ " created (type: " +:+ RecoveryType_string rt +:+ ", node: "
                           +:+ evt_NodeName evt +:+ ", bdf: " +:+ evt_GPUBDF evt +:+ ")");
        mret None
    end.

Definition parkForFirmware (i : nat) (stateMsg planMsg : string) : POp unit :=
  _ ← setEventState i RecoveryEventStateMissingFirmware stateMsg;
  evt ← getEvt i;
  appendMessage ("Event " +:+ evt_ID evt +:+ ": firmware reflash pending — " +:+ planMsg).

Definition createReflashJob (i : nat) : POp (option GoErr) :=
  plan ← getMem;
  evt ← getEvt i;
  match sp_Firmware (plan_Spec plan) with
  | None =>
      _ ← parkForFirmware i "spec.firmware is not configured, so a reflash cannot be attempted"
            "spec.firmware not configured";
      mret None
  | Some fw =>
      if bool_decide (fw_File fw = "") then
        _ ← parkForFirmware i "spec.firmware is not configured, so a reflash cannot be attempted"
              "spec.firmware not configured";
        mret None
      else
        match fs_ContainerSource (fw_Source fw) with
        | None =>
            _ ← parkForFirmware i
                  ("spec.firmware.source.containerSource is not set; a reflash copies the firmware from a "
                   +:+ "container image, and volumeSource is not supported yet")
                  "spec.firmware.source.containerSource not configured";
            mret None
        | Some src =>
            prepared ← prepareRecoveryJob XpuManagerFWUpdateJob i;
            let job := mapJobContainers
                         (updateContainer reflashCopyContainer (set_c_image (cfs_Name src)))
                         (updateContainer reflashJobContainer
                            (λ c, set_c_args [buildFDOFlashCommand (evt_GPUBDF evt) (fw_File fw)]
                                    (applyXpuSmiImage plan c)))
                         prepared in
            c ← createOrAdopt job;
            match c with
            | Some e => mret (Some (wrapErr ("creating reflash Job " +:+ job_name job +:+ ": ") e))
            | None =>
                _ ← modEvt i (λ e, set_evt_jobs (job_name job) (evt_PastJobs e) e);
                _ ← setEventState i RecoveryEventStateInProgress "";
                _ ← appendMessage ("Event " +:+ evt_ID evt +:+ ": FDO reflash Job " +:+ job_name job
                                   +:+ " created (node: " +:+ evt_NodeName evt +:+ ", bdf: "
                                   +:+ evt_GPUBDF evt +:+ ", file: " +:+ fw_File fw +:+ ")");
                mret None
            end
        end
  end.

Definition createRecoveryJob (i : nat) : POp (option GoErr) :=
  evt ← getEvt i;
  if IsReflash (evt_RecoveryType evt) then createReflashJob i else createResetJob i.

(** ** Detection *)

Definition removeResolvedEvents (active : gmap deviceKey deviceNeed) : POp unit :=
  plan ← getMem;
  kept ← foldEach (λ kept evt,
      if bool_decide (is_Some (active !! mkDeviceKey (evt_NodeName evt) (evt_GPUBDF evt)))
      then mret (kept ++ [evt])
      else if bool_decide (evt_State evt = RecoveryEventStateInProgress) then mret (kept ++ [evt])
      else
        _ ← appendMessage ("Event " +:+ evt_ID evt +:+ " cleared: taint resolved on "
                           +:+ evt_NodeName evt +:+ "/" +:+ evt_GPUBDF evt);
        _ ← deleteEventJobs evt;
        mret kept) [] (plan_Events plan);
  modEvents (λ _, kept).

Definition syncRecoveryEventsFromSlices : POp (option GoErr) :=
  l ← ListSlices;
  match l with
  | Err e => mret (Some (wrapErr "listing ResourceSlices: " e))
  | Ok slices =>
      plan ← getMem;
      let active := activeKeys (plan_Spec plan) slices in
      _ ← removeResolvedEvents active;
      _ ← addNewEvents active;
      mret None
  end.

(** ** Approvals *)

Definition findMatchingApproval (i : nat) : POp (option RecoveryApproval) :=
  plan ← getMem;
  evt ← getEvt i;
  let evtType := rt_Type (evt_RecoveryType evt) in
  if bool_decide (evtType = RecoveryTypeUnset) then mret None
  else
    o ← foldUntil (λ cache a,
          if ap_Consumed a then mret (inl cache)
          else if bool_decide (ap_EventID a = evt_ID evt) then mret (inr a)
          else
            match ap_Selector a with
            | None => mret (inl cache)
            | Some sel =>
                if bool_decide (sel_RecoveryType sel ≠ RecoveryTypeUnset)
                   && bool_decide (sel_RecoveryType sel ≠ evtType) then mret (inl cache)
                else if bool_decide (sel_NodeName sel ≠ "")
                        && bool_decide (sel_NodeName sel ≠ evt_NodeName evt) then mret (inl cache)
                else
                  m ← nodeSelectorMatches (sel_NodeSelector sel) (evt_NodeName evt) cache;
                  mret (if (m.1 : bool) then inr a else inl m.2)
            end) newNodeLabelCache (plan_Approvals plan);
    mret match o with
         | inr a => Some a
         | inl _ => None
         end.

Definition findExplicitApprovalForEvent (plan : GPURecoveryPlan) (evt : RecoveryEvent) :
    option RecoveryApproval :=
  head (filter (λ a, ap_EventID a = evt_ID evt ∧ ap_Consumed a = false) (plan_Approvals plan)).

Definition applyOverride (i : nat) (approval : RecoveryApproval) : POp unit :=
  match ap_Override approval with
  | None => mret tt
  | Some ov =>
      evt ← getEvt i;
      let rt := evt_RecoveryType evt in
      let newType := ov_RecoveryType ov in
      if IsReflash rt then mret tt
      else if bool_decide (newType = RecoveryTypeReflash) then mret tt
      else if bool_decide (rt_Type rt = newType) then mret tt
      else
        let suggested := if bool_decide (rt_SuggestedType rt = RecoveryTypeUnset) then rt_Type rt
                         else rt_SuggestedType rt in
        _ ← appendMessage ("Event " +:+ evt_ID evt +:+ ": reset type overridden from "
                           +:+ RecoveryType_string suggested +:+ " to " +:+ RecoveryType_string newType
                           +:+ " via approval " +:+ ap_ID approval);
        modEvt i (set_evt_RecoveryType (mkRecoveryTypeSpec newType suggested))
  end.

(** The re-approval of a failed event.  [false] is the loop's [continue]. *)
Definition reapproveFailed (i : nat) : POp bool :=
  plan ← getMem;
  evt ← getEvt i;
  if bool_decide (evt_State evt = RecoveryEventStateFailed) then
    match findExplicitApprovalForEvent plan evt with
    | None => mret false
    | Some approval =>
        now ← setEventState i RecoveryEventStateWaitingApproval
                ("manually re-approved via approval " +:+ ap_ID approval +:+ " after "
                 +:+ itoa (Z.of_nat (length (evt_PastJobs evt))) +:+ " failed attempt(s)");
        _ ← modEvt i (set_evt_approval (ap_ID approval) (Some now));
        _ ← appendMessage ("Event " +:+ evt_ID evt +:+ " manually re-approved via approval "
                           +:+ ap_ID approval);
        mret true
    end
  else mret true.

(** The states from which an approval starts a recovery. *)
Definition approvable (st : RecoveryEventState) : bool :=
  match st with
  | RecoveryEventStateWaitingApproval | RecoveryEventStateBlocked
  | RecoveryEventStateMissingFirmware => true
  | _ => false
  end.

Definition recordApproval (i : nat) (approval : RecoveryApproval) : POp unit :=
  evt ← getEvt i;
  if bool_decide (evt_ApprovalID evt ≠ ap_ID approval) then
    now ← Now;
    _ ← modEvt i (λ e, set_evt_LastUpdated (Some now) (set_evt_approval (ap_ID approval) (Some now) e));
    appendMessage ("Event " +:+ evt_ID evt +:+ " matched approval " +:+ ap_ID approval)
  else mret tt.

(** [consumedIDs] and [blockedIDs] *)
Definition idSets : Type := gset string * gset string.

(** The tail of the loop body, from the image check on. *)
Definition startRecovery (i : nat) (approval : RecoveryApproval) (ids : idSets) : POp idSets :=
  usable ← ensureImagesUsable (SecretName (Opts r)) i;
  if negb usable then mret ids
  else
    plan ← getMem;
    evt ← getEvt i;
    e ← (if needsDrain plan evt then _ ← beginDrain i; mret None else createRecoveryJob i);
    match e with
    | Some err =>
        evt ← getEvt i;
        _ ← setEventState i (evt_State evt) ("the recovery Job could not be created: " +:+ etext err);
        _ ← appendMessage ("Event " +:+ evt_ID evt +:+ ": failed to create recovery job: " +:+ etext err);
        mret ids
    | None =>
        evt ← getEvt i;
        mret (if negb (ap_Persistent approval) && isActive (evt_State evt)
              then ({[ap_ID approval]} ∪ ids.1, ids.2) else ids)
    end.

(** The rest of the loop body once an approval was found: it is recorded and its override applied, then
    the event is blocked by its node's recovery or started. *)
Definition grantApproval (ids : idSets) (i : nat) (approval : RecoveryApproval) : POp idSets :=
  _ ← recordApproval i approval;
  _ ← applyOverride i approval;
  plan ← getMem;
  evt ← getEvt i;
  match nodeBusyWith plan evt with
  | Some blocker =>
      _ ← blockEvent i blocker;
      mret (ids.1, {[ap_ID approval]} ∪ ids.2)
  | None => startRecovery i approval ids
  end.

Definition approveEvent (ids : idSets) (i : nat) : POp idSets :=
  go ← reapproveFailed i;
  if negb go then mret ids
  else
    evt ← getEvt i;
    if negb (approvable (evt_State evt)) then mret ids
    else
      m ← findMatchingApproval i;
      match m with
      | None => mret ids
      | Some approval => grantApproval ids i approval
      end.

Definition consumeApprovals (ids : idSets) : POp unit :=
  l ← rangeMap (elements ids.1);
  forEach (λ id, if bool_decide (id ∈ ids.2) then mret tt else modMem (setApprovalConsumed id)) l.

Definition processApprovals : POp unit :=
  plan ← getMem;
  ids ← foldEach approveEvent (∅, ∅) (seq 0 (length (plan_Events plan)));
  consumeApprovals ids.

(** ** Drains *)

Definition devicesForBDF (nodeName bdf : string) : POp (res (gset poolDevice)) :=
  l ← ListSlices;
  mret match l with
       | Err e => Err (wrapErr "listing ResourceSlices: " e)
       | Ok slices => Ok (poolDevicesForBDF slices nodeName bdf)
       end.

(** [inr] leaves the loop with the function's answer. *)
Definition claimHeldOnlyByUndrainablePods (claim : ResourceClaim) : POp (res (bool * string)) :=
  plan ← getMem;
  o ← foldUntil (λ holder consumer,
        if bool_decide (cr_apiGroup consumer ≠ "") || bool_decide (cr_resource consumer ≠ "pods")
        then mret (inr (Ok (false, "")))
        else
          g ← GetPod (rc_namespace claim) (cr_name consumer);
          match g with
          | Err e =>
              mret (inr (if isNotFound e then Ok (false, "")
                         else Err (wrapErr ("failed to get pod " +:+ rc_namespace claim +:+ "/"
                                            +:+ cr_name consumer +:+ " reserving claim "
                                            +:+ rc_name claim +:+ ": ") e)))
          | Ok pod =>
              if bool_decide (pod_uid pod ≠ cr_uid consumer) then mret (inr (Ok (false, "")))
              else
                match DrainNeverEvicts pod (Namespace (Opts r))
                        (dr_NamespacesToSkip (sp_Drain (plan_Spec plan))) with
                | None => mret (inr (Ok (false, "")))
                | Some reason =>
                    mret (inl (if bool_decide (holder = "")
                               then "reserved by pod " +:+ pod_namespace pod +:+ "/" +:+ pod_name pod
                                    +:+ ", which the drain leaves in place (" +:+ reason +:+ ")"
                               else holder))
                end
          end) "" (rc_reservedFor claim);
  mret match o with
       | inr a => a
       | inl holder => Ok (bool_decide (holder ≠ ""), holder)
       end.

(** The claim is allocated, reserved, and holds one of the devices. *)
Definition claimReserves (devices : gset poolDevice) (claim : ResourceClaim) : bool :=
  bool_decide (is_Some (rc_allocation claim)) && negb (bool_decide (rc_reservedFor claim = []))
  && claimHoldsDevice claim devices.

Definition claimsHoldingDevice (i : nat) : POp (res (list string)) :=
  evt ← getEvt i;
  d ← devicesForBDF (evt_NodeName evt) (evt_GPUBDF evt);
  match d with
  | Err e => mret (Err e)
  | Ok devices =>
      if bool_decide (devices = ∅) then mret (Ok [])
      else
        l ← ListClaims;
        match l with
        | Err e => mret (Err (wrapErr "listing ResourceClaims: " e))
        | Ok claims =>
            o ← foldUntil (λ holding claim,
                  if negb (claimReserves devices claim) then mret (inl holding)
                  else
                    u ← claimHeldOnlyByUndrainablePods claim;
                    mret match u with
                         | Err e => inr e
                         | Ok (true, _) => inl holding
                         | Ok (false, _) =>
                             inl (holding ++ [rc_namespace claim +:+ "/" +:+ rc_name claim])
                         end) [] claims;
            mret match o with
                 | inr e => Err e
                 | inl holding => Ok (sortStrings holding)
                 end
        end
  end.

Definition podRef (pod : Pod) : string := pod_namespace pod +:+ "/" +:+ pod_name pod.

Definition drainNodeForEvent (i : nat) : POp (res bool) :=
  plan ← getMem;
  evt ← getEvt i;
  t ← EnsureNodeTaint (evt_NodeName evt) (recoveryTaint (plan_Name plan));
  match t with
  | Err e => mret (Err e)
  | Ok _ =>
      b ← PodsBlockingDrain (evt_NodeName evt) (Namespace (Opts r))
            (dr_NamespacesToSkip (sp_Drain (plan_Spec plan)));
      match b with
      | Err e => mret (Err e)
      | Ok (toEvict, toAwait) =>
          _ ← EvictPods toEvict;
          let blocking := sortStrings (podRef <$> (toEvict ++ toAwait)) in
          c ← claimsHoldingDevice i;
          match c with
          | Err e => mret (Err e)
          | Ok claims =>
              _ ← modEvt i (set_evt_blockers (capStrings blocking maxPodsBlockingDrainReported)
                              (capStrings claims maxPodsBlockingDrainReported));
              _ ← setEventState i RecoveryEventStateDraining "";
              mret (Ok (bool_decide (blocking = []) && bool_decide (claims = [])))
          end
      end
  end.

Definition drainEvent (i : nat) : POp unit :=
  evt ← getEvt i;
  if negb (bool_decide (evt_State evt = RecoveryEventStateDraining)) then mret tt
  else
    d ← drainNodeForEvent i;
    stall ← match d with
            | Err e =>
                let stall := "the drain of node " +:+ evt_NodeName evt +:+ " is not progressing: "
                             +:+ etext e in
                _ ← setEventState i RecoveryEventStateDraining stall;
                _ ← appendMessage ("Event " +:+ evt_ID evt +:+ ": drain of node " +:+ evt_NodeName evt
                                   +:+ " failed: " +:+ etext e);
                mret stall
            | Ok false =>
                evt ← getEvt i;
                mret (drainBlockerDetail (evt_PodsBlockingDrain evt) (evt_ClaimsBlockingReset evt))
            | Ok true =>
                c ← createRecoveryJob i;
                match c with
                | None => mret ""
                | Some e =>
                    let stall := "node " +:+ evt_NodeName evt
                                 +:+ " is drained but the recovery Job could not be created: "
                                 +:+ etext e in
                    _ ← setEventState i RecoveryEventStateDraining stall;
                    _ ← appendMessage ("Event " +:+ evt_ID evt +:+ ": failed to create recovery job: "
                                       +:+ etext e);
                    mret stall
                end
            end;
    if bool_decide (stall = "") then mret tt
    else
      x ← drainDeadlineExceeded i;
      if (x : bool) then failDrain i stall else mret tt.

Definition processDrains : POp unit :=
  plan ← getMem;
  forEach drainEvent (seq 0 (length (plan_Events plan))).

Definition untaintNodesExcept (keep : gset string) : POp unit :=
  plan ← getMem;
  let taint := recoveryTaint (plan_Name plan) in
  t ← NodesWithTaint taint;
  match t with
  | Err _ => mret tt
  | Ok tainted =>
      forEach (λ nodeName,
        if bool_decide (nodeName ∈ keep) then mret tt
        else
          u ← RemoveNodeTaint nodeName taint;
          match u with
          | Err e => appendMessage ("Failed to remove drain taint from node " +:+ nodeName +:+ ": "
                                    +:+ etext e)
          | Ok _ => mret tt
          end) tainted
  end.

(** The event keeps its node tainted. *)
Definition wantsTaint (plan : GPURecoveryPlan) (evt : RecoveryEvent) : bool :=
  match evt_State evt with
  | RecoveryEventStateDraining | RecoveryEventStateInProgress => true
  | RecoveryEventStateBlocked => needsDrain plan evt
  | _ => false
  end.

Definition wantedNodes (plan : GPURecoveryPlan) : gset string :=
  list_to_set (evt_NodeName <$> filter (λ e, wantsTaint plan e = true) (plan_Events plan)).

Definition reconcileDrainTaints : POp unit :=
  plan ← getMem;
  untaintNodesExcept (wantedNodes plan).

Definition releaseAllDrainTaints : POp unit := untaintNodesExcept ∅.

(** ** Job outcomes *)

Definition applyJobVerdict (i : nat) (cond : JobCondition) : POp unit :=
  evt ← getEvt i;
  if bool_decide (jc_type cond = JobComplete) then
    _ ← appendMessage ("Event " +:+ evt_ID evt +:+ ": recovery Job " +:+ evt_JobName evt
                       +:+ " succeeded — pods retained until taint clears");
    _ ← modEvt i (set_evt_jobs "" (evt_PastJobs evt ++ [evt_JobName evt]));
    _ ← setEventState i RecoveryEventStateSucceeded "";
    mret tt
  else failEventJob i ("recovery Job " +:+ evt_JobName evt +:+ " failed: " +:+ jobFailureDetail cond).

Definition syncJobStatus (i : nat) : POp unit :=
  plan ← getMem;
  evt ← getEvt i;
  if negb (bool_decide (evt_State evt = RecoveryEventStateInProgress)) || bool_decide (evt_JobName evt = "")
  then mret tt
  else
    g ← GetJob (Namespace (Opts r)) (evt_JobName evt);
    let job := match g with Ok j => j | Err _ => emptyJob end in
    let deadline := jobDeadlineSeconds plan evt job in
    match g with
    | Err e =>
        if isNotFound e then
          overdue ← jobVerdictOverdue deadline (evt_LastUpdated evt);
          if negb overdue then mret tt
          else failEventJob i ("recovery Job " +:+ evt_JobName evt
                               +:+ " no longer exists and never reported a verdict")
        else mret tt
    | Ok _ =>
        match jobTerminalCondition job with
        | Some verdict => applyJobVerdict i verdict
        | None =>
            overdue ← jobVerdictOverdue deadline (jobStartedAt job);
            if (overdue : bool)
            then failEventJob i ("recovery Job " +:+ evt_JobName evt +:+ " reported no verdict within its "
                                 +:+ itoa deadline +:+ "s deadline")
            else mret tt
        end
    end.

Definition syncJobStatuses : POp unit :=
  plan ← getMem;
  forEach syncJobStatus (seq 0 (length (plan_Events plan))).

(** ** OpenShift *)

Definition ensureOpenShiftResources (planName : string) : POp (option GoErr) :=
  let n := BuildOpenShiftNames planName recoveryResourcePart in
  let ns := Namespace (Opts r) in
  a ← CreateServiceAccount (os_saName n) ns;
  match a with
  | Some e => mret (Some (wrapErr "failed to ensure recovery ServiceAccount: " e))
  | None =>
      b ← EnsureSCC (buildRecoverySCC (os_sccName n));
      match b with
      | Some e => mret (Some (wrapErr "failed to ensure recovery SCC: " e))
      | None =>
          c ← CreateSCCRole (os_roleName n) (os_sccName n);
          match c with
          | Some e => mret (Some (wrapErr "failed to ensure recovery SCC ClusterRole: " e))
          | None =>
              d ← CreateSCCRoleBinding (os_bindingName n) (os_roleName n) (os_saName n) ns;
              mret match d with
                   | Some e => Some (wrapErr "failed to ensure recovery SCC ClusterRoleBinding: " e)
                   | None => None
                   end
          end
      end
  end.

Definition cleanupOpenShiftResources (planName : string) : POp unit :=
  let n := BuildOpenShiftNames planName recoveryResourcePart in
  DeleteOpenShiftSCCResources (os_sccName n) (os_roleName n) (os_bindingName n) (os_saName n)
    (Namespace (Opts r)).

(** ** Persisting and finalizing *)

(** [r.Update(ctx, plan)]: the answer replaces the object. *)
Definition updatePlanMem : POp (option GoErr) :=
  plan ← getMem;
  u ← UpdatePlan plan;
  match u with
  | Err e => mret (Some e)
  | Ok p => _ ← putMem p; mret None
  end.

Definition writeStatus (name : string) (want : GPURecoveryPlanStatus) : POp (option GoErr) :=
  g ← getPlan name;
  match g with
  | Err e => mret (Some e)
  | Ok p =>
      let p' := set_plan_Status want p in
      _ ← putMem p';
      u ← UpdatePlanStatus p';
      match u with
      | Err e => mret (Some e)
      | Ok q => _ ← putMem q; mret None
      end
  end.

Definition writeApprovals (name : string) (ch : approvalChanges) : POp (option GoErr) :=
  g ← getPlan name;
  match g with
  | Err e => mret (Some e)
  | Ok cur =>
      let a := applyChanges ch cur in
      if negb a.2 then mret None
      else
        u ← UpdatePlan a.1;
        mret match u with Err e => Some e | Ok _ => None end
  end.

Definition persistPlan (name : string) (orig : GPURecoveryPlan) : POp (option GoErr) :=
  plan ← getMem;
  let statusChanged := negb (bool_decide (plan_Status orig = plan_Status plan)) in
  let ch := diffApprovals orig plan in
  if negb statusChanged && changesEmpty ch then mret None
  else
    let want := plan_Status plan in
    s ← (if statusChanged then RetryOnConflict (writeStatus name want) else mret None);
    let firstErr := match s with Some e => Some (wrapErr "updating status: " e) | None => None end in
    if changesEmpty ch then mret firstErr
    else
      a ← RetryOnConflict (writeApprovals name ch);
      mret match a, firstErr with
           | Some e, None => Some (wrapErr "updating spec: " e)
           | _, _ => firstErr
           end.

Definition handleFinalizer : POp (bool * option GoErr) :=
  plan ← getMem;
  match plan_DeletionTimestamp plan with
  | Some _ =>
      l ← runningRecoveryJobs (Namespace (Opts r)) (plan_Name plan);
      match l with
      | Err e => mret (true, Some (wrapErr "listing recovery jobs during deletion: " e))
      | Ok running =>
          if (0 <? length running)%nat then
            let n := itoa (Z.of_nat (length running)) in
            _ ← appendMessage ("Deletion waiting for " +:+ n +:+ " active recovery Job(s): "
                               +:+ join ", " running);
            mret (true, Some (RequeueReconcileErr
                                (Some (errorf ("waiting for " +:+ n +:+ " active recovery job(s)")))))
          else
            _ ← deleteAllJobs;
            _ ← releaseAllDrainTaints;
            _ ← (if OpenShift (Opts r) then cleanupOpenShiftResources (plan_Name plan) else mret tt);
            _ ← modMem (λ p, removeFinalizer p recoveryPlanFinalizer);
            u ← updatePlanMem;
            mret (true, match u with
                        | Some e => Some (wrapErr "removing finalizer: " e)
                        | None => None
                        end)
      end
  | None =>
      if negb (containsFinalizer plan recoveryPlanFinalizer) then
        _ ← modMem (λ p, addFinalizer p recoveryPlanFinalizer);
        u ← updatePlanMem;
        mret (true, match u with
                    | Some e => Some (wrapErr "adding finalizer: " e)
                    | None => None
                    end)
      else mret (false, None)
  end.

(** ** Reconcile *)

(** From the approvals on: the phases that cannot fail. *)
Definition reconcilePhases : POp (Result * option GoErr) :=
  _ ← processApprovals;
  _ ← processDrains;
  _ ← syncJobStatuses;
  _ ← modMem pruneConsumedApprovals;
  _ ← reconcileDrainTaints;
  _ ← updatePlanState;
  plan ← getMem;
  if hasActiveJobs plan then mret (mkResult (RequeueDelay (Opts r)), None)
  else mret (noResult, None).

Definition reconcileBody : POp (Result * option GoErr) :=
  f ← handleFinalizer;
  match f with
  | (_, Some e) =>
      mret (if isRequeue e then (mkResult (RequeueDelay (Opts r)), None) else (noResult, Some e))
  | (true, None) => mret (noResult, None)
  | (false, None) =>
      s ← syncRecoveryEventsFromSlices;
      match s with
      | Some e => mret (noResult, Some (wrapErr "syncRecoveryEventsFromSlices: " e))
      | None =>
          plan ← getMem;
          o ← (if OpenShift (Opts r) then ensureOpenShiftResources (plan_Name plan) else mret None);
          match o with
          | Some e =>
              _ ← appendMessage ("Failed to ensure OpenShift SCC resources: " +:+ etext e);
              mret (noResult, Some (wrapErr "ensureOpenShiftResources: " e))
          | None => reconcilePhases
          end
      end
  end.

Definition Reconcile (name : string) : POp (Result * option GoErr) :=
  g ← getPlan name;
  match g with
  | Err e => mret (noResult, if isNotFound e then None else Some e)
  | Ok orig =>
      _ ← putMem orig;
      ret ← reconcileBody;
      p ← persistPlan name orig;
      mret match p, ret.2 with
           | Some e, None => (noResult, Some e)
           | _, _ => ret
           end
  end.
End Reconciler.

(** The watch on ResourceSlices: the plans a slice is of interest to. *)
Definition sliceDeviceIDs (slice : ResourceSlice) : gset string :=
  list_to_set (filter (λ id, id ≠ "")
    ((λ dev, deviceAttributeString (dev_attributes dev) DeviceAttrDeviceID) <$> rs_devices slice)).

Definition resourceSliceToPlans `{!Env} {St} (slice : ResourceSlice) : Op St (list string) :=
  let ids := sliceDeviceIDs slice in
  if bool_decide (ids = ∅) then mret []
  else
    l ← ListPlans;
    mret match l with
         | Err _ => []
         | Ok plans => plan_Name <$> filter (λ p, sp_DeviceID (plan_Spec p) ∈ ids) plans
         end.
