(* ===== verification/RecoveryEventsFacts.v ===== *)
(** * GPU recovery: bounds, and the approvals written back

    Facts about [RecoveryEvents] that need no environment: the text stored in a status is bounded
    and stays valid UTF-8, the deadlines do not overflow, and [diffApprovals]/[apply] write back
    exactly what a pass did to the approvals, however often they are retried. *)

From Stdlib Require Import Ascii NArith Lia.
From S2P Require Import Prelude GoStrings KubeTypes ApiTypes Common Client Drain Cluster.
From S2P Require Import RecoveryNaming RecoveryEvents.

(** ** Text *)

Lemma runeBoundary_le s cut : runeBoundary s cut ≤ cut.
Proof. induction cut as [|cut IH]; simpl; [done|]. case_match; lia. Qed.

Lemma runeBoundary_start s cut b :
  s !! runeBoundary s cut = Some b → runeBoundary s cut = 0 ∨ runeStart b = true.
Proof.
  induction cut as [|cut IH]; simpl; [by left|]. case_match eqn:Hs; [|done].
  intros Hb. right. by rewrite (list_lookup_total_correct _ _ _ Hb) in Hs.
Qed.

Lemma bytes_app s t : bytes (s +:+ t) = bytes s ++ bytes t.
Proof. unfold bytes. by rewrite s2l_app, fmap_app. Qed.

Lemma bytes_strTake k s : bytes (strTake k s) = take k (bytes s).
Proof. unfold bytes, strTake. by rewrite s2l_l2s, fmap_take. Qed.

Lemma capString_length s limit : slen capMarker ≤ limit → slen (capString s limit) ≤ limit.
Proof.
  intros Hl. unfold capString. case_match eqn:Hs; [by apply Nat.leb_le|].
  rewrite slen_app, slen_strTake. pose proof (runeBoundary_le (bytes s) (limit - slen capMarker)). lia.
Qed.

Lemma capString_utf8 s limit : validUTF8 (bytes s) → validUTF8 (bytes (capString s limit)).
Proof.
  intros Hv. unfold capString. case_match; [done|]. rewrite bytes_app, bytes_strTake.
  apply validUTF8_app; [|by apply validUTF8_take with (k := 3) (l := bytes capMarker);
    [repeat (eapply validUTF8_rune; [reflexivity|]); constructor|]].
  destruct (runeBoundary (bytes s) (limit - slen capMarker)) as [|k] eqn:Hk; [constructor|].
  rewrite <- Hk. apply validUTF8_take; [done|]. intros b Hb.
  destruct (runeBoundary_start _ _ _ Hb) as [?|?]; [congruence|done].
Qed.

Lemma capString_empty limit : capString "" limit = "".
Proof. done. Qed.

Lemma capStrings_length items limit : length (capStrings items limit) ≤ S limit.
Proof.
  unfold capStrings. case_match eqn:Hl; [apply Nat.leb_le in Hl; lia|].
  rewrite length_app, length_take. simpl. lia.
Qed.

Lemma capStrings_nil items limit : 0 < limit → capStrings items limit = [] ↔ items = [].
Proof.
  intros Hl. unfold capStrings. case_match eqn:Hc; [done|]. apply Nat.leb_gt in Hc.
  split; [|intros ->; simpl in Hc; lia]. destruct (take limit items); done.
Qed.

Lemma appendMessagePlan_bound msg p :
  length (plan_Messages p) ≤ maxStatusMessages →
  length (plan_Messages (appendMessagePlan msg p)) ≤ maxStatusMessages.
Proof.
  intros Hl. unfold appendMessagePlan. case_match; [done|]. unfold plan_Messages. simpl.
  rewrite length_drop. lia.
Qed.

(** The newest messages are the ones kept. *)
Lemma appendMessagePlan_last msg p : last (plan_Messages (appendMessagePlan msg p)) = Some msg.
Proof.
  unfold appendMessagePlan. case_match eqn:Hl; [by apply bool_decide_eq_true in Hl|].
  unfold plan_Messages. simpl. set (l := st_Messages (plan_Status p)).
  rewrite drop_app, length_app. simpl.
  replace (length l + 1 - maxStatusMessages - length l) with 0.
  2:{ unfold maxStatusMessages. lia. }
  by rewrite drop_0, last_snoc.
Qed.

(** ** Deadlines *)

Lemma drainTimeout_spec plan :
  (0 ≤ dr_TimeoutSeconds (sp_Drain (plan_Spec plan)) ≤ int32_max)%Z →
  drainTimeout plan =
    (if (dr_TimeoutSeconds (sp_Drain (plan_Spec plan)) =? 0)%Z then defaultDrainTimeout
     else dr_TimeoutSeconds (sp_Drain (plan_Spec plan)) * Second)%Z.
Proof.
  intros H. unfold drainTimeout. rewrite seconds_int32 by done. unfold Second in *.
  destruct (Z.eqb_spec (dr_TimeoutSeconds (sp_Drain (plan_Spec plan))) 0) as [->|Hne]; [done|].
  destruct (Z.leb_spec (dr_TimeoutSeconds (sp_Drain (plan_Spec plan)) * 1000000000) 0); lia.
Qed.

Lemma verdictDeadline_spec d :
  (0 ≤ d ≤ int32_max)%Z → verdictDeadline d = ((d + 60) * Second)%Z.
Proof.
  intros H. unfold verdictDeadline. rewrite seconds_int32 by done.
  unfold recoveryJobVerdictGrace. rewrite wrap64_id; [lia|].
  unfold int32_max, int64_min, int64_max, Second in *. lia.
Qed.

(** ** Approvals *)

Lemma filter_ext_elem {A} (P Q : A → Prop) `{∀ x, Decision (P x)} `{∀ x, Decision (Q x)} (l : list A) :
  (∀ x, x ∈ l → P x ↔ Q x) → filter P l = filter Q l.
Proof.
  induction l as [|x l IH]; intros Hpq; [done|]. rewrite !filter_cons, IH by set_solver.
  destruct (Hpq x) as [H1 H2]; [by left|]. repeat case_decide; naive_solver.
Qed.

Lemma plan_Approvals_set l p : plan_Approvals (set_plan_Approvals l p) = l.
Proof. done. Qed.

Lemma wasConsumed_foldl l m id :
  default false (foldl (λ m a, <[ap_ID a := ap_Consumed a]> m) m l !! id) =
  match last (filter (λ a, ap_ID a = id) l) with
  | Some a => ap_Consumed a
  | None => default false ((m : gmap string bool) !! id)
  end.
Proof.
  revert m. induction l as [|a l IH]; intros m; [done|]. simpl. rewrite IH, filter_cons.
  destruct (decide (ap_ID a = id)) as [<-|Hne].
  - rewrite last_cons. case_match; [done|]. by rewrite lookup_insert_eq.
  - case_match; [done|]. by rewrite lookup_insert_ne.
Qed.

Lemma wasConsumed_spec l id :
  wasConsumed l id = match last (filter (λ a, ap_ID a = id) l) with
                     | Some a => ap_Consumed a
                     | None => false
                     end.
Proof. unfold wasConsumed. by rewrite wasConsumed_foldl, lookup_empty. Qed.

Lemma filter_key_NoDup (l : list RecoveryApproval) a :
  NoDup (ap_ID <$> l) → a ∈ l → filter (λ b, ap_ID b = ap_ID a) l = [a].
Proof.
  induction l as [|b l IH]; intros Hnd Ha; [by apply not_elem_of_nil in Ha|].
  rewrite fmap_cons, NoDup_cons in Hnd. destruct Hnd as [Hb Hnd]. rewrite filter_cons.
  apply elem_of_cons in Ha as [->|Ha].
  - rewrite decide_True by done. f_equal. apply elem_of_nil_inv.
    intros x [Hx Hin]%list_elem_of_filter. apply Hb. rewrite <- Hx. by apply list_elem_of_fmap_2.
  - rewrite decide_False; [by apply IH|]. intros Heq. apply Hb. rewrite Heq. by apply list_elem_of_fmap_2.
Qed.

(** What a pass may do to a list of approvals: mark some consumed, drop some, by ID. *)
Definition spend (C R : string → bool) (l : list RecoveryApproval) : list RecoveryApproval :=
  (λ a, if C (ap_ID a) then set_ap_Consumed true a else a) <$> filter (λ a, R (ap_ID a) = false) l.

Lemma spend_ids C R l : ap_ID <$> spend C R l = ap_ID <$> filter (λ a, R (ap_ID a) = false) l.
Proof.
  unfold spend. rewrite <- list_fmap_compose. apply list_fmap_ext. intros i a _. simpl. by case_match.
Qed.

Lemma spend_keep C l : spend C (λ _, false) l = (λ a, if C (ap_ID a) then set_ap_Consumed true a else a) <$> l.
Proof.
  unfold spend. f_equal. induction l as [|a l IH]; [done|]. rewrite filter_cons, decide_True by done. by f_equal.
Qed.

Lemma spend_id l : spend (λ _, false) (λ _, false) l = l.
Proof. rewrite spend_keep. apply list_fmap_id. Qed.

Lemma spend_spend C R C' R' l :
  spend C' R' (spend C R l) = spend (λ i, C i || C' i) (λ i, R i || R' i) l.
Proof.
  induction l as [|a l IH]; [done|]. unfold spend in *. rewrite !filter_cons.
  assert (ap_ID (if C (ap_ID a) then set_ap_Consumed true a else a) = ap_ID a) as Hid by by case_match.
  destruct (R (ap_ID a)) eqn:HR; cbn [orb]; repeat case_decide; try done.
  - rewrite fmap_cons, filter_cons, Hid, decide_True, fmap_cons, Hid, IH by done. simpl. f_equal.
    by destruct (C (ap_ID a)), (C' (ap_ID a)).
  - rewrite fmap_cons, filter_cons, Hid, decide_False, IH by done. done.
Qed.

Lemma consumeFirst_spend id l :
  NoDup (ap_ID <$> l) → consumeFirst id l = spend (λ i, bool_decide (i = id)) (λ _, false) l.
Proof.
  induction l as [|a l IH]; intros Hnd; [done|]. rewrite fmap_cons, NoDup_cons in Hnd.
  destruct Hnd as [Ha Hnd]. unfold spend. rewrite filter_cons, decide_True by done. simpl.
  case_bool_decide as Hid; [|by rewrite IH]. f_equal.
  rewrite <- (spend_id l) at 1. unfold spend. apply list_fmap_ext. intros i b Hb.
  rewrite bool_decide_false; [done|]. intros Hb'. apply Ha. rewrite Hid, <- Hb'.
  apply list_elem_of_lookup_2 in Hb. apply list_elem_of_fmap_2.
  by apply list_elem_of_filter in Hb as [_ Hb].
Qed.

Lemma set_ap_Consumed_id a : ap_Consumed a = true → set_ap_Consumed true a = a.
Proof. destruct a; simpl. by intros ->. Qed.

Section DiffApply.
Variables (orig plan : GPURecoveryPlan) (C R : string → bool).
Hypothesis Hnd : NoDup (ap_ID <$> plan_Approvals orig).
Hypothesis Hspend : plan_Approvals plan = spend C R (plan_Approvals orig).

Lemma wasConsumed_orig a : a ∈ plan_Approvals orig → wasConsumed (plan_Approvals orig) (ap_ID a) = ap_Consumed a.
Proof. intros Ha. by rewrite wasConsumed_spec, filter_key_NoDup. Qed.

Lemma diff_removed a : a ∈ plan_Approvals orig → ap_ID a ∈ ch_removed (diffApprovals orig plan) ↔ R (ap_ID a) = true.
Proof.
  intros Ha. simpl. rewrite elem_of_list_to_set, list_elem_of_fmap.
  setoid_rewrite list_elem_of_filter. rewrite Hspend, spend_ids. split.
  - intros (b & Hb & Hnot & Hin). destruct (R (ap_ID a)) eqn:HR; [done|]. exfalso. apply Hnot.
    rewrite <- Hb. apply list_elem_of_fmap_2. by apply list_elem_of_filter.
  - intros HR. exists a. split_and!; try done.
    intros (b & Hb & [HRb _]%list_elem_of_filter)%list_elem_of_fmap. congruence.
Qed.

Lemma diff_consumed a :
  a ∈ plan_Approvals orig → R (ap_ID a) = false →
  ap_ID a ∈ ch_consumed (diffApprovals orig plan) ↔ C (ap_ID a) = true ∧ ap_Consumed a = false.
Proof.
  intros Ha HR. simpl. rewrite elem_of_list_to_set, list_elem_of_fmap.
  setoid_rewrite list_elem_of_filter. rewrite Hspend. split.
  - intros (b & Hb & [Hc Hw] & Hin). unfold spend in Hin.
    apply list_elem_of_fmap in Hin as (a' & Hb' & [_ Ha']%list_elem_of_filter).
    assert (ap_ID a' = ap_ID a) as Hid by (subst b; rewrite Hb; by case_match).
    assert (a' = a) as ->.
    { pose proof (filter_key_NoDup _ _ Hnd Ha) as H1. pose proof (filter_key_NoDup _ _ Hnd Ha') as H2.
      rewrite Hid in H2. rewrite H2 in H1. by injection H1. }
    rewrite <- Hb, wasConsumed_orig in Hw by done. split; [|done].
    destruct (C (ap_ID a)); [done|]. subst b. congruence.
  - intros [HC Hcons]. exists (set_ap_Consumed true a). split_and!; try done.
    + simpl. by rewrite wasConsumed_orig.
    + unfold spend. apply list_elem_of_fmap. exists a. rewrite HC. split; [done|].
      by apply list_elem_of_filter.
Qed.

(** Writing the difference onto the original gives the plan the pass left. *)
Lemma apply_diff : applyApprovals (diffApprovals orig plan) (plan_Approvals orig) = plan_Approvals plan.
Proof.
  rewrite Hspend. unfold applyApprovals, spend.
  assert (filter (λ a, ap_ID a ∉ ch_removed (diffApprovals orig plan)) (plan_Approvals orig)
          = filter (λ a, R (ap_ID a) = false) (plan_Approvals orig)) as ->.
  { apply filter_ext_elem. intros a Ha. rewrite diff_removed by done.
    destruct (R (ap_ID a)); naive_solver. }
  apply list_fmap_ext. intros i a Ha%list_elem_of_lookup_2.
  apply list_elem_of_filter in Ha as [HR Ha]. unfold applyOne.
  pose proof (diff_consumed a Ha HR) as Hd. case_match eqn:Hc; symmetry.
  - apply andb_true_iff in Hc as [Hin%bool_decide_eq_true _]. by apply Hd in Hin as [-> _].
  - destruct (C (ap_ID a)) eqn:HC; [|done]. apply set_ap_Consumed_id.
    destruct (ap_Consumed a) eqn:Hcons; [done|]. exfalso.
    rewrite bool_decide_true in Hc by by apply Hd. done.
Qed.
End DiffApply.

(** Applying changes leaves nothing for a second attempt to do. *)
Lemma apply_idem ch plan : (applyChanges ch (applyChanges ch plan).1).2 = false ∧
  (applyChanges ch (applyChanges ch plan).1).1 = (applyChanges ch plan).1.
Proof.
  assert (∀ a, a ∈ applyApprovals ch (plan_Approvals plan) →
    ap_ID a ∉ ch_removed ch ∧ (ap_ID a ∈ ch_consumed ch → ap_Consumed a = true)) as Hall.
  { intros a. unfold applyApprovals. intros (b & -> & [Hr _]%list_elem_of_filter)%list_elem_of_fmap.
    unfold applyOne. case_match eqn:Hc; simpl; [done|]. split; [done|]. intros Hin.
    rewrite bool_decide_true in Hc by done. simpl in Hc. by apply negb_false_iff. }
  split.
  - simpl. apply not_true_iff_false. intros (a & Ha & Hc)%existsb_exists.
    apply list_elem_of_In, Hall in Ha as [Hr Hcons].
    rewrite bool_decide_false in Hc by done. simpl in Hc.
    apply andb_true_iff in Hc as [Hin%bool_decide_eq_true Hn%negb_true_iff].
    rewrite Hcons in Hn; done.
  - simpl. rewrite plan_Approvals_set.
    change (set_plan_Approvals (applyApprovals ch (applyApprovals ch (plan_Approvals plan))) plan
            = set_plan_Approvals (applyApprovals ch (plan_Approvals plan)) plan).
    f_equal. unfold applyApprovals at 1.
    revert Hall. generalize (applyApprovals ch (plan_Approvals plan)) as l.
    induction l as [|a l IH]; intros Hall; [done|]. destruct (Hall a) as [Hr Hc]; [by left|].
    rewrite filter_cons, decide_True by done. simpl. f_equal.
    + unfold applyOne. case_match eqn:Hd; [|done]. exfalso.
      apply andb_true_iff in Hd as [Hin%bool_decide_eq_true Hn%negb_true_iff].
      rewrite Hc in Hn; done.
    + apply IH. intros b Hb. apply Hall. by right.
Qed.
