(* ===== verification/RecoveryFocus.v ===== *)
(** * GPU recovery: symbolic execution of the event handlers

    Every handler of the recovery controller works on one event of the plan it holds.
    [focus i e p0 w] says that since the plan was [p0] only its event [i] has changed, to [e], apart
    from messages; the rules below execute the operations of [RecoveryEvents] and
    [RecoveryController] against it, so that a handler's effect is read off the final [focus]. *)

From S2P Require Import Prelude GoStrings KubeTypes ApiTypes Common Client Drain Cluster OpenShift.
From S2P Require Import RecoveryNaming RecoveryEvents RecoveryEventsFacts RecoveryController.

(** The parts of a plan no event handler touches; the messages stay bounded. *)
Record frame (p p' : GPURecoveryPlan) : Prop := mkFrame {
  fr_name : plan_Name p' = plan_Name p;
  fr_gen : plan_Generation p' = plan_Generation p;
  fr_del : plan_DeletionTimestamp p' = plan_DeletionTimestamp p;
  fr_fin : plan_Finalizers p' = plan_Finalizers p;
  fr_spec : plan_Spec p' = plan_Spec p;
  fr_state : st_State (plan_Status p') = st_State (plan_Status p);
  fr_msgs : length (plan_Messages p) ≤ maxStatusMessages → length (plan_Messages p') ≤ maxStatusMessages;
}.

#[global] Instance frame_preorder : PreOrder frame.
Proof.
  split; [done|]. intros p q s [] []. split; try congruence. auto.
Qed.

Lemma frame_set_Events l p : frame p (set_plan_Events l p).
Proof. done. Qed.

Lemma frame_appendMessage m p : frame p (appendMessagePlan m p).
Proof.
  split; try (unfold appendMessagePlan; by case_match). apply appendMessagePlan_bound.
Qed.

Lemma appendMessagePlan_events m p : plan_Events (appendMessagePlan m p) = plan_Events p.
Proof. unfold appendMessagePlan. by case_match. Qed.

Record focus (i : nat) (e : RecoveryEvent) (p0 : GPURecoveryPlan) (w : World Ev GPURecoveryPlan) :
    Prop := mkFocus {
  fo_frame : frame p0 (mem w);
  fo_lt : i < length (plan_Events p0);
  fo_events : plan_Events (mem w) = <[i := e]> (plan_Events p0);
}.

Lemma focus_start i e w : plan_Events (mem w) !! i = Some e → focus i e (mem w) w.
Proof.
  intros H. split; [reflexivity|by eapply lookup_lt_Some|]. by rewrite list_insert_id.
Qed.

Lemma focus_lookup i e p0 w : focus i e p0 w → plan_Events (mem w) !! i = Some e.
Proof. intros [_ Hlt ->]. by apply list_lookup_insert_eq. Qed.

Lemma focus_spec i e p0 w : focus i e p0 w → plan_Spec (mem w) = plan_Spec p0.
Proof. intros [[] _ _]. done. Qed.

Lemma focus_mem i e p0 w w' : focus i e p0 w → mem w' = mem w → focus i e p0 w'.
Proof. intros [? ? ?] Hm. by split; rewrite ?Hm. Qed.

Lemma focus_mod i e p0 w f h :
  focus i e p0 w →
  focus i (f e) p0 (mkWorld (set_plan_Events (alter f i (plan_Events (mem w))) (mem w)) h).
Proof.
  intros [Hf Hlt He]. split; [|done|].
  - etrans; [exact Hf|]. apply frame_set_Events.
  - simpl. unfold plan_Events at 1. simpl. rewrite He.
    apply list_eq. intros j. destruct (decide (j = i)) as [->|Hne].
    + rewrite list_lookup_alter_eq, !list_lookup_insert_eq by done. done.
    + by rewrite list_lookup_alter_ne, !list_lookup_insert_ne by done.
Qed.

Section Rules.
Context `{!Env} (i : nat) (p0 : GPURecoveryPlan).
Implicit Types (w : World Ev GPURecoveryPlan) (e : RecoveryEvent).

Lemma wp_getEvt e w (Q : RecoveryEvent → World Ev GPURecoveryPlan → Prop) :
  focus i e p0 w → Q e w → wp (getEvt i) Q w.
Proof.
  intros Hf HQ. unfold getEvt. wp_steps.
  by rewrite (list_lookup_total_correct _ _ _ (focus_lookup _ _ _ _ Hf)).
Qed.

Lemma wp_modEvt e f w (Q : unit → World Ev GPURecoveryPlan → Prop) :
  focus i e p0 w → (∀ w', focus i (f e) p0 w' → Q tt w') → wp (modEvt i f) Q w.
Proof. intros Hf HQ. apply HQ. by apply focus_mod. Qed.

Lemma wp_appendMessage e m w (Q : unit → World Ev GPURecoveryPlan → Prop) :
  focus i e p0 w → (∀ w', focus i e p0 w' → Q tt w') → wp (appendMessage m) Q w.
Proof.
  intros [Hf Hlt He] HQ. apply HQ. split; [|done|].
  - etrans; [exact Hf|]. apply frame_appendMessage.
  - simpl. by rewrite appendMessagePlan_events.
Qed.

(** An operation that leaves the plan alone. *)
Lemma wp_sameMem {A} (m : POp A) e w (Q : A → World Ev GPURecoveryPlan → Prop) :
  keeps sameMem m → focus i e p0 w → (∀ a w', focus i e p0 w' → Q a w') → wp m Q w.
Proof. intros Hk Hf HQ. apply HQ. eapply focus_mem; [exact Hf|]. apply Hk. Qed.

Lemma wp_exchange_focus {A} (f : list Ev → A) mk e w (Q : A → World Ev GPURecoveryPlan → Prop) :
  focus i e p0 w → (∀ a w', focus i e p0 w' → Q a w') → wp (exchange f mk) Q w.
Proof. intros Hf HQ. eapply wp_sameMem; [apply keeps_exchange_sameMem|done|done]. Qed.

(** The state the event ends in, whether or not it was stamped anew. *)
Lemma wp_setEventState st text e w (Q : Z → World Ev GPURecoveryPlan → Prop) :
  focus i e p0 w →
  (∀ t w', focus i (set_evt_state st (capString text maxStateMessageLen) t e) p0 w' → Q t w') →
  wp (setEventState i st text) Q w.
Proof.
  intros Hf HQ. unfold setEventState. apply wp_bind. apply (wp_getEvt e); [done|].
  set (msg := capString text maxStateMessageLen). cbv zeta.
  assert (wp (now ← Now; _ ← modEvt i (set_evt_state st msg now); mret now) Q w) as Hstamp.
  { apply wp_bind. eapply wp_exchange_focus; [exact Hf|]. intros t w1 Hf1. apply wp_bind.
    eapply wp_modEvt; [exact Hf1|]. intros w2 Hf2. by apply wp_ret, HQ. }
  destruct (_ && _) eqn:Hc; [|done]. destruct (evt_LastUpdated e) as [t|] eqn:Hl; [|done].
  apply andb_true_iff in Hc as [Hst%bool_decide_eq_true Hm%bool_decide_eq_true].
  apply wp_ret, HQ. fold msg. replace (set_evt_state st msg t e) with e; [exact Hf|].
  clearbody msg. clear HQ Hstamp Hf. destruct e; simpl in *. by subst.
Qed.
End Rules.

(** Executes one operation of a handler under a [focus] hypothesis. *)
Ltac focus_step :=
  lazymatch goal with
  | |- wp (mret _) _ _ => apply wp_ret
  | |- wp (mbind _ _) _ _ => apply wp_bind
  | |- wp getMem _ _ => apply wp_getMem
  | |- wp (match ?x with _ => _ end) _ _ => let H := fresh "Hcase" in destruct x eqn:H
  | |- wp (let _ := _ in _) _ _ => cbv zeta
  | H : focus ?i ?e ?p0 ?w |- wp (getEvt ?i) _ ?w => apply (wp_getEvt i p0 e); [exact H|]
  | H : focus ?i ?e ?p0 ?w |- wp (modEvt ?i _) _ ?w =>
      apply (wp_modEvt i p0 e); [exact H|]; clear H; intros ? H
  | H : focus ?i ?e ?p0 ?w |- wp (appendMessage _) _ ?w =>
      apply (wp_appendMessage i p0 e); [exact H|]; clear H; intros ? H
  | H : focus ?i ?e ?p0 ?w |- wp (setEventState ?i _ _) _ ?w =>
      apply (wp_setEventState i p0 _ _ e); [exact H|]; clear H; intros ? ? H
  | H : focus ?i ?e ?p0 ?w |- wp _ _ ?w =>
      apply (wp_sameMem i p0 _ e); [solve [eauto with keeps]|exact H|]; clear H; intros ? ? H
  end.
Ltac focus_steps := repeat (focus_step; cbn beta).

(** ** Every operation extends the log *)

Section Growth.
Context `{!Env} (r : GPURecoveryPlanReconciler).

Lemma setEventState_grows i st t : keeps grows (setEventState i st t).
Proof. unfold setEventState, getEvt, modEvt, modEvents. keeps_auto. Qed.
Hint Resolve setEventState_grows : keeps.

Lemma createRecoveryJob_grows i : keeps grows (createRecoveryJob r i).
Proof.
  unfold createRecoveryJob, createResetJob, createReflashJob, parkForFirmware, prepareRecoveryJob, createOrAdopt,
    getEvt, modEvt, modEvents, appendMessage.
  keeps_auto.
Qed.
Hint Resolve createRecoveryJob_grows : keeps.

Lemma reapproveFailed_grows i : keeps grows (reapproveFailed i).
Proof.
  unfold reapproveFailed, getEvt, modEvt, modEvents, appendMessage.
  keeps_auto.
Qed.
Hint Resolve reapproveFailed_grows : keeps.

Lemma grantApproval_grows ids i a : keeps grows (grantApproval r ids i a).
Proof.
  unfold grantApproval, recordApproval, applyOverride, blockEvent, startRecovery, ensureImagesUsable, holdForImageFix,
    clearImageVerifyHold, beginDrain, getEvt, modEvt, modEvents, appendMessage.
  keeps_auto.
Qed.
Hint Resolve grantApproval_grows : keeps.

Lemma approveEvent_grows ids i : keeps grows (approveEvent r ids i).
Proof.
  unfold approveEvent, findMatchingApproval, nodeSelectorMatches, nodeLabelCacheGet, getEvt. keeps_auto.
Qed.

Lemma consumeApprovals_grows ids : keeps grows (consumeApprovals ids).
Proof. unfold consumeApprovals. keeps_auto. Qed.

Lemma drainEvent_grows i : keeps grows (drainEvent r i).
Proof.
  unfold drainEvent, drainNodeForEvent, EnsureNodeTaint, PodsBlockingDrain, podsOnNode, EvictPods,
    evictPod, claimsHoldingDevice, devicesForBDF, claimHeldOnlyByUndrainablePods, drainDeadlineExceeded, failDrain,
    getEvt, modEvt, modEvents, appendMessage.
  keeps_auto.
Qed.

Lemma processDrains_grows : keeps grows (processDrains r).
Proof. pose proof drainEvent_grows. unfold processDrains. keeps_auto. Qed.

Lemma syncJobStatus_grows i : keeps grows (syncJobStatus r i).
Proof.
  unfold syncJobStatus, applyJobVerdict, failEventJob, jobVerdictOverdue, getEvt, modEvt, modEvents,
    appendMessage.
  keeps_auto.
Qed.

Lemma syncJobStatuses_grows : keeps grows (syncJobStatuses r).
Proof. pose proof syncJobStatus_grows. unfold syncJobStatuses. keeps_auto. Qed.

Lemma untaintNodesExcept_grows keep : keeps grows (untaintNodesExcept keep).
Proof. unfold untaintNodesExcept, NodesWithTaint, RemoveNodeTaint, appendMessage. keeps_auto. Qed.
End Growth.
