(* ===== verification/RecoveryInv.v ===== *)
(** * GPU recovery: the event life cycle and its invariant

    The abstract life cycle of a recovery event, the well-formedness invariant of an event, and the
    effect of each handler of the controller on the event it works on. *)

From S2P Require Import Prelude GoStrings KubeTypes ApiTypes Common Client Drain Cluster OpenShift.
From S2P Require Import RecoveryNaming RecoveryNamingFacts RecoveryEvents RecoveryEventsFacts.
From S2P Require Import RecoveryController RecoveryFocus.

(** ** The life cycle

    An event waits (for an approval, for its node, for firmware), is started, and reaches a verdict;
    a failed event goes back to waiting only when it is approved again. *)

Inductive lifecycle : RecoveryEventState → RecoveryEventState → Prop :=
| L_park a b : approvable a = true → approvable b = true → lifecycle a b
| L_drain a : approvable a = true → lifecycle a RecoveryEventStateDraining
| L_start a : approvable a = true → lifecycle a RecoveryEventStateInProgress
| L_drained : lifecycle RecoveryEventStateDraining RecoveryEventStateInProgress
| L_drain_timeout : lifecycle RecoveryEventStateDraining RecoveryEventStateFailed
| L_succeed : lifecycle RecoveryEventStateInProgress RecoveryEventStateSucceeded
| L_fail : lifecycle RecoveryEventStateInProgress RecoveryEventStateFailed
| L_reapprove : lifecycle RecoveryEventStateFailed RecoveryEventStateWaitingApproval.

(** ** Well-formed events *)

Section Inv.
Context `{!Env}.

Record evtOK (e : RecoveryEvent) : Prop := mkEvtOK {
  ok_job : evt_State e = RecoveryEventStateInProgress ↔ evt_JobName e ≠ "";
  ok_msg : slen (evt_StateMessage e) ≤ maxStateMessageLen;
  ok_pods : length (evt_PodsBlockingDrain e) ≤ S maxPodsBlockingDrainReported;
  ok_claims : length (evt_ClaimsBlockingReset e) ≤ S maxPodsBlockingDrainReported;
  ok_drain : evt_State e = RecoveryEventStateDraining →
             is_Some (evt_DrainStartedAt e) ∧ IsReflash (evt_RecoveryType e) = false;
  ok_bdf : validDeviceBDF (evt_GPUBDF e) = true;
  ok_id : ∃ rt, rt ≠ RecoveryTypeUnset ∧
          evt_ID e = generateEventID (evt_NodeName e) (evt_GPUBDF e) rt;
}.

Definition sameIdent (e e' : RecoveryEvent) : Prop :=
  evt_ID e' = evt_ID e ∧ evt_NodeName e' = evt_NodeName e ∧ evt_GPUBDF e' = evt_GPUBDF e.

#[global] Instance sameIdent_preorder : PreOrder sameIdent.
Proof. split; [done|]. unfold sameIdent. intros ? ? ? (? & ? & ?) (? & ? & ?). split_and!; congruence. Qed.

(** One event through one or more steps of its life. *)
Definition evolves (e e' : RecoveryEvent) : Prop :=
  sameIdent e e' ∧ (evtOK e → evtOK e' ∧ rtc lifecycle (evt_State e) (evt_State e')).

#[global] Instance evolves_preorder : PreOrder evolves.
Proof.
  split.
  - intros e. split; [reflexivity|]. intros ?. split; [done|constructor].
  - intros e1 e2 e3 [I1 H1] [I2 H2]. split; [by etrans|]. intros Hok.
    destruct (H1 Hok) as [Hok2 R1]. destruct (H2 Hok2) as [Hok3 R2]. split; [done|by etrans].
Qed.

Lemma capString_state text : slen (capString text maxStateMessageLen) ≤ maxStateMessageLen.
Proof. apply capString_length. unfold capMarker, maxStateMessageLen, slen. simpl. lia. Qed.

Lemma recoveryJobName_nonempty id n : recoveryJobName id n ≠ "".
Proof. unfold recoveryJobName. by case_match. Qed.

(** Moving between states that hold no Job and no drain. *)
Lemma evtOK_set_state st text t e :
  evtOK e → evt_State e ≠ RecoveryEventStateInProgress → st ≠ RecoveryEventStateInProgress →
  st ≠ RecoveryEventStateDraining →
  evtOK (set_evt_state st (capString text maxStateMessageLen) t e).
Proof.
  intros [Hj Hm Hp Hc Hd Hb Hi] H1 H2 H3. split; simpl; try done; [|apply capString_state].
  split; [done|]. intros Hn. destruct H1. by apply Hj.
Qed.

(** ** Who may start a recovery *)

(** The labels of a node, as the API server has shown them between the histories [B] and [h]. *)
Definition labelsRead (B h : list Ev) (n : string) (l : labels) : Prop :=
  ∃ node, seen B h (EvGetNode n (Ok node)) ∧ node_labels node = l.

Definition selects (B h : list Ev) (sel : ApprovalSelector) (e : RecoveryEvent) : Prop :=
  (sel_RecoveryType sel = RecoveryTypeUnset ∨ sel_RecoveryType sel = rt_Type (evt_RecoveryType e)) ∧
  (sel_NodeName sel = "" ∨ sel_NodeName sel = evt_NodeName e) ∧
  (sel_NodeSelector sel = ∅ ∨ ∃ l, labelsRead B h (evt_NodeName e) l ∧ sel_NodeSelector sel ⊆ l).

(** The approval is in the spec, is not spent, and names the event or selects it. *)
Definition authorizes (B h : list Ev) (plan : GPURecoveryPlan) (e : RecoveryEvent) (a : RecoveryApproval) : Prop :=
  a ∈ plan_Approvals plan ∧ ap_Consumed a = false ∧
  (ap_EventID a = evt_ID e ∨ ∃ sel, ap_Selector a = Some sel ∧ selects B h sel e).

Lemma labelsRead_mono B h h' n l : h `suffix_of` h' → labelsRead B h n l → labelsRead B h' n l.
Proof. intros Hs (node & Hn & ?). exists node. split; [by eapply seen_mono|done]. Qed.

Lemma authorizes_mono B h h' plan e a : h `suffix_of` h' → authorizes B h plan e a → authorizes B h' plan e a.
Proof.
  intros Hs (Hin & Hc & Hsel). split_and!; [done..|]. destruct Hsel as [?|(sel & Hsel & H1 & H2 & H3)]; [by left|right].
  exists sel. split; [done|]. split_and!; [done..|]. destruct H3 as [?|(l & Hl & ?)]; [by left|right].
  exists l. split; [by eapply labelsRead_mono|done].
Qed.

(** ** Handlers *)

Section Handlers.
Context (i : nat) (p0 : GPURecoveryPlan).
Implicit Types (w : World Ev GPURecoveryPlan) (e : RecoveryEvent).

Lemma blockEvent_focus b e w :
  focus i e p0 w →
  wp (blockEvent i b) (λ _ w', ∃ e', focus i e' p0 w' ∧ sameIdent e e' ∧
    evt_State e' = RecoveryEventStateBlocked ∧ evt_ApprovalID e' = evt_ApprovalID e ∧
    (evtOK e → approvable (evt_State e) = true → evtOK e')) w.
Proof.
  intros Hf. unfold blockEvent. focus_steps.
  - apply bool_decide_eq_true in Hcase. eexists. split; [done|]. done.
  - eexists. split; [done|]. split_and!; [done|done|done|].
    intros Hok Ha. apply evtOK_set_state; try done. intros Heq. by rewrite Heq in Ha.
Qed.

Lemma beginDrain_focus e w :
  focus i e p0 w →
  wp (beginDrain i) (λ _ w', ∃ e', focus i e' p0 w' ∧ sameIdent e e' ∧
    evt_State e' = RecoveryEventStateDraining ∧ evt_ApprovalID e' = evt_ApprovalID e ∧
    (evtOK e → approvable (evt_State e) = true → IsReflash (evt_RecoveryType e) = false → evtOK e')) w.
Proof.
  intros Hf. unfold beginDrain. focus_steps. eexists. split; [done|]. split_and!; try done.
  intros [Hj Hm Hp Hc Hd Hb Hi] Ha Hr. split; simpl; try done.
  - split; [done|]. intros Hn. apply Hj in Hn. by rewrite Hn in Ha.
  - unfold maxStateMessageLen, slen. simpl. lia.
Qed.

Lemma failDrain_focus cause e w :
  focus i e p0 w →
  wp (failDrain i cause) (λ _ w', ∃ e', focus i e' p0 w' ∧ sameIdent e e' ∧
    evt_State e' = RecoveryEventStateFailed ∧
    (evtOK e → evt_State e ≠ RecoveryEventStateInProgress → evtOK e')) w.
Proof.
  intros Hf. unfold failDrain. focus_steps. eexists. split; [done|]. split_and!; try done.
  intros [Hj Hm Hp Hc Hd Hb Hi] Ha. split; simpl; try done; [|apply capString_state].
  split; [done|]. intros Hn. by apply Hj in Hn.
Qed.

Lemma failEventJob_focus detail e w :
  focus i e p0 w →
  wp (failEventJob i detail) (λ _ w', ∃ e', focus i e' p0 w' ∧ sameIdent e e' ∧
    evt_State e' = RecoveryEventStateFailed ∧ evt_PastJobs e' = evt_PastJobs e ++ [evt_JobName e] ∧
    (evtOK e → evtOK e')) w.
Proof.
  intros Hf. unfold failEventJob. focus_steps. eexists. split; [done|]. split_and!; try done.
  intros [Hj Hm Hp Hc Hd Hb Hi]. split; simpl; try done. apply capString_state.
Qed.

Lemma holdForImageFix_focus img err e w :
  focus i e p0 w →
  wp (holdForImageFix i img err) (λ _ w', ∃ e', focus i e' p0 w' ∧ sameIdent e e' ∧
    evt_State e' = RecoveryEventStateWaitingApproval ∧
    evt_ImageVerifyGeneration e' = plan_Generation p0 ∧ evt_ApprovalID e' = evt_ApprovalID e ∧
    evt_RecoveryType e' = evt_RecoveryType e ∧
    (evtOK e → approvable (evt_State e) = true → evtOK e')) w.
Proof.
  intros Hf. pose proof (fr_gen _ _ (fo_frame _ _ _ _ Hf)) as Hg. unfold holdForImageFix. focus_steps.
  eexists. split; [done|]. split_and!; try done.
  intros [Hj Hm Hp Hc Hd Hb Hi] Ha. split; simpl; try done; [|apply capString_state].
  split; [done|]. intros Hn. apply Hj in Hn. by rewrite Hn in Ha.
Qed.

Lemma ensureImagesUsable_focus secret e w :
  focus i e p0 w →
  wp (ensureImagesUsable secret i) (λ ok w', ∃ e', focus i e' p0 w' ∧ sameIdent e e' ∧
    evt_ApprovalID e' = evt_ApprovalID e ∧ evt_RecoveryType e' = evt_RecoveryType e ∧
    (ok = true → evt_State e' = evt_State e) ∧
    (evt_State e' = evt_State e ∨ evt_State e' = RecoveryEventStateWaitingApproval) ∧
    (evtOK e → approvable (evt_State e) = true → evtOK e')) w.
Proof.
  intros Hf. unfold ensureImagesUsable. do 4 focus_step. cbn beta. focus_step.
  { focus_steps. exists e. by split_and!; auto. }
  focus_step. { focus_steps. exists e. by split_and!; auto. }
  apply wp_bind. eapply wp_mono.
  { apply (wp_foldUntil_inv _ (λ _ w', focus i e p0 w') (λ _ w', ∃ e', focus i e' p0 w' ∧
      sameIdent e e' ∧ evt_State e' = RecoveryEventStateWaitingApproval ∧
      evt_ApprovalID e' = evt_ApprovalID e ∧ evt_RecoveryType e' = evt_RecoveryType e ∧
      (evtOK e → approvable (evt_State e) = true → evtOK e'))); [done|].
    clear Hf. intros img [] w1 _ Hf. focus_step. focus_step. focus_step; focus_step; [by focus_steps|].
    eapply wp_mono; [by apply holdForImageFix_focus|].
    intros [] w2 (e' & ? & ? & ? & ? & ? & ? & ?). apply wp_ret. exists e'. by split_and!. }
  cbn beta. clear Hf. intros [[]|[]] w1.
  - intros Hf. focus_step. eapply (wp_mono _ (λ _ w2, focus i e p0 w2)).
    { destruct (negb _); focus_steps; done. }
    clear Hf. intros [] w2 Hf. unfold clearImageVerifyHold. focus_steps. eexists. split; [done|].
    split_and!; try done; [by left|].
    intros [Hj Hm Hp Hc Hd Hb Hi] Ha. split; simpl; try done.
    unfold maxStateMessageLen, slen. simpl. lia.
  - intros (e' & ? & ? & ? & ? & ? & ?). focus_steps. exists e'. by split_and!; auto.
Qed.

(** The Job that carries out an event's recovery. *)
Record jobFor (r : GPURecoveryPlanReconciler) (plan : GPURecoveryPlan) (e : RecoveryEvent) (j : Job) :
    Prop := mkJobFor {
  jf_name : job_name j = recoveryJobName (evt_ID e) (length (evt_PastJobs e));
  jf_ns : job_namespace j = Namespace (Opts r);
  jf_plan : job_labels j !! recoveryJobLabelPlan = Some (plan_Name plan);
  jf_event : job_labels j !! recoveryJobLabelEvent = Some (evt_ID e);
  jf_node : ps_nodeName (job_template j) = evt_NodeName e;
  jf_deadline : job_activeDeadlineSeconds j = Some (recoveryJobTimeout plan e);
  jf_retries : job_backoffLimit j = Some 0%Z;
}.

Lemma prepareRecoveryJob_focus r job e w :
  focus i e p0 w →
  wp (prepareRecoveryJob r job i) (λ j w', focus i e p0 w' ∧ jobFor r p0 e j ∧
    ps_containers (job_template j) = ps_containers (job_template job) ∧
    ps_initContainers (job_template j) = ps_initContainers (job_template job)) w.
Proof.
  intros Hf. pose proof (fr_name _ _ (fo_frame _ _ _ _ Hf)) as Hn.
  pose proof (focus_spec _ _ _ _ Hf) as Hs. unfold prepareRecoveryJob.
  focus_steps; (split; [done|]); (split; [|done]); split; simpl; try done; rewrite ?Hn.
  all: first [ apply lookup_insert_eq | etrans; [by apply lookup_insert_ne|apply lookup_insert_eq]
             | unfold recoveryJobTimeout; by rewrite Hs ].
Qed.

(** What [createRecoveryJob] does to the event. *)
Definition jobCreated (e e' : RecoveryEvent) : Prop :=
  evt_State e' = RecoveryEventStateInProgress ∧
  evt_JobName e' = recoveryJobName (evt_ID e) (length (evt_PastJobs e)) ∧
  evt_PastJobs e' = evt_PastJobs e.

Definition jobPost (e : RecoveryEvent) (o : option GoErr) (w' : World Ev GPURecoveryPlan) : Prop :=
  ∃ e', focus i e' p0 w' ∧ sameIdent e e' ∧
    evt_ApprovalID e' = evt_ApprovalID e ∧ evt_RecoveryType e' = evt_RecoveryType e ∧
    (o ≠ None → e' = e) ∧
    (e' = e ∨ jobCreated e e' ∨
     IsReflash (evt_RecoveryType e) = true ∧ evt_State e' = RecoveryEventStateMissingFirmware) ∧
    (evtOK e → evt_State e = RecoveryEventStateDraining ∨ approvable (evt_State e) = true → evtOK e').

Lemma jobPost_same e o w : focus i e p0 w → jobPost e o w.
Proof. intros Hf. exists e. by split_and!; auto. Qed.

(** The event once its Job exists. *)
Lemma jobPost_created r e j t w :
  jobFor r p0 e j →
  focus i (set_evt_state RecoveryEventStateInProgress (capString "" maxStateMessageLen) t
             (set_evt_jobs (job_name j) (evt_PastJobs e) e)) p0 w →
  jobPost e None w.
Proof.
  intros Hj Hf. eexists. split; [exact Hf|]. split_and!; try done.
  - right. left. split_and!; try done. apply Hj.
  - intros [Hk Hm Hp Hc Hd Hb Hi] Hst. split; simpl; try done.
    + rewrite (jf_name _ _ _ _ Hj). split; [|done]. intros _. apply recoveryJobName_nonempty.
    + unfold maxStateMessageLen, slen. simpl. lia.
Qed.

Lemma parkForFirmware_focus a b e w :
  focus i e p0 w → IsReflash (evt_RecoveryType e) = true →
  wp (parkForFirmware i a b) (λ _, jobPost e None) w.
Proof.
  intros Hf Hr. unfold parkForFirmware. focus_steps. eexists. split; [exact Hf|]. split_and!; try done.
  - by right; right.
  - intros Hok Hst. apply evtOK_set_state; try done. intros Heq. rewrite Heq in Hst.
    by destruct Hst.
Qed.

Lemma mapJobContainers_for r e j f g : jobFor r p0 e j → jobFor r p0 e (mapJobContainers f g j).
Proof. by intros []. Qed.

Lemma createResetJob_focus r e w :
  focus i e p0 w → wp (createResetJob r i) (jobPost e) w.
Proof.
  intros Hf. unfold createResetJob. do 4 focus_step. focus_step; [by apply wp_ret, jobPost_same|].
  apply wp_bind. eapply wp_mono; [by apply prepareRecoveryJob_focus|]. clear Hf.
  intros j w1 (Hf & Hj & _). cbn beta zeta. unfold createOrAdopt. focus_steps.
  all: first [by apply jobPost_same|eapply jobPost_created, Hf; by apply mapJobContainers_for].
Qed.

Lemma createReflashJob_focus r e w :
  focus i e p0 w → IsReflash (evt_RecoveryType e) = true → wp (createReflashJob r i) (jobPost e) w.
Proof.
  intros Hf Hr. unfold createReflashJob. do 4 focus_step.
  assert (∀ a b w, focus i e p0 w → wp (_ ← parkForFirmware i a b; mret None) (jobPost e) w) as Hpark.
  { clear w Hf. intros a b w Hf. apply wp_bind. eapply wp_mono; [by apply parkForFirmware_focus|].
    intros [] w1 H1. by apply wp_ret. }
  focus_step; [|by apply Hpark]. focus_step; [by apply Hpark|]. focus_step; [|by apply Hpark].
  apply wp_bind. eapply wp_mono; [by apply prepareRecoveryJob_focus|]. clear Hf.
  intros j w1 (Hf & Hj & _). cbn beta zeta. unfold createOrAdopt. focus_steps.
  all: first [by apply jobPost_same|eapply jobPost_created, Hf; by apply mapJobContainers_for].
Qed.

Lemma createRecoveryJob_focus r e w : focus i e p0 w → wp (createRecoveryJob r i) (jobPost e) w.
Proof.
  intros Hf. unfold createRecoveryJob. do 3 focus_step.
  - by apply createReflashJob_focus.
  - by apply createResetJob_focus.
Qed.

(** ** Drains *)

Lemma claimsHoldingDevice_sameMem r : keeps sameMem (claimsHoldingDevice r i).
Proof.
  unfold claimsHoldingDevice, getEvt, devicesForBDF, claimHeldOnlyByUndrainablePods. keeps_auto.
Qed.
Hint Resolve claimsHoldingDevice_sameMem : keeps.

Lemma drainNodeForEvent_focus r e w :
  focus i e p0 w → evt_State e = RecoveryEventStateDraining →
  wp (drainNodeForEvent r i) (λ _ w', ∃ e', focus i e' p0 w' ∧ sameIdent e e' ∧
    evt_State e' = RecoveryEventStateDraining ∧ (evtOK e → evtOK e')) w.
Proof.
  intros Hf Hst. unfold drainNodeForEvent. focus_steps.
  all: try (exists e; by split_and!).
  eexists. split; [exact Hf|]. split_and!; try done.
  intros [Hj Hm Hp Hc Hd Hb Hi]. split; simpl; try done.
  - by rewrite <- Hj, Hst.
  - unfold maxStateMessageLen, slen. simpl. lia.
  - apply capStrings_length.
  - apply capStrings_length.
  - intros _. auto.
Qed.

(** Recording why a drain stands still. *)
Lemma drain_stall_evolves text t e :
  evt_State e = RecoveryEventStateDraining →
  evolves e (set_evt_state RecoveryEventStateDraining (capString text maxStateMessageLen) t e).
Proof.
  intros Hst. split; [done|]. intros [Hj Hm Hp Hc Hd Hb Hi]. simpl. rewrite Hst.
  split; [|constructor]. split; simpl; try done; [by rewrite <- Hj, Hst|apply capString_state|auto].
Qed.

Lemma drainDeadline_focus cause e w :
  focus i e p0 w → evt_State e = RecoveryEventStateDraining →
  wp (x ← drainDeadlineExceeded i; if x : bool then failDrain i cause else mret tt)
    (λ _ w', ∃ e', focus i e' p0 w' ∧ evolves e e') w.
Proof.
  intros Hf Hst. unfold drainDeadlineExceeded. do 4 focus_step.
  - do 5 (focus_step; cbn beta). focus_step.
    + eapply wp_mono; [by apply failDrain_focus|]. intros [] w1 (e' & Hf' & Hid & Hst' & Hok).
      exists e'. split; [done|]. split; [done|]. intros Ho. split; [by apply Hok; rewrite ?Hst|].
      rewrite Hst, Hst'. apply rtc_once, L_drain_timeout.
    + focus_steps. exists e. split; [done|reflexivity].
  - focus_steps. eexists. split; [exact Hf|]. split; [done|].
    intros [Hj Hm Hp Hc Hd Hb Hi]. split; [|constructor]. split; simpl; try done.
    intros _. split; [by eexists|]. by apply Hd.
Qed.

(** The last step of a drain pass: a stalled drain is failed once its deadline has passed. *)
Lemma drainStall_focus (stall : string) e w :
  focus i e p0 w → (stall ≠ "" → evt_State e = RecoveryEventStateDraining) →
  wp (if bool_decide (stall = "") then mret tt
      else (x ← drainDeadlineExceeded i; if x : bool then failDrain i stall else mret tt))
    (λ _ w', ∃ e', focus i e' p0 w' ∧ evolves e e') w.
Proof.
  intros Hf Hst. case_bool_decide.
  - apply wp_ret. exists e. split; [done|reflexivity].
  - apply drainDeadline_focus; auto.
Qed.

Lemma jobCreated_evolves e e' :
  sameIdent e e' → jobCreated e e' → (evtOK e → evtOK e') →
  evt_State e = RecoveryEventStateDraining ∨ approvable (evt_State e) = true → evolves e e'.
Proof.
  intros Hid (Hs & _) Hok Hst. split; [done|]. intros Ho. split; [auto|]. rewrite Hs.
  apply rtc_once. destruct Hst as [->|?]; [apply L_drained|by apply L_start].
Qed.

Lemma drainEvent_focus r e w :
  focus i e p0 w → evtOK e → wp (drainEvent r i) (λ _ w', ∃ e', focus i e' p0 w' ∧ evolves e e') w.
Proof.
  intros Hf Hok. unfold drainEvent. do 2 focus_step. focus_step.
  { apply wp_ret. exists e. split; [done|reflexivity]. }
  apply negb_false_iff, bool_decide_eq_true in Hcase.
  apply wp_bind. eapply wp_mono; [by apply drainNodeForEvent_focus|].
  clear Hf. intros d w1 (e1 & Hf & Hid1 & Hst1 & Hok1). specialize (Hok1 Hok).
  assert (evolves e e1) as He1.
  { split; [done|]. intros _. split; [done|]. rewrite Hcase, Hst1. constructor. }
  assert (∀ w2 stall e2, focus i e2 p0 w2 → evolves e1 e2 →
    (stall ≠ "" → evt_State e2 = RecoveryEventStateDraining) →
    wp (if bool_decide (stall = "") then mret tt
        else (x ← drainDeadlineExceeded i; if x : bool then failDrain i stall else mret tt))
      (λ _ w', ∃ e', focus i e' p0 w' ∧ evolves e e') w2) as Hend.
  { intros w2 stall e2 Hf2 He2 Hs2. eapply wp_mono; [by apply drainStall_focus|].
    intros [] w3 (e3 & Hf3 & He3). exists e3. split; [done|]. etrans; [done|]. by etrans. }
  destruct d as [[]|err].
  - apply wp_bind. apply wp_bind. eapply wp_mono; [by apply createRecoveryJob_focus|].
    clear Hf. intros o w2 (e2 & Hf & Hid2 & _ & _ & Hsame & Hcase2 & Hok2).
    destruct o as [err|].
    + assert (e2 = e1) as -> by by apply Hsame. do 5 (focus_step; cbn beta).
      eapply Hend; [exact Hf|by apply drain_stall_evolves|done].
    + apply wp_ret. apply Hend with (e2 := e2); [done| |done].
      destruct Hcase2 as [->|[Hjc|[Hr _]]]; [reflexivity|by apply jobCreated_evolves; auto|].
      by rewrite (proj2 (ok_drain _ Hok1 Hst1)) in Hr.
  - do 3 focus_step. apply Hend with (e2 := e1); [done|reflexivity|done].
  - do 6 (focus_step; cbn beta). eapply Hend; [exact Hf|by apply drain_stall_evolves|done].
Qed.

(** ** Job outcomes *)

Lemma failEventJob_evolves detail e w :
  focus i e p0 w → evt_State e = RecoveryEventStateInProgress →
  wp (failEventJob i detail) (λ _ w', ∃ e', focus i e' p0 w' ∧ evolves e e') w.
Proof.
  intros Hf Hst. eapply wp_mono; [by apply failEventJob_focus|].
  intros [] w1 (e' & Hf' & Hid & Hst' & _ & Hok). exists e'. split; [done|]. split; [done|].
  intros Ho. split; [auto|]. rewrite Hst, Hst'. apply rtc_once, L_fail.
Qed.

Lemma applyJobVerdict_focus cond e w :
  focus i e p0 w → evt_State e = RecoveryEventStateInProgress →
  wp (applyJobVerdict i cond) (λ _ w', ∃ e', focus i e' p0 w' ∧ evolves e e') w.
Proof.
  intros Hf Hst. unfold applyJobVerdict. do 3 focus_step; [|by apply failEventJob_evolves].
  focus_steps. eexists. split; [exact Hf|]. split; [done|].
  intros [Hj Hm Hp Hc Hd Hb Hi]. simpl. rewrite Hst. split; [|apply rtc_once, L_succeed].
  split; simpl; try done. unfold maxStateMessageLen, slen. simpl. lia.
Qed.

Lemma syncJobStatus_focus r e w :
  focus i e p0 w → wp (syncJobStatus r i) (λ _ w', ∃ e', focus i e' p0 w' ∧ evolves e e') w.
Proof.
  intros Hf. unfold syncJobStatus. do 5 focus_step.
  { apply wp_ret. exists e. split; [done|reflexivity]. }
  apply orb_false_iff in Hcase as [Hst%negb_false_iff%bool_decide_eq_true _].
  assert (∀ w, focus i e p0 w → wp (mret tt) (λ _ w', ∃ e', focus i e' p0 w' ∧ evolves e e') w) as Hskip.
  { intros w1 Hf1. apply wp_ret. exists e. split; [done|reflexivity]. }
  assert (∀ d s, keeps sameMem (jobVerdictOverdue d s)) as Hov.
  { intros d s. unfold jobVerdictOverdue. keeps_auto. }
  do 2 (focus_step; cbn beta zeta). focus_step.
  - focus_step; [by apply applyJobVerdict_focus|]. do 3 (focus_step; cbn beta); [|by apply Hskip].
    by apply failEventJob_evolves.
  - focus_step; [|by apply Hskip]. do 3 (focus_step; cbn beta); [by apply Hskip|].
    by apply failEventJob_evolves.
Qed.

(** ** Approvals *)

Lemma reapproveFailed_focus e w :
  focus i e p0 w →
  wp (reapproveFailed i) (λ go w', ∃ e', focus i e' p0 w' ∧ evolves e e' ∧
    evt_RecoveryType e' = evt_RecoveryType e ∧
    (evt_State e' = RecoveryEventStateFailed → go = false) ∧
    (e' = e ∨ evt_State e = RecoveryEventStateFailed ∧
      evt_State e' = RecoveryEventStateWaitingApproval ∧ findExplicitApprovalForEvent p0 e ≠ None)) w.
Proof.
  intros Hf. unfold reapproveFailed. do 4 focus_step. focus_step.
  - apply bool_decide_eq_true in Hcase.
    assert (findExplicitApprovalForEvent (mem w) e = findExplicitApprovalForEvent p0 e) as Hex.
    { unfold findExplicitApprovalForEvent, plan_Approvals. by rewrite (focus_spec _ _ _ _ Hf). }
    rewrite Hex. focus_steps.
    + eexists. split; [exact Hf|]. split_and!; [|done..|by right].
      split; [done|]. intros Hok. split.
      * destruct Hok as [Hj Hm Hp Hc Hd Hb Hi]. split; simpl; try done; [|apply capString_state].
        rewrite <- Hj. by rewrite Hcase.
      * simpl. rewrite Hcase. apply rtc_once, L_reapprove.
    + exists e. split_and!; auto. reflexivity.
  - apply bool_decide_eq_false in Hcase. focus_steps. exists e. split_and!; auto; [reflexivity|done].
Qed.

Lemma recordApproval_focus a e w :
  focus i e p0 w →
  wp (recordApproval i a) (λ _ w', ∃ e', focus i e' p0 w' ∧ sameIdent e e' ∧
    evt_State e' = evt_State e ∧ evt_RecoveryType e' = evt_RecoveryType e ∧
    evt_ApprovalID e' = ap_ID a ∧ (evtOK e → evtOK e')) w.
Proof.
  intros Hf. unfold recordApproval. focus_steps.
  - eexists. split; [exact Hf|]. split_and!; try done.
    intros [Hj Hm Hp Hc Hd Hb Hi]. by split.
  - apply bool_decide_eq_false in Hcase. exists e. split_and!; try done.
    destruct (decide (evt_ApprovalID e = ap_ID a)); done.
Qed.

Lemma applyOverride_focus a e w :
  focus i e p0 w →
  wp (applyOverride i a) (λ _ w', ∃ e', focus i e' p0 w' ∧ sameIdent e e' ∧
    evt_State e' = evt_State e ∧ evt_ApprovalID e' = evt_ApprovalID e ∧
    IsReflash (evt_RecoveryType e') = IsReflash (evt_RecoveryType e) ∧ (evtOK e → evtOK e')) w.
Proof.
  intros Hf. unfold applyOverride. focus_step; [|focus_steps; exists e; by split_and!].
  do 2 focus_step. cbn beta zeta. do 3 (cbv zeta; focus_step; [focus_steps; exists e; by split_and!|]).
  focus_steps. eexists. split; [exact Hf|].
  assert (IsReflash (mkRecoveryTypeSpec (ov_RecoveryType r) (if
    bool_decide (rt_SuggestedType (evt_RecoveryType e) = RecoveryTypeUnset)
    then rt_Type (evt_RecoveryType e) else rt_SuggestedType (evt_RecoveryType e))) = false) as Hnr.
  { unfold IsReflash. simpl. apply bool_decide_eq_false. by apply bool_decide_eq_false in Hcase1. }
  split_and!; try done.
  intros [Hj Hm Hp Hc Hd Hb Hi]. split; simpl; try done. intros H1. split; [by apply Hd|done].
Qed.

Definition cacheOK (B h : list Ev) (c : nodeLabelCache) : Prop :=
  B `suffix_of` h ∧ ∀ n l, nlc_labels c !! n = Some l → labelsRead B h n l.

Lemma cacheOK_mono B h h' c : h `suffix_of` h' → cacheOK B h c → cacheOK B h' c.
Proof. intros Hs [Hb Hc]. split; [by etrans|]. intros n l Hl. eapply labelsRead_mono; [done|]. by apply Hc. Qed.

Lemma nodeSelectorMatches_spec B sel n c w :
  cacheOK B (log w) c →
  wp (nodeSelectorMatches sel n c) (λ m w', mem w' = mem w ∧ cacheOK B (log w') m.2 ∧
    (m.1 = true → sel = ∅ ∨ ∃ l, labelsRead B (log w') n l ∧ sel ⊆ l)) w.
Proof.
  intros Hc. pose proof Hc as [HB Hlab]. unfold nodeSelectorMatches, nodeLabelCacheGet. case_bool_decide as Hsel.
  { apply wp_ret. by split_and!; auto. }
  destruct (nlc_labels c !! n) as [l|] eqn:Hl.
  { wp_steps. split_and!; [done|done|]. intros Hs%bool_decide_eq_true. right. exists l. by auto. }
  case_bool_decide; [wp_steps; by split_and!|]. wp_steps.
  assert (∀ x, cacheOK B (EvGetNode n x :: log w) c) as Hc'.
  { intros x. eapply cacheOK_mono; [|done]. by exists [EvGetNode n x]. }
  destruct (env_getNode (log w) n) as [node|] eqn:Hg; wp_steps.
  - assert (labelsRead B (EvGetNode n (Ok node) :: log w) n (node_labels node)) as Hread.
    { exists node. split; [by apply seen_now|done]. }
    split_and!; [done| |].
    + split; [apply (Hc' (Ok node))|]. intros m l. simpl. rewrite lookup_insert. case_decide as Hm; [|by apply Hc'].
      intros [= <-]. by subst.
    + intros Hs%bool_decide_eq_true. right. by exists (node_labels node).
  - by split_and!; [|split; [apply (Hc' (Err e))|by apply Hc']|].
Qed.

Lemma findMatchingApproval_spec B e w :
  focus i e p0 w → B `suffix_of` log w →
  wp (findMatchingApproval i) (λ o w', focus i e p0 w' ∧
    match o with Some a => authorizes B (log w') p0 e a | None => True end) w.
Proof.
  intros Hf HB. unfold findMatchingApproval. do 4 focus_step. cbn beta zeta.
  focus_step; [by focus_steps|].
  assert (plan_Approvals (mem w) = plan_Approvals p0) as ->.
  { unfold plan_Approvals. by rewrite (focus_spec _ _ _ _ Hf). }
  apply wp_bind. eapply wp_mono.
  { apply (wp_foldUntil_inv _ (λ c w', focus i e p0 w' ∧ cacheOK B (log w') c)
             (λ a w', focus i e p0 w' ∧ authorizes B (log w') p0 e a)); [by split|].
    clear Hf. intros a c w1 Hin [Hf Hc]. focus_step; [by focus_steps|].
    focus_step. { focus_steps. split; [done|]. split_and!; [done..|]. left.
      by apply bool_decide_eq_true in Hcase1. }
    destruct (ap_Selector a) as [sel|] eqn:Hsel; [|by focus_steps].
    focus_step; [by focus_steps|]. focus_step; [by focus_steps|].
    apply wp_bind. eapply wp_mono; [by apply nodeSelectorMatches_spec|].
    intros [b c'] w2 (Hm & Hc' & Hb). apply wp_ret. simpl in *.
    pose proof (focus_mem _ _ _ _ _ Hf Hm) as Hf2. destruct b; [|by split].
    split; [done|]. split_and!; [done..|]. right. exists sel. split; [done|]. split_and!.
    - apply andb_false_iff in Hcase2 as [?%bool_decide_eq_false|?%bool_decide_eq_false];
        [left|right]; by apply dec_stable.
    - apply andb_false_iff in Hcase3 as [?%bool_decide_eq_false|?%bool_decide_eq_false];
        [left|right]; by apply dec_stable.
    - by apply Hb. }
  cbn beta. clear Hf. intros [c|a] w1 [Hf Ha]; by apply wp_ret.
Qed.

Lemma authorizes_ident B h e e' a :
  sameIdent e e' → evt_RecoveryType e' = evt_RecoveryType e → authorizes B h p0 e' a → authorizes B h p0 e a.
Proof.
  intros (H1 & H2 & H3) Ht (Hin & Hc & Ha). split_and!; [done..|].
  destruct Ha as [Ha|(sel & Hs & Hsel)]; [left; congruence|right]. exists sel. split; [done|].
  unfold selects in *. by rewrite H2, Ht in Hsel.
Qed.

(** What one turn of the approval loop does. *)
Inductive approveOutcome (B h : list Ev) (e e' : RecoveryEvent) (ids ids' : idSets) : Prop :=
| AO_idle :
    ids' = ids →
    e' = e ∨ approvable (evt_State e') = true ∧
      (evt_State e' = RecoveryEventStateBlocked → evt_State e = RecoveryEventStateBlocked) →
    approveOutcome B h e e' ids ids'
| AO_blocked a :
    authorizes B h p0 e a → evt_State e' = RecoveryEventStateBlocked → evt_ApprovalID e' = ap_ID a →
    ids' = (ids.1, {[ap_ID a]} ∪ ids.2) → approveOutcome B h e e' ids ids'
| AO_started a :
    authorizes B h p0 e a → isActive (evt_State e) = false → firstBusy (plan_Events p0) e = None → isActive (evt_State e') = true →
    evt_ApprovalID e' = ap_ID a →
    ids' = (if ap_Persistent a then ids else ({[ap_ID a]} ∪ ids.1, ids.2)) →
    approveOutcome B h e e' ids ids'.

Lemma approveOutcome_mono B h h' e e' ids ids' :
  h `suffix_of` h' → approveOutcome B h e e' ids ids' → approveOutcome B h' e e' ids ids'.
Proof.
  intros Hs [Hi Hst|a Ha|a Ha]; [by apply AO_idle|eapply AO_blocked|eapply AO_started]; try done;
    by eapply authorizes_mono.
Qed.

(** The event's own entry never makes its node busy. *)
Lemma firstBusy_insert l e e' x :
  l !! i = Some e → sameIdent e e' → sameIdent e x → firstBusy (<[i := e']> l) x = firstBusy l e.
Proof.
  intros Hl (Hi1 & Hi2 & Hi3) (Hx1 & Hx2 & Hx3). revert i Hl. induction l as [|y l IH]; intros j Hl; [done|].
  destruct j as [|j]; simpl in Hl |- *.
  - injection Hl as ->. rewrite Hi1, Hx1, !bool_decide_true by done. simpl. clear IH.
    induction l as [|z l IH]; [done|]. simpl. rewrite Hx1, Hx2. by rewrite IH.
  - rewrite Hx1, Hx2. by rewrite (IH j Hl).
Qed.

Lemma nodeBusyWith_focus e x w :
  plan_Events p0 !! i = Some e → sameIdent e x → focus i x p0 w →
  nodeBusyWith (mem w) x = firstBusy (plan_Events p0) e.
Proof.
  intros Hl Hid Hf. unfold nodeBusyWith. rewrite (fo_events _ _ _ _ Hf). by apply firstBusy_insert.
Qed.

Lemma approvable_inactive st : approvable st = true → isActive st = false.
Proof. by destruct st. Qed.

(** Keeping an event parked, with a new reason. *)
Lemma park_evolves e e' :
  sameIdent e e' → (evtOK e → approvable (evt_State e) = true → evtOK e') →
  approvable (evt_State e) = true → approvable (evt_State e') = true → evolves e e'.
Proof.
  intros Hid Hok H1 H2. split; [done|]. intros Ho. split; [auto|]. by apply rtc_once, L_park.
Qed.

Lemma startRecovery_focus B h r a ids e e1 w :
  focus i e1 p0 w → evtOK e1 → approvable (evt_State e1) = true → evt_ApprovalID e1 = ap_ID a →
  (evt_State e1 = RecoveryEventStateBlocked → evt_State e = RecoveryEventStateBlocked) →
  authorizes B h p0 e a → isActive (evt_State e) = false → firstBusy (plan_Events p0) e = None →
  wp (startRecovery r i a ids) (λ ids' w', ∃ e', focus i e' p0 w' ∧ evolves e1 e' ∧
    approveOutcome B h e e' ids ids') w.
Proof.
  intros Hf Hok Ha Hap Hblk Hauth Hin Hbusy. unfold startRecovery. apply wp_bind.
  eapply wp_mono; [by apply ensureImagesUsable_focus|]. clear Hf.
  intros ok w1 (e2 & Hf & Hid2 & Hap2 & Hrt2 & Hst2 & Hcase2 & Hok2). specialize (Hok2 Hok Ha).
  assert (approvable (evt_State e2) = true) as Ha2 by by destruct Hcase2 as [-> | ->].
  assert (evolves e1 e2) as He2 by by apply park_evolves; auto.
  assert (evt_State e2 = RecoveryEventStateBlocked → evt_State e = RecoveryEventStateBlocked) as Hblk2.
  { destruct Hcase2 as [-> | ->]; auto. done. }
  destruct ok; cbn [negb].
  2:{ apply wp_ret. exists e2. split_and!; try done. apply AO_idle; auto. }
  do 4 focus_step. apply wp_bind. destruct (needsDrain (mem w1) e2) eqn:Hnd.
  - apply wp_bind. eapply wp_mono; [by apply beginDrain_focus|]. clear Hf.
    intros [] w2 (e3 & Hf & Hid3 & Hst3 & Hap3 & Hok3). do 3 (focus_step; cbn beta). focus_step.
    assert (IsReflash (evt_RecoveryType e2) = false) as Hr.
    { unfold needsDrain in Hnd. destruct (negb _); [done|]. by apply negb_true_iff. }
    exists e3. split_and!; [done| |].
    + etrans; [exact He2|]. split; [done|]. intros _. split; [by apply Hok3|].
      rewrite Hst3. by apply rtc_once, L_drain.
    + apply AO_started with a; try done; [by rewrite Hst3|congruence|].
      rewrite Hst3. cbn [isActive]. rewrite andb_true_r. by destruct (ap_Persistent a).
  - eapply wp_mono; [by apply createRecoveryJob_focus|]. clear Hf.
    intros o w2 (e3 & Hf & Hid3 & Hap3 & _ & Hsame & Hcase3 & Hok3).
    specialize (Hok3 Hok2 (or_intror Ha2)). destruct o as [err|].
    + assert (e3 = e2) as -> by by apply Hsame. focus_steps. eexists. split; [exact Hf|]. split.
      * etrans; [exact He2|]. apply park_evolves; try done. intros _ _.
        apply evtOK_set_state; try done; intros Heq; by rewrite Heq in Ha2.
      * apply AO_idle; auto.
    + do 2 focus_step. apply wp_ret. exists e3. split; [done|].
      destruct Hcase3 as [->|[Hjc|[Hr Hmf]]].
      * rewrite approvable_inactive, andb_false_r by done. split; [done|]. apply AO_idle; auto.
      * pose proof Hjc as (Hs3 & _). split; [etrans; [exact He2|]; by apply jobCreated_evolves; auto|].
        apply AO_started with a; try done; [by rewrite Hs3|congruence|].
        rewrite Hs3. cbn [isActive]. rewrite andb_true_r. by destruct (ap_Persistent a).
      * rewrite Hmf. cbn [isActive]. rewrite andb_false_r. split.
        -- etrans; [exact He2|]. apply park_evolves; auto. by rewrite Hmf.
        -- apply AO_idle; auto. right. by rewrite Hmf.
Qed.

Lemma approveEvent_focus B r ids e w :
  focus i e p0 w → plan_Events p0 !! i = Some e → evtOK e → B `suffix_of` log w →
  wp (approveEvent r ids i) (λ ids' w', ∃ e', focus i e' p0 w' ∧ evolves e e' ∧
    approveOutcome B (log w') e e' ids ids') w.
Proof.
  intros Hf Hl Hok HB. unfold approveEvent. apply wp_bind. apply wp_grows; [apply reapproveFailed_grows|].
  eapply wp_mono; [by apply reapproveFailed_focus|]. clear Hf.
  intros go w1 (e1 & Hf & He1 & Hrt1 & Hfail & Hcase1) Hg1.
  pose proof He1 as [Hid1 Hok1]. specialize (Hok1 Hok) as [Hok1 _].
  assert (∀ w, focus i e1 p0 w → ∃ e', focus i e' p0 w ∧ evolves e e' ∧ approveOutcome B (log w) e e' ids ids) as Hidle.
  { intros w' Hf'. exists e1. split_and!; [done..|]. apply AO_idle; [done|].
    destruct Hcase1 as [->|(_ & Hs & _)]; [by left|right]. by rewrite Hs. }
  destruct go; cbn [negb]; [|by apply wp_ret, Hidle].
  do 2 focus_step. destruct (approvable (evt_State e1)) eqn:Ha; cbn [negb]; [|by apply wp_ret, Hidle].
  apply wp_bind. eapply wp_mono; [apply (findMatchingApproval_spec B e1); [done|by etrans]|]. clear Hf.
  intros [a|] w2 [Hf Hauth]; [|by apply wp_ret, Hidle].
  apply (authorizes_ident _ _ e e1) in Hauth; [|done..].
  apply wp_grows; [by apply grantApproval_grows|].
  enough (wp (grantApproval r ids i a) (λ ids' w', ∃ e', focus i e' p0 w' ∧ evolves e e' ∧
    approveOutcome B (log w2) e e' ids ids') w2) as Hgrant.
  { eapply wp_mono; [exact Hgrant|]. cbn beta. intros ids' w' (e' & ? & ? & ?) Hg. exists e'. split_and!; [done..|].
    by eapply approveOutcome_mono. }
  unfold grantApproval. apply wp_bind. eapply wp_mono; [by apply recordApproval_focus|]. clear Hf.
  intros [] w3 (e2 & Hf & Hid2 & Hst2 & Hrt2 & Hap2 & Hok2). specialize (Hok2 Hok1).
  apply wp_bind. eapply wp_mono; [by apply applyOverride_focus|]. clear Hf.
  intros [] w4 (e3 & Hf & Hid3 & Hst3 & Hap3 & Hr3 & Hok3). specialize (Hok3 Hok2).
  assert (approvable (evt_State e3) = true) as Ha3 by congruence.
  assert (evolves e e3) as He3.
  { etrans; [exact He1|]. apply park_evolves; try done. by etrans. }
  do 4 focus_step.
  rewrite (nodeBusyWith_focus e e3 w4) by (done || by destruct He3).
  destruct (firstBusy (plan_Events p0) e) as [b|] eqn:Hbusy.
  - apply wp_bind. eapply wp_mono; [by apply blockEvent_focus|]. clear Hf.
    intros [] w5 (e4 & Hf & Hid4 & Hst4 & Hap4 & Hok4). apply wp_ret. exists e4. split; [done|]. split.
    + etrans; [exact He3|]. apply park_evolves; try done. by rewrite Hst4.
    + apply AO_blocked with a; congruence.
  - eapply wp_mono.
    { apply (startRecovery_focus B (log w2) r a ids e e3); try done; [congruence|rewrite Hst3, Hst2|].
      { by destruct Hcase1 as [->|(_ & -> & _)]. }
      destruct Hcase1 as [->|(-> & _)]; [by apply approvable_inactive|done]. }
    intros ids' w5 (e4 & Hf4 & He4 & Hout). exists e4. split_and!; [done|by etrans|done].
Qed.
End Handlers.

(** ** Well-formed event lists *)

Definition evtKey (e : RecoveryEvent) : deviceKey := mkDeviceKey (evt_NodeName e) (evt_GPUBDF e).

(** Two recoveries that are under way on one node are the same recovery. *)
Definition oneActive (l : list RecoveryEvent) : Prop :=
  ∀ e1 e2, e1 ∈ l → e2 ∈ l → evt_NodeName e1 = evt_NodeName e2 →
    isActive (evt_State e1) = true → isActive (evt_State e2) = true → evt_ID e1 = evt_ID e2.

Record listOK (l : list RecoveryEvent) : Prop := mkListOK {
  lo_evts : Forall evtOK l;
  lo_one : oneActive l;
  lo_keys : NoDup (evtKey <$> l);
  lo_len : length l ≤ maxStatusEvents;
}.

Lemma elem_of_insert_inv {A} (l : list A) i x y : x ∈ <[i := y]> l → x = y ∨ x ∈ l.
Proof.
  intros (j & Hj)%list_elem_of_lookup. destruct (decide (j = i)) as [->|Hne].
  - destruct (decide (i < length l)) as [Hlt|Hge].
    + rewrite list_lookup_insert_eq in Hj by done. left. congruence.
    + rewrite list_insert_ge in Hj by lia. right. by eapply list_elem_of_lookup_2.
  - rewrite list_lookup_insert_ne in Hj by done. right. by eapply list_elem_of_lookup_2.
Qed.

(** Replacing one event: the new one is inactive, or its node is free for it. *)
Lemma oneActive_insert l i e e' :
  l !! i = Some e → oneActive l →
  (isActive (evt_State e') = true → evt_ID e' = evt_ID e ∧ evt_NodeName e' = evt_NodeName e ∧
     (isActive (evt_State e) = true ∨
      ∀ x, x ∈ l → evt_NodeName x = evt_NodeName e → isActive (evt_State x) = true → evt_ID x = evt_ID e)) →
  oneActive (<[i := e']> l).
Proof.
  intros Hl Hone He' x y Hx Hy Hn Ax Ay. pose proof (list_elem_of_lookup_2 _ _ _ Hl) as Hin.
  apply elem_of_insert_inv in Hx as [->|Hx]; apply elem_of_insert_inv in Hy as [->|Hy]; [done|..].
  - destruct (He' Ax) as (Hid & Hnode & [Ae|Hfree]).
    + rewrite Hid. apply Hone; congruence.
    + rewrite Hid. symmetry. apply Hfree; congruence.
  - destruct (He' Ay) as (Hid & Hnode & [Ae|Hfree]).
    + rewrite Hid. apply Hone; congruence.
    + rewrite Hid. apply Hfree; congruence.
  - by apply Hone.
Qed.

Lemma firstBusy_None l e x :
  firstBusy l e = None → x ∈ l → evt_NodeName x = evt_NodeName e → isActive (evt_State x) = true →
  evt_ID x = evt_ID e.
Proof.
  induction l as [|y l IH]; intros Hb Hx Hn Ha; [by apply not_elem_of_nil in Hx|].
  simpl in Hb. apply elem_of_cons in Hx as [->|Hx].
  - case_match eqn:Hc; [|by rewrite Ha in Hb].
    apply orb_true_iff in Hc as [?%bool_decide_eq_true|?%bool_decide_eq_true]; congruence.
  - repeat case_match; try done; by apply IH.
Qed.

Lemma insert_keys (l : list RecoveryEvent) (i : nat) e e' :
  l !! i = Some e → evtKey e' = evtKey e → evtKey <$> <[i := e']> l = evtKey <$> l.
Proof. intros Hl Hk. rewrite list_fmap_insert, Hk. apply list_insert_id. by rewrite list_lookup_fmap, Hl. Qed.

Lemma listOK_insert l i e e' :
  l !! i = Some e → listOK l → evtOK e' → evtKey e' = evtKey e →
  (isActive (evt_State e') = true → evt_ID e' = evt_ID e ∧
     (isActive (evt_State e) = true ∨ firstBusy l e = None)) →
  listOK (<[i := e']> l).
Proof.
  intros Hl [H1 H2 H3 H4] Hok Hk Ha. split.
  - by apply Forall_insert.
  - eapply oneActive_insert; [done..|]. intros Hact. destruct (Ha Hact) as [Hid Hfree].
    split_and!; [done|by injection Hk|]. destruct Hfree as [?|Hb]; [by left|right].
    intros x Hx Hn Hax. by eapply firstBusy_None.
  - by rewrite (insert_keys _ _ _ _ Hl Hk).
  - by rewrite length_insert.
Qed.

Lemma sameIdent_key e e' : sameIdent e e' → evtKey e' = evtKey e.
Proof. intros (? & ? & ?). unfold evtKey. congruence. Qed.
End Inv.
