(* ===== verification/RecoveryDetection.v ===== *)
(** * GPU recovery: detection

    What [syncRecoveryEventsFromSlices] makes of the ResourceSlices: the set of tainted GPUs, the
    events it removes, adds and escalates. *)

From S2P Require Import Prelude GoStrings KubeTypes ApiTypes Common Client Drain Cluster OpenShift.
From S2P Require Import RecoveryNaming RecoveryNamingFacts RecoveryEvents RecoveryEventsFacts.
From S2P Require Import RecoveryController RecoveryFocus RecoveryInv.

(** ** The tainted GPUs *)

(** Some device taint calls for recovery [need] of the GPU [k] of the plan's model. *)
Definition calledFor (spec : GPURecoveryPlanSpec) (slices : list ResourceSlice) (k : deviceKey)
    (need : deviceNeed) : Prop :=
  ∃ slice dev taint, slice ∈ slices ∧ rs_driver slice = GPUDeviceClass ∧
    rs_nodeName slice = Some (dk_node k) ∧ dev ∈ rs_devices slice ∧
    deviceAttributeString (dev_attributes dev) DeviceAttrDeviceID = sp_DeviceID spec ∧
    deviceAttributeString (dev_attributes dev) DeviceAttrBDF = dk_bdf k ∧
    validDeviceBDF (dk_bdf k) = true ∧ taint ∈ dev_taints dev ∧
    taintToDeviceNeed taint (sp_DefaultResetType spec) = Some need.

Definition addNeed (active : gmap deviceKey deviceNeed) (kn : deviceKey * deviceNeed) :
    gmap deviceKey deviceNeed :=
  <[kn.1 := higherPriorityNeed (default noNeed (active !! kn.1)) kn.2]> active.

(** The needs in the order the slices list them. *)
Definition deviceNeeds (spec : GPURecoveryPlanSpec) (nodeName : string) (dev : Device) :
    list (deviceKey * deviceNeed) :=
  let bdf := deviceAttributeString (dev_attributes dev) DeviceAttrBDF in
  if bool_decide (deviceAttributeString (dev_attributes dev) DeviceAttrDeviceID = sp_DeviceID spec)
     && validDeviceBDF bdf
  then pair (mkDeviceKey nodeName bdf)
         <$> omap (λ t, taintToDeviceNeed t (sp_DefaultResetType spec)) (dev_taints dev)
  else [].

Definition sliceNeeds (spec : GPURecoveryPlanSpec) (slice : ResourceSlice) :
    list (deviceKey * deviceNeed) :=
  if bool_decide (rs_driver slice = GPUDeviceClass) then
    match rs_nodeName slice with
    | Some n => rs_devices slice ≫= deviceNeeds spec n
    | None => []
    end
  else [].

Lemma foldl_bind {A B C} (f : C → B → C) (g : A → list B) (c : C) (l : list A) :
  foldl f c (l ≫= g) = foldl (λ c a, foldl f c (g a)) c l.
Proof. revert c. induction l as [|a l IH]; intros c; [done|]. csimpl. by rewrite foldl_app, IH. Qed.

Lemma foldl_ext {A C} (f g : C → A → C) c l : (∀ c a, f c a = g c a) → foldl f c l = foldl g c l.
Proof. intros H. revert c. induction l as [|a l IH]; intros c; [done|]. simpl. by rewrite H, IH. Qed.

Lemma validDeviceBDF_nonempty bdf : validDeviceBDF bdf = true → bdf ≠ "".
Proof. by intros H ->. Qed.

Lemma scanDevice_needs spec n active dev :
  scanDevice spec n active dev = foldl addNeed active (deviceNeeds spec n dev).
Proof.
  unfold scanDevice, deviceNeeds. set (bdf := deviceAttributeString _ DeviceAttrBDF).
  case_bool_decide as Hid; [by rewrite bool_decide_false|].
  rewrite (bool_decide_true (deviceAttributeString _ DeviceAttrDeviceID = _)) by (done || by apply dec_stable).
  destruct (validDeviceBDF bdf) eqn:Hv; simpl; [|by case_bool_decide].
  rewrite bool_decide_false by by apply validDeviceBDF_nonempty.
  revert active. induction (dev_taints dev) as [|t l IH]; intros active; [done|]. simpl.
  rewrite IH. unfold scanTaint. by destruct (taintToDeviceNeed t _).
Qed.

Lemma activeKeys_needs spec slices :
  activeKeys spec slices = foldl addNeed ∅ (slices ≫= sliceNeeds spec).
Proof.
  unfold activeKeys. rewrite foldl_bind. apply foldl_ext. intros active slice.
  unfold scanSlice, sliceNeeds. case_bool_decide as Hd; [by rewrite bool_decide_false|].
  rewrite bool_decide_true by (done || by apply dec_stable).
  destruct (rs_nodeName slice) as [n|]; [|done]. rewrite foldl_bind. apply foldl_ext.
  intros. apply scanDevice_needs.
Qed.

Lemma calledFor_needs spec slices k need :
  calledFor spec slices k need ↔ (k, need) ∈ slices ≫= sliceNeeds spec.
Proof.
  rewrite list_elem_of_bind. unfold sliceNeeds, deviceNeeds. split.
  - intros (slice & dev & t & Hs & Hd & Hn & Hdev & Hid & Hb & Hv & Ht & Hneed).
    exists slice. split; [|done]. rewrite bool_decide_true, Hn by done.
    apply list_elem_of_bind. exists dev. split; [|done].
    rewrite Hid, Hb, Hv, bool_decide_true by done. simpl. apply list_elem_of_fmap.
    exists need. split; [by destruct k|]. apply list_elem_of_omap. by exists t.
  - intros (slice & Hin & Hs). case_bool_decide as Hd; [|by apply not_elem_of_nil in Hin].
    destruct (rs_nodeName slice) as [n|] eqn:Hn; [|by apply not_elem_of_nil in Hin].
    apply list_elem_of_bind in Hin as (dev & Hin & Hdev).
    case_match eqn:Hc; [|by apply not_elem_of_nil in Hin].
    apply andb_true_iff in Hc as [Hid%bool_decide_eq_true Hv].
    apply list_elem_of_fmap in Hin as (need' & [= -> ->] & Hin).
    apply list_elem_of_omap in Hin as (t & Ht & Hneed). exists slice, dev, t. by split_and!.
Qed.

Lemma taintToDeviceNeed_type t d need :
  taintToDeviceNeed t d = Some need → need_rt need ≠ RecoveryTypeUnset.
Proof.
  unfold taintToDeviceNeed, resetTypeOrDefault. repeat case_match; intros [= <-]; simpl; try done.
  by case_bool_decide.
Qed.

Lemma priority_pos rt : rt ≠ RecoveryTypeUnset → 0 < recoveryTypePriority rt.
Proof. destruct rt; simpl; try lia. done. Qed.

(** The need kept for a GPU is one that was called for, and none outranks it. *)
Lemma foldl_addNeed_spec l k :
  Forall (λ kn, need_rt kn.2 ≠ RecoveryTypeUnset) l →
  match foldl addNeed ∅ l !! k with
  | Some n => (k, n) ∈ l ∧ ∀ n', (k, n') ∈ l → recoveryTypePriority (need_rt n') ≤ recoveryTypePriority (need_rt n)
  | None => ∀ n', (k, n') ∉ l
  end.
Proof.
  induction l as [|[k' n'] l IH] using rev_ind; intros HF; [simpl; rewrite lookup_empty; set_solver|].
  apply Forall_app in HF as [HF Hn']. rewrite Forall_singleton in Hn'. simpl in Hn'.
  specialize (IH HF). rewrite foldl_snoc. unfold addNeed at 1. simpl.
  destruct (decide (k' = k)) as [->|Hne].
  - rewrite lookup_insert_eq. unfold higherPriorityNeed.
    destruct (foldl addNeed ∅ l !! k) as [n|]; simpl.
    + destruct IH as [Hin Hmax]. destruct (Nat.ltb_spec (recoveryTypePriority (need_rt n))
        (recoveryTypePriority (need_rt n'))); (split; [set_solver|]);
        intros n2 [Hn2|[= ->]%list_elem_of_singleton]%elem_of_app; try lia;
        specialize (Hmax _ Hn2); lia.
    + rewrite (proj2 (Nat.ltb_lt _ _) (priority_pos _ Hn')). split; [set_solver|].
      intros n2 [Hn2|[= ->]%list_elem_of_singleton]%elem_of_app; [by apply IH in Hn2|done].
  - rewrite lookup_insert_ne by done. destruct (foldl addNeed ∅ l !! k) as [n|].
    + destruct IH as [Hin Hmax]. split; [set_solver|].
      intros n2 [Hn2|[= -> ->]%list_elem_of_singleton]%elem_of_app; [auto|done].
    + intros n2 [Hn2|[= -> ->]%list_elem_of_singleton]%elem_of_app; [by apply IH in Hn2|done].
Qed.

Lemma activeKeys_spec spec slices k :
  match activeKeys spec slices !! k with
  | Some n => calledFor spec slices k n ∧
      ∀ n', calledFor spec slices k n' → recoveryTypePriority (need_rt n') ≤ recoveryTypePriority (need_rt n)
  | None => ∀ n, ¬ calledFor spec slices k n
  end.
Proof.
  assert (Forall (λ kn, need_rt kn.2 ≠ RecoveryTypeUnset) (slices ≫= sliceNeeds spec)) as HF.
  { apply Forall_forall. intros [k' n'] Hin%calledFor_needs.
    destruct Hin as (? & ? & t & _ & _ & _ & _ & _ & _ & _ & _ & Hn). by eapply taintToDeviceNeed_type. }
  pose proof (foldl_addNeed_spec _ k HF) as H. rewrite activeKeys_needs.
  destruct (_ !! k) as [n|].
  - destruct H as [Hin Hmax]. split; [by apply calledFor_needs|].
    intros n' Hn'. by apply Hmax, calledFor_needs.
  - intros n Hn. by apply (H n), calledFor_needs.
Qed.

Lemma activeKeys_ok spec slices k n :
  activeKeys spec slices !! k = Some n →
  validDeviceBDF (dk_bdf k) = true ∧ need_rt n ≠ RecoveryTypeUnset.
Proof.
  intros Hk. pose proof (activeKeys_spec spec slices k) as H. rewrite Hk in H.
  destruct H as [(? & ? & t & _ & _ & _ & _ & _ & _ & Hv & _ & Hn) _].
  split; [done|]. by eapply taintToDeviceNeed_type.
Qed.

(** ** Removing resolved events *)

Section Detection.
Context `{!Env} (r : GPURecoveryPlanReconciler).
Implicit Types (w : World Ev GPURecoveryPlan) (e : RecoveryEvent).

(** The GPU still calls for recovery, or its Job is still running. *)
Definition keepEvent (active : gmap deviceKey deviceNeed) (e : RecoveryEvent) : Prop :=
  is_Some (active !! evtKey e) ∨ evt_State e = RecoveryEventStateInProgress.
#[global] Instance keepEvent_dec active e : Decision (keepEvent active e).
Proof. unfold keepEvent. apply _. Defined.

Lemma deleteJobByName_sameMem n : keeps sameMem (deleteJobByName r n).
Proof. unfold deleteJobByName. keeps_auto. Qed.
Hint Resolve deleteJobByName_sameMem : keeps.

Lemma deleteEventJobs_sameMem e : keeps sameMem (deleteEventJobs r e).
Proof. unfold deleteEventJobs. keeps_auto. Qed.
Hint Resolve deleteEventJobs_sameMem : keeps.

Lemma deleteAllJobs_sameMem : keeps sameMem (deleteAllJobs r).
Proof. unfold deleteAllJobs. keeps_auto. Qed.

Lemma removeResolvedEvents_spec active w :
  wp (removeResolvedEvents r active) (λ _ w', frame (mem w) (mem w') ∧
    plan_Events (mem w') = filter (keepEvent active) (plan_Events (mem w))) w.
Proof.
  unfold removeResolvedEvents. wp_steps. eapply wp_mono.
  { apply (wp_foldEach _ (λ done kept w', frame (mem w) (mem w') ∧
      plan_Events (mem w') = plan_Events (mem w) ∧ kept = filter (keepEvent active) done)); [done|].
    intros pre e post kept w1 _ (Hf & He & ->).
    assert (∀ x, filter (keepEvent active) (pre ++ [x])
                 = filter (keepEvent active) pre ++ (if decide (keepEvent active x) then [x] else [])) as Hfil.
    { intros x. by rewrite filter_app, filter_cons, filter_nil. }
    rewrite Hfil. case_bool_decide as Hk.
    { rewrite decide_True by by left. by apply wp_ret. }
    case_bool_decide as Hst.
    { rewrite decide_True by by right. by apply wp_ret. }
    rewrite decide_False by by intros [?|?]. rewrite app_nil_r.
    wp_steps. unfold appendMessage. wp_steps.
    eapply wp_mono; [apply keeps_wp, deleteEventJobs_sameMem|].
    intros [] w2 Hm. apply wp_ret. unfold sameMem in Hm. simpl in Hm. rewrite Hm. split_and!; [|by rewrite appendMessagePlan_events|done].
    etrans; [done|]. apply frame_appendMessage. }
  intros kept w1 (Hf & He & ->). unfold modEvents. wp_steps. split; [|done].
  etrans; [exact Hf|]. apply frame_set_Events.
Qed.

Lemma NoDup_fmap_filter {A B} (f : A → B) (P : A → Prop) `{∀ x, Decision (P x)} l :
  NoDup (f <$> l) → NoDup (f <$> filter P l).
Proof.
  induction l as [|x l IH]; [done|]. rewrite fmap_cons, NoDup_cons, filter_cons. intros [Hx Hnd].
  case_decide; [|auto]. rewrite fmap_cons, NoDup_cons. split; [|auto].
  intros (y & Hy & [_ Hin]%list_elem_of_filter)%list_elem_of_fmap. apply Hx.
  rewrite Hy. by apply list_elem_of_fmap_2.
Qed.

Lemma listOK_filter P `{∀ e, Decision (P e)} l : listOK l → listOK (filter P l).
Proof.
  intros [H1 H2 H3 H4]. split.
  - apply Forall_forall. intros x [_ Hx]%list_elem_of_filter. by eapply Forall_forall in H1.
  - intros x y [_ Hx]%list_elem_of_filter [_ Hy]%list_elem_of_filter. by apply H2.
  - by apply NoDup_fmap_filter.
  - etrans; [apply length_filter|done].
Qed.

(** ** Adding and escalating events *)

Lemma escalateEvent_focus i p0 need e w :
  focus i e p0 w → need_rt need ≠ RecoveryTypeUnset →
  wp (escalateEvent i need) (λ _ w', ∃ e', focus i e' p0 w' ∧ evtKey e' = evtKey e ∧
    (evtOK e → evtOK e') ∧
    (e' = e ∧ (recoveryTypePriority (need_rt need) ≤ recoveryTypePriority (rt_Type (evt_RecoveryType e)) ∨
               evt_State e = RecoveryEventStateInProgress) ∨
     isActive (evt_State e') = false ∧ evt_State e ≠ RecoveryEventStateInProgress ∧
       evt_ApprovalID e' = "" ∧ rt_Type (evt_RecoveryType e') = need_rt need ∧
       recoveryTypePriority (rt_Type (evt_RecoveryType e)) < recoveryTypePriority (need_rt need))) w.
Proof.
  intros Hf Hn. unfold escalateEvent. do 2 focus_step.
  focus_step.
  { apply Nat.leb_le in Hcase. focus_steps. exists e. split_and!; auto. }
  focus_step.
  { apply bool_decide_eq_true in Hcase0. focus_steps. exists e. split_and!; auto. }
  apply Nat.leb_gt in Hcase. apply bool_decide_eq_false in Hcase0.
  unfold clearImageVerifyHold. focus_steps. eexists. split; [exact Hf|]. split_and!; [done| |right; by split_and!].
  intros [Hj Hm Hp Hc Hd Hb Hi]. split; simpl; try done.
  - split; [done|]. intros Hne. by apply Hj in Hne.
  - apply capString_state.
  - by exists (need_rt need).
Qed.

Lemma findEventFrom_Some k l n b i :
  findEventFrom k l n b = Some i → ∃ j e, i = k + j ∧ l !! j = Some e ∧ evtKey e = mkDeviceKey n b.
Proof.
  revert k. induction l as [|x l IH]; intros k; simpl; [done|]. case_match eqn:Hc.
  - intros [= <-]. exists 0, x. apply andb_true_iff in Hc as [H1%bool_decide_eq_true H2%bool_decide_eq_true].
    split_and!; [lia|done|]. unfold evtKey. congruence.
  - intros (j & e & -> & ? & ?)%IH. exists (S j), e. split_and!; [lia|done|done].
Qed.

Lemma findEventFrom_None k l n b :
  findEventFrom k l n b = None → ∀ e, e ∈ l → evtKey e ≠ mkDeviceKey n b.
Proof.
  revert k. induction l as [|x l IH]; intros k Hk e He; [by apply not_elem_of_nil in He|].
  simpl in Hk. case_match eqn:Hc; [done|]. apply elem_of_cons in He as [->|He]; [|by eapply IH].
  intros [= <- <-]. by rewrite !bool_decide_true in Hc by done.
Qed.

Lemma evtOK_new n b need now :
  validDeviceBDF b = true → need_rt need ≠ RecoveryTypeUnset →
  evtOK (set_evt_state RecoveryEventStateWaitingApproval "" now (newEvent n b need)).
Proof.
  intros Hv Hn. split; simpl; try done; [unfold maxStateMessageLen, slen; simpl; lia|lia|lia|].
  by exists (need_rt need).
Qed.

Lemma listOK_snoc l e :
  listOK l → evtOK e → isActive (evt_State e) = false → (∀ x, x ∈ l → evtKey x ≠ evtKey e) →
  length l < maxStatusEvents → listOK (l ++ [e]).
Proof.
  intros [H1 H2 H3 H4] Hok Ha Hk Hlen. split.
  - apply Forall_app. by rewrite Forall_singleton.
  - intros x y [Hx|Hx%list_elem_of_singleton]%elem_of_app [Hy|Hy%list_elem_of_singleton]%elem_of_app;
      [by apply H2|congruence..].
  - rewrite fmap_app. apply NoDup_app. split_and!; [done| |apply NoDup_singleton].
    intros k (x & -> & Hx)%list_elem_of_fmap Hin%list_elem_of_singleton. by apply (Hk x).
  - rewrite length_app. simpl. lia.
Qed.

(** The event of a GPU is at least as severe as what the GPU calls for, unless a Job is under way. *)
Definition covers (l : list RecoveryEvent) (k : deviceKey) (n : deviceNeed) : Prop :=
  ∃ e, e ∈ l ∧ evtKey e = k ∧
    (recoveryTypePriority (need_rt n) ≤ recoveryTypePriority (rt_Type (evt_RecoveryType e)) ∨
     evt_State e = RecoveryEventStateInProgress).

(** One more detected GPU. *)
Record detected (active : gmap deviceKey deviceNeed) (w w' : World Ev GPURecoveryPlan) : Prop := {
  de_frame : frame (mem w) (mem w');
  de_ok : listOK (plan_Events (mem w'));
  de_keys : ∃ ex, evtKey <$> plan_Events (mem w') = (evtKey <$> plan_Events (mem w)) ++ ex ∧
            Forall (λ k, is_Some (active !! k)) ex;
  de_mono : ∀ k n, covers (plan_Events (mem w)) k n → covers (plan_Events (mem w')) k n;
}.

#[global] Instance detected_trans active : Transitive (detected active).
Proof.
  intros w1 w2 w3 [F1 O1 (ex1 & K1 & A1) M1] [F2 O2 (ex2 & K2 & A2) M2]. split.
  - by etrans.
  - done.
  - exists (ex1 ++ ex2). rewrite K2, K1, app_assoc. split; [done|]. by apply Forall_app.
  - auto.
Qed.

Lemma detected_refl active w : listOK (plan_Events (mem w)) → detected active w w.
Proof.
  intros Hok. split; [reflexivity|done| |done]. exists []. by rewrite app_nil_r.
Qed.

Lemma escalate_detected active i need w :
  listOK (plan_Events (mem w)) → need_rt need ≠ RecoveryTypeUnset →
  i < length (plan_Events (mem w)) →
  wp (escalateEvent i need) (λ _ w', detected active w w' ∧
    ∀ e, plan_Events (mem w) !! i = Some e → covers (plan_Events (mem w')) (evtKey e) need) w.
Proof.
  intros Hok Hn [e He]%lookup_lt_is_Some_2. pose proof (focus_start _ _ _ He) as Hf.
  pose proof (Forall_lookup_1 _ _ _ _ (lo_evts _ Hok) He) as Hoe.
  eapply wp_mono; [by apply (escalateEvent_focus i (mem w) need e)|].
  cbn beta. intros [] w' (e' & Hf' & Hk & Hoe' & Hcase). specialize (Hoe' Hoe).
  pose proof (fo_events _ _ _ _ Hf') as Hev. pose proof (focus_lookup _ _ _ _ Hf') as Hl'.
  split.
  - split.
    + apply Hf'.
    + rewrite Hev. eapply listOK_insert; [done..|]. intros Ha.
      destruct Hcase as [[-> _]|[Hin _]]; [by auto|congruence].
    + exists []. rewrite app_nil_r, Hev. split; [|done]. by apply (insert_keys _ _ e).
    + intros k n (x & Hx & Hkx & Hp). apply list_elem_of_lookup in Hx as [j Hj].
      destruct (decide (j = i)) as [->|Hne].
      * assert (x = e) as -> by congruence. exists e'. split; [by eapply list_elem_of_lookup_2|].
        split; [congruence|]. destruct Hcase as [[-> _]|(_ & Hni & _ & Ht & Hlt)]; [done|].
        left. rewrite Ht. destruct Hp as [?|?]; [lia|done].
      * exists x. split; [|done]. rewrite Hev. apply list_elem_of_lookup. exists j.
        by rewrite list_lookup_insert_ne.
  - intros x Hx. assert (x = e) as -> by congruence. exists e'.
    split; [by eapply list_elem_of_lookup_2|]. split; [done|].
    destruct Hcase as [[-> ?]|(_ & _ & _ & Ht & _)]; [done|]. left. by rewrite Ht.
Qed.

Lemma addRecoveryEvent_detected active k need w :
  listOK (plan_Events (mem w)) → is_Some (active !! k) → validDeviceBDF (dk_bdf k) = true →
  need_rt need ≠ RecoveryTypeUnset → findEventForDevice (mem w) (dk_node k) (dk_bdf k) = None →
  length (plan_Events (mem w)) < maxStatusEvents →
  wp (addRecoveryEvent (dk_node k) (dk_bdf k) need) (λ _ w', detected active w w' ∧
    covers (plan_Events (mem w')) k need) w.
Proof.
  intros Hok Hact Hv Hn Hnone Hlen. unfold addRecoveryEvent, modEvents. wp_steps.
  set (e := set_evt_state _ _ _ _).
  assert (evtKey e = k) as Hk by by destruct k.
  split.
  - split; [apply frame_set_Events| | |].
    + apply listOK_snoc; [done|by apply evtOK_new|done| |done].
      intros x Hx. rewrite Hk. destruct k. by eapply findEventFrom_None.
    + exists [k]. cbn [mem]. unfold plan_Events at 1. simpl. rewrite fmap_app. simpl. rewrite Hk.
      split; [done|]. by constructor.
    + intros k' n (x & Hx & ?). exists x. split; [|done]. cbn [mem]. apply elem_of_app. by left.
  - exists e. split; [apply elem_of_app; right; by left|]. split; [done|]. by left.
Qed.

Lemma addNewEvents_spec active w :
  listOK (plan_Events (mem w)) →
  (∀ k n, active !! k = Some n → validDeviceBDF (dk_bdf k) = true ∧ need_rt n ≠ RecoveryTypeUnset) →
  wp (addNewEvents active) (λ _ w', detected active w w' ∧
    ∀ k n, active !! k = Some n → covers (plan_Events (mem w')) k n ∨
      length (plan_Events (mem w')) = maxStatusEvents) w.
Proof.
  intros Hok Hact. unfold addNewEvents. apply wp_bind, wp_rangeMap. intros entries Hperm.
  assert (∀ k n, (k, n) ∈ entries ↔ active !! k = Some n) as Hent.
  { intros k n. rewrite Hperm. apply elem_of_map_to_list. }
  apply wp_bind. eapply wp_mono.
  { apply (wp_foldEach _ (λ done _ w', detected active w w' ∧
      ∀ kn, kn ∈ done → covers (plan_Events (mem w')) kn.1 kn.2 ∨
        length (plan_Events (mem w')) = maxStatusEvents)).
    { split; [by apply detected_refl|]. intros kn []%not_elem_of_nil. }
    intros pre [k n] post skipped w1 Hsplit [Hd Hcov]. pose proof (de_ok _ _ _ Hd) as Hok1.
    assert (active !! k = Some n) as Hkn by (apply Hent; rewrite Hsplit; set_solver).
    destruct (Hact _ _ Hkn) as [Hv Hn].
    assert (∀ w2, detected active w1 w2 → covers (plan_Events (mem w2)) k n →
      detected active w w2 ∧ ∀ kn, kn ∈ pre ++ [(k, n)] → covers (plan_Events (mem w2)) kn.1 kn.2 ∨
        length (plan_Events (mem w2)) = maxStatusEvents) as Hstep.
    { intros w2 Hd2 Hc2. split; [by etrans|]. intros kn [Hin|Hin%list_elem_of_singleton]%elem_of_app.
      - destruct (Hcov _ Hin) as [Hc|Hfull]; [left; by apply (de_mono _ _ _ Hd2)|right].
        destruct (de_keys _ _ _ Hd2) as (ex & Hex & _).
        pose proof (lo_len _ (de_ok _ _ _ Hd2)) as Hmax.
        apply (f_equal length) in Hex. rewrite length_app, !length_fmap in Hex. lia.
      - subst kn. by left. }
    apply wp_bind, wp_getMem. destruct (findEventForDevice (mem w1) (dk_node k) (dk_bdf k)) as [i|] eqn:Hfind.
    - destruct (findEventFrom_Some _ _ _ _ _ Hfind) as (j & e & -> & Hj & Hk). simpl.
      apply wp_bind. eapply wp_mono; [apply escalate_detected; [done|done|by eapply lookup_lt_Some]|].
      intros [] w2 [Hd2 Hc2]. apply wp_ret. apply Hstep; [done|].
      specialize (Hc2 e Hj). rewrite Hk in Hc2. by destruct k.
    - destruct (Nat.leb_spec maxStatusEvents (length (plan_Events (mem w1)))) as [Hge|Hlt].
      + apply wp_ret. split; [done|]. intros kn [Hin|_]%elem_of_app; [auto|right].
        pose proof (lo_len _ Hok1). lia.
      + apply wp_bind. eapply wp_mono; [by apply addRecoveryEvent_detected|].
        intros ? w2 [Hd2 Hc2]. apply wp_ret. by apply Hstep. }
  cbn beta. intros skipped w1 [Hd Hcov].
  assert (∀ w2, plan_Events (mem w2) = plan_Events (mem w1) → frame (mem w1) (mem w2) →
    detected active w w2 ∧ ∀ k n, active !! k = Some n → covers (plan_Events (mem w2)) k n ∨
      length (plan_Events (mem w2)) = maxStatusEvents) as Hend.
  { intros w2 He Hf. split.
    - destruct Hd as [F1 O1 K1 M1]. split; rewrite ?He; try done. by etrans.
    - intros k n Hkn. rewrite He. apply (Hcov (k, n)). by apply Hent. }
  destruct (0 <? skipped); [|by apply wp_ret, Hend].
  unfold appendMessage. apply wp_modMem, Hend; [apply appendMessagePlan_events|apply frame_appendMessage].
Qed.
End Detection.
