(* ===== verification/RecoveryPhases.v ===== *)
(** * GPU recovery: the phases of a reconcile pass

    The effect of each phase of [Reconcile] on the plan it holds: what an approval may start, what a
    drain or a Job verdict may change, and the status invariant the pass preserves. *)

From S2P Require Import Prelude GoStrings KubeTypes ApiTypes Common Client Drain Cluster OpenShift.
From S2P Require Import RecoveryNaming RecoveryNamingFacts RecoveryEvents RecoveryEventsFacts.
From S2P Require Import RecoveryController RecoveryFocus RecoveryInv RecoveryDetection.

Section Phases.
Context `{!Env} (r : GPURecoveryPlanReconciler).
Implicit Types (w : World Ev GPURecoveryPlan) (e : RecoveryEvent).

Lemma seq_split_lookup n pre i post :
  seq 0 n = pre ++ i :: post → i = length pre ∧ pre = seq 0 i ∧ i < n.
Proof.
  intros Hs. assert (seq 0 n !! length pre = Some i) as Hi by by rewrite Hs, list_lookup_middle.
  apply lookup_seq in Hi as [Hi Hlt]. simpl in Hi. subst i. split; [done|]. split; [|done].
  apply (f_equal (take (length pre))) in Hs. rewrite take_app_length, take_seq in Hs.
  rewrite Nat.min_l in Hs by lia. done.
Qed.

(** A loop over the events by index whose body works on the event of its index only.  [T] is what
    the body does to that event, [I] an invariant of the loop variables and the events; both may
    refer to what the log shows. *)
Lemma wp_forEvents {B} (f : B → nat → POp B) (T : list Ev → RecoveryEvent → RecoveryEvent → Prop)
    (I : B → list Ev → list RecoveryEvent → Prop) (b : B) w :
  (∀ b i, keeps grows (f b i)) → (∀ h h' e e', h `suffix_of` h' → T h e e' → T h' e e') →
  I b (log w) (plan_Events (mem w)) → listOK (plan_Events (mem w)) →
  (∀ i b w1 e, I b (log w1) (plan_Events (mem w1)) → log w `suffix_of` log w1 → frame (mem w) (mem w1) →
     listOK (plan_Events (mem w1)) → plan_Events (mem w) !! i = Some e → plan_Events (mem w1) !! i = Some e →
     wp (f b i) (λ b' w2, ∃ e', focus i e' (mem w1) w2 ∧ T (log w2) e e' ∧ evolves e e' ∧
       I b' (log w2) (<[i := e']> (plan_Events (mem w1))) ∧
       listOK (<[i := e']> (plan_Events (mem w1)))) w1) →
  wp (foldEach f b (seq 0 (length (plan_Events (mem w))))) (λ b' w', I b' (log w') (plan_Events (mem w')) ∧
    frame (mem w) (mem w') ∧ listOK (plan_Events (mem w')) ∧
    Forall2 evolves (plan_Events (mem w)) (plan_Events (mem w')) ∧
    Forall2 (T (log w')) (plan_Events (mem w)) (plan_Events (mem w'))) w.
Proof.
  intros Hgrow HTm Hb Hok Hstep. set (l := plan_Events (mem w)) in *. eapply wp_mono.
  { apply (wp_foldEach _ (λ done b' w', log w `suffix_of` log w' ∧ I b' (log w') (plan_Events (mem w')) ∧ frame (mem w) (mem w') ∧
      listOK (plan_Events (mem w')) ∧ Forall2 evolves l (plan_Events (mem w')) ∧
      ∀ i e e', l !! i = Some e → plan_Events (mem w') !! i = Some e' →
        if decide (i < length done) then T (log w') e e' else e' = e)).
    { split_and!; try done. intros i e e' H1 H2. rewrite decide_False by (simpl; lia). fold l in H2. congruence. }
    intros pre i post b1 w1 Hseq (Hg1 & Hb1 & Hfr & Hok1 & Hev & HT).
    apply seq_split_lookup in Hseq as (-> & Hpre & Hlt).
    pose proof (Forall2_length _ _ _ Hev) as Hlen.
    destruct (lookup_lt_is_Some_2 l (length pre)) as [e He]; [done|].
    destruct (lookup_lt_is_Some_2 (plan_Events (mem w1)) (length pre)) as [e1 He1]; [congruence|].
    pose proof (HT _ _ _ He He1) as Heq. rewrite decide_False in Heq by lia. subst e1.
    apply wp_grows; [apply Hgrow|]. eapply wp_mono; [by apply Hstep|]. cbn beta.
    intros b2 w2 (e' & Hf & HTe & Hee & Hb2 & Hok2) Hg2. pose proof (fo_events _ _ _ _ Hf) as Hev2.
    rewrite length_app, Nat.add_1_r. split_and!; [by etrans|by rewrite Hev2| |by rewrite Hev2| |].
    - etrans; [exact Hfr|apply Hf].
    - rewrite Hev2. rewrite <- (list_insert_id l (length pre) e) by done. by apply Forall2_insert.
    - intros j x x' Hx Hx'. rewrite Hev2 in Hx'. destruct (decide (j = length pre)) as [->|Hne].
      + rewrite list_lookup_insert_eq in Hx' by congruence. rewrite decide_True by lia.
        assert (x = e) as -> by congruence. assert (x' = e') as -> by congruence. done.
      + rewrite list_lookup_insert_ne in Hx' by done. specialize (HT _ _ _ Hx Hx').
        repeat case_decide; try done; first [lia|by eapply HTm]. }
  cbn beta. intros b' w' (_ & Hb' & Hfr & Hok' & Hev & HT). split_and!; [done..|].
  apply Forall2_same_length_lookup. split; [by eapply Forall2_length|].
  intros i e e' Hi Hi'. specialize (HT _ _ _ Hi Hi').
  rewrite decide_True in HT; [done|]. rewrite length_seq. by eapply lookup_lt_Some.
Qed.

Lemma forEach_foldEach {A} (f : A → POp unit) l w (Q : unit → World Ev GPURecoveryPlan → Prop) :
  wp (foldEach (λ _, f) tt l) Q w → wp (forEach f l) Q w.
Proof.
  revert w. induction l as [|x l IH]; intros w; simpl; [done|].
  intros H1. apply wp_bind.
  change (wp (f x) (λ b', wp (foldEach (λ _, f) b' l) Q) w) in H1.
  eapply wp_mono; [exact H1|]. intros [] w'. apply IH.
Qed.

(** The same for a loop without local variables. *)
Lemma wp_forEvents_unit (f : nat → POp unit) (T : RecoveryEvent → RecoveryEvent → Prop) w :
  (∀ i, keeps grows (f i)) → listOK (plan_Events (mem w)) →
  (∀ i w1 e, frame (mem w) (mem w1) → listOK (plan_Events (mem w1)) →
     plan_Events (mem w1) !! i = Some e →
     wp (f i) (λ _ w2, ∃ e', focus i e' (mem w1) w2 ∧ T e e' ∧ evolves e e' ∧
       listOK (<[i := e']> (plan_Events (mem w1)))) w1) →
  wp (forEach f (seq 0 (length (plan_Events (mem w))))) (λ _ w', frame (mem w) (mem w') ∧
    listOK (plan_Events (mem w')) ∧ Forall2 evolves (plan_Events (mem w)) (plan_Events (mem w')) ∧
    Forall2 T (plan_Events (mem w)) (plan_Events (mem w'))) w.
Proof.
  intros Hgrow Hok Hstep. apply forEach_foldEach. eapply wp_mono.
  { apply (wp_forEvents (λ _, f) (λ _, T) (λ _ _ _, True)); [done..|].
    intros i [] w1 e _ _ Hfr Hok1 _ He. eapply wp_mono; [by apply Hstep|]. cbn beta.
    intros [] w2 (e' & ? & ? & ? & ?). exists e'. by split_and!. }
  cbn beta. by intros [] w' [_ ?].
Qed.

(** ** Drains and Job verdicts: only recoveries under way change *)

Definition onlyActive (e e' : RecoveryEvent) : Prop := e' = e ∨ isActive (evt_State e) = true.

Lemma listOK_active l i e e' :
  l !! i = Some e → listOK l → evolves e e' → onlyActive e e' → listOK (<[i := e']> l).
Proof.
  intros Hl Hok [Hid Hev] Hact.
  destruct (Hev (Forall_lookup_1 _ _ _ _ (lo_evts _ Hok) Hl)) as [Hok' _].
  destruct Hact as [->|Ha]; [by rewrite list_insert_id|].
  eapply listOK_insert; [done..|by apply sameIdent_key|]. intros _. split; [apply Hid|by left].
Qed.

Lemma drainEvent_step i e w :
  listOK (plan_Events (mem w)) → plan_Events (mem w) !! i = Some e →
  wp (drainEvent r i) (λ _ w', ∃ e', focus i e' (mem w) w' ∧ onlyActive e e' ∧ evolves e e' ∧
    listOK (<[i := e']> (plan_Events (mem w)))) w.
Proof.
  intros Hok He. pose proof (focus_start _ _ _ He) as Hf.
  pose proof (Forall_lookup_1 _ _ _ _ (lo_evts _ Hok) He) as Hoe.
  destruct (decide (evt_State e = RecoveryEventStateDraining)) as [Hst|Hst].
  - eapply wp_mono; [by apply drainEvent_focus|]. cbn beta. intros [] w' (e' & Hf' & Hev).
    assert (onlyActive e e') by (right; by rewrite Hst). exists e'. split_and!; try done.
    by eapply listOK_active.
  - unfold drainEvent. focus_step. focus_step. rewrite bool_decide_false by done. simpl.
    apply wp_ret. exists e. split_and!; [done|by left|reflexivity|]. by rewrite list_insert_id.
Qed.

Lemma syncJobStatus_step i e w :
  listOK (plan_Events (mem w)) → plan_Events (mem w) !! i = Some e →
  wp (syncJobStatus r i) (λ _ w', ∃ e', focus i e' (mem w) w' ∧ onlyActive e e' ∧ evolves e e' ∧
    listOK (<[i := e']> (plan_Events (mem w)))) w.
Proof.
  intros Hok He. pose proof (focus_start _ _ _ He) as Hf.
  destruct (decide (evt_State e = RecoveryEventStateInProgress)) as [Hst|Hst].
  - eapply wp_mono; [by apply syncJobStatus_focus|]. cbn beta. intros [] w' (e' & Hf' & Hev).
    assert (onlyActive e e') by (right; by rewrite Hst). exists e'. split_and!; try done.
    by eapply listOK_active.
  - unfold syncJobStatus. do 4 focus_step. rewrite bool_decide_false by done. simpl.
    apply wp_ret. exists e. split_and!; [done|by left|reflexivity|]. by rewrite list_insert_id.
Qed.

Definition phasePost (T : RecoveryEvent → RecoveryEvent → Prop) w w' : Prop :=
  frame (mem w) (mem w') ∧ listOK (plan_Events (mem w')) ∧
  Forall2 evolves (plan_Events (mem w)) (plan_Events (mem w')) ∧
  Forall2 T (plan_Events (mem w)) (plan_Events (mem w')).

Lemma processDrains_spec w :
  listOK (plan_Events (mem w)) → wp (processDrains r) (λ _, phasePost onlyActive w) w.
Proof.
  intros Hok. unfold processDrains. apply wp_bind, wp_getMem. apply wp_forEvents_unit; [apply drainEvent_grows|done|].
  intros i w1 e _ Hok1 He. by apply drainEvent_step.
Qed.

Lemma syncJobStatuses_spec w :
  listOK (plan_Events (mem w)) → wp (syncJobStatuses r) (λ _, phasePost onlyActive w) w.
Proof.
  intros Hok. unfold syncJobStatuses. apply wp_bind, wp_getMem. apply wp_forEvents_unit; [apply syncJobStatus_grows|done|].
  intros i w1 e _ Hok1 He. by apply syncJobStatus_step.
Qed.

(** ** Approvals *)

(** The event was not under way, and approval [a] of plan [p] set it going. *)
Definition startedBy (B h : list Ev) (p : GPURecoveryPlan) (e e' : RecoveryEvent) (a : RecoveryApproval) : Prop :=
  authorizes B h p e a ∧ isActive (evt_State e) = false ∧ isActive (evt_State e') = true ∧
  evt_ApprovalID e' = ap_ID a.

(** The only way to get under way is to be started by an approval; otherwise the event waits, or is
    left alone. *)
Definition approvalStep (B : list Ev) (p : GPURecoveryPlan) (h : list Ev) (e e' : RecoveryEvent) : Prop :=
  e' = e ∨ approvable (evt_State e') = true ∨ ∃ a, startedBy B h p e e' a.

(** The loop variables of [processApprovals], against the events so far. *)
Record idsOK (B : list Ev) (p : GPURecoveryPlan) (ids : idSets) (h : list Ev) (l : list RecoveryEvent) : Prop := mkIdsOK {
  io_consumed : ∀ id, id ∈ ids.1 → ∃ j e e' a, plan_Events p !! j = Some e ∧ l !! j = Some e' ∧
    startedBy B h p e e' a ∧ ap_ID a = id ∧ ap_Persistent a = false;
  io_blocked : ∀ j e e', plan_Events p !! j = Some e → l !! j = Some e' →
    evt_State e' = RecoveryEventStateBlocked → evt_State e ≠ RecoveryEventStateBlocked →
    evt_ApprovalID e' ∈ ids.2;
}.

Lemma startedBy_mono B h h' p e e' a : h `suffix_of` h' → startedBy B h p e e' a → startedBy B h' p e e' a.
Proof. intros Hs (Ha & ?). split; [by eapply authorizes_mono|done]. Qed.

Lemma approvalStep_mono B p h h' e e' : h `suffix_of` h' → approvalStep B p h e e' → approvalStep B p h' e e'.
Proof.
  intros Hs [?|[?|(a & Ha)]]; [by left|by right; left|right; right]. exists a. by eapply startedBy_mono.
Qed.

Lemma idsOK_mono B p ids h h' l : h `suffix_of` h' → idsOK B p ids h l → idsOK B p ids h' l.
Proof.
  intros Hs [Hc Hb]. split; [|done]. intros id (j & e & e' & a & ? & ? & ? & ?)%Hc. exists j, e, e', a.
  split_and!; [done|done|by eapply startedBy_mono|naive_solver..].
Qed.

Lemma authorizes_frame B h p p' e a : frame p p' → authorizes B h p' e a → authorizes B h p e a.
Proof. intros Hf. unfold authorizes, plan_Approvals. by rewrite (fr_spec _ _ Hf). Qed.

Lemma approveEvent_step B p ids i e w :
  B `suffix_of` log w → frame p (mem w) → listOK (plan_Events (mem w)) → plan_Events p !! i = Some e →
  plan_Events (mem w) !! i = Some e → idsOK B p ids (log w) (plan_Events (mem w)) →
  wp (approveEvent r ids i) (λ ids' w', ∃ e', focus i e' (mem w) w' ∧ approvalStep B p (log w') e e' ∧
    evolves e e' ∧ idsOK B p ids' (log w') (<[i := e']> (plan_Events (mem w))) ∧
    listOK (<[i := e']> (plan_Events (mem w)))) w.
Proof.
  intros HB Hfr Hok Hp He Hids0. pose proof (focus_start _ _ _ He) as Hf.
  pose proof (Forall_lookup_1 _ _ _ _ (lo_evts _ Hok) He) as Hoe.
  apply wp_grows; [apply approveEvent_grows|]. eapply wp_mono; [by apply approveEvent_focus|]. cbn beta.
  intros ids' w' (e' & Hf' & [Hid Hev] & Hout) Hg. pose proof (idsOK_mono _ _ _ _ _ _ Hg Hids0) as Hids. destruct (Hev Hoe) as [Hoe' Hlc].
  assert (i < length (plan_Events (mem w))) as Hlt by by eapply lookup_lt_Some.
  assert (∀ j x x', plan_Events p !! j = Some x → <[i := e']> (plan_Events (mem w)) !! j = Some x' →
    j = i ∧ x = e ∧ x' = e' ∨ plan_Events (mem w) !! j = Some x') as Hcases.
  { intros j x x' Hx Hx'. destruct (decide (j = i)) as [->|Hne].
    - rewrite list_lookup_insert_eq in Hx' by done. left. split_and!; congruence.
    - rewrite list_lookup_insert_ne in Hx' by done. by right. }
  assert (∀ id, id ∈ ids.1 → ∃ j x x' a, plan_Events p !! j = Some x ∧
    <[i := e']> (plan_Events (mem w)) !! j = Some x' ∧ startedBy B (log w') p x x' a ∧ ap_ID a = id ∧
    ap_Persistent a = false) as Hcons.
  { intros id (j & x & x' & a & Hx & Hx' & Hs & ?)%(io_consumed _ _ _ _ _ Hids).
    exists j, x, x', a. split_and!; try done; [|naive_solver..].
    rewrite list_lookup_insert_ne; [done|]. intros <-. destruct Hs as (_ & H1 & H2 & _). congruence. }
  exists e'. split; [done|]. destruct Hout as [-> Hst|a Ha Hst Hap ->|a Ha Hin Hbusy Hact Hap ->].
  - assert (approvalStep B p (log w') e e') as Hstep by (destruct Hst as [->|[? _]]; [by left|by right; left]).
    split_and!; [done|by split| |].
    + split; [done|]. intros j x x' Hx Hx' Hb Hnb. destruct (Hcases _ _ _ Hx Hx') as [(-> & -> & ->)|Hj].
      * destruct Hst as [->|[_ Hst]]; [done|]. by destruct Hnb; auto.
      * by eapply (io_blocked _ _ _ _ _ Hids).
    + destruct Hst as [->|[Hst _]]; [by rewrite list_insert_id|].
      eapply listOK_insert; [done..|by apply sameIdent_key|]. by rewrite approvable_inactive.
  - split_and!; [right; left; by rewrite Hst|by split| |].
    + split; [done|]. intros j x x' Hx Hx' Hb Hnb. simpl. destruct (Hcases _ _ _ Hx Hx') as [(-> & -> & ->)|Hj].
      * rewrite Hap. set_solver.
      * apply elem_of_union. right. by eapply (io_blocked _ _ _ _ _ Hids).
    + eapply listOK_insert; [done..|by apply sameIdent_key|]. by rewrite Hst.
  - assert (startedBy B (log w') p e e' a) as Hs by (split_and!; [by eapply authorizes_frame|done..]).
    split_and!; [right; right; by exists a|by split| |].
    + split.
      * intros id Hid'. destruct (ap_Persistent a) eqn:Hpers; [by apply Hcons|]. simpl in Hid'.
        apply elem_of_union in Hid' as [->%elem_of_singleton|Hid']; [|by apply Hcons].
        exists i, e, e', a. split_and!; try done. by rewrite list_lookup_insert_eq.
      * intros j x x' Hx Hx' Hb Hnb.
        assert (evt_ApprovalID x' ∈ ids.2); [|by destruct (ap_Persistent a)].
        destruct (Hcases _ _ _ Hx Hx') as [(-> & -> & ->)|Hj]; [by rewrite Hb in Hact|].
        by eapply (io_blocked _ _ _ _ _ Hids).
    + eapply listOK_insert; [done..|by apply sameIdent_key|]. intros _. split; [apply Hid|by right].
Qed.

(** The approvals marked at the end of [processApprovals]. *)
Definition spentIDs (ids : idSets) (id : string) : bool := bool_decide (id ∈ ids.1 ∧ id ∉ ids.2).

Lemma consumeApprovals_spec ids w :
  wp (consumeApprovals ids) (λ _ w', ∃ l, mem w' = set_plan_Approvals l (mem w) ∧
    (NoDup (ap_ID <$> plan_Approvals (mem w)) →
     l = spend (spentIDs ids) (λ _, false) (plan_Approvals (mem w)))) w.
Proof.
  unfold consumeApprovals. apply wp_bind, wp_rangeMap. intros l Hperm.
  set (la := plan_Approvals (mem w)). eapply wp_mono.
  { apply (wp_forEach _ (λ done w', ∃ l, mem w' = set_plan_Approvals l (mem w) ∧
      (NoDup (ap_ID <$> la) →
       l = spend (λ id, bool_decide (id ∈ done ∧ id ∉ ids.2)) (λ _, false) la))).
    { exists la. split; [by destruct w as [[? ? ? ? [] ?] ?]|]. intros _.
      rewrite <- (spend_id la) at 1. unfold spend. apply list_fmap_ext. intros j a _.
      by rewrite bool_decide_false by set_solver. }
    intros pre id post w1 _ (l1 & Hm & Hl1). case_bool_decide as Hin.
    - apply wp_ret. exists l1. split; [done|]. intros Hnd. rewrite (Hl1 Hnd). unfold spend.
      apply list_fmap_ext. intros j a _. erewrite bool_decide_ext; [done|]. set_solver.
    - apply wp_modMem. cbn [mem]. exists (consumeFirst id l1). rewrite Hm. split; [done|].
      intros Hnd. rewrite (Hl1 Hnd), consumeFirst_spend, spend_spend.
      2:{ rewrite spend_ids. rewrite <- (spend_id la) in Hnd. unfold spend in Hnd.
          by rewrite list_fmap_id in Hnd. }
      unfold spend. cbn [orb]. apply list_fmap_ext. intros j a _.
      assert (bool_decide (ap_ID a ∈ pre ∧ ap_ID a ∉ ids.2) || bool_decide (ap_ID a = id)
              = bool_decide (ap_ID a ∈ pre ++ [id] ∧ ap_ID a ∉ ids.2)) as ->; [|done].
      rewrite <- bool_decide_or. apply bool_decide_ext. set_solver. }
  cbn beta. intros [] w' (l' & Hm & Hl'). exists l'. split; [done|]. intros Hnd. rewrite (Hl' Hnd).
  unfold spend. apply list_fmap_ext. intros j a _. unfold spentIDs.
  erewrite bool_decide_ext; [done|]. rewrite Hperm. set_solver.
Qed.

(** [processApprovals]: the events move by [approvalStep] only, and an approval is spent only when a
    recovery was started by it and none of the events it covers was newly held back. *)
Lemma processApprovals_spec w :
  listOK (plan_Events (mem w)) →
  wp (processApprovals r) (λ _ w', ∃ w1 ids, phasePost (approvalStep (log w) (mem w) (log w')) w w1 ∧
    idsOK (log w) (mem w) ids (log w') (plan_Events (mem w1)) ∧
    ∃ l, mem w' = set_plan_Approvals l (mem w1) ∧
      (NoDup (ap_ID <$> plan_Approvals (mem w)) →
       l = spend (spentIDs ids) (λ _, false) (plan_Approvals (mem w)))) w.
Proof.
  intros Hok. unfold processApprovals. apply wp_bind, wp_getMem, wp_bind. eapply wp_mono.
  { apply (wp_forEvents (approveEvent r) (approvalStep (log w) (mem w)) (idsOK (log w) (mem w)));
      [apply approveEvent_grows|intros *; apply approvalStep_mono| |done|].
    - split; [intros id []%elem_of_empty|]. intros j e e' H1 H2. congruence.
    - intros i ids w1 e Hids Hg1 Hfr Hok1 He He1. by apply approveEvent_step. }
  cbn beta. intros ids w1 (Hids & Hfr & Hok1 & Hev & HT). apply wp_grows; [apply consumeApprovals_grows|].
  eapply wp_mono; [apply consumeApprovals_spec|]. cbn beta. intros [] w2 (l & Hm & Hl) Hg.
  exists w1, ids. split.
  { split_and!; [done..|]. eapply Forall2_impl; [exact HT|]. intros ? ?. by apply approvalStep_mono. }
  split; [by eapply idsOK_mono|]. exists l. split; [done|].
  assert (plan_Approvals (mem w1) = plan_Approvals (mem w)) as Ha
    by (unfold plan_Approvals; by rewrite (fr_spec _ _ Hfr)).
  by rewrite Ha in Hl.
Qed.

(** ** Detection *)

Lemma syncRecoveryEventsFromSlices_spec w :
  listOK (plan_Events (mem w)) →
  wp (syncRecoveryEventsFromSlices r) (λ o w', frame (mem w) (mem w') ∧ listOK (plan_Events (mem w')) ∧
    match o with
    | Some _ => mem w' = mem w
    | None => ∃ slices, env_listSlices (log w) = Ok slices ∧
        let active := activeKeys (plan_Spec (mem w)) slices in
        (∃ ex, evtKey <$> plan_Events (mem w')
               = (evtKey <$> filter (keepEvent active) (plan_Events (mem w))) ++ ex ∧
               Forall (λ k, is_Some (active !! k)) ex) ∧
        ∀ k n, active !! k = Some n → covers (plan_Events (mem w')) k n ∨
          length (plan_Events (mem w')) = maxStatusEvents
    end) w.
Proof.
  intros Hok. unfold syncRecoveryEventsFromSlices. wp_steps.
  destruct (env_listSlices (log w)) as [slices|e] eqn:Hl; [|by apply wp_ret].
  apply wp_bind, wp_getMem, wp_bind. eapply wp_mono; [apply removeResolvedEvents_spec|].
  cbn beta. cbn [mem]. intros [] w1 [Hfr Hev]. apply wp_bind.
  eapply wp_mono.
  { apply addNewEvents_spec; [rewrite Hev; by apply listOK_filter|]. intros k n. apply activeKeys_ok. }
  cbn beta. intros [] w2 [Hd Hcov]. apply wp_ret. split_and!.
  - etrans; [exact Hfr|apply Hd].
  - apply Hd.
  - exists slices. split; [done|]. split; [|done].
    destruct (de_keys _ _ _ Hd) as (ex & Hex & HF). exists ex. by rewrite Hex, Hev.
Qed.

(** ** Taints and the plan state *)

(** The plan has gained messages at most. *)
Definition msgOnly w w' : Prop :=
  frame (mem w) (mem w') ∧ plan_Events (mem w') = plan_Events (mem w).

#[global] Instance msgOnly_preorder : PreOrder msgOnly.
Proof.
  split; [done|]. intros w1 w2 w3 [F1 E1] [F2 E2]. split; [by etrans|congruence].
Qed.

Lemma appendMessage_msgOnly m : keeps msgOnly (appendMessage m).
Proof. intros w. split; [apply frame_appendMessage|apply appendMessagePlan_events]. Qed.

Lemma sameMem_msgOnly {A} (m : POp A) : keeps sameMem m → keeps msgOnly m.
Proof. intros Hm w. specialize (Hm w). unfold sameMem in Hm. unfold msgOnly. by rewrite Hm. Qed.

Lemma untaintNodesExcept_msgOnly keep : keeps msgOnly (untaintNodesExcept keep).
Proof.
  unfold untaintNodesExcept. apply keeps_bind; [apply _|apply keeps_getMem; apply _|]. intros plan. cbv zeta.
  apply keeps_bind; [apply _|apply sameMem_msgOnly; auto with keeps|]. intros [tainted|e]; [|apply keeps_ret; apply _].
  apply keeps_forEach; [apply _|]. intros n _. case_bool_decide; [apply keeps_ret; apply _|].
  apply keeps_bind; [apply _|apply sameMem_msgOnly; auto with keeps|].
  intros [?|?]; [apply keeps_ret; apply _|apply appendMessage_msgOnly].
Qed.

(** ** One pass over a well-formed plan *)

(** An event that is under way was under way before, or an unspent approval covers it. *)
Definition underAuthority (B h : list Ev) (p : GPURecoveryPlan) (e e' : RecoveryEvent) : Prop :=
  isActive (evt_State e') = true → isActive (evt_State e) = true ∨ ∃ a, authorizes B h p e a.

(** From plan [p] and history [B] to plan [p'] and history [h]. *)
Record passPost (B h : list Ev) (p p' : GPURecoveryPlan) : Prop := mkPassPost {
  pp_name : plan_Name p' = plan_Name p;
  pp_gen : plan_Generation p' = plan_Generation p;
  pp_spec : set_sp_Approvals [] (plan_Spec p') = set_sp_Approvals [] (plan_Spec p);
  pp_msgs : length (plan_Messages p) ≤ maxStatusMessages → length (plan_Messages p') ≤ maxStatusMessages;
  pp_ok : listOK (plan_Events p');
  pp_evolves : Forall2 evolves (plan_Events p) (plan_Events p');
  pp_auth : Forall2 (underAuthority B h p) (plan_Events p) (plan_Events p');
  pp_approvals : NoDup (ap_ID <$> plan_Approvals p) →
    ∃ C R, plan_Approvals p' = spend C R (plan_Approvals p);
  pp_state : st_State (plan_Status p') = planState p';
}.

Lemma frame_approvals p p' : frame p p' → plan_Approvals p' = plan_Approvals p.
Proof. intros Hf. unfold plan_Approvals. by rewrite (fr_spec _ _ Hf). Qed.

Lemma NoDup_key_inj (l : list RecoveryApproval) a b :
  NoDup (ap_ID <$> l) → a ∈ l → b ∈ l → ap_ID a = ap_ID b → a = b.
Proof.
  intros Hnd Ha Hb Heq. pose proof (filter_key_NoDup _ _ Hnd Ha) as H1.
  pose proof (filter_key_NoDup _ _ Hnd Hb) as H2. rewrite Heq, H2 in H1. by injection H1.
Qed.

Lemma prune_spend p :
  NoDup (ap_ID <$> plan_Approvals p) →
  ∃ R, filter (λ a, prunable p a = false) (plan_Approvals p) = spend (λ _, false) R (plan_Approvals p).
Proof.
  intros Hnd.
  exists (λ id, existsb (λ a, bool_decide (ap_ID a = id) && prunable p a) (plan_Approvals p)).
  unfold spend. rewrite list_fmap_id. apply filter_ext_elem. intros a Ha.
  destruct (existsb _ _) eqn:Hex.
  - apply existsb_exists in Hex as (b & Hb%list_elem_of_In & Hpr).
    apply andb_true_iff in Hpr as [Hid%bool_decide_eq_true Hpr].
    by rewrite (NoDup_key_inj _ b a Hnd Hb Ha Hid) in Hpr; rewrite Hpr.
  - split; [done|]. intros _. destruct (prunable p a) eqn:Hpr; [|done]. exfalso.
    apply not_true_iff_false in Hex. apply Hex, existsb_exists. exists a.
    split; [by apply list_elem_of_In|]. by rewrite bool_decide_true, Hpr.
Qed.

Lemma spend_NoDup C R l : NoDup (ap_ID <$> l) → NoDup (ap_ID <$> spend C R l).
Proof. intros Hnd. rewrite spend_ids. by apply NoDup_fmap_filter. Qed.

Lemma underAuthority_intro B h p e e1 e2 e3 :
  approvalStep B p h e e1 → onlyActive e1 e2 → onlyActive e2 e3 → underAuthority B h p e e3.
Proof.
  intros Hs Ha Hb Hact. assert (isActive (evt_State e1) = true) as H1.
  { destruct Ha as [->|Ha]; [|done]. by destruct Hb as [->|Hb]. }
  destruct Hs as [->|[Hs|(a & Hs & _)]]; [by left| |right; by exists a].
  by rewrite approvable_inactive in H1.
Qed.

Lemma Forall2_compose3 {A} (P Q S T : A → A → Prop) l1 l2 l3 l4 :
  (∀ a b c d, P a b → Q b c → S c d → T a d) →
  Forall2 P l1 l2 → Forall2 Q l2 l3 → Forall2 S l3 l4 → Forall2 T l1 l4.
Proof.
  intros HT H12. revert l3 l4. induction H12 as [|a b l1 l2 Hab _ IH]; intros l3 l4 H23 H34.
  - inversion H23; subst. inversion H34; subst. constructor.
  - inversion H23; subst. inversion H34; subst. constructor; eauto.
Qed.

Lemma reconcilePhases_spec w :
  listOK (plan_Events (mem w)) →
  wp (reconcilePhases r) (λ res w', passPost (log w) (log w') (mem w) (mem w') ∧ res.2 = None) w.
Proof.
  intros Hok. unfold reconcilePhases. apply wp_bind. eapply wp_mono; [by apply processApprovals_spec|].
  cbn beta. intros [] w2 (w1 & ids & (F1 & O1 & E1 & T1) & Hids & l & Hm2 & Hl).
  assert (plan_Events (mem w2) = plan_Events (mem w1)) as Hev2 by by rewrite Hm2.
  apply wp_bind. apply wp_grows; [apply processDrains_grows|].
  eapply wp_mono; [apply processDrains_spec; by rewrite Hev2|]. cbn beta. intros [] w3 (F3 & O3 & E3 & T3) G3.
  apply wp_bind. apply wp_grows; [apply syncJobStatuses_grows|].
  eapply wp_mono; [by apply syncJobStatuses_spec|]. cbn beta. intros [] w4 (F4 & O4 & E4 & T4) G4. rewrite Hev2 in E3, T3.
  apply wp_bind, wp_modMem. apply wp_bind. unfold reconcileDrainTaints. apply wp_bind, wp_getMem.
  apply wp_grows; [apply untaintNodesExcept_grows|].
  eapply wp_mono; [apply keeps_wp, untaintNodesExcept_msgOnly|]. intros [] w5 [F5 E5] G5.
  cbn [mem log] in F5, E5, G5. change (plan_Events (pruneConsumedApprovals (mem w4))) with (plan_Events (mem w4)) in E5.
  unfold updatePlanState. apply wp_bind, wp_modMem, wp_bind, wp_getMem. cbn [mem].
  set (p' := set_plan_State _ _).
  assert (plan_Events p' = plan_Events (mem w4)) as Hev by exact E5.
  assert (passPost (log w) (log w5) (mem w) p') as Hpost; [|by destruct (hasActiveJobs p'); apply wp_ret].
  assert (plan_Approvals (mem w4) = l) as Ha4.
  { rewrite (frame_approvals _ _ F4), (frame_approvals _ _ F3), Hm2. done. }
  split; rewrite ?Hev.
  - etrans; [apply (fr_name _ _ F5)|]. cbn.
    by rewrite (fr_name _ _ F4), (fr_name _ _ F3), Hm2, <- (fr_name _ _ F1).
  - etrans; [apply (fr_gen _ _ F5)|]. cbn.
    by rewrite (fr_gen _ _ F4), (fr_gen _ _ F3), Hm2, <- (fr_gen _ _ F1).
  - change (plan_Spec p') with (plan_Spec (mem w5)). rewrite (fr_spec _ _ F5). cbn.
    rewrite (fr_spec _ _ F4), (fr_spec _ _ F3), Hm2. cbn. by rewrite <- (fr_spec _ _ F1).
  - intros Hm. apply (fr_msgs _ _ F5), (fr_msgs _ _ F4), (fr_msgs _ _ F3). rewrite Hm2.
    by apply (fr_msgs _ _ F1).
  - done.
  - eapply Forall2_compose3; [|exact E1|exact E3|exact E4]. intros ? ? ? ? ? ? ?. etrans; [done|]. by etrans.
  - eapply Forall2_compose3; [|exact T1|exact T3|exact T4]. intros a b c d Hs.
    apply underAuthority_intro. eapply approvalStep_mono; [|exact Hs]. etrans; [exact G3|]. by etrans.
  - intros Hnd. assert (plan_Approvals p' = filter (λ a, prunable (mem w4) a = false) l) as ->.
    { change (plan_Approvals p') with (plan_Approvals (mem w5)).
      rewrite (frame_approvals _ _ F5). unfold pruneConsumedApprovals. by rewrite plan_Approvals_set, Ha4. }
    destruct (prune_spend (mem w4)) as [R HR].
    { rewrite Ha4, Hl by done. by apply spend_NoDup. }
    rewrite Ha4 in HR. rewrite HR, Hl, spend_spend by done. by eexists _, _.
  - done.
Qed.
End Phases.
