(* ===== verification/RecoveryTrace.v ===== *)
(** * GPU recovery: what a pass writes to the cluster

    A logic for trace properties.  A [Scope] is the part of a pass that stays put: the history it
    started from, the name and spec of the plan apart from the approvals, and, once detection is over,
    the identities of its events.  [traced K L m] says that [m], run within the scope [K] after the
    exchanges [L] were made, stays within the scope and only logs exchanges [passEv] allows in the
    history they are made in.  It bounds the whole footprint of a reconcile pass: which node taints it
    writes, which pods it evicts, and in which circumstances it creates a recovery Job. *)

From S2P Require Import Prelude GoStrings KubeTypes ApiTypes Common Client Drain Cluster OpenShift.
From S2P Require Import RecoveryNaming RecoveryEvents RecoveryEventsFacts RecoveryController.
From S2P Require Import RecoveryFocus RecoveryInv RecoveryDetection RecoveryPhases.

Definition planKey (p : GPURecoveryPlan) : string * GPURecoveryPlanSpec :=
  (plan_Name p, set_sp_Approvals [] (plan_Spec p)).

(** What no step of an event's life changes. *)
Definition identOf (e : RecoveryEvent) : string * string * string := (evt_ID e, evt_NodeName e, evt_GPUBDF e).

Record Scope := mkScope {
  sc_base : list Ev;
  sc_key : string * GPURecoveryPlanSpec;
  sc_ids : option (list (string * string * string));
}.

Definition within (K : Scope) (p : GPURecoveryPlan) : Prop :=
  planKey p = sc_key K ∧ ∀ l, sc_ids K = Some l → identOf <$> plan_Events p = l.

Definition known (K : Scope) (L h : list Ev) : Prop :=
  sc_base K `suffix_of` h ∧ Forall (seen (sc_base K) h) L.

Lemma known_nil K h : sc_base K `suffix_of` h → known K [] h.
Proof. by split. Qed.

Lemma known_mono K L h h' : h `suffix_of` h' → known K L h → known K L h'.
Proof.
  intros Hs [Hb HL]. split; [by etrans|]. eapply Forall_impl; [exact HL|]. intros e. by apply seen_mono.
Qed.

Lemma known_cons K L h e : known K L h → known K (e :: L) (e :: h).
Proof.
  intros Hk. pose proof Hk as [Hb _]. assert (h `suffix_of` e :: h) as Hs by by exists [e].
  split; [by etrans|]. constructor; [by apply seen_now|]. by apply (known_mono K L h).
Qed.

Lemma known_head K L h e : known K (e :: L) h → seen (sc_base K) h e.
Proof. intros [_ HL]. by apply Forall_inv in HL. Qed.

Abbreviation skipped K := (dr_NamespacesToSkip (sp_Drain (sc_key K).2)).

Section Trace.
Context `{!Env} (r : GPURecoveryPlanReconciler).
Implicit Types (K : Scope) (L h : list Ev) (w : World Ev GPURecoveryPlan).

(** A node is written back with the plan's own taint added or removed. *)
Definition taintEv K h (n : Node) : Prop :=
  let t := recoveryTaint (sc_key K).1 in
  ∃ name x, seen (sc_base K) h (EvGetNode name (Ok x)) ∧
    (n = set_node_taints (node_taints x ++ [t]) x ∧ hasTaint t x = false ∨
     n = set_node_taints (filter (λ y, taintsEqual y t = false) (node_taints x)) x).

(** A pod that was listed on a node and that the drain may evict. *)
Definition evictEv K h (ns name : string) : Prop :=
  ∃ node pods pod, seen (sc_base K) h (EvListPodsOnNode node (Ok pods)) ∧ pod ∈ pods ∧
    pod_namespace pod = ns ∧ pod_name pod = name ∧
    (classifyPodForDrain pod (Namespace (Opts r)) (skipped K)).1 = drainEvict.

(** The API server has shown the node free of pods the drain waits for. *)
Definition nodeClear (B h : list Ev) (skip : list string) (node : string) : Prop :=
  ∃ pods, seen B h (EvListPodsOnNode node (Ok pods)) ∧
    ∀ pod, pod ∈ pods → (classifyPodForDrain pod (Namespace (Opts r)) skip).1 = drainIgnore.

(** A reservation by a pod the drain leaves in place. *)
Definition heldByUndrainable (B h : list Ev) (skip : list string) (ns : string) (c : ConsumerRef) : Prop :=
  cr_apiGroup c = "" ∧ cr_resource c = "pods" ∧
  ∃ pod, seen B h (EvGetPod ns (cr_name c) (Ok pod)) ∧ pod_uid pod = cr_uid c ∧
    is_Some (DrainNeverEvicts pod (Namespace (Opts r)) skip).

(** Every reservation of the claim is by such a pod. *)
Definition undrainable (B h : list Ev) (skip : list string) (claim : ResourceClaim) : Prop :=
  ∀ c, c ∈ rc_reservedFor claim → heldByUndrainable B h skip (rc_namespace claim) c.

(** The API server has shown the GPU published by no slice, or reserved by no claim but those. *)
Definition gpuReleased (B h : list Ev) (skip : list string) (node bdf : string) : Prop :=
  ∃ slices, seen B h (EvListSlices (Ok slices)) ∧
    let devices := poolDevicesForBDF slices node bdf in
    devices = ∅ ∨
    ∃ claims, seen B h (EvListClaims (Ok claims)) ∧
      ∀ c, c ∈ claims → claimReserves devices c = true → undrainable B h skip c.

(** The recovery of the event needs no drain, or this pass has seen the drain to be complete. *)
Definition drained K h (e : RecoveryEvent) : Prop :=
  (∃ p, within K p ∧ needsDrain p e = false) ∨
  nodeClear (sc_base K) h (skipped K) (evt_NodeName e) ∧
  gpuReleased (sc_base K) h (skipped K) (evt_NodeName e) (evt_GPUBDF e).

(** What the Job runs: one container, one shell command line. *)
Definition jobRuns (spec : GPURecoveryPlanSpec) (e : RecoveryEvent) (j : Job) : Prop :=
  ∃ c cmd, ps_containers (job_template j) = [c] ∧ c_image c = xs_Image (sp_XpuSmi spec) ∧
    c_args c = [cmd] ∧
    if IsReflash (evt_RecoveryType e)
    then ∃ fw, sp_Firmware spec = Some fw ∧ cmd = buildFDOFlashCommand (evt_GPUBDF e) (fw_File fw)
    else cmd = buildResetCommand (evt_GPUBDF e) (rt_Type (evt_RecoveryType e)) ∧ cmd ≠ "".

(** A Job is created for an event whose node is ready for it. *)
Definition jobEv K h (j : Job) : Prop :=
  ∃ p e, within K p ∧ e ∈ plan_Events p ∧ jobFor r p e j ∧ jobRuns (sc_key K).2 e j ∧ drained K h e.

Definition passEv K h (e : Ev) : Prop :=
  match e with
  | EvUpdatePlan _ _ | EvUpdatePlanStatus _ _ | EvUpdateFU _ _ | EvUpdateFUStatus _ _ => False
  | EvUpdateNode n _ => taintEv K h n
  | EvEvict ns name _ => evictEv K h ns name
  | EvCreateJob j _ => jobEv K h j
  | _ => True
  end.

Lemma heldByUndrainable_mono B h h' skip ns c :
  h `suffix_of` h' → heldByUndrainable B h skip ns c → heldByUndrainable B h' skip ns c.
Proof. intros Hs (? & ? & pod & ? & ?). split_and!; [done..|]. exists pod. split; [by eapply seen_mono|done]. Qed.

Lemma undrainable_mono B h h' skip claim : h `suffix_of` h' → undrainable B h skip claim → undrainable B h' skip claim.
Proof. intros Hs Hu c Hc. eapply heldByUndrainable_mono; [done|]. by apply Hu. Qed.

Lemma nodeClear_mono B h h' skip n : h `suffix_of` h' → nodeClear B h skip n → nodeClear B h' skip n.
Proof. intros Hs (pods & ? & ?). exists pods. split; [by eapply seen_mono|done]. Qed.

Lemma gpuReleased_mono B h h' skip n b : h `suffix_of` h' → gpuReleased B h skip n b → gpuReleased B h' skip n b.
Proof.
  intros Hs (slices & ? & Hc). exists slices. split; [by eapply seen_mono|]. destruct Hc as [?|(claims & ? & Hu)]; [by left|].
  right. exists claims. split; [by eapply seen_mono|]. intros c Hin Hr. eapply undrainable_mono; [done|]. by apply Hu.
Qed.

Lemma drained_mono K h h' e : h `suffix_of` h' → drained K h e → drained K h' e.
Proof.
  intros Hs [?|[? ?]]; [by left|right]. split; [by eapply nodeClear_mono|by eapply gpuReleased_mono].
Qed.

Definition traced {A} K L (m : POp A) : Prop :=
  ∀ w, within K (mem w) → known K L (log w) → within K (mem (m w).2) ∧ loggedIn (passEv K) w (m w).2.

Lemma traced_ret {A} K L (a : A) : traced K L (mret a).
Proof. intros w Hk _. split; [done|]. simpl. reflexivity. Qed.

Lemma traced_bind {A B} K L (m : POp A) (f : A → POp B) :
  traced K L m → (∀ a, traced K L (f a)) → traced K L (m ≫= f).
Proof.
  intros Hm Hf w Hk HL. destruct (Hm w Hk HL) as [Hk1 Hl1].
  destruct (Hf (m w).1 (m w).2 Hk1) as [Hk2 Hl2].
  { eapply known_mono; [|exact HL]. by eapply loggedIn_grows. }
  split; [done|]. by etrans.
Qed.

Lemma traced_getMem_bind {B} K L (f : GPURecoveryPlan → POp B) :
  (∀ p, within K p → traced K L (f p)) → traced K L (getMem ≫= f).
Proof. intros Hf w Hk HL. by apply (Hf (mem w)). Qed.

Lemma traced_modMem K L f :
  (∀ p, planKey (f p) = planKey p ∧ (sc_ids K = None ∨ identOf <$> plan_Events (f p) = identOf <$> plan_Events p)) →
  traced K L (modMem f).
Proof.
  intros Hf w [Hk Hi] _. destruct (Hf (mem w)) as [Hk' Hi']. split; [|by exists []]. split; simpl; [congruence|].
  intros l Hl. destruct Hi' as [?|Hi']; [congruence|]. rewrite Hi'. by apply Hi.
Qed.

Lemma traced_exchange {A} K L (f : list Ev → A) mk :
  (∀ h, known K L h → passEv K h (mk (f h))) → traced K L (exchange f mk).
Proof. intros HP w Hk HL. split; [done|]. apply loggedIn_one. by apply HP. Qed.

(** The continuation may rely on the exchange having been made. *)
Lemma traced_exchange_bind {A B} K L (f : list Ev → A) mk (g : A → POp B) :
  (∀ h, known K L h → passEv K h (mk (f h)) ∧ traced K (mk (f h) :: L) (g (f h))) →
  traced K L (exchange f mk ≫= g).
Proof.
  intros HP w Hk HL. destruct (HP (log w) HL) as [H1 H2].
  destruct (H2 (mkWorld (mem w) (mk (f (log w)) :: log w)) Hk) as [H3 H4]; [by apply known_cons|].
  split; [done|]. etrans; [|exact H4]. by apply loggedIn_one.
Qed.

Lemma traced_forEach {A} K L (f : A → POp unit) l : (∀ x, x ∈ l → traced K L (f x)) → traced K L (forEach f l).
Proof.
  induction l as [|x l IH]; intros Hf; simpl; [apply traced_ret|].
  apply traced_bind; [apply Hf; by left|]. intros _. apply IH. intros y Hy. apply Hf. by right.
Qed.

Lemma traced_foldEach {A B} K L (f : B → A → POp B) b l :
  (∀ b x, x ∈ l → traced K L (f b x)) → traced K L (foldEach f b l).
Proof.
  revert b. induction l as [|x l IH]; intros b Hf; simpl; [apply traced_ret|].
  apply traced_bind; [apply Hf; by left|]. intros b'. apply IH. intros b'' y Hy. apply Hf. by right.
Qed.

Lemma traced_foldUntil {A B C} K L (f : B → A → POp (B + C)) b l :
  (∀ b x, x ∈ l → traced K L (f b x)) → traced K L (foldUntil f b l).
Proof.
  revert b. induction l as [|x l IH]; intros b Hf; simpl; [apply traced_ret|].
  apply traced_bind; [apply Hf; by left|]. intros [b'|?]; [|apply traced_ret].
  apply IH. intros b'' y Hy. apply Hf. by right.
Qed.

Lemma traced_rangeMap {A} K L (l : list A) : traced K L (rangeMap l).
Proof. intros w Hk _. split; [done|]. simpl. reflexivity. Qed.

(** An operation of a lower layer that leaves the plan alone. *)
Lemma traced_lower {A} K L (m : POp A) : keeps sameMem m → keeps (loggedIn (passEv K)) m → traced K L m.
Proof. intros Hm Hl w Hk _. split; [by rewrite (Hm w)|apply Hl]. Qed.

Lemma traced_appendMessage K L m : traced K L (appendMessage m).
Proof.
  apply traced_modMem. intros p. split; [unfold appendMessagePlan; by case_match|].
  right. by rewrite appendMessagePlan_events.
Qed.

Lemma traced_modEvents K L f :
  (∀ l, sc_ids K = None ∨ identOf <$> f l = identOf <$> l) → traced K L (modEvents f).
Proof. intros Hf. apply traced_modMem. intros p. split; [done|]. apply Hf. Qed.

Lemma traced_modEvt K L i f :
  (∀ e, sc_ids K = None ∨ identOf (f e) = identOf e) → traced K L (modEvt i f).
Proof.
  intros Hf. apply traced_modEvents. intros l. destruct (sc_ids K) as [ids|] eqn:Hi; [right|by left].
  apply list_eq. intros j. rewrite !list_lookup_fmap. destruct (decide (i = j)) as [<-|Hne].
  - rewrite list_lookup_alter_eq. destruct (l !! i) as [e|]; [|done]. simpl. f_equal.
    by destruct (Hf e) as [?|?].
  - by rewrite list_lookup_alter_ne.
Qed.
End Trace.

Create HintDb traced discriminated.
#[export] Hint Resolve traced_appendMessage traced_rangeMap : traced.
#[export] Hint Extern 2 (traced _ _ _ (modEvt _ _)) =>
  apply traced_modEvt; intros ?; first [left; assumption|right; reflexivity] : traced.
#[export] Hint Extern 2 (traced _ _ _ (modEvents _)) =>
  apply traced_modEvents; intros ?; left; assumption : traced.

Ltac traced_step :=
  match goal with
  | |- traced _ _ _ (mret _) => apply traced_ret
  | |- traced _ _ _ (mbind _ getMem) => apply traced_getMem_bind; intros ? ?
  | |- traced _ _ _ (mbind _ _) => apply traced_bind; [|intros ?]
  | |- traced _ _ _ (forEach _ _) => apply traced_forEach; intros ? ?
  | |- traced _ _ _ (foldEach _ _ _) => apply traced_foldEach; intros ? ? ?
  | |- traced _ _ _ (foldUntil _ _ _) => apply traced_foldUntil; intros ? ? ?
  | |- traced _ _ _ (match ?x with _ => _ end) => destruct x
  | |- traced _ _ _ (let _ := _ in _) => cbv zeta
  | |- traced _ _ _ _ => solve [eauto with traced]
  | |- traced _ _ _ _ => apply traced_exchange; intros ? _; exact I
  end.
Ltac traced_auto := repeat (intros; cbn beta; traced_step).

Section Footprint.
Context `{!Env} (r : GPURecoveryPlanReconciler).
Implicit Types (K : Scope) (L : list Ev).

Lemma traced_getEvt K L i : traced r K L (getEvt i).
Proof. unfold getEvt. traced_auto. Qed.
Hint Resolve traced_getEvt : traced.

Lemma traced_setEventState K L i st t : traced r K L (setEventState i st t).
Proof. unfold setEventState. traced_auto. Qed.
Hint Resolve traced_setEventState : traced.

Lemma traced_deleteJobByName K L n : traced r K L (deleteJobByName r n).
Proof. unfold deleteJobByName. traced_auto. Qed.
Hint Resolve traced_deleteJobByName : traced.

Lemma traced_deleteEventJobs K L e : traced r K L (deleteEventJobs r e).
Proof. unfold deleteEventJobs. traced_auto. Qed.
Hint Resolve traced_deleteEventJobs : traced.

Lemma traced_deleteAllJobs K L : traced r K L (deleteAllJobs r).
Proof. unfold deleteAllJobs. traced_auto. Qed.

Lemma traced_prepareRecoveryJob K L j i : traced r K L (prepareRecoveryJob r j i).
Proof. unfold prepareRecoveryJob. traced_auto. Qed.
Hint Resolve traced_prepareRecoveryJob : traced.

(** The Job as it is prepared from the event read. *)
Lemma prepareRecoveryJob_wp job i w :
  wp (prepareRecoveryJob r job i) (λ j w', jobFor r (mem w) (plan_Events (mem w) !!! i) j ∧
    ps_containers (job_template j) = ps_containers (job_template job) ∧
    ps_initContainers (job_template j) = ps_initContainers (job_template job)) w.
Proof.
  unfold prepareRecoveryJob, getEvt. wp_steps.
  destruct (env_setControllerReference _ _ _); unfold appendMessage; wp_steps; (split; [|done]); split;
    simpl; try done; first [apply lookup_insert_eq|etrans; [by apply lookup_insert_ne|apply lookup_insert_eq]].
Qed.

(** A world within the scope, and [m] started there staying within the footprint. *)
Definition inScope K w : Prop := within K (mem w) ∧ sc_base K `suffix_of` log w.

Definition tracedAt {A} K (m : POp A) w : Prop :=
  wp m (λ _ w', within K (mem w') ∧ loggedIn (passEv r K) w w') w.

Lemma tracedAt_traced {A} K (m : POp A) w : traced r K [] m → inScope K w → tracedAt K m w.
Proof. intros Ht [Hk Hb]. apply Ht; [done|]. by apply known_nil. Qed.

(** Sequencing, with what is known of the first part. *)
Lemma tracedAt_bind {A B} K (m : POp A) (f : A → POp B) (Q : A → World Ev GPURecoveryPlan → Prop) w :
  sc_base K `suffix_of` log w → tracedAt K m w → wp m Q w →
  (∀ a w', inScope K w' → log w `suffix_of` log w' → Q a w' → tracedAt K (f a) w') → tracedAt K (m ≫= f) w.
Proof.
  intros Hb [Hk Hl] HQ Hf. unfold tracedAt. apply wp_bind. unfold wp.
  pose proof (loggedIn_grows _ _ _ Hl) as Hg. unfold grows in Hg.
  destruct (Hf (m w).1 (m w).2) as [Hk2 Hl2]; [by split; [|by etrans]|done|done|]. split; [done|]. by etrans.
Qed.

Lemma tracedAt_createOrAdopt {B} K j (f : option GoErr → POp B) w :
  inScope K w → jobEv r K (log w) j → (∀ o, traced r K [] (f o)) → tracedAt K (createOrAdopt j ≫= f) w.
Proof.
  intros Hk Hj Hf. eapply (tracedAt_bind _ _ _ (λ _ _, True)); [apply Hk| |done|].
  - split; [apply Hk|]. by eexists [_].
  - intros o w' Hk' _ _. by apply tracedAt_traced.
Qed.

(** An index past the end reads as the zero event, which calls for no recovery. *)
Lemma lookup_total_event (l : list RecoveryEvent) i : l !!! i ∈ l ∨ l !!! i = emptyEvent.
Proof.
  rewrite list_lookup_total_alt. destruct (l !! i) as [e|] eqn:He; [left|by right].
  by eapply list_elem_of_lookup_2.
Qed.

Lemma createResetJob_traced K i w :
  inScope K w → drained r K (log w) (plan_Events (mem w) !!! i) →
  IsReflash (evt_RecoveryType (plan_Events (mem w) !!! i)) = false → tracedAt K (createResetJob r i) w.
Proof.
  intros Hk Hd Hr. pose proof Hk as [[Hkey Hids] Hb]. unfold createResetJob, getEvt. unfold tracedAt.
  apply wp_bind, wp_getMem, wp_bind, wp_bind, wp_getMem, wp_ret. set (e := plan_Events (mem w) !!! i) in *. cbv zeta.
  case_bool_decide as Hcmd; [by apply tracedAt_traced; [apply traced_ret|]|].
  eapply tracedAt_bind; [done|by apply tracedAt_traced; [apply traced_prepareRecoveryJob|]|apply prepareRecoveryJob_wp|].
  cbn beta. fold e. intros j w1 Hk1 Hg1 (Hj & Hc & Hi). apply tracedAt_createOrAdopt; [done| |traced_auto].
  exists (mem w), e. split_and!; [by split| |by apply mapJobContainers_for| |by eapply drained_mono].
  { destruct (lookup_total_event (plan_Events (mem w)) i) as [|He]; [done|]. fold e in He. by rewrite He in Hcmd. }
  unfold jobRuns. simpl. rewrite Hc. simpl. eexists _, _. split; [reflexivity|]. split; [by rewrite <- Hkey|].
  split; [reflexivity|]. by rewrite Hr.
Qed.

Lemma createReflashJob_traced K i w :
  inScope K w → drained r K (log w) (plan_Events (mem w) !!! i) →
  IsReflash (evt_RecoveryType (plan_Events (mem w) !!! i)) = true → tracedAt K (createReflashJob r i) w.
Proof.
  intros Hk Hd Hr. pose proof Hk as [[Hkey Hids] Hb]. unfold createReflashJob, getEvt. unfold tracedAt.
  apply wp_bind, wp_getMem, wp_bind, wp_bind, wp_getMem, wp_ret. set (e := plan_Events (mem w) !!! i) in *. unfold parkForFirmware.
  assert (∀ A (m : POp A), traced r K [] m → tracedAt K m w) as Hpark.
  { intros A m Hm. by apply tracedAt_traced. }
  destruct (sp_Firmware (plan_Spec (mem w))) as [fw|] eqn:Hfw; [|apply Hpark; traced_auto].
  case_bool_decide; [apply Hpark; traced_auto|].
  destruct (fs_ContainerSource (fw_Source fw)) as [src|]; [|apply Hpark; traced_auto].
  eapply tracedAt_bind; [done|by apply tracedAt_traced; [apply traced_prepareRecoveryJob|]|apply prepareRecoveryJob_wp|].
  cbn beta. fold e. intros j w1 Hk1 Hg1 (Hj & Hc & Hi). apply tracedAt_createOrAdopt; [done| |traced_auto].
  exists (mem w), e. split_and!; [by split| |by apply mapJobContainers_for| |by eapply drained_mono].
  { destruct (lookup_total_event (plan_Events (mem w)) i) as [|He]; [done|]. fold e in He. by rewrite He in Hr. }
  unfold jobRuns. simpl. rewrite Hc. simpl. eexists _, _. split; [reflexivity|]. split; [by rewrite <- Hkey|].
  split; [reflexivity|]. rewrite Hr. exists fw. split; [by rewrite <- Hkey|done].
Qed.

(** A Job is created only for an event that is ready for it. *)
Lemma createRecoveryJob_traced K i w :
  inScope K w → drained r K (log w) (plan_Events (mem w) !!! i) → tracedAt K (createRecoveryJob r i) w.
Proof.
  intros Hk Hd. unfold createRecoveryJob, getEvt, tracedAt. apply wp_bind, wp_bind, wp_getMem, wp_ret.
  destruct (IsReflash _) eqn:Hr; [by apply createReflashJob_traced|by apply createResetJob_traced].
Qed.

Lemma traced_removeResolvedEvents K L active : sc_ids K = None → traced r K L (removeResolvedEvents r active).
Proof. unfold removeResolvedEvents. traced_auto. Qed.
Hint Resolve traced_removeResolvedEvents : traced.

Lemma traced_addNewEvents K L active : sc_ids K = None → traced r K L (addNewEvents active).
Proof. unfold addNewEvents, escalateEvent, addRecoveryEvent, clearImageVerifyHold. traced_auto. Qed.
Hint Resolve traced_addNewEvents : traced.

Lemma traced_sync K L : sc_ids K = None → traced r K L (syncRecoveryEventsFromSlices r).
Proof. unfold syncRecoveryEventsFromSlices. traced_auto. Qed.
Hint Resolve traced_sync : traced.

Lemma traced_ensureImagesUsable K L sec i : traced r K L (ensureImagesUsable sec i).
Proof. unfold ensureImagesUsable, holdForImageFix, clearImageVerifyHold. traced_auto. Qed.
Hint Resolve traced_ensureImagesUsable : traced.

Lemma traced_startRecovery K L i a ids : traced r K L (startRecovery r i a ids).
Proof.
  unfold startRecovery. apply traced_bind; [traced_auto|]. intros usable.
  destruct usable; cbn [negb]; [|traced_auto]. intros w Hk HL.
  assert (inScope K w) as Hsc by (split; [done|apply HL]). change (tracedAt K
    (plan ← getMem; evt ← getEvt i;
     e ← (if needsDrain plan evt then _ ← beginDrain i; mret None else createRecoveryJob r i);
     match e with
     | Some err =>
         evt ← getEvt i;
         _ ← setEventState i (evt_State evt) ("the recovery Job could not be created: " +:+ etext err);
         _ ← appendMessage ("Event " +:+ evt_ID evt +:+ ": failed to create recovery job: " +:+ etext err);
         mret ids
     | None =>
         evt ← getEvt i;
         mret (if negb (ap_Persistent a) && isActive (evt_State evt)
               then ({[ap_ID a]} ∪ ids.1, ids.2) else ids)
     end) w).
  unfold getEvt at 1. unfold tracedAt. apply wp_bind, wp_getMem, wp_bind, wp_bind, wp_getMem, wp_ret.
  destruct (needsDrain (mem w) (plan_Events (mem w) !!! i)) eqn:Hnd.
  - apply tracedAt_traced; [unfold beginDrain; traced_auto|done].
  - eapply (tracedAt_bind _ _ _ (λ _ _, True)); [apply HL| |done|].
    + apply createRecoveryJob_traced; [done|]. left. by exists (mem w).
    + intros o w1 Hk1 _ _. apply tracedAt_traced; [traced_auto|done].
Qed.
Hint Resolve traced_startRecovery : traced.

Lemma traced_approveEvent K L ids i : traced r K L (approveEvent r ids i).
Proof.
  unfold approveEvent, grantApproval, reapproveFailed, findMatchingApproval, nodeSelectorMatches, nodeLabelCacheGet,
    recordApproval, applyOverride, blockEvent.
  traced_auto.
Qed.
Hint Resolve traced_approveEvent : traced.

Lemma traced_processApprovals K L : traced r K L (processApprovals r).
Proof.
  unfold processApprovals, consumeApprovals. traced_auto. apply traced_modMem. intros q. split; [done|by right].
Qed.

(** The drain taint goes on the node it was read from. *)
Lemma traced_EnsureNodeTaint K L n : traced r K L (EnsureNodeTaint n (recoveryTaint (sc_key K).1)).
Proof.
  unfold EnsureNodeTaint. apply traced_exchange_bind. intros h Hh. split; [done|].
  destruct (env_getNode h n) as [x|e]; [|traced_auto].
  destruct (existsb _ _) eqn:Ht; [traced_auto|]. apply traced_exchange_bind. intros h' Hh'. split; [|traced_auto].
  exists n, x. split; [by eapply known_head|]. by left.
Qed.

Lemma traced_RemoveNodeTaint K L n : traced r K L (RemoveNodeTaint n (recoveryTaint (sc_key K).1)).
Proof.
  unfold RemoveNodeTaint. apply traced_exchange_bind. intros h Hh. split; [done|].
  destruct (env_getNode h n) as [x|e]; [|traced_auto]. cbv zeta.
  destruct (existsb _ _); cbn [negb]; [|traced_auto]. apply traced_exchange_bind. intros h' Hh'.
  split; [|traced_auto]. exists n, x. split; [by eapply known_head|]. by right.
Qed.

Lemma traced_untaintNodesExcept K L keep : traced r K L (untaintNodesExcept keep).
Proof.
  unfold untaintNodesExcept. apply traced_getMem_bind. intros p Hp. cbv zeta.
  assert (plan_Name p = (sc_key K).1) as -> by by destruct Hp as [<- _].
  apply traced_bind; [unfold NodesWithTaint; traced_auto|]. intros [l|e]; [|traced_auto].
  apply traced_forEach. intros n _. case_bool_decide; [traced_auto|].
  apply traced_bind; [apply traced_RemoveNodeTaint|]. traced_auto.
Qed.
Hint Resolve traced_untaintNodesExcept : traced.

(** Eviction of pods that were listed and may be evicted. *)
Lemma traced_EvictPods K L pods :
  (∀ h pod, known K L h → pod ∈ pods → evictEv r K h (pod_namespace pod) (pod_name pod)) →
  traced r K L (EvictPods pods).
Proof.
  intros Hp. unfold EvictPods, evictPod. apply traced_bind; [|traced_auto].
  apply traced_foldEach. intros errs pod Hin. destruct (pod_deletionTimestamp pod); [traced_auto|].
  apply traced_bind; [|traced_auto]. apply traced_exchange_bind. intros h Hh. split; [by apply Hp|].
  traced_auto.
Qed.

(** Reading what blocks a drain yields evictable pods only. *)
Lemma traced_PodsBlockingDrain {B} K L n (f : res (list Pod * list Pod) → POp B) :
  (∀ e, traced r K L (f (Err e))) →
  (∀ L' ev aw,
     (∀ h pod, known K L' h → pod ∈ ev → evictEv r K h (pod_namespace pod) (pod_name pod)) →
     traced r K L' (f (Ok (ev, aw)))) →
  traced r K L (PodsBlockingDrain n (Namespace (Opts r)) (skipped K) ≫= f).
Proof.
  intros Herr Hok w Hk HL.
  pose proof (PodsBlockingDrain_spec n (Namespace (Opts r)) (skipped K) w) as Hsp. unfold wp in Hsp.
  pose proof (PodsBlockingDrain_sameMem n (Namespace (Opts r)) (skipped K) w) as Hm. unfold sameMem in Hm.
  pose proof (PodsBlockingDrain_reads n (Namespace (Opts r)) (skipped K) w) as Hr.
  unfold mbind, M_bind. cbv zeta.
  destruct (PodsBlockingDrain n (Namespace (Opts r)) (skipped K) w) as [b w1]. cbn [fst snd] in *.
  assert (loggedIn (passEv r K) w w1) as Hl.
  { eapply logged_loggedIn; [|exact Hr]. by intros ? []. }
  destruct b as [[ev aw]|e].
  - destruct Hsp as (pods & _ & Hlog & -> & _).
    destruct (Hok (EvListPodsOnNode n (Ok pods) :: L)
                (filter (λ p, (classifyPodForDrain p (Namespace (Opts r)) (skipped K)).1 = drainEvict) pods) aw)
      with (w := w1) as [Hk2 Hl2].
    + intros h pod Hh [Hc Hin]%list_elem_of_filter. exists n, pods, pod. split_and!; try done. by eapply known_head.
    + by rewrite Hm.
    + rewrite Hlog. by apply known_cons.
    + split; [done|]. by etrans.
  - destruct (Herr e w1) as [Hk2 Hl2]; [by rewrite Hm| |split; [done|]; by etrans].
    eapply known_mono; [|exact HL]. by eapply loggedIn_grows.
Qed.

Lemma traced_claimsHoldingDevice K L i : traced r K L (claimsHoldingDevice r i).
Proof.
  unfold claimsHoldingDevice, devicesForBDF, claimHeldOnlyByUndrainablePods. traced_auto.
Qed.
Hint Resolve traced_claimsHoldingDevice : traced.

Lemma traced_drainNodeForEvent K L i : traced r K L (drainNodeForEvent r i).
Proof.
  unfold drainNodeForEvent. apply traced_getMem_bind. intros p Hp.
  assert (plan_Name p = (sc_key K).1) as -> by by destruct Hp as [<- _].
  assert (dr_NamespacesToSkip (sp_Drain (plan_Spec p)) = skipped K) as -> by by destruct Hp as [<- _].
  apply traced_bind; [traced_auto|]. intros evt.
  apply traced_bind; [apply traced_EnsureNodeTaint|]. intros [_|e]; [|traced_auto].
  apply traced_PodsBlockingDrain; [traced_auto|]. intros L' ev aw Hev.
  apply traced_bind; [by apply traced_EvictPods|]. traced_auto.
Qed.
Hint Resolve traced_drainNodeForEvent : traced.

(** ** What a completed drain has seen *)

Lemma claimHeldOnly_spec B claim w :
  B `suffix_of` log w →
  wp (claimHeldOnlyByUndrainablePods r claim) (λ u w', mem w' = mem w ∧ log w `suffix_of` log w' ∧
    match u with
    | Ok (true, _) => undrainable r B (log w') (dr_NamespacesToSkip (sp_Drain (plan_Spec (mem w)))) claim
    | _ => True
    end) w.
Proof.
  intros HB. unfold claimHeldOnlyByUndrainablePods. apply wp_bind, wp_getMem, wp_bind.
  set (skip := dr_NamespacesToSkip _). eapply wp_mono.
  { apply (wp_foldUntil _ (λ done _ w', mem w' = mem w ∧ log w `suffix_of` log w' ∧
      ∀ c, c ∈ done → heldByUndrainable r B (log w') skip (rc_namespace claim) c)
      (λ u w', mem w' = mem w ∧ log w `suffix_of` log w' ∧ match u with Ok (true, _) => False | _ => True end)).
    { split_and!; [done..|]. intros c []%not_elem_of_nil. }
    intros pre c post holder w1 _ (Hm & Hg & Hpre).
    destruct (bool_decide (cr_apiGroup c ≠ "") || _) eqn:Hc; [by apply wp_ret|].
    apply orb_false_iff in Hc as [Hgr%bool_decide_eq_false Hr%bool_decide_eq_false].
    apply dec_stable in Hgr. apply dec_stable in Hr.
    apply wp_bind, wp_exchange.
    assert (∀ x, log w1 `suffix_of` EvGetPod (rc_namespace claim) (cr_name c) x :: log w1) as Hs by (intros x; by eexists [_]).
    assert (∀ x, log w `suffix_of` EvGetPod (rc_namespace claim) (cr_name c) x :: log w1) as Hs' by (intros x; by etrans).
    destruct (env_getPod (log w1) (rc_namespace claim) (cr_name c)) as [pod|err].
    2:{ apply wp_ret. destruct (isNotFound err); split_and!; try done; apply Hs'. }
    case_bool_decide as Huid; [apply wp_ret; split_and!; [done|apply Hs'|done]|].
    destruct (DrainNeverEvicts pod _ _) as [reason|] eqn:Hnever; [|apply wp_ret; split_and!; [done|apply Hs'|done]].
    apply wp_ret. split_and!; [done|apply Hs'|]. intros x [Hx|Hx%list_elem_of_singleton]%elem_of_app.
    - eapply heldByUndrainable_mono; [apply Hs|]. by apply Hpre.
    - subst x. split_and!; try done. exists pod. split_and!; [|done|done]. cbn [log]. apply seen_now. by etrans. }
  cbn beta. intros [holder|u] w1.
  - intros (Hm & Hg & Hall). apply wp_ret. split_and!; [done..|]. by case_match.
  - intros (Hm & Hg & Hu). apply wp_ret. split_and!; [done..|]. by destruct u as [[[] ?]|].
Qed.

Lemma sortStrings_nil l : sortStrings l = [] → l = [].
Proof.
  intros Hs. assert (sortStrings l ≡ₚ l) as Hp by apply merge_sort_Permutation.
  rewrite Hs in Hp. by apply Permutation_nil_l in Hp.
Qed.

Lemma claimsHoldingDevice_spec B i w :
  B `suffix_of` log w →
  wp (claimsHoldingDevice r i) (λ u w', mem w' = mem w ∧ log w `suffix_of` log w' ∧
    (u = Ok [] → gpuReleased r B (log w') (dr_NamespacesToSkip (sp_Drain (plan_Spec (mem w))))
                   (evt_NodeName (plan_Events (mem w) !!! i)) (evt_GPUBDF (plan_Events (mem w) !!! i)))) w.
Proof.
  intros HB. unfold claimsHoldingDevice, getEvt, devicesForBDF. set (skip := dr_NamespacesToSkip _).
  apply wp_bind, wp_bind, wp_getMem, wp_ret. set (e := plan_Events (mem w) !!! i).
  apply wp_bind, wp_bind, wp_exchange, wp_ret.
  assert (∀ x, log w `suffix_of` EvListSlices x :: log w) as Hs1 by (intros x; by eexists [_]).
  destruct (env_listSlices (log w)) as [slices|err]; [|apply wp_ret; by split_and!; [|apply Hs1|]].
  assert (seen B (EvListSlices (Ok slices) :: log w) (EvListSlices (Ok slices))) as Hseen1 by by apply seen_now.
  case_bool_decide as Hemp.
  { apply wp_ret. split_and!; [done|apply Hs1|]. intros _. exists slices. split; [done|]. by left. }
  apply wp_bind, wp_exchange. cbn [log mem]. set (h1 := EvListSlices (Ok slices) :: log w) in *.
  assert (∀ x, h1 `suffix_of` EvListClaims x :: h1) as Hs2 by (intros x; by eexists [_]).
  assert (∀ x, log w `suffix_of` EvListClaims x :: h1) as Hs3 by (intros x; etrans; [apply Hs1|apply Hs2]).
  destruct (env_listClaims h1) as [claims|err]; [|apply wp_ret; by split_and!; [|apply Hs3|]].
  apply wp_bind. eapply wp_mono.
  { apply (wp_foldUntil _ (λ done holding w', mem w' = mem w ∧ EvListClaims (Ok claims) :: h1 `suffix_of` log w' ∧
      (holding = [] → ∀ c, c ∈ done →
        claimReserves (poolDevicesForBDF slices (evt_NodeName e) (evt_GPUBDF e)) c = true → undrainable r B (log w') skip c))
      (λ _ w', mem w' = mem w ∧ EvListClaims (Ok claims) :: h1 `suffix_of` log w')).
    { split_and!; [done..|]. intros _ c []%not_elem_of_nil. }
    intros pre c post holding w1 _ (Hm & Hg & Hpre).
    destruct (claimReserves _ c) eqn:Hres; cbn [negb].
    2:{ apply wp_ret. split_and!; [done..|]. intros Hh x [Hx|Hx%list_elem_of_singleton]%elem_of_app; [by apply Hpre|].
        subst x. congruence. }
    apply wp_bind. eapply wp_mono; [apply (claimHeldOnly_spec B); etrans; [exact HB|]; etrans; [apply Hs3|done]|].
    rewrite Hm. fold skip. intros u w2 (Hm2 & Hg2 & Hu). apply wp_ret.
    assert (EvListClaims (Ok claims) :: h1 `suffix_of` log w2) as Hg3 by by etrans.
    destruct u as [[[] ?]|err]; [|split_and!; [done..|]|done].
    - split_and!; [done..|]. intros Hh x [Hx|Hx%list_elem_of_singleton]%elem_of_app; [|by subst x].
      intros Hrx. eapply undrainable_mono; [exact Hg2|]. by apply Hpre.
    - intros Hh. by destruct holding. }
  cbn beta. intros [holding|err] w1.
  - intros (Hm & Hg & Hh). apply wp_ret. split_and!; [done|etrans; [apply Hs3|done]|]. intros [= Hnil%sortStrings_nil].
    exists slices. split; [eapply seen_mono; [|exact Hseen1]; etrans; [apply Hs2|done]|]. right. exists claims.
    split; [|by apply Hh]. eapply seen_mono; [exact Hg|]. apply seen_now. etrans; [exact HB|apply Hs1].
  - intros [Hm Hg]. apply wp_ret. split_and!; [done|etrans; [apply Hs3|done]|done].
Qed.

Lemma lookup_total_alter_ident (l : list RecoveryEvent) i f :
  (∀ e, sameIdent e (f e)) → sameIdent (l !!! i) (alter f i l !!! i).
Proof.
  intros Hf. destruct (decide (i < length l)) as [Hlt|Hge].
  - rewrite list_lookup_total_alter_eq by done. apply Hf.
  - rewrite !list_lookup_total_alt, !lookup_ge_None_2 by (rewrite ?length_alter; lia). reflexivity.
Qed.

Lemma setEventState_ident i st t w :
  wp (setEventState i st t) (λ _ w', sameIdent (plan_Events (mem w) !!! i) (plan_Events (mem w') !!! i)) w.
Proof.
  unfold setEventState, getEvt. apply wp_bind, wp_bind, wp_getMem, wp_ret. cbv zeta.
  assert (∀ msg, wp (now ← Now; _ ← modEvt i (set_evt_state st msg now); mret now)
    (λ _ w', sameIdent (plan_Events (mem w) !!! i) (plan_Events (mem w') !!! i)) w) as Hstamp.
  { intros msg. unfold modEvt, modEvents. wp_steps. by apply lookup_total_alter_ident. }
  case_match; [|apply Hstamp]. case_match; [|apply Hstamp]. apply wp_ret. reflexivity.
Qed.

Lemma drainNodeForEvent_ready B i w :
  B `suffix_of` log w →
  wp (drainNodeForEvent r i) (λ d w', d = Ok true →
    let e := plan_Events (mem w') !!! i in
    let skip := dr_NamespacesToSkip (sp_Drain (plan_Spec (mem w))) in
    nodeClear r B (log w') skip (evt_NodeName e) ∧ gpuReleased r B (log w') skip (evt_NodeName e) (evt_GPUBDF e)) w.
Proof.
  intros HB. unfold drainNodeForEvent. apply wp_bind, wp_getMem, wp_bind. unfold getEvt at 1.
  apply wp_bind, wp_getMem, wp_ret. set (skip := dr_NamespacesToSkip _). set (e := plan_Events (mem w) !!! i).
  apply wp_bind. eapply wp_mono.
  { apply wp_and; [apply keeps_wp, EnsureNodeTaint_sameMem|apply keeps_wp, EnsureNodeTaint_grows]. }
  unfold sameMem, grows. intros [_|err] w1 [Hm1 Hg1]; [|by apply wp_ret].
  apply wp_bind. eapply wp_mono.
  { apply wp_and; [apply PodsBlockingDrain_spec|apply keeps_wp, PodsBlockingDrain_sameMem]. }
  unfold sameMem. intros [[ev aw]|err] w2 [Hsp Hm2]; [|by apply wp_ret].
  destruct Hsp as (pods & _ & Hl2 & Hev & Haw).
  assert (seen B (log w2) (EvListPodsOnNode (evt_NodeName e) (Ok pods))) as Hpods
    by (rewrite Hl2; apply seen_now; by etrans).
  apply wp_bind. eapply wp_mono.
  { apply wp_and; [apply keeps_wp, EvictPods_sameMem|apply keeps_wp, EvictPods_grows]. }
  unfold sameMem, grows. intros _ w3 [Hm3 Hg3]. cbv zeta. apply wp_bind.
  pose proof (claimsHoldingDevice_spec B i w3) as Hclaims. rewrite Hm3, Hm2, Hm1 in Hclaims. fold skip e in Hclaims.
  assert (log w2 `suffix_of` log w3) as Hg23 by done.
  eapply wp_mono; [apply Hclaims; etrans; [|exact Hg3]; rewrite Hl2; etrans; [exact HB|]; etrans; [exact Hg1|by eexists [_]]|].
  intros [claims|err] w4 (Hm4 & Hg4 & Hrel); [|by apply wp_ret].
  apply wp_bind. unfold modEvt, modEvents. apply wp_modMem. apply wp_bind.
  apply wp_grows; [apply setEventState_grows|]. eapply wp_mono; [apply setEventState_ident|].
  cbn [mem log]. intros _ w5 Hid Hg5. apply wp_ret.
  intros [= [Hb%bool_decide_eq_true Hc%bool_decide_eq_true]%andb_true_iff].
  assert (sameIdent e (plan_Events (mem w5) !!! i)) as (_ & Hn & Hbdf).
  { etrans; [|exact Hid]. rewrite Hm4. by apply lookup_total_alter_ident. }
  rewrite Hn, Hbdf. subst claims. split; [|eapply gpuReleased_mono; [exact Hg5|]; by apply Hrel].
  subst ev aw. apply sortStrings_nil, fmap_nil_inv, app_eq_nil in Hb as [He Ha].
  exists pods. split; [eapply seen_mono; [|exact Hpods]; etrans; [exact Hg23|]; by etrans|]. intros pod Hin.
  destruct (classifyPodForDrain pod (Namespace (Opts r)) skip).1 eqn:Hcl; [done|..]; exfalso;
    apply (not_elem_of_nil pod); [rewrite <- He|rewrite <- Ha]; by apply list_elem_of_filter.
Qed.

Lemma traced_drainDeadlineExceeded K L i : traced r K L (drainDeadlineExceeded i).
Proof. unfold drainDeadlineExceeded. traced_auto. Qed.

Lemma traced_failDrain K L i cause : traced r K L (failDrain i cause).
Proof. unfold failDrain. traced_auto. Qed.
Hint Resolve traced_drainDeadlineExceeded traced_failDrain : traced.

Lemma traced_drainEvent K L i : traced r K L (drainEvent r i).
Proof.
  intros w Hk HL. assert (inScope K w) as Hsc by (split; [done|apply HL]).
  change (tracedAt K (drainEvent r i) w). unfold drainEvent. unfold getEvt at 1, tracedAt.
  apply wp_bind, wp_bind, wp_getMem, wp_ret. set (e := plan_Events (mem w) !!! i).
  destruct (negb _); [by apply tracedAt_traced; [apply traced_ret|]|].
  eapply tracedAt_bind; [apply HL|by apply tracedAt_traced; [apply traced_drainNodeForEvent|]|
    apply drainNodeForEvent_ready; apply HL|].
  intros d w1 Hk1 Hg1 Hready. cbn beta zeta in Hready.
  assert (dr_NamespacesToSkip (sp_Drain (plan_Spec (mem w))) = skipped K) as Hskip by by destruct Hk as [<- _].
  rewrite Hskip in Hready. eapply (tracedAt_bind _ _ _ (λ _ _, True)); [apply Hk1| |done|].
  2:{ intros stall w2 Hk2 _ _. apply tracedAt_traced; [traced_auto|done]. }
  destruct d as [[]|err]; [|apply tracedAt_traced; [traced_auto|done]..].
  eapply (tracedAt_bind _ _ _ (λ _ _, True)); [apply Hk1| |done|].
  - apply createRecoveryJob_traced; [done|]. right. by apply Hready.
  - intros o w2 Hk2 _ _. apply tracedAt_traced; [traced_auto|done].
Qed.
Hint Resolve traced_drainEvent : traced.

Lemma traced_processDrains K L : traced r K L (processDrains r).
Proof. unfold processDrains. traced_auto. Qed.

Lemma traced_syncJobStatuses K L : traced r K L (syncJobStatuses r).
Proof.
  unfold syncJobStatuses, syncJobStatus, applyJobVerdict, failEventJob, jobVerdictOverdue. traced_auto.
Qed.

Lemma traced_reconcilePhases K L : traced r K L (reconcilePhases r).
Proof.
  unfold reconcilePhases, reconcileDrainTaints, updatePlanState.
  apply traced_bind; [apply traced_processApprovals|]. intros _.
  apply traced_bind; [apply traced_processDrains|]. intros _.
  apply traced_bind; [apply traced_syncJobStatuses|]. intros _.
  apply traced_bind; [apply traced_modMem; intros p; split; [done|by right]|]. intros _.
  apply traced_bind; [traced_auto|]. intros _.
  apply traced_bind; [apply traced_modMem; intros p; split; [done|by right]|]. intros _. traced_auto.
Qed.

Lemma traced_openShift {A} K L (m : POp A) :
  keeps sameMem m → keeps (logged isOpenShift) m → traced r K L m.
Proof.
  intros Hm Hl. apply traced_lower; [done|]. intros w. eapply logged_loggedIn; [|apply Hl]. by intros ? [].
Qed.

Lemma traced_ensureOpenShiftResources K L n : traced r K L (ensureOpenShiftResources r n).
Proof.
  unfold ensureOpenShiftResources. apply traced_openShift; keeps_auto.
Qed.

Lemma traced_cleanupOpenShiftResources K L n : traced r K L (cleanupOpenShiftResources r n).
Proof. apply traced_openShift; unfold cleanupOpenShiftResources; auto with keeps. Qed.
End Footprint.
