(* ===== verification/RecoveryReconcile.v ===== *)
(** * GPU recovery: the whole pass

    [Reconcile] from reading the plan to writing it back: the finalizer, the status invariant over
    any interleaving of passes with the other clients of the API server, the order of the two
    writes, and the footprint of a pass on nodes and pods. *)

From S2P Require Import Prelude GoStrings KubeTypes ApiTypes Common Client Drain Cluster OpenShift.
From S2P Require Import RecoveryNaming RecoveryNamingFacts RecoveryEvents RecoveryEventsFacts.
From S2P Require Import RecoveryController RecoveryFocus RecoveryInv RecoveryDetection RecoveryPhases.
From S2P Require Import RecoveryTrace.

Section Reconcile.
Context `{!Env} (r : GPURecoveryPlanReconciler).
Implicit Types (w : World Ev GPURecoveryPlan).

(** A status the controller may have written. *)
Definition statusOK (st : GPURecoveryPlanStatus) : Prop :=
  listOK (st_Events st) ∧ length (st_Messages st) ≤ maxStatusMessages.

Lemma statusOK_empty : statusOK emptyPlanStatus.
Proof.
  split; [|simpl; unfold maxStatusMessages; lia]. split; simpl.
  - constructor.
  - intros ? ? []%not_elem_of_nil.
  - constructor.
  - unfold maxStatusEvents. lia.
Qed.

Lemma statusOK_frame p p' :
  statusOK (plan_Status p) → frame p p' → listOK (plan_Events p') → statusOK (plan_Status p').
Proof. intros [_ Hm] Hf Hl. split; [done|]. by apply (fr_msgs _ _ Hf). Qed.

Lemma statusOK_msgOnly w w' : statusOK (plan_Status (mem w)) → msgOnly w w' → statusOK (plan_Status (mem w')).
Proof.
  intros Hok [Hf He]. eapply statusOK_frame; [done..|]. rewrite He. apply Hok.
Qed.

(** ** What the body of a pass logs: no status write *)

(** The scope of a whole pass, which may add and drop events. *)
Definition passScope (w : World Ev GPURecoveryPlan) : Scope := mkScope (log w) (planKey (mem w)) None.

(** The scope of its phases: the events are those of [p]. *)
Definition phaseScope (w : World Ev GPURecoveryPlan) (p : GPURecoveryPlan) : Scope :=
  mkScope (log w) (planKey (mem w)) (Some (identOf <$> plan_Events p)).

Lemma inPassScope w : inScope (passScope w) w.
Proof. by split. Qed.

Lemma passEv_weaken w p h e : passEv r (phaseScope w p) h e → passEv r (passScope w) h e.
Proof.
  assert (∀ q, within (phaseScope w p) q → within (passScope w) q) as Hw by (intros q [? _]; by split).
  destruct e; try done. simpl. intros (q & e & Hq & He & Hf & Hr & Hd). exists q, e. split_and!; auto.
  destruct Hd as [(q' & Hq' & Hn)|?]; [left|by right]. exists q'. auto.
Qed.

Definition bodyEv (K : Scope) (h : list Ev) (e : Ev) : Prop :=
  passEv r K h e ∨ ∃ p a, e = EvUpdatePlan p a.

Lemma loggedIn_body K w w' : loggedIn (passEv r K) w w' → loggedIn (bodyEv K) w w'.
Proof. apply loggedIn_mono. by left. Qed.

Definition isStatusWrite (e : Ev) : Prop := ∃ p a, e = EvUpdatePlanStatus p a.

Lemma bodyEv_noStatus K h e : bodyEv K h e → ¬ isStatusWrite e.
Proof. intros [He|(p & a & ->)] (p' & a' & Heq); [by subst|done]. Qed.

(** Nothing but the phases creates Jobs. *)
Definition noJob (e : Ev) : Prop := match e with EvCreateJob _ _ => False | _ => True end.

Lemma handleFinalizer_noJob : keeps (logged noJob) (handleFinalizer r).
Proof.
  unfold handleFinalizer, runningRecoveryJobs, deleteAllJobs, deleteEventJobs, deleteJobByName, releaseAllDrainTaints, untaintNodesExcept,
    NodesWithTaint, RemoveNodeTaint, cleanupOpenShiftResources, DeleteOpenShiftSCCResources, updatePlanMem, appendMessage.
  keeps_auto.
Qed.

Lemma sync_noJob : keeps (logged noJob) (syncRecoveryEventsFromSlices r).
Proof.
  unfold syncRecoveryEventsFromSlices, removeResolvedEvents, addNewEvents, escalateEvent, addRecoveryEvent,
    clearImageVerifyHold, deleteEventJobs, deleteJobByName, setEventState, getEvt, modEvt, modEvents, appendMessage.
  keeps_auto.
Qed.

(** ** Teardown before the finalizer goes *)

Definition teardown (planName : string) : POp unit :=
  _ ← deleteAllJobs r;
  _ ← releaseAllDrainTaints;
  if OpenShift (Opts r) then cleanupOpenShiftResources r planName else mret tt.

Lemma teardown_spec n w :
  wp (teardown n) (λ _ w', msgOnly w w' ∧ ∀ K, inScope K w → loggedIn (passEv r K) w w') w.
Proof.
  assert (keeps msgOnly (teardown n)) as H1.
  { unfold teardown. apply keeps_bind; [apply _|apply sameMem_msgOnly, deleteAllJobs_sameMem|]. intros [].
    apply keeps_bind; [apply _|apply untaintNodesExcept_msgOnly|]. intros [].
    destruct (OpenShift (Opts r)); [|apply keeps_ret; apply _].
    apply sameMem_msgOnly. unfold cleanupOpenShiftResources. auto with keeps. }
  assert (∀ K, traced r K [] (teardown n)) as H2.
  { intros K. unfold teardown. apply traced_bind; [apply traced_deleteAllJobs|]. intros [].
    apply traced_bind; [apply traced_untaintNodesExcept|]. intros [].
    destruct (OpenShift (Opts r)); [apply traced_cleanupOpenShiftResources|apply traced_ret]. }
  split; [apply H1|]. intros K [Hk Hb]. by apply H2, known_nil.
Qed.

(** [updatePlanMem] logs the plan it sends and takes the answer, if there is one. *)
Lemma updatePlanMem_spec w :
  wp updatePlanMem (λ o w', log w' = EvUpdatePlan (mem w) (env_updatePlan (log w) (mem w)) :: log w ∧
    match env_updatePlan (log w) (mem w) with
    | Ok p => o = None ∧ mem w' = p
    | Err e => o = Some e ∧ mem w' = mem w
    end) w.
Proof.
  unfold updatePlanMem. wp_steps. destruct (env_updatePlan (log w) (mem w)) as [p|e]; by wp_steps.
Qed.

Lemma runningRecoveryJobs_spec ns n w :
  wp (runningRecoveryJobs ns n) (λ o w', mem w' = mem w ∧
    log w' = EvListJobs ns recoveryJobLabelPlan n (env_listJobs (log w) ns recoveryJobLabelPlan n) :: log w ∧
    match env_listJobs (log w) ns recoveryJobLabelPlan n with
    | Err e => o = Err e
    | Ok jobs => ∃ l, o = Ok l ∧
        (l = [] → ∀ j, j ∈ jobs → job_deletionTimestamp j = None → jobIsTerminal j = true)
    end) w.
Proof.
  unfold runningRecoveryJobs. wp_steps. split; [done|]. split; [done|]. case_match; [|done].
  eexists. split; [done|]. intros Hnil j Hj Hd. destruct (jobIsTerminal j) eqn:Ht; [done|].
  apply fmap_nil_inv in Hnil. exfalso. apply (not_elem_of_nil j). rewrite <- Hnil.
  by apply list_elem_of_filter.
Qed.

(** The answers to plan updates made after [h0], before any status write, carry a good status. *)
Definition updatesOK (h0 : list Ev) : Prop :=
  ∀ new q p, Forall (λ e, ¬ isStatusWrite e) new → env_updatePlan (new ++ h0) q = Ok p →
    statusOK (plan_Status p).

Lemma logged_noStatus K w w' :
  loggedIn (bodyEv K) w w' → ∃ new, log w' = new ++ log w ∧ Forall (λ e, ¬ isStatusWrite e) new.
Proof.
  intros (new & Hl & HF). exists new. split; [done|]. apply Forall_forall. intros e He.
  destruct (eachIn_elem _ _ _ _ HF He) as (pre & post & _ & HP). by eapply bodyEv_noStatus.
Qed.

(** The last step of the finalizer handler. *)
Lemma finishFinalizer_spec K f (pre : string) w0 w :
  loggedIn (bodyEv K) w0 w → (∀ p, plan_Status (f p) = plan_Status p) →
  wp (_ ← modMem f; u ← updatePlanMem;
      mret (true, match u with Some e => Some (wrapErr pre e) | None => None end))
    (λ res w', res.1 = true ∧ loggedIn (bodyEv K) w0 w' ∧
       (updatesOK (log w0) → statusOK (plan_Status (mem w)) → statusOK (plan_Status (mem w'))) ∧
       ∃ a, log w' = EvUpdatePlan (f (mem w)) a :: log w) w.
Proof.
  intros Hl Hf. apply wp_bind, wp_modMem, wp_bind. eapply wp_mono; [apply updatePlanMem_spec|].
  cbn [mem log]. intros o w' [Hlog Hcase]. apply wp_ret. split_and!; [done| | |].
  - etrans; [exact Hl|]. eexists [_]. split; [exact Hlog|]. split; [|done]. right. by eexists _, _.
  - intros Hu Hst. destruct (env_updatePlan (log w) (f (mem w))) as [p|e] eqn:Hup.
    + destruct Hcase as [_ ->]. destruct (logged_noStatus _ _ _ Hl) as (new & Hnew & HF).
      rewrite Hnew in Hup. by apply (Hu new _ _ HF Hup).
    + destruct Hcase as [_ ->]. by rewrite Hf.
  - by eexists.
Qed.

(** The recorded jobs of the plan have all come to an end. *)
Definition noJobRunning (planName : string) (h : list Ev) : Prop :=
  ∃ jobs, env_listJobs h (Namespace (Opts r)) recoveryJobLabelPlan planName = Ok jobs ∧
    ∀ j, j ∈ jobs → job_deletionTimestamp j = None → jobIsTerminal j = true.

Lemma handleFinalizer_spec w :
  wp (handleFinalizer r) (λ res w', loggedIn (bodyEv (passScope w)) w w' ∧
    (updatesOK (log w) → statusOK (plan_Status (mem w)) → statusOK (plan_Status (mem w'))) ∧ (res = (false, None) → w' = w) ∧
    ∀ p a, seen (log w) (log w') (EvUpdatePlan p a) →
      recoveryPlanFinalizer ∈ plan_Finalizers p ∨
      is_Some (plan_DeletionTimestamp (mem w)) ∧ noJobRunning (plan_Name (mem w)) (log w)) w.
Proof.
  unfold handleFinalizer. apply wp_bind, wp_getMem.
  destruct (plan_DeletionTimestamp (mem w)) as [t|] eqn:Hdel.
  - apply wp_bind. eapply wp_mono; [apply runningRecoveryJobs_spec|].
    intros o w1 (Hm1 & Hl1 & Hjobs).
    assert (loggedIn (bodyEv (passScope w)) w w1) as Hlog1.
    { eexists [_]. split; [exact Hl1|]. split; [|done]. by left. }
    assert (inScope (passScope w) w1) as Hsc1.
    { split; [by rewrite Hm1|]. rewrite Hl1. by eexists [_]. }
    assert (∀ w2 p a, loggedIn (passEv r (passScope w)) w1 w2 →
      seen (log w) (log w2) (EvUpdatePlan p a) → False) as Hold.
    { intros w2 p a (new & Hn & HF) (new' & Hn' & Hin). rewrite Hn, Hl1 in Hn'.
      match type of Hn' with _ ++ ?x :: _ = _ => assert (new' = new ++ [x]) as -> end.
      { apply (app_inv_tail (log w)). by rewrite <- Hn', <- app_assoc. }
      apply elem_of_app in Hin as [Hin|Hin%list_elem_of_singleton]; [|done].
      by destruct (eachIn_elem _ _ _ _ HF Hin) as (pre & post & _ & HP). }
    destruct o as [running|e].
    2:{ apply wp_ret. split_and!; [done|by rewrite Hm1|done|].
        intros p a Hin. exfalso. apply (Hold w1 p a); [reflexivity|done]. }
    destruct (Nat.ltb_spec 0 (length running)) as [Hpos|Hzero].
    + cbv zeta. apply wp_bind. apply wp_modMem, wp_ret. split_and!; [done| |done|].
      * intros Hu Hst. cbn [mem]. rewrite Hm1. eapply statusOK_frame; [done|apply frame_appendMessage|].
        rewrite appendMessagePlan_events. apply Hst.
      * intros p a Hin. exfalso. apply (Hold w1 p a); [reflexivity|done].
    + change (wp (teardown (plan_Name (mem w))) (λ _,
        wp (_ ← modMem (λ p, removeFinalizer p recoveryPlanFinalizer); u ← updatePlanMem;
            mret (true, match u with Some e => Some (wrapErr "removing finalizer: " e) | None => None end))
          (λ res w', loggedIn (bodyEv (passScope w)) w w' ∧
             (updatesOK (log w) → statusOK (plan_Status (mem w)) → statusOK (plan_Status (mem w'))) ∧
             (res = (false, None) → w' = w) ∧
             ∀ p a, seen (log w) (log w') (EvUpdatePlan p a) →
               recoveryPlanFinalizer ∈ plan_Finalizers p ∨
               is_Some (Some t) ∧ noJobRunning (plan_Name (mem w)) (log w))) w1).
      eapply wp_mono; [apply teardown_spec|]. cbn beta. intros [] w2 [Hmo Hl2']. specialize (Hl2' _ Hsc1) as Hl2.
      eapply wp_mono.
      { apply (finishFinalizer_spec (passScope w) _ _ w); [|done].
        etrans; [exact Hlog1|]. by apply loggedIn_body. }
      cbn beta. intros res w3 (Hres & Hl3 & Hst3 & a3 & Ha3). split_and!; [done| |by intros ->|].
      { intros Hu Hst. apply Hst3; [done|]. eapply statusOK_msgOnly; [|exact Hmo]. by rewrite Hm1. }
      intros p a Hin. rewrite Ha3 in Hin. apply seen_cons in Hin as [_|Hin].
      * right. split; [by eexists|]. unfold noJobRunning.
        destruct (env_listJobs _ _ _ _) as [jobs|e]; [|done]. destruct Hjobs as (l & [= <-] & Hterm).
        exists jobs. split; [done|]. apply Hterm. by apply nil_length_inv; lia.
      * exfalso. by apply (Hold w2 p a).
  - case_match eqn:Hc.
    + eapply wp_mono.
      { apply (finishFinalizer_spec (passScope w) _ _ w); [reflexivity|].
        intros p. unfold addFinalizer. by case_match. }
      cbn beta. intros res w3 (Hres & Hl3 & Hst3 & a3 & Ha3). split_and!; [done|done|by intros ->|].
      intros p a Hin. rewrite Ha3 in Hin. apply seen_cons in Hin as [[= -> _]|Hin]; [|by apply seen_same in Hin].
      left. unfold addFinalizer. apply negb_true_iff in Hc. rewrite Hc. simpl. set_solver.
    + apply wp_ret. split_and!; [reflexivity|done|done|]. by intros p a ?%seen_same.
Qed.

Lemma traced_wp {A} (m : POp A) K w :
  traced r K [] m → inScope K w → wp m (λ _ w', inScope K w' ∧ loggedIn (passEv r K) w w') w.
Proof.
  intros Ht [Hk Hb]. destruct (Ht w Hk (known_nil _ _ Hb)) as [Hk' Hl]. split; [|done].
  split; [done|]. etrans; [exact Hb|]. by eapply loggedIn_grows.
Qed.

Lemma ensureOpenShift_spec n w :
  wp (if OpenShift (Opts r) then ensureOpenShiftResources r n else mret None)
    (λ _ w', mem w' = mem w ∧ ∀ K, inScope K w → loggedIn (passEv r K) w w') w.
Proof.
  destruct (OpenShift (Opts r)); [|apply wp_ret; split; [done|]; intros K _; reflexivity].
  assert (keeps sameMem (ensureOpenShiftResources r n)) as Hm by (unfold ensureOpenShiftResources; keeps_auto).
  split; [apply Hm|]. intros K [Hk Hb]. by apply (traced_ensureOpenShiftResources r K [] n w Hk), known_nil.
Qed.

Lemma statusOK_appendMessage m p :
  statusOK (plan_Status p) → statusOK (plan_Status (appendMessagePlan m p)).
Proof.
  intros Hst. eapply statusOK_frame; [done|apply frame_appendMessage|].
  rewrite appendMessagePlan_events. apply Hst.
Qed.

Lemma reconcilePhases_status w :
  statusOK (plan_Status (mem w)) → wp (reconcilePhases r) (λ _ w', statusOK (plan_Status (mem w'))) w.
Proof.
  intros [Hl Hm]. eapply wp_mono; [by apply reconcilePhases_spec|]. cbn beta. intros res w' [Hp _].
  split; [apply (pp_ok _ _ _ _ Hp)|by apply (pp_msgs _ _ _ _ Hp)].
Qed.

(** Joining the footprint and the Jobs of a part of the pass that creates none. *)
Lemma logged_noJob (P Q : list Ev → Ev → Prop) w w' :
  logged noJob w w' → loggedIn P w w' → loggedIn (λ h e, P h e ∧ ∀ j a, e = EvCreateJob j a → Q h e) w w'.
Proof.
  intros (n & Hn & HF) (n' & Hn' & HF'). assert (n' = n) as -> by (apply (app_inv_tail (log w)); congruence).
  exists n. split; [done|]. clear Hn Hn'. induction n as [|e n IH]; [done|]. inversion HF; subst. destruct HF'.
  split; [|by apply IH]. split; [done|]. by intros j a ->.
Qed.

(** The exchanges of the body of a pass, whatever the state it starts from: the footprint, and Jobs
    only for events that are among those it leaves in memory. *)
Definition bodyExchange w (p' : GPURecoveryPlan) (h : list Ev) (e : Ev) : Prop :=
  bodyEv (passScope w) h e ∧ ∀ j a, e = EvCreateJob j a → passEv r (phaseScope w p') h e.

Lemma reconcileBody_logged w :
  wp (reconcileBody r) (λ _ w', loggedIn (bodyExchange w (mem w')) w w') w.
Proof.
  unfold reconcileBody. apply wp_bind.
  eapply wp_mono; [eapply wp_and; [apply handleFinalizer_spec|apply keeps_wp, handleFinalizer_noJob]|].
  intros [[] [e|]] w1 [(Hl1 & _ & Hsame & _) Hj1]; try by (apply wp_ret, logged_noJob).
  assert (w1 = w) as -> by by apply Hsame. clear Hl1 Hj1 Hsame.
  apply wp_bind. eapply wp_mono.
  { eapply wp_and; [apply (traced_wp _ (passScope w)); [by apply traced_sync|apply inPassScope]|apply keeps_wp, sync_noJob]. }
  cbn beta. intros o w2 [[Hsc2 Hl2] Hj2].
  destruct o as [e|]; [apply wp_ret; by apply logged_noJob; [|apply loggedIn_body]|].
  assert (inScope (phaseScope w (mem w2)) w2) as Hph by (destruct Hsc2 as [[Hk _] Hb]; by split; [split; [done|intros l [= <-]]|]).
  assert (∀ w4, plan_Events (mem w4) = plan_Events (mem w2) ∨ identOf <$> plan_Events (mem w4) = identOf <$> plan_Events (mem w2) →
    loggedIn (passEv r (phaseScope w (mem w2))) w2 w4 → loggedIn (bodyExchange w (mem w4)) w w4) as Hjoin.
  { intros w4 Hev Hl. etrans; [by apply logged_noJob; [exact Hj2|apply loggedIn_body, Hl2]|].
    assert (phaseScope w (mem w4) = phaseScope w (mem w2)) as Heq.
    { unfold phaseScope. f_equal. f_equal. by destruct Hev as [-> | ->]. }
    eapply loggedIn_mono; [|exact Hl]. intros h e He. split; [left; by eapply passEv_weaken|].
    intros j a _. by rewrite Heq. }
  apply wp_bind, wp_getMem, wp_bind. eapply wp_mono; [apply ensureOpenShift_spec|]. cbn beta.
  intros o w3 [Hm3 Hl3]. specialize (Hl3 _ Hph).
  assert (inScope (phaseScope w (mem w2)) w3) as Hph3.
  { destruct Hph as [Hk Hb]. split; [by rewrite Hm3|]. etrans; [exact Hb|]. by eapply loggedIn_grows. }
  destruct o as [e|].
  - apply wp_bind, wp_modMem, wp_ret. apply Hjoin; cbn [mem].
    + left. by rewrite appendMessagePlan_events, Hm3.
    + etrans; [exact Hl3|]. by exists [].
  - eapply wp_mono; [apply (traced_wp _ _ _ (traced_reconcilePhases r _ _) Hph3)|]. cbn beta.
    intros res w4 [[[_ Hids] _] Hl4]. apply Hjoin; [right; by apply Hids|by etrans].
Qed.

Lemma reconcileBody_status w :
  updatesOK (log w) → statusOK (plan_Status (mem w)) →
  wp (reconcileBody r) (λ _ w', statusOK (plan_Status (mem w'))) w.
Proof.
  intros Hu Hst. unfold reconcileBody. apply wp_bind. eapply wp_mono; [by apply handleFinalizer_spec|].
  intros [[] [e|]] w1 (_ & Hst1 & Hsame & _); try by apply wp_ret, Hst1.
  assert (w1 = w) as -> by by apply Hsame.
  apply wp_bind. eapply wp_mono; [apply syncRecoveryEventsFromSlices_spec, Hst|].
  cbn beta. intros o w2 (Hf2 & Hok2 & _).
  assert (statusOK (plan_Status (mem w2))) as Hst2 by by eapply statusOK_frame.
  destruct o as [e|]; [by apply wp_ret|].
  apply wp_bind, wp_getMem, wp_bind. eapply wp_mono; [apply ensureOpenShift_spec|]. cbn beta.
  intros [e|] w3 [Hm3 _].
  - apply wp_bind, wp_modMem, wp_ret. cbn [mem]. rewrite Hm3. by apply statusOK_appendMessage.
  - apply reconcilePhases_status. by rewrite Hm3.
Qed.

(** ** Writing back *)

Definition persistEv (want : GPURecoveryPlanStatus) (ch : approvalChanges) (e : Ev) : Prop :=
  match e with
  | EvGetPlan _ _ _ => True
  | EvUpdatePlanStatus p _ => plan_Status p = want
  | EvUpdatePlan p _ => ∃ cur, p = (applyChanges ch cur).1
  | _ => False
  end.

Lemma persistPlan_logged name orig w :
  wp (persistPlan r name orig) (λ _ w',
    logged (persistEv (plan_Status (mem w)) (diffApprovals orig (mem w))) w w') w.
Proof.
  unfold persistPlan. apply wp_bind, wp_getMem. cbv zeta.
  set (want := plan_Status (mem w)). set (ch := diffApprovals orig (mem w)).
  assert (keeps (logged (persistEv want ch)) (RetryOnConflict (writeStatus r name want))) as H1.
  { apply keeps_RetryOnConflict; [apply _|]. unfold writeStatus, getPlan. keeps_auto. }
  assert (keeps (logged (persistEv want ch)) (RetryOnConflict (writeApprovals r name ch))) as H2.
  { apply keeps_RetryOnConflict; [apply _|]. unfold writeApprovals, getPlan. keeps_auto. }
  apply keeps_wp. case_match; [apply keeps_ret; apply _|].
  apply keeps_bind; [apply _|case_match; [done|apply keeps_ret; apply _]|].
  intros s. case_match; [apply keeps_ret; apply _|].
  apply keeps_bind; [apply _|done|]. intros; apply keeps_ret; apply _.
Qed.

(** The footprint of a pass: the writes of its body, and status writes. *)
Definition reconcileEv (K : Scope) (h : list Ev) (e : Ev) : Prop := bodyEv K h e ∨ isStatusWrite e.

Lemma persistEv_reconcileEv K h want ch e : persistEv want ch e → reconcileEv K h e.
Proof.
  destruct e; try done; intros He.
  - left. by left.
  - left. right. by eexists _, _.
  - right. by eexists _, _.
Qed.

(** The world in which the body of a pass over plan [p] starts, and the plan it leaves. *)
Definition bodyStart (name : string) (p : GPURecoveryPlan) (h : list Ev) : World Ev GPURecoveryPlan :=
  mkWorld p (EvGetPlan (APIReader r) name (Ok p) :: h).
Definition bodyPlan (name : string) (p : GPURecoveryPlan) (h : list Ev) : GPURecoveryPlan :=
  mem (reconcileBody r (bodyStart name p h)).2.

(** The exchanges of a pass: it reads the plan, then stays within the footprint of that plan, and the
    statuses it writes are those its body left in memory. *)
Definition passExchange (name : string) (p : GPURecoveryPlan) (h0 h : list Ev) (e : Ev) : Prop :=
  let w := bodyStart name p h0 in
  reconcileEv (passScope w) h e ∧
  (∀ j a, e = EvCreateJob j a → passEv r (phaseScope w (bodyPlan name p h0)) h e) ∧
  (∀ q a, e = EvUpdatePlanStatus q a → plan_Status q = plan_Status (bodyPlan name p h0)).

Lemma Reconcile_logged name w :
  wp (Reconcile r name) (λ _ w', loggedIn (λ h e, (∃ a, e = EvGetPlan (APIReader r) name a) ∨
    ∃ p, env_getPlan (log w) (APIReader r) name = Ok p ∧ passExchange name p (log w) h e) w w') w.
Proof.
  unfold Reconcile, getPlan. apply wp_bind, wp_exchange.
  destruct (env_getPlan (log w) (APIReader r) name) as [orig|e] eqn:Hg.
  2:{ apply wp_ret. eexists [_]. split; [done|]. split; [|done]. left. by eexists. }
  apply wp_bind, wp_putMem. cbn [mem log]. change (mkWorld orig _) with (bodyStart name orig (log w)).
  set (w0 := bodyStart name orig (log w)). apply wp_bind.
  eapply wp_mono.
  { eapply (wp_and _ _ (λ _ w', w' = (reconcileBody r w0).2)); [apply reconcileBody_logged|done]. }
  cbn beta. intros ret w1 [Hl1 Hw1].
  apply wp_bind. eapply wp_mono; [apply persistPlan_logged|]. intros o w2 Hl2. apply wp_ret.
  assert (mem w1 = bodyPlan name orig (log w)) as Hm1 by by rewrite Hw1.
  trans w0; [|trans w1].
  - eexists [_]. split; [done|]. split; [|done]. left. by eexists.
  - eapply loggedIn_mono; [|exact Hl1]. intros h e [Hb Hj]. right. exists orig. split; [done|].
    split_and!; [by left|by rewrite <- Hm1|]. intros q a ->. destruct (bodyEv_noStatus _ _ _ Hb). by eexists _, _.
  - eapply logged_loggedIn; [|exact Hl2]. intros h e He. right. exists orig. split; [done|].
    split_and!; [by eapply persistEv_reconcileEv|by intros j a ->|]. intros q a ->. simpl in He. by rewrite He, Hm1.
Qed.

Lemma Reconcile_statuses name w :
  (∀ p, env_getPlan (log w) (APIReader r) name = Ok p →
     updatesOK (EvGetPlan (APIReader r) name (Ok p) :: log w) ∧ statusOK (plan_Status p)) →
  wp (Reconcile r name) (λ _ w', ∃ new, log w' = new ++ log w ∧
    Forall (λ e, ¬ isStatusWrite e ∨ ∃ p a, e = EvUpdatePlanStatus p a ∧ statusOK (plan_Status p)) new) w.
Proof.
  intros Hgood. eapply wp_mono; [apply Reconcile_logged|]. cbn beta. intros _ w' (new & Hn & HF).
  exists new. split; [done|]. apply Forall_forall. intros e He.
  destruct (eachIn_elem _ _ _ _ HF He) as (pre & post & _ & HP). clear HF He. cbn beta in HP.
  destruct HP as [(a & ->)|(p & Hp & [Hb|(q & a & ->)] & _ & Hq)].
  - left. by intros (? & ? & ?).
  - left. by eapply bodyEv_noStatus.
  - right. exists q, a. split; [done|]. rewrite (Hq q a eq_refl). destruct (Hgood p Hp) as [Hu Hst].
    by apply (reconcileBody_status (bodyStart name p (log w))).
Qed.
End Reconcile.

(** ** Interleavings

    A history is built by complete passes of the controller, for any plan, and by single exchanges of
    any other client.  The only thing asked of the others is that they leave the status subresource
    alone. *)

Section Reach.
Context `{!Env, !PlanServer} (r : GPURecoveryPlanReconciler).

Inductive reachable : list Ev → Prop :=
| reach_start : reachable []
| reach_pass h p name : reachable h → reachable (log (Reconcile r name (mkWorld p h)).2)
| reach_other h e : reachable h → ¬ isStatusWrite e → reachable (e :: h).

Definition histOK (h : list Ev) : Prop := ∀ n, statusOK (ps_status h n).

Lemma ps_status_app new h n :
  Forall (λ e, ¬ isStatusWrite e) new → ps_status (new ++ h) n = ps_status h n.
Proof.
  induction 1 as [|e new He _ IH]; [done|]. simpl. rewrite ps_frame, IH; [done|].
  intros p a ->. apply He. by eexists _, _.
Qed.

Lemma histOK_app new h :
  histOK h → Forall (λ e, ¬ isStatusWrite e ∨ ∃ p a, e = EvUpdatePlanStatus p a ∧ statusOK (plan_Status p)) new →
  histOK (new ++ h).
Proof.
  intros Hh. induction 1 as [|e new He _ IH]; [done|]. intros n. simpl.
  destruct He as [He|(p & a & -> & Hp)].
  - rewrite ps_frame; [apply IH|]. intros p a ->. apply He. by eexists _, _.
  - destruct (ps_write (new ++ h) p a n) as [-> | ->]; [done|apply IH].
Qed.

Lemma Reconcile_histOK p name h :
  APIReader r = true → histOK h → histOK (log (Reconcile r name (mkWorld p h)).2).
Proof.
  intros Hd Hh. pose proof (Reconcile_statuses r name (mkWorld p h)) as Hl. unfold wp in Hl. cbn [log] in Hl.
  destruct Hl as (new & -> & HF); [|by apply histOK_app].
  rewrite Hd. intros q Hq. split; [|rewrite (ps_get _ _ _ Hq); apply Hh].
  intros nw x y Hnw Hy. rewrite (ps_update _ _ _ Hy), ps_status_app by done.
  rewrite ps_frame by done. apply Hh.
Qed.

Lemma reachable_histOK h :
  APIReader r = true → (∀ n, ps_status [] n = emptyPlanStatus) → reachable h → histOK h.
Proof.
  intros Hd Hinit. induction 1 as [|h p name _ IH|h e _ IH He].
  - intros n. rewrite Hinit. apply statusOK_empty.
  - by apply Reconcile_histOK.
  - intros n. rewrite ps_frame; [apply IH|]. intros p a ->. apply He. by eexists _, _.
Qed.
End Reach.
