(* ===== verification/RecoveryScenario.v ===== *)
(** * GPU recovery: a worked scenario

    A cluster with one node, two GPUs that call for recovery and a plan with one approval.  The
    witnesses of the theorems run in it. *)

From S2P Require Import Prelude GoStrings KubeTypes ApiTypes Common Client Drain Cluster OpenShift.
From S2P Require Import RecoveryNaming RecoveryEvents RecoveryController.

Definition demoOpts : ControllerOpts :=
  mkControllerOpts "demo" "gpu-operator" "" (15 * Second) true false false "" "".
Definition demoReconciler : GPURecoveryPlanReconciler := mkGPURecoveryPlanReconciler demoOpts true.

Definition demoApproval : RecoveryApproval :=
  mkRecoveryApproval "a1" "" (Some (mkApprovalSelector RecoveryTypeSBR "" ∅)) None false false "".

Definition demoSpec (drain : bool) : GPURecoveryPlanSpec :=
  mkGPURecoveryPlanSpec "0xe20b" "" "" [demoApproval] (mkXpuSmiSpec "intel/xpumanager" "IfNotPresent" false)
    RecoveryTypeSBR None [] (mkDrainSpec (Some drain) 300 []) (mkRecoveryTimeoutsSpec 300 600) false.

Definition demoPlan (drain : bool) : GPURecoveryPlan :=
  mkGPURecoveryPlan "plan" 1 None [recoveryPlanFinalizer] (demoSpec drain)
    (mkGPURecoveryPlanStatus PlanStateUnset [] []).

Definition demoDevice (name bdf taint : string) : Device :=
  mkDevice name {[ DeviceAttrDeviceID := Some "0xe20b"; DeviceAttrBDF := Some bdf ]} [taint].

Definition demoSlice : ResourceSlice :=
  mkResourceSlice "n1-slice" GPUDeviceClass (Some "n1") "n1"
    [demoDevice "gpu-0" "0000:02:00.0" DeviceTaintKeyReset; demoDevice "gpu-1" "0000:03:00.0" DeviceTaintKeyReset].

Definition demoNode : Node := mkNode "n1" {[ "zone" := "a" ]} [] None [].

Definition demoPod : Pod := mkPod "apps" "train" "u1" "n1" ∅ ∅ [] "Running" None [] [] [].

Definition demoCluster (drain : bool) : Cluster :=
  mkCluster (1000 * Second) [demoPlan drain] [] [demoNode] [demoPod] [demoSlice] [] [] ["intel/xpumanager"] [].

(** A cluster with the same contents at another time. *)
Definition atTime (t : Z) (c : Cluster) : Cluster :=
  mkCluster t (cl_plans c) (cl_fus c) (cl_nodes c) (cl_pods c) (cl_slices c) (cl_claims c) (cl_jobs c)
    (cl_images c) (cl_logs c).

(** [n] passes of the controller over the plan. *)
Fixpoint passes (c : Cluster) (n : nat) (h : list Ev) : list Ev :=
  match n with
  | 0 => h
  | S n' =>
      passes c n' (log (@Reconcile (clusterEnv c) demoReconciler "plan" (mkWorld (demoPlan true) h)).2)
  end.

Definition statusAfter (c : Cluster) (n : nat) : GPURecoveryPlanStatus :=
  statusOf (plansAt c (passes c n [])) "plan".

(** The first pass detects both GPUs and starts the drain for one of them, the other waits; the next
    passes evict the pod and create the Job. *)
Example demo_drain :
  (λ e, (evt_ID e, evt_State e)) <$> st_Events (statusAfter (demoCluster true) 1)
  = [("evt-n1-sbr-0000-03-00-0", RecoveryEventStateDraining);
     ("evt-n1-sbr-0000-02-00-0", RecoveryEventStateBlocked)].
Proof. vm_compute. reflexivity. Qed.

Example demo_job :
  (λ e, (evt_State e, evt_JobName e)) <$> st_Events (statusAfter (demoCluster true) 2)
  = [(RecoveryEventStateInProgress, "recovery-evt-n1-sbr-0000-03-00-0-0"); (RecoveryEventStateBlocked, "")].
Proof. vm_compute. reflexivity. Qed.

(** The plan once its events have been detected. *)
Definition demoStart (drain : bool) : World Ev GPURecoveryPlan := mkWorld (demoPlan drain) [].
Definition demoDetected (drain : bool) : World Ev GPURecoveryPlan :=
  (@syncRecoveryEventsFromSlices (clusterEnv (demoCluster drain)) demoReconciler (demoStart drain)).2.

(** The plan after the phases of the first pass. *)
Definition demoPhases (drain : bool) : World Ev GPURecoveryPlan :=
  (@reconcilePhases (clusterEnv (demoCluster drain)) demoReconciler (demoDetected drain)).2.
