(* ===== verification/RecoverySafety.v ===== *)
(** * GPU recovery: the safety theorems

    What holds of every history of the controller and of every pass, whatever the API server
    answers: one recovery at a time on a node, well-formed and bounded statuses, the footprint of a
    pass on Jobs, pods and nodes, and the guard of the finalizer. *)

From S2P Require Import Prelude GoStrings KubeTypes ApiTypes Common Client Drain Cluster OpenShift.
From S2P Require Import RecoveryNaming RecoveryNamingFacts RecoveryEvents RecoveryEventsFacts.
From S2P Require Import RecoveryController RecoveryFocus RecoveryInv RecoveryDetection RecoveryPhases.
From S2P Require Import RecoveryTrace RecoveryReconcile RecoveryScenario.

Section Histories.
Context `{!Env, !PlanServer} (r : GPURecoveryPlanReconciler) (h : list Ev) (planName : string).
Hypothesis Hdirect : APIReader r = true.
Hypothesis Hinit : ∀ n, ps_status [] n = emptyPlanStatus.
Hypothesis Hreach : reachable r h.

(** C1: in every history built from passes of the controller and from exchanges of any other client
    that leaves the status subresource alone, two events of a plan that are both draining or in
    progress on one node are the same recovery: they carry one event ID, and one PCI address up to
    letter case.  So at most one recovery of a plan owns a node at a time. *)
Theorem one_recovery_per_node `{!DNSChecker} e1 e2 :
  e1 ∈ st_Events (ps_status h planName) → e2 ∈ st_Events (ps_status h planName) →
  evt_NodeName e1 = evt_NodeName e2 →
  isActive (evt_State e1) = true → isActive (evt_State e2) = true →
  evt_ID e1 = evt_ID e2 ∧ lowerS (evt_GPUBDF e1) = lowerS (evt_GPUBDF e2).
Proof.
  intros Hin1 Hin2 Hn A1 A2. destruct (reachable_histOK r h Hdirect Hinit Hreach planName) as [[Hall Hone _ _] _].
  assert (evt_ID e1 = evt_ID e2) as Hid by by apply Hone. split; [done|].
  rewrite Forall_forall in Hall. destruct (Hall _ Hin1) as [_ _ _ _ _ V1 (t1 & T1 & I1)].
  destruct (Hall _ Hin2) as [_ _ _ _ _ V2 (t2 & T2 & I2)]. rewrite I1, I2 in Hid.
  by apply generateEventID_inj in Hid as (_ & _ & ?).
Qed.

(** C7: every status such a history stores is well formed and bounded: at most 50 messages, at most
    1000 events with one event per node and PCI address; each event has a valid PCI address, a
    state message of 200 bytes at most, at most eleven entries in each list of blockers, a Job name
    exactly while it is in progress, and a start time while it drains. *)
Theorem status_wellformed :
  let st := ps_status h planName in
  length (st_Messages st) ≤ 50 ∧ length (st_Events st) ≤ 1000 ∧ NoDup (evtKey <$> st_Events st) ∧
  ∀ e, e ∈ st_Events st →
    validDeviceBDF (evt_GPUBDF e) = true ∧ slen (evt_StateMessage e) ≤ 200 ∧
    length (evt_PodsBlockingDrain e) ≤ 11 ∧ length (evt_ClaimsBlockingReset e) ≤ 11 ∧
    (evt_State e = RecoveryEventStateInProgress ↔ evt_JobName e ≠ "") ∧
    (evt_State e = RecoveryEventStateDraining → is_Some (evt_DrainStartedAt e)).
Proof.
  destruct (reachable_histOK r h Hdirect Hinit Hreach planName) as [[Hall _ Hnd Hlen] Hm].
  cbv zeta. split_and!; [done..|]. intros e He. rewrite Forall_forall in Hall.
  destruct (Hall _ He) as [Hj Hmsg Hp Hc Hd Hb _]. split_and!; try done. by intros [? _]%Hd.
Qed.
End Histories.

Section Footprint.
Context `{!Env} (r : GPURecoveryPlanReconciler) (name : string) (w : World Ev GPURecoveryPlan).

(** What a pass adds to the log besides reads and writes of the plan, with the history it was added to. *)
Lemma Reconcile_new (P : Ev → Prop) :
  (∀ a, ¬ P (EvGetPlan (APIReader r) name a)) → (∀ p a, ¬ P (EvUpdatePlan p a)) →
  (∀ p a, ¬ P (EvUpdatePlanStatus p a)) →
  wp (Reconcile r name) (λ _ w', ∀ h e, P e → made w w' h e →
    ∃ p, env_getPlan (log w) (APIReader r) name = Ok p ∧
      passEv r (passScope (bodyStart r name p (log w))) h e ∧ passExchange r name p (log w) h e) w.
Proof.
  intros Hget Hup Hst. eapply wp_mono; [apply Reconcile_logged|]. cbn beta. intros _ w' Hlog h e He Hmade.
  destruct (loggedIn_made _ _ _ _ _ Hlog Hmade) as [(a & ->)|(p & Hp & Hev)]; [by destruct (Hget a)|].
  exists p. split_and!; [done| |done].
  destruct Hev as [[[Hev|(q & a & ->)]|(q & a & ->)] _]; [done|..]; exfalso.
  - by apply (Hup q a).
  - by apply (Hst q a).
Qed.

(** Every status a pass writes is the one its body left in memory. *)
Lemma Reconcile_written :
  wp (Reconcile r name) (λ _ w', ∀ h s b, made w w' h (EvUpdatePlanStatus s b) →
    ∀ p, env_getPlan (log w) (APIReader r) name = Ok p →
      plan_Status s = plan_Status (bodyPlan r name p (log w))) w.
Proof.
  eapply wp_mono; [apply Reconcile_logged|]. cbn beta. intros _ w' Hlog h s b Hmade p Hp.
  destruct (loggedIn_made _ _ _ _ _ Hlog Hmade) as [(a & Ha)|(p' & Hp' & _ & _ & Hs)]; [discriminate Ha|].
  rewrite Hp in Hp'. injection Hp' as <-. by eapply Hs.
Qed.

Lemma needsDrain_key p q e : planKey p = planKey q → needsDrain p e = needsDrain q e.
Proof.
  intros Hk. apply (f_equal (λ k, sp_Drain k.2)) in Hk. simpl in Hk. unfold needsDrain. by rewrite Hk.
Qed.


(** C16: a pass evicts only pods that it has just seen listed on a node, and that are neither in the
    operator's namespace or a namespace the plan skips, nor static, owned by a DaemonSet, finished or
    already terminating. *)
Theorem eviction_discipline :
  wp (Reconcile r name) (λ _ w', ∀ h ns pod a, made w w' h (EvEvict ns pod a) →
    ∃ p node pods x, env_getPlan (log w) (APIReader r) name = Ok p ∧
      seen (EvGetPlan (APIReader r) name (Ok p) :: log w) h (EvListPodsOnNode node (Ok pods)) ∧
      x ∈ pods ∧ pod_namespace x = ns ∧ pod_name x = pod ∧
      ns ≠ Namespace (Opts r) ∧ ns ∉ dr_NamespacesToSkip (sp_Drain (plan_Spec p)) ∧
      pod_annotations x !! mirrorPodAnnotation = None ∧ "DaemonSet" ∉ pod_ownerKinds x ∧
      pod_phase x ≠ PodSucceeded ∧ pod_phase x ≠ PodFailed ∧ pod_deletionTimestamp x = None) w.
Proof.
  eapply wp_mono; [by apply (Reconcile_new (λ e, ∃ ns n a, e = EvEvict ns n a)); intros; naive_solver|].
  cbn beta. intros _ w' Hall h ns pod a Hin.
  destruct (Hall h (EvEvict ns pod a)) as (p & Hp & (node & pods & x & Hl & Hx & Hns & Hn & Hc) & _);
    [naive_solver|done|].
  apply classifyPodForDrain_evict in Hc. subst ns. by exists p, node, pods, x.
Qed.

(** C15: a pass writes a node back only as it has read it in that pass but for one taint, the plan's own:
    the taint was absent and is appended, or every copy of it is removed and all other taints stay as
    they were. *)
Theorem node_write_discipline :
  wp (Reconcile r name) (λ _ w', ∀ h n a, made w w' h (EvUpdateNode n a) →
    ∃ p nodeName x, env_getPlan (log w) (APIReader r) name = Ok p ∧
      seen (EvGetPlan (APIReader r) name (Ok p) :: log w) h (EvGetNode nodeName (Ok x)) ∧
      let t := recoveryTaint (plan_Name p) in
      (n = set_node_taints (node_taints x ++ [t]) x ∧ hasTaint t x = false ∨
       n = set_node_taints (filter (λ y, taintsEqual y t = false) (node_taints x)) x)) w.
Proof.
  eapply wp_mono; [by apply (Reconcile_new (λ e, ∃ n a, e = EvUpdateNode n a)); intros; naive_solver|].
  cbn beta. intros _ w' Hall h n a Hin.
  destruct (Hall h (EvUpdateNode n a)) as (p & Hp & (m & x & Hx & Hcase) & _); [naive_solver|done|].
  by exists p, m, x.
Qed.
End Footprint.

(** C10: the finalizer handler writes a plan without the recovery finalizer only for a plan that is
    being deleted, after the API server has listed the Jobs that carry the plan's label and every one
    of them is finished or itself being deleted.  So no recovery Job that still runs is orphaned by
    deleting its plan. *)
Theorem finalizer_guard `{!Env} r w :
  wp (handleFinalizer r) (λ _ w', ∀ p a, seen (log w) (log w') (EvUpdatePlan p a) →
    recoveryPlanFinalizer ∈ plan_Finalizers p ∨
    is_Some (plan_DeletionTimestamp (mem w)) ∧
    ∃ jobs, env_listJobs (log w) (Namespace (Opts r)) recoveryJobLabelPlan (plan_Name (mem w)) = Ok jobs ∧
      ∀ j, j ∈ jobs → job_deletionTimestamp j = None → jobIsTerminal j = true) w.
Proof. eapply wp_mono; [apply handleFinalizer_spec|]. cbn beta. intros res w' (_ & _ & _ & Hall). exact Hall. Qed.

(** ** The scenario *)

Lemma demo_init n : statusOf (plansAt (demoCluster true) []) n = emptyPlanStatus.
Proof.
  unfold statusOf, plansAt. cbn [foldr]. unfold demoCluster. cbn [cl_plans fmap list_fmap list_to_map foldr].
  change (list_to_map _) with (<["plan" := demoPlan true]> (∅ : gmap string GPURecoveryPlan)).
  rewrite lookup_insert, lookup_empty. by case_decide.
Qed.

Lemma passes_reachable c n h :
  @reachable (clusterEnv c) demoReconciler h → @reachable (clusterEnv c) demoReconciler (passes c n h).
Proof. revert h. induction n as [|n IH]; intros h Hr; [done|]. apply IH. by apply reach_pass. Qed.

(** After two passes: the status stored, and its event in progress. *)
Definition demoHistory : list Ev := passes (demoCluster true) 2 [].
Definition demoStatus : GPURecoveryPlanStatus :=
  @ps_status (clusterEnv (demoCluster true)) (clusterEnv_plans (demoCluster true)) demoHistory "plan".
Definition demoEvent : RecoveryEvent := st_Events demoStatus !!! 0.

Lemma one_recovery_per_node_witness :
  isActive (evt_State demoEvent) = true ∧
  evt_ID demoEvent = evt_ID demoEvent ∧ lowerS (evt_GPUBDF demoEvent) = lowerS (evt_GPUBDF demoEvent).
Proof.
  assert (demoEvent ∈ st_Events demoStatus) as Hin.
  { apply list_elem_of_lookup_2 with 0%nat. vm_compute. reflexivity. }
  assert (isActive (evt_State demoEvent) = true) as Hact by (vm_compute; reflexivity).
  split; [exact Hact|].
  exact (@one_recovery_per_node (clusterEnv (demoCluster true)) (clusterEnv_plans _) demoReconciler
           demoHistory "plan" eq_refl demo_init (passes_reachable _ 2 [] (reach_start _))
           (clusterEnv_dns _) demoEvent demoEvent Hin Hin eq_refl Hact Hact).
Defined.

Lemma status_wellformed_witness :
  length (st_Messages demoStatus) ≤ 50 ∧ length (st_Events demoStatus) ≤ 1000.
Proof.
  destruct (@status_wellformed (clusterEnv (demoCluster true)) (clusterEnv_plans _) demoReconciler
              demoHistory "plan" eq_refl demo_init (passes_reachable _ 2 [] (reach_start _)))
    as (Hm & He & _).
  split; [exact Hm|exact He].
Defined.
