(* ===== verification/RecoveryCorrect.v ===== *)
(** * GPU recovery: what a pass does

    Detection, the life cycle of events, approvals and their write-back: the functional theorems of
    the reconciler. *)

From S2P Require Import Prelude GoStrings KubeTypes ApiTypes Common Client Drain Cluster OpenShift.
From S2P Require Import RecoveryNaming RecoveryNamingFacts RecoveryEvents RecoveryEventsFacts.
From S2P Require Import RecoveryController RecoveryFocus RecoveryInv RecoveryDetection RecoveryPhases.
From S2P Require Import RecoveryTrace RecoveryReconcile RecoveryScenario.

Section Pass.
Context `{!Env} (r : GPURecoveryPlanReconciler) (w : World Ev GPURecoveryPlan).
Hypothesis Hok : listOK (plan_Events (mem w)).


(** C3: no recovery runs without authority: an event that is draining or in progress after the phases
    of a pass was so before them, or the spec holds an approval that is not consumed and that names
    the event, or selects its type, its node and labels the API server reported for the node during
    these phases. *)
Theorem recovery_needs_approval :
  wp (reconcilePhases r) (λ _ w',
    Forall2 (λ e e', isActive (evt_State e') = true →
        isActive (evt_State e) = true ∨ ∃ a, authorizes (log w) (log w') (mem w) e a)
      (plan_Events (mem w)) (plan_Events (mem w'))) w.
Proof.
  eapply wp_mono; [by apply reconcilePhases_spec|]. cbn beta. intros _ w' [Hp _]. exact (pp_auth _ _ _ _ Hp).
Qed.

Hypothesis Hids : NoDup (ap_ID <$> plan_Approvals (mem w)).

(** C8: [processApprovals] spends an approval only for a recovery it started: an approval that was not
    consumed and is consumed afterwards is not persistent, authorized some event that was idle and is
    now draining or in progress under it, and no event was newly held back under it.  Everything else
    of the approvals, and their order, stays as it was. *)
Theorem approval_spent_when_used :
  wp (processApprovals r) (λ _ w', ∃ spent : string → bool,
    plan_Approvals (mem w') = (λ a, if spent (ap_ID a) then set_ap_Consumed true a else a) <$> plan_Approvals (mem w) ∧
    ∀ id, spent id = true →
      (∃ i e e' a, plan_Events (mem w) !! i = Some e ∧ plan_Events (mem w') !! i = Some e' ∧
         ap_ID a = id ∧ ap_Persistent a = false ∧ authorizes (log w) (log w') (mem w) e a ∧
         isActive (evt_State e) = false ∧ isActive (evt_State e') = true ∧ evt_ApprovalID e' = id) ∧
      (∀ i e e', plan_Events (mem w) !! i = Some e → plan_Events (mem w') !! i = Some e' →
         evt_State e' = RecoveryEventStateBlocked → evt_ApprovalID e' = id →
         evt_State e = RecoveryEventStateBlocked)) w.
Proof.
  eapply wp_mono; [by apply processApprovals_spec|]. cbn beta.
  intros [] w' (w1 & ids & _ & Hids1 & l & Hm & Hl). exists (spentIDs ids). rewrite Hm. split.
  - by rewrite plan_Approvals_set, (Hl Hids), spend_keep.
  - intros id [Hc Hb]%bool_decide_eq_true. change (plan_Events (set_plan_Approvals l (mem w1))) with (plan_Events (mem w1)).
    split.
    + destruct (io_consumed _ _ _ _ _ Hids1 _ Hc) as (i & e & e' & a & He & He' & (Ha & A1 & A2 & A3) & Hid & Hp).
      exists i, e, e', a. split_and!; try done. congruence.
    + intros i e e' He He' Hst Hap. destruct (decide (evt_State e = RecoveryEventStateBlocked)); [done|].
      destruct Hb. rewrite <- Hap. by eapply (io_blocked _ _ _ _ _ Hids1).
Qed.

(** C36: round trip of the approvals: the changes a pass computes with [diffApprovals], applied to the
    approvals it started from, give exactly the approvals it left in memory. *)
Theorem approvals_round_trip :
  wp (reconcilePhases r) (λ _ w',
    (applyChanges (diffApprovals (mem w) (mem w')) (mem w)).1 = set_plan_Approvals (plan_Approvals (mem w')) (mem w)) w.
Proof.
  eapply wp_mono; [by apply reconcilePhases_spec|]. cbn beta. intros _ w' [Hp _].
  destruct (pp_approvals _ _ _ _ Hp Hids) as (C & R & Hs). simpl. f_equal. by eapply apply_diff.
Qed.
End Pass.

(** Writing approval changes onto a plan that others edited meanwhile is safe to retry: a second
    application changes nothing and says so, every approval the changes do not name is kept as it is,
    none is added, and the order is that of the plan written to. *)
Theorem approval_changes_merge (ch : approvalChanges) (cur : GPURecoveryPlan) :
  applyChanges ch (applyChanges ch cur).1 = ((applyChanges ch cur).1, false) ∧
  ap_ID <$> plan_Approvals (applyChanges ch cur).1
    = filter (λ id, id ∉ ch_removed ch) (ap_ID <$> plan_Approvals cur) ∧
  ∀ a, ap_ID a ∉ ch_removed ch → ap_ID a ∉ ch_consumed ch →
    a ∈ plan_Approvals (applyChanges ch cur).1 ↔ a ∈ plan_Approvals cur.
Proof.
  assert (∀ a, ap_ID (applyOne ch a) = ap_ID a) as Hid by (intros a; unfold applyOne; by case_match).
  split_and!.
  - destruct (apply_idem ch cur) as [Hb Hp]. destruct (applyChanges ch (applyChanges ch cur).1). simpl in *. congruence.
  - cbn [applyChanges fst]. rewrite plan_Approvals_set. unfold applyApprovals. generalize (plan_Approvals cur) as l. induction l as [|a l IH]; [done|].
    rewrite fmap_cons, !filter_cons. case_decide; [|done]. simpl. f_equal; [apply Hid|exact IH].
  - intros a Hr Hc. cbn [applyChanges fst]. rewrite plan_Approvals_set. unfold applyApprovals. rewrite list_elem_of_fmap. setoid_rewrite list_elem_of_filter.
    assert (∀ b, applyOne ch b = a → b = a) as Hinv.
    { intros b <-. rewrite Hid in Hc. unfold applyOne. by rewrite bool_decide_false. }
    split; [intros (b & -> & _ & Hb); by rewrite <- (Hinv b)|]. intros Ha. exists a.
    split_and!; [|done|done]. unfold applyOne. by rewrite bool_decide_false.
Qed.

(** ** Detection *)

(** C9: detection is complete and exact.  When the slices could be listed, every recovery a tainted
    GPU of the plan's model calls for is covered afterwards by an event for its node and PCI address
    that is of at least that priority or already has its Job running, unless the status is at its
    limit of 1000 events; and every event left is for a GPU that still calls for a recovery, or was
    there before with its Job in progress.  When the listing failed the plan is left as it was. *)
Theorem detection_covers_needs `{!Env} r w :
  listOK (plan_Events (mem w)) →
  wp (syncRecoveryEventsFromSlices r) (λ o w', listOK (plan_Events (mem w')) ∧
    match o with
    | Some _ => mem w' = mem w
    | None => ∃ slices, env_listSlices (log w) = Ok slices ∧
        (∀ k need, calledFor (plan_Spec (mem w)) slices k need →
           length (plan_Events (mem w')) = 1000 ∨
           ∃ e, e ∈ plan_Events (mem w') ∧ evtKey e = k ∧
             (recoveryTypePriority (need_rt need) ≤ recoveryTypePriority (rt_Type (evt_RecoveryType e)) ∨
              evt_State e = RecoveryEventStateInProgress)) ∧
        (∀ e', e' ∈ plan_Events (mem w') →
           (∃ need, calledFor (plan_Spec (mem w)) slices (evtKey e') need) ∨
           ∃ e, e ∈ plan_Events (mem w) ∧ evtKey e = evtKey e' ∧ evt_State e = RecoveryEventStateInProgress)
    end) w.
Proof.
  intros Hok. eapply wp_mono; [by apply syncRecoveryEventsFromSlices_spec|]. cbn beta.
  intros o w' (_ & Hok' & Hcase). split; [done|]. destruct o as [e|]; [done|].
  destruct Hcase as (slices & Hs & (ex & Hkeys & Hex) & Hcov). exists slices. split; [done|].
  assert (∀ k, is_Some (activeKeys (plan_Spec (mem w)) slices !! k) →
    ∃ need, calledFor (plan_Spec (mem w)) slices k need) as Hcalled.
  { intros k [n Hn]. pose proof (activeKeys_spec (plan_Spec (mem w)) slices k) as Hk. rewrite Hn in Hk.
    exists n. apply Hk. }
  split.
  - intros k need Hneed. pose proof (activeKeys_spec (plan_Spec (mem w)) slices k) as Hk.
    destruct (activeKeys (plan_Spec (mem w)) slices !! k) as [n|] eqn:Hn; [|by destruct (Hk need)].
    destruct Hk as [_ Hmax]. destruct (Hcov k n Hn) as [(e & He & Hke & Hc)|Hfull]; [right|by left].
    exists e. split_and!; [done..|]. destruct Hc as [Hc|Hc]; [left|by right]. etrans; [by apply Hmax|done].
  - intros e' He'. assert (evtKey e' ∈ evtKey <$> plan_Events (mem w')) as Hin by by apply list_elem_of_fmap_2.
    rewrite Hkeys in Hin. apply elem_of_app in Hin as [Hin|Hin].
    + apply list_elem_of_fmap in Hin as (e & Hke & [Hkeep He]%list_elem_of_filter).
      destruct Hkeep as [Hact|Hst]; [left; apply Hcalled; by rewrite Hke|right; by exists e].
    + left. apply Hcalled. by apply (proj1 (Forall_forall _ _) Hex).
Qed.

(** No slice that matters is missed by the watch: when a ResourceSlice shows a GPU that calls for a
    recovery under a plan, the mapping from slices to reconcile requests returns that plan. *)
Theorem slice_wakes_plan `{!Env} slice plans p k need (w : World Ev GPURecoveryPlan) :
  env_listPlans (log w) = Ok plans → p ∈ plans → sp_DeviceID (plan_Spec p) ≠ "" →
  calledFor (plan_Spec p) [slice] k need →
  wp (resourceSliceToPlans slice) (λ names _, plan_Name p ∈ names) w.
Proof.
  intros Hl Hp Hid (s & dev & t & ->%list_elem_of_singleton & Hcall).
  assert (sp_DeviceID (plan_Spec p) ∈ sliceDeviceIDs slice) as Hin.
  { unfold sliceDeviceIDs. rewrite elem_of_list_to_set, list_elem_of_filter. split; [done|].
    apply list_elem_of_fmap. exists dev. naive_solver. }
  unfold resourceSliceToPlans. rewrite bool_decide_false by set_solver. apply wp_bind, wp_exchange, wp_ret.
  rewrite Hl. apply list_elem_of_fmap. exists p. split; [done|]. by apply list_elem_of_filter.
Qed.

(** ** Writing back *)

Section Persist.
Context `{!Env} (r : GPURecoveryPlanReconciler) (name : string).

Definition statusPart (want : GPURecoveryPlanStatus) (e : Ev) : Prop :=
  match e with
  | EvGetPlan d n _ => d = APIReader r ∧ n = name
  | EvUpdatePlanStatus p _ => plan_Status p = want
  | _ => False
  end.

(** A spec write follows the read of the plan it merges into. *)
Definition approvalPart (ch : approvalChanges) (h : list Ev) (e : Ev) : Prop :=
  match e with
  | EvGetPlan d n _ => d = APIReader r ∧ n = name
  | EvUpdatePlan p _ => ∃ cur h', h = EvGetPlan (APIReader r) name (Ok cur) :: h' ∧ applyChanges ch cur = (p, true)
  | _ => False
  end.

Lemma writeStatus_logged want : keeps (logged (statusPart want)) (writeStatus r name want).
Proof. unfold writeStatus, getPlan. keeps_auto. Qed.

Lemma writeApprovals_logged ch : keeps (loggedIn (approvalPart ch)) (writeApprovals r name ch).
Proof.
  apply keeps_intro. intros w. unfold writeApprovals, getPlan. apply wp_bind, wp_exchange.
  assert (∀ a, loggedIn (approvalPart ch) w (mkWorld (mem w) (EvGetPlan (APIReader r) name a :: log w))) as Hg.
  { intros a. by apply loggedIn_one. }
  destruct (env_getPlan (log w) (APIReader r) name) as [cur|e]; [|by apply wp_ret].
  destruct (applyChanges ch cur) as [p changed] eqn:Happ. cbn [fst snd].
  destruct changed; cbn [negb]; [|by apply wp_ret]. apply wp_bind, wp_exchange, wp_ret.
  etrans; [apply Hg|]. eexists [_]. split; [done|]. split; [|done]. by exists cur, (log w).
Qed.

(** [persistPlan] writes the status before the spec and writes no more than it has to.  With the
    status unchanged and no approval changed it sends nothing at all.  Otherwise all status writes come
    before all spec writes; a status write is sent only if the status changed and carries exactly the
    status the pass computed; a spec write carries the plan read just before it with the pass's approval
    changes merged in, and is sent only when that merge changed something. *)
Theorem status_written_before_spec orig (w : World Ev GPURecoveryPlan) :
  wp (persistPlan r name orig) (λ o w',
    let want := plan_Status (mem w) in
    let ch := diffApprovals orig (mem w) in
    ∃ status spec, log w' = spec ++ status ++ log w ∧
      Forall (statusPart want) status ∧ (plan_Status orig = want → status = []) ∧
      eachIn (approvalPart ch) spec (status ++ log w) ∧ (changesEmpty ch = true → spec = []) ∧
      (plan_Status orig = want → changesEmpty ch = true → o = None)) w.
Proof.
  unfold persistPlan. apply wp_bind, wp_getMem. cbv zeta.
  set (want := plan_Status (mem w)). set (ch := diffApprovals orig (mem w)).
  case_bool_decide as Hst; cbn [negb andb].
  - destruct (changesEmpty ch) eqn:Hch.
    { apply wp_ret. by exists [], []. }
    apply wp_bind, wp_ret. apply wp_bind. eapply wp_mono.
    { apply keeps_wp, keeps_RetryOnConflict, writeApprovals_logged; apply _. }
    intros a w1 (new & Hl & HF). apply wp_ret. by exists [], new.
  - apply wp_bind. eapply wp_mono.
    { apply keeps_wp, keeps_RetryOnConflict, writeStatus_logged; apply _. }
    intros s w1 (ns & Hl & HF). destruct (changesEmpty ch) eqn:Hch.
    { apply wp_ret. by exists ns, []. }
    apply wp_bind. eapply wp_mono.
    { apply keeps_wp, keeps_RetryOnConflict, writeApprovals_logged; apply _. }
    intros a w2 (na & Hl2 & HF2). apply wp_ret. exists ns, na. rewrite Hl in HF2. by rewrite Hl2, Hl.
Qed.
End Persist.

(** ** The scenario *)

Lemma listOK_nil `{!Env} : listOK [].
Proof. split; [constructor|intros ? ? []%not_elem_of_nil|constructor|unfold maxStatusEvents; simpl; lia]. Qed.

Lemma demoDetected_ok drain : @listOK (clusterEnv (demoCluster drain)) (plan_Events (mem (demoDetected drain))).
Proof.
  apply (@syncRecoveryEventsFromSlices_spec (clusterEnv (demoCluster drain)) demoReconciler (demoStart drain)).
  apply listOK_nil.
Qed.

Lemma demoDetected_ids drain : NoDup (ap_ID <$> plan_Approvals (mem (demoDetected drain))).
Proof. destruct drain; vm_compute; repeat constructor; apply not_elem_of_nil. Qed.


Lemma recovery_needs_approval_witness :
  Forall2 (λ e e', isActive (evt_State e') = true → isActive (evt_State e) = true ∨
             ∃ a, authorizes (log (demoDetected true)) (log (demoPhases true)) (mem (demoDetected true)) e a)
    (plan_Events (mem (demoDetected true))) (plan_Events (mem (demoPhases true))).
Proof.
  exact (@recovery_needs_approval (clusterEnv (demoCluster true)) demoReconciler (demoDetected true)
           (demoDetected_ok true)).
Defined.

Lemma approval_spent_when_used_witness :
  ∃ spent : string → bool,
    plan_Approvals (mem (@processApprovals (clusterEnv (demoCluster false)) demoReconciler (demoDetected false)).2)
    = (λ a, if spent (ap_ID a) then set_ap_Consumed true a else a) <$> plan_Approvals (mem (demoDetected false)).
Proof.
  destruct (@approval_spent_when_used (clusterEnv (demoCluster false)) demoReconciler (demoDetected false)
              (demoDetected_ok false) (demoDetected_ids false)) as (spent & Hs & _).
  exists spent. exact Hs.
Defined.

Lemma approvals_round_trip_witness :
  (applyChanges (diffApprovals (mem (demoDetected true)) (mem (demoPhases true))) (mem (demoDetected true))).1
  = set_plan_Approvals (plan_Approvals (mem (demoPhases true))) (mem (demoDetected true)).
Proof.
  exact (@approvals_round_trip (clusterEnv (demoCluster true)) demoReconciler (demoDetected true)
           (demoDetected_ok true) (demoDetected_ids true)).
Defined.

Lemma detection_covers_needs_witness :
  length (plan_Events (mem (demoDetected true))) = 2 ∧
  @listOK (clusterEnv (demoCluster true)) (plan_Events (mem (demoDetected true))).
Proof.
  split; [vm_compute; reflexivity|].
  exact (proj1 (@detection_covers_needs (clusterEnv (demoCluster true)) demoReconciler (demoStart true)
                  (@listOK_nil (clusterEnv (demoCluster true))))).
Defined.

Lemma slice_wakes_plan_witness :
  plan_Name (demoPlan true)
    ∈ (@resourceSliceToPlans (clusterEnv (demoCluster true)) GPURecoveryPlan demoSlice (demoStart true)).1.
Proof.
  apply (@slice_wakes_plan (clusterEnv (demoCluster true)) demoSlice [demoPlan true] (demoPlan true)
           (mkDeviceKey "n1" "0000:02:00.0") (mkDeviceNeed RecoveryTypeSBR reasonWedged) (demoStart true)).
  - vm_compute. reflexivity.
  - apply list_elem_of_singleton. reflexivity.
  - discriminate.
  - exists demoSlice, (demoDevice "gpu-0" "0000:02:00.0" DeviceTaintKeyReset), DeviceTaintKeyReset.
    split_and!; [apply list_elem_of_singleton; reflexivity|reflexivity|reflexivity|apply elem_of_cons; left; reflexivity| | | |
      apply list_elem_of_singleton; reflexivity|]; vm_compute; reflexivity.
Defined.
