(* ===== verification/RecoveryLive.v ===== *)
(** * GPU recovery: deadlines, image checks and taint release

    A recovery that makes no progress comes to an end, a recovery starts only with images the
    registry can serve, and drain taints go away again. *)

From S2P Require Import Prelude GoStrings KubeTypes ApiTypes Common Client Drain Cluster OpenShift.
From S2P Require Import RecoveryNaming RecoveryNamingFacts RecoveryEvents RecoveryEventsFacts.
From S2P Require Import RecoveryController RecoveryFocus RecoveryInv RecoveryDetection RecoveryPhases.
From S2P Require Import RecoveryTrace RecoveryReconcile RecoveryScenario.

(** ** Deadlines *)

(** The difference of two times is cut at the ends of [int64], far above every deadline. *)
Lemma timeSince_gt now t d : (d < int64_max)%Z → (t + d < now)%Z → (d < timeSince now t)%Z.
Proof. intros Hd Hn. unfold timeSince. unfold int64_max, int64_min in *. lia. Qed.

Lemma overdue_verdict d now t :
  (0 ≤ d ≤ int32_max)%Z → (t + (d + 60) * Second < now)%Z → (verdictDeadline d <? timeSince now t)%Z = true.
Proof.
  intros Hd Hn. apply Z.ltb_lt. rewrite verdictDeadline_spec by done. apply timeSince_gt; [|done].
  unfold int32_max, int64_max, Second in *. lia.
Qed.

(** The timeout of a drain in seconds: the configured one, or 300. *)
Definition drainSeconds (plan : GPURecoveryPlan) : Z :=
  let t := dr_TimeoutSeconds (sp_Drain (plan_Spec plan)) in if (t =? 0)%Z then 300 else t.

Lemma overdue_drain plan now t :
  (0 ≤ dr_TimeoutSeconds (sp_Drain (plan_Spec plan)) ≤ int32_max)%Z →
  (t + drainSeconds plan * Second < now)%Z →
  (drainTimeout plan <? timeSince now t)%Z = true.
Proof.
  intros Hd Hn. apply Z.ltb_lt. rewrite drainTimeout_spec by done. unfold drainSeconds in Hn.
  destruct (_ =? 0)%Z; apply timeSince_gt; unfold defaultDrainTimeout, int32_max, int64_max, Second in *; lia.
Qed.

(** A drain step leaves the start of the drain and the type of the recovery alone. *)
Lemma drainNodeForEvent_open `{!Env} i p0 r e w :
  focus i e p0 w → evt_State e = RecoveryEventStateDraining →
  wp (drainNodeForEvent r i) (λ _ w', ∃ e', focus i e' p0 w' ∧
    evt_State e' = RecoveryEventStateDraining ∧ evt_DrainStartedAt e' = evt_DrainStartedAt e ∧
    evt_RecoveryType e' = evt_RecoveryType e) w.
Proof.
  intros Hf Hst. pose proof (claimsHoldingDevice_sameMem i r). unfold drainNodeForEvent. focus_steps.
  all: try (exists e; by split_and!).
  eexists. split; [exact Hf|]. by split_and!.
Qed.

(** A reset of a known type ends with its Job, or with an error and the event as it was. *)
Lemma createRecoveryJob_open `{!Env} i p0 r e w :
  focus i e p0 w → IsReflash (evt_RecoveryType e) = false → rt_Type (evt_RecoveryType e) ≠ RecoveryTypeUnset →
  wp (createRecoveryJob r i) (λ o w', match o with
    | Some _ => focus i e p0 w'
    | None => ∃ e', focus i e' p0 w' ∧ evt_State e' = RecoveryEventStateInProgress ∧ evt_JobName e' ≠ ""
    end) w.
Proof.
  intros Hf Hr Hrt. unfold createRecoveryJob. do 2 focus_step. rewrite Hr. unfold createResetJob. do 4 focus_step.
  rewrite bool_decide_false.
  2:{ unfold IsReflash in Hr. apply bool_decide_eq_false in Hr. by destruct (rt_Type (evt_RecoveryType e)). }
  apply wp_bind. eapply wp_mono; [by apply (prepareRecoveryJob_focus i p0)|]. clear Hf.
  intros j w1 (Hf & Hj & _). cbn beta zeta. unfold createOrAdopt. focus_steps; try done.
  all: eexists; split; [exact Hf|]; split; [done|]; simpl; rewrite (jf_name _ _ _ _ Hj); apply recoveryJobName_nonempty.
Qed.

Section Deadlines.
Context `{!Env} (r : GPURecoveryPlanReconciler) (i : nat) (e : RecoveryEvent) (w : World Ev GPURecoveryPlan).
Hypothesis Hevt : plan_Events (mem w) !! i = Some e.

(** C34: no event waits forever for a Job's verdict.  When the event is in progress and its Job has no
    terminal condition, or is gone, and the clock is past the Job's deadline and a minute of grace
    (without overflow for any deadline an int32 holds), the event fails: it lets go of the Job, which
    joins its past Jobs, so that the node is free again. *)
Theorem overdue_job_fails d t :
  evt_State e = RecoveryEventStateInProgress → evt_JobName e ≠ "" →
  match env_getJob (log w) (Namespace (Opts r)) (evt_JobName e) with
  | Ok job => jobTerminalCondition job = None ∧ jobDeadlineSeconds (mem w) e job = d ∧ jobStartedAt job = Some t
  | Err err => isNotFound err = true ∧ recoveryJobTimeout (mem w) e = d ∧ evt_LastUpdated e = Some t
  end →
  (0 ≤ d ≤ int32_max)%Z → (∀ h, t + (d + 60) * Second < env_now h)%Z →
  wp (syncJobStatus r i) (λ _ w', ∃ e', plan_Events (mem w') = <[i := e']> (plan_Events (mem w)) ∧
    evt_State e' = RecoveryEventStateFailed ∧ evt_JobName e' = "" ∧
    evt_PastJobs e' = evt_PastJobs e ++ [evt_JobName e]) w.
Proof.
  intros Hst Hj Hjob Hd Hnow. pose proof (focus_start _ _ _ Hevt) as Hf.
  assert (∀ detail w1, focus i e (mem w) w1 → wp (failEventJob i detail) (λ _ w', ∃ e',
    plan_Events (mem w') = <[i := e']> (plan_Events (mem w)) ∧ evt_State e' = RecoveryEventStateFailed ∧
    evt_JobName e' = "" ∧ evt_PastJobs e' = evt_PastJobs e ++ [evt_JobName e]) w1) as Hfail.
  { clear Hf. intros detail w1 Hf. unfold failEventJob. focus_steps. eexists.
    split; [exact (fo_events _ _ _ _ Hf)|]. done. }
  unfold syncJobStatus. do 4 focus_step.
  rewrite (bool_decide_true (evt_State e = _)), (bool_decide_false (evt_JobName e = _)) by done. cbn [negb orb].
  apply wp_bind, wp_exchange. cbv zeta.
  assert (∀ ev, focus i e (mem w) (mkWorld (mem w) (ev :: log w))) as Hf1 by (intros; by eapply focus_mem).
  destruct (env_getJob _ _ _) as [job|err].
  - destruct Hjob as (-> & -> & ->). cbn [jobVerdictOverdue]. apply wp_bind, wp_bind, wp_exchange, wp_ret.
    rewrite overdue_verdict by done. apply Hfail. by eapply focus_mem.
  - destruct Hjob as (-> & Hdl & ->).
    change (jobDeadlineSeconds (mem w) e emptyJob) with (recoveryJobTimeout (mem w) e). rewrite Hdl.
    cbn [jobVerdictOverdue]. apply wp_bind, wp_bind, wp_exchange, wp_ret.
    rewrite overdue_verdict by done. apply Hfail. by eapply focus_mem.
Qed.

(** C35: no drain for a reset goes on forever.  When the event drains since [t], for a recovery of a known type
    other than a reflash, and the clock is past the configured timeout (300 s if none is set; without overflow
    for any timeout an int32 holds), the drain phase ends the drain in one step: whatever the API server
    answers, the event is in progress with its Job or has failed, and no other event is touched. *)
Theorem overdue_drain_ends t :
  evt_State e = RecoveryEventStateDraining → evt_DrainStartedAt e = Some t →
  IsReflash (evt_RecoveryType e) = false → rt_Type (evt_RecoveryType e) ≠ RecoveryTypeUnset →
  (0 ≤ dr_TimeoutSeconds (sp_Drain (plan_Spec (mem w))) ≤ int32_max)%Z →
  (∀ h, t + drainSeconds (mem w) * Second < env_now h)%Z →
  wp (drainEvent r i) (λ _ w', ∃ e', plan_Events (mem w') = <[i := e']> (plan_Events (mem w)) ∧
    (evt_State e' = RecoveryEventStateFailed ∨ evt_State e' = RecoveryEventStateInProgress ∧ evt_JobName e' ≠ "")) w.
Proof.
  intros Hst Ht Hr Hrt Hd Hnow. pose proof (focus_start _ _ _ Hevt) as Hf. set (p0 := mem w) in *.
  set (Q := λ (_ : unit) (w' : World Ev GPURecoveryPlan), ∃ e', plan_Events (mem w') = <[i := e']> (plan_Events p0) ∧
    (evt_State e' = RecoveryEventStateFailed ∨ evt_State e' = RecoveryEventStateInProgress ∧ evt_JobName e' ≠ "")).
  assert (∀ stall e1 w1, stall ≠ "" → focus i e1 p0 w1 → evt_DrainStartedAt e1 = Some t →
    wp (if bool_decide (stall = "") then mret tt
        else (x ← drainDeadlineExceeded i; if x : bool then failDrain i stall else mret tt)) Q w1) as Hend.
  { clear Hf. intros stall e1 w1 Hs Hf He1. rewrite bool_decide_false by done. unfold drainDeadlineExceeded.
    pose proof (focus_spec _ _ _ _ Hf) as Hspec. do 3 focus_step. rewrite He1.
    apply wp_bind, wp_getMem, wp_bind, wp_exchange, wp_ret.
    rewrite overdue_drain by (unfold drainSeconds; rewrite ?Hspec; done).
    assert (focus i e1 p0 (mkWorld (mem w1) (EvNow (env_now (log w1)) :: log w1))) as Hf1 by by eapply focus_mem.
    eapply wp_mono; [by apply (failDrain_focus i p0)|]. intros [] w2 (e' & Hf' & _ & Hst' & _).
    exists e'. split; [apply (fo_events _ _ _ _ Hf')|by left]. }
  unfold drainEvent. do 2 focus_step. rewrite Hst, bool_decide_true by done. cbn [negb].
  apply wp_bind. eapply wp_mono; [by apply (drainNodeForEvent_open i p0)|]. clear Hf.
  intros d w1 (e1 & Hf & Hst1 & Ht1 & Hrt1). destruct d as [[]|err].
  - apply wp_bind, wp_bind. eapply wp_mono; [by apply (createRecoveryJob_open i p0 r e1); congruence|]. clear Hf.
    intros o w2 Hpost. destruct o as [err|].
    + rename Hpost into Hf. do 5 (focus_step; cbn beta). eapply Hend; [done|exact Hf|]. simpl. congruence.
    + destruct Hpost as (e2 & Hf & Hs2 & Hj2). apply wp_ret. rewrite bool_decide_true by done. apply wp_ret.
      exists e2. split; [apply (fo_events _ _ _ _ Hf)|by right].
  - do 3 focus_step. apply wp_ret. eapply Hend; [|exact Hf|congruence]. unfold drainBlockerDetail. intros Hx.
    apply (f_equal slen) in Hx. rewrite !slen_app in Hx. simpl in Hx. lia.
  - do 6 (focus_step; cbn beta). eapply Hend; [done|exact Hf|]. simpl. congruence.
Qed.
End Deadlines.

(** ** Images *)

Section Images.
Context `{!Env} (r : GPURecoveryPlanReconciler) (i : nat) (e : RecoveryEvent) (w : World Ev GPURecoveryPlan).
Hypothesis Hevt : plan_Events (mem w) !! i = Some e.

(** The answer is yes only after the registry has confirmed every image. *)
Lemma ensureImagesUsable_verified secret :
  wp (ensureImagesUsable secret i) (λ ok w', ok = true →
    sp_SkipImageVerification (plan_Spec (mem w)) = true ∨
    ∀ img, img ∈ recoveryImagesForEvent (mem w) e →
      seen (log w) (log w') (EvVerifyImage (imageRequest secret img) (Ok tt))) w.
Proof.
  pose proof (focus_start _ _ _ Hevt) as Hf. unfold ensureImagesUsable. do 4 focus_step.
  focus_step; [by apply wp_ret; left|]. focus_step; [by apply wp_ret|]. apply wp_bind.
  set (imgs := recoveryImagesForEvent (mem w) e). eapply wp_mono.
  { apply (wp_foldUntil _ (λ done (_ : unit) w', log w `suffix_of` log w' ∧ ∀ img, img ∈ done →
      seen (log w) (log w') (EvVerifyImage (imageRequest secret img) (Ok tt))) (λ _ _, True)).
    { split; [done|]. intros img []%not_elem_of_nil. }
    intros pre img post [] w1 _ [Hsuf Hpre]. apply wp_bind, wp_exchange.
    destruct (env_verifyImage (log w1) (imageRequest secret img)) as [[]|err] eqn:Hv.
    - apply wp_ret. cbn [log]. split; [etrans; [exact Hsuf|by eexists [_]]|].
      intros x [Hx|Hx%list_elem_of_singleton]%elem_of_app.
      + eapply seen_mono; [|by apply Hpre]. by eexists [_].
      + subst x. by apply seen_now.
    - apply wp_bind. eapply (wp_mono _ (λ _ _, True)); [done|]. intros [] w2 _. by apply wp_ret. }
  cbn beta. intros [[]|[]] w1 Hall; [destruct Hall as [_ Hall]|by apply wp_ret].
  apply wp_bind. eapply (wp_mono _ (λ _ w2, log w2 = log w1)).
  { case_match; [unfold appendMessage; by apply wp_modMem|by apply wp_ret]. }
  intros [] w2 Hl2. unfold clearImageVerifyHold, modEvt, modEvents. apply wp_bind, wp_modMem, wp_ret.
  intros _. right. cbn [log]. by rewrite Hl2.
Qed.

(** A recovery that an approval starts (a drain begins or a Job is created) has had every image its
    Job needs confirmed by the registry in that very pass, under the operator's pull secret and with
    the firmware file checked to be in the firmware image, unless the plan opts out of the check. *)
Theorem images_verified_before_start a ids :
  isActive (evt_State e) = false →
  wp (startRecovery r i a ids) (λ _ w', isActive (evt_State (plan_Events (mem w') !!! i)) = true →
    sp_SkipImageVerification (plan_Spec (mem w)) = true ∨
    ∀ img, img ∈ recoveryImagesForEvent (mem w) e →
      seen (log w) (log w') (EvVerifyImage (mkImageVerifyRequest (ri_image img) (SecretName (Opts r))
        (ri_insecureSkipTLSVerify img) (ri_files img)) (Ok tt))) w.
Proof.
  intros Hin. pose proof (focus_start _ _ _ Hevt) as Hf. unfold startRecovery. apply wp_bind.
  eapply wp_mono.
  { apply wp_and; [apply ensureImagesUsable_verified|by apply (ensureImagesUsable_focus i (mem w))]. }
  cbn beta. intros ok w1 [Hver (e1 & Hf1 & _ & _ & _ & _ & Hst & _)]. destruct ok; cbn [negb].
  - specialize (Hver eq_refl). eapply (wp_mono _ (λ _ w2, logged (λ _, True) w1 w2)).
    { apply keeps_wp.
      unfold createRecoveryJob, createReflashJob, createResetJob, parkForFirmware, prepareRecoveryJob, createOrAdopt,
        beginDrain, setEventState, getEvt, modEvt, modEvents, appendMessage. keeps_auto. }
    intros _ w2 (new & Hl & _) _. destruct Hver as [?|Hver]; [by left|right].
    intros img Himg. eapply seen_mono; [|by apply Hver]. rewrite Hl. by eexists.
  - apply wp_ret. rewrite (list_lookup_total_correct _ _ _ (focus_lookup _ _ _ _ Hf1)).
    destruct Hst as [-> | ->]; [by rewrite Hin|done].
Qed.

Lemma ensureImagesUsable_held secret w1 :
  sp_SkipImageVerification (plan_Spec (mem w1)) = false →
  imageHeld (mem w1) (plan_Events (mem w1) !!! i) = true → ensureImagesUsable secret i w1 = (false, w1).
Proof.
  intros Hs Hh. assert (wp (ensureImagesUsable secret i) (λ a w', a = false ∧ w' = w1) w1) as [Ha Hw].
  { unfold ensureImagesUsable, getEvt. apply wp_bind, wp_getMem, wp_bind, wp_bind, wp_getMem, wp_ret.
    rewrite Hs, Hh. by apply wp_ret. }
  destruct (ensureImagesUsable secret i w1). simpl in *. congruence.
Qed.

(** C37: a failed image check is asked once per spec: after [ensureImagesUsable] has turned an event
    down, asking again with the same plan gives the same answer without any exchange with the registry
    and without touching the plan, until the plan's generation changes. *)
Theorem image_failure_held secret :
  plan_Generation (mem w) ≠ 0%Z →
  wp (ensureImagesUsable secret i) (λ ok w', ok = false → ensureImagesUsable secret i w' = (false, w')) w.
Proof.
  intros Hgen. pose proof (focus_start _ _ _ Hevt) as Hf. unfold ensureImagesUsable at 1. do 4 focus_step.
  focus_step; [by apply wp_ret|]. focus_step.
  { apply wp_ret. intros _. apply ensureImagesUsable_held; [done|].
    by rewrite (list_lookup_total_correct _ _ _ Hevt). }
  apply wp_bind. eapply wp_mono.
  { apply (wp_foldUntil_inv _ (λ _ w', focus i e (mem w) w') (λ _ w', ∃ e', focus i e' (mem w) w' ∧
      evt_ImageVerifyGeneration e' = plan_Generation (mem w))); [done|].
    clear Hf. intros img [] w1 _ Hf. focus_step. focus_step. focus_step; focus_step; [by focus_steps|].
    eapply wp_mono; [by apply (holdForImageFix_focus i (mem w))|].
    intros [] w2 (e' & ? & _ & _ & ? & _). apply wp_ret. by exists e'. }
  cbn beta. clear Hf. intros [[]|[]] w1 Hw1.
  - apply wp_bind. eapply (wp_mono _ (λ _ _, True)); [done|]. intros [] w2 _.
    apply wp_bind. eapply (wp_mono _ (λ _ _, True)); [done|]. intros [] w3 _. by apply wp_ret.
  - destruct Hw1 as (e' & Hf & Hg). apply wp_ret. intros _. apply ensureImagesUsable_held.
    + by rewrite (focus_spec _ _ _ _ Hf).
    + rewrite (list_lookup_total_correct _ _ _ (focus_lookup _ _ _ _ Hf)). unfold imageHeld.
      rewrite Hg, (fr_gen _ _ (fo_frame _ _ _ _ Hf)), Z.eqb_refl. simpl. by rewrite (proj2 (Z.eqb_neq _ _) Hgen).
Qed.

(** An approved reflash that has no firmware configured never comes to rest: although the event
    stays in missing-firmware, each pass that checks its images clears the state message and then writes
    it again, so that [LastUpdated] is stamped anew and the status differs from the one read whenever
    the clock has moved.  As the status write wakes the controller again, the pass repeats. *)
Theorem missing_firmware_restamps a ids :
  evt_State e = RecoveryEventStateMissingFirmware → IsReflash (evt_RecoveryType e) = true →
  sp_Firmware (plan_Spec (mem w)) = None → sp_SkipImageVerification (plan_Spec (mem w)) = false →
  imageHeld (mem w) e = false → (∀ h q, env_verifyImage h q = Ok tt) →
  (∀ h, evt_LastUpdated e ≠ Some (env_now h)) →
  wp (startRecovery r i a ids) (λ _ w', plan_Status (mem w') ≠ plan_Status (mem w)) w.
Proof.
  intros Hst Hr Hfw Hskip Hheld Hver Hclock. pose proof (focus_start _ _ _ Hevt) as Hf. unfold startRecovery.
  apply wp_bind. eapply (wp_mono _ (λ ok w', ok = true ∧ ∃ e', focus i e' (mem w) w' ∧
    evt_StateMessage e' = "" ∧ evt_RecoveryType e' = evt_RecoveryType e)).
  { unfold ensureImagesUsable. do 4 focus_step. rewrite Hskip, Hheld. apply wp_bind. eapply wp_mono.
    { apply (wp_foldUntil_inv _ (λ _ w', focus i e (mem w) w') (λ _ _, False)); [done|].
      clear Hf. intros img [] w1 _ Hf. apply wp_bind, wp_exchange. rewrite Hver. apply wp_ret.
      by eapply focus_mem. }
    cbn beta. clear Hf. intros [[]|[]] w1; [|done]. intros Hf. apply wp_bind.
    eapply (wp_mono _ (λ _ w2, focus i e (mem w) w2)).
    { destruct (negb _); focus_steps; done. }
    clear Hf. intros [] w2 Hf. unfold clearImageVerifyHold. focus_steps. split; [done|]. by eexists. }
  clear Hf. intros ok w1 (-> & e1 & Hf & Hmsg & Hrt). cbn [negb]. do 4 focus_step.
  assert (needsDrain (mem w1) e1 = false) as ->.
  { unfold needsDrain. rewrite Hrt, Hr. by destruct (negb _). }
  apply wp_bind. unfold createRecoveryJob. do 2 focus_step. rewrite Hrt, Hr. unfold createReflashJob.
  do 4 focus_step. rewrite (focus_spec _ _ _ _ Hf), Hfw. unfold parkForFirmware.
  apply wp_bind, wp_bind. unfold setEventState. do 2 focus_step. cbv zeta.
  rewrite Hmsg. rewrite (bool_decide_false ("" = _)) by done. rewrite andb_false_r.
  apply wp_bind, wp_exchange. set (now := env_now (log w1)).
  assert (focus i e1 (mem w) (mkWorld (mem w1) (EvNow now :: log w1))) as Hf1 by by eapply focus_mem.
  clear Hf. rename Hf1 into Hf. focus_steps.
  intros Heq. apply (f_equal st_Events) in Heq. pose proof (focus_lookup _ _ _ _ Hf) as Hl.
  unfold plan_Events in Hl, Hevt. rewrite Heq, Hevt in Hl. injection Hl as Hl.
  apply (Hclock (log w1)). by rewrite Hl.
Qed.
End Images.

(** ** Text *)

Lemma runeBoundary_max s cut j : runeBoundary s cut < j ≤ cut → runeStart (s !!! j) = false.
Proof.
  induction cut as [|cut IH]; simpl; [lia|]. case_match eqn:Hc; [lia|]. intros Hj.
  destruct (decide (j = S cut)) as [->|]; [done|]. apply IH. lia.
Qed.

(** Cutting a text for the status never exceeds the limit, never splits a UTF-8 character, leaves a
    text that fits as it is, and otherwise keeps the longest prefix that leaves room for an ellipsis and
    ends between two characters, and marks the cut with that ellipsis. *)
Theorem capped_text s limit :
  slen capMarker ≤ limit →
  slen (capString s limit) ≤ limit ∧
  (validUTF8 (bytes s) → validUTF8 (bytes (capString s limit))) ∧
  (slen s ≤ limit → capString s limit = s) ∧
  (limit < slen s → ∃ k, k ≤ limit - slen capMarker ∧ capString s limit = strTake k s +:+ capMarker ∧
     ∀ j, k < j ≤ limit - slen capMarker → runeStart (bytes s !!! j) = false).
Proof.
  intros Hl. split_and!.
  - by apply capString_length.
  - apply capString_utf8.
  - intros Hs. unfold capString. by rewrite (proj2 (Nat.leb_le _ _) Hs).
  - intros Hs. unfold capString. rewrite (proj2 (Nat.leb_gt _ _) Hs).
    eexists. split; [apply runeBoundary_le|]. split; [done|]. intros j Hj. by apply runeBoundary_max in Hj.
Qed.

(** ** Drain taints *)

Section Taints.
Context `{!Env, !NodeServer}.

Definition untainted (t : Taint) (x : Node) : Node :=
  set_node_taints (filter (λ y, taintsEqual y t = false) (node_taints x)) x.

(** An exchange about the node has failed. *)
Definition nodeFailed (n : string) (h : list Ev) : Prop :=
  (∃ e, EvGetNode n (Err e) ∈ h) ∨ ∃ y e, node_name y = n ∧ EvUpdateNode y (Err e) ∈ h.

Lemma nodeFailed_app n new h : nodeFailed n h → nodeFailed n (new ++ h).
Proof. unfold nodeFailed. set_solver. Qed.

Lemma RemoveNodeTaint_outcome n t (w : World Ev GPURecoveryPlan) :
  wp (RemoveNodeTaint n t) (λ r w', (∃ new, log w' = new ++ log w) ∧
    match r with
    | Err _ => ns_nodes (log w') = ns_nodes (log w) ∧ nodeFailed n (log w')
    | Ok removed => onlyNode n (λ x x', hasTaint t x = removed ∧ x' = if removed then untainted t x else x) w w'
    end) w.
Proof.
  split.
  { destruct (RemoveNodeTaint_logged (St := GPURecoveryPlan) n t w) as (new & Hl & _). by exists new. }
  pose proof (RemoveNodeTaint_server n t w) as Hs. unfold wp in Hs.
  assert (wp (RemoveNodeTaint n t) (λ r w', ∀ e, r = Err e → nodeFailed n (log w')) w) as Hfail.
  { unfold RemoveNodeTaint. wp_steps. destruct (env_getNode (log w) n) as [x|e] eqn:Hg; wp_steps.
    2:{ intros _ _. left. exists e. by left. }
    destruct (negb _); wp_steps; [done|]. destruct (env_updateNode _ _) as [[]|e] eqn:Hu; wp_steps; [done|].
    intros _ _. right. eexists _, e. split; [|by left]. simpl. by apply (ns_named (log w)), ns_get. }
  unfold wp in Hfail. destruct (RemoveNodeTaint n t w) as [[b|e] w']; simpl in *; [done|].
  split; [done|]. by apply (Hfail e).
Qed.

(** What is known of one node of [h0] at a later time. *)
Definition released (t : Taint) (keep : gset string) (h0 h : list Ev) (n : string) (seen : Prop) : Prop :=
  ∀ x, ns_nodes h0 !! n = Some x → ∃ x', ns_nodes h !! n = Some x' ∧ (n ∈ keep → x' = x) ∧
    (x' = x ∨ x' = untainted t x) ∧ (seen → n ∉ keep → hasTaint t x' = false ∨ nodeFailed n h).

Lemma untaintNode_step t keep h0 n (done : list string) (w : World Ev GPURecoveryPlan) :
  n ∉ keep → (∀ m, released t keep h0 (log w) m (m ∈ done)) →
  wp (RemoveNodeTaint n t) (λ _ w', (∀ m, released t keep h0 (log w') m (m ∈ done ++ [n]))) w.
Proof.
  intros Hk Hinv. eapply wp_mono; [apply RemoveNodeTaint_outcome|]. cbn beta.
  intros res w' [(new & Hnew) Hres] m x Hx. destruct (Hinv m x Hx) as (x1 & Hx1 & Hkeep & Hcase & Hseen).
  assert (m ∈ done → m ∉ keep → hasTaint t x1 = false ∨ nodeFailed m (log w')) as Hseen'.
  { intros H1 H2. destruct (Hseen H1 H2) as [?|Hf]; [by left|right]. rewrite Hnew. by apply nodeFailed_app. }
  destruct res as [removed|e].
  - destruct Hres as (y & y' & Hy & [Ht Hy'] & Hns). rewrite Hns. destruct (decide (m = n)) as [->|Hne].
    + assert (y = x1) as -> by congruence. rewrite lookup_insert_eq. exists y'. split; [done|]. split; [done|].
      destruct removed; subst y'.
      * destruct Hcase as [-> | ->]; [|by unfold untainted in Ht; rewrite hasTaint_filter in Ht].
        split; [by right|]. intros _ _. left. apply hasTaint_filter.
      * split; [done|]. intros _ _. by left.
    + rewrite lookup_insert_ne by done. exists x1. split_and!; [done..|]. intros Hin.
      apply Hseen'. set_solver.
  - destruct Hres as [-> Hf]. exists x1. split_and!; [done..|]. intros Hin Hmk.
    apply elem_of_app in Hin as [Hin|Hin%list_elem_of_singleton]; [by apply Hseen'|subst m; by right].
Qed.

(** [reconcileDrainTaints] and [releaseAllDrainTaints] give every node back: nodes that are to stay
    drained are not touched, no node loses anything but the plan's own taint, and afterwards no other node
    carries that taint, unless the listing of nodes or an exchange about that very node failed. *)
Theorem drain_taints_released keep (w : World Ev GPURecoveryPlan) :
  let t := recoveryTaint (plan_Name (mem w)) in
  wp (untaintNodesExcept keep) (λ _ w', ∀ n x, ns_nodes (log w) !! n = Some x →
    ∃ x', ns_nodes (log w') !! n = Some x' ∧ (n ∈ keep → x' = x) ∧
      (x' = x ∨ x' = set_node_taints (filter (λ y, taintsEqual y t = false) (node_taints x)) x) ∧
      (n ∉ keep → hasTaint t x' = false ∨ is_Err (env_listNodes (log w) ∅) = true ∨ nodeFailed n (log w'))) w.
Proof.
  intros t. unfold untaintNodesExcept. apply wp_bind, wp_getMem. fold t. cbv zeta. apply wp_bind.
  eapply wp_mono.
  { eapply (wp_and _ _ (λ res w', is_Err res = true → is_Err (env_listNodes (log w) ∅) = true));
      [apply NodesWithTaint_server|].
    unfold NodesWithTaint. wp_steps. by destruct (env_listNodes (log w) ∅); wp_steps. }
  cbn beta. intros [names|e] w1 [[Hns Hnames] Herr].
  2:{ apply wp_ret. rewrite Hns. intros n x Hx. exists x. split_and!; [done..|by left|]. intros _. right. left. by apply Herr. }
  eapply wp_mono.
  { apply (wp_forEach _ (λ done w', ∀ m, released t keep (log w) (log w') m (m ∈ done))).
    - intros m x Hx. exists x. rewrite Hns. split_and!; [done..|by left|]. by intros []%not_elem_of_nil.
    - intros pre n post w2 _ Hinv. case_bool_decide as Hk.
      + apply wp_ret. intros m x Hx. destruct (Hinv m x Hx) as (x1 & ? & ? & ? & Hs). exists x1.
        split_and!; try done. intros [Hin|Hin%list_elem_of_singleton]%elem_of_app Hmk; [by apply Hs|by subst m].
      + apply wp_bind. eapply wp_mono; [by apply untaintNode_step|]. cbn beta. intros [b|e] w3 Hw3; [by apply wp_ret|].
        unfold appendMessage. by apply wp_modMem. }
  cbn beta. intros [] w2 Hall n x Hx. destruct (Hall n x Hx) as (x' & Hx' & Hk & Hcase & Hs).
  exists x'. split_and!; [done..|]. intros Hnk. destruct (decide (n ∈ names)) as [Hin|Hnot].
  - destruct (Hs Hin Hnk); [by left|by right; right].
  - left. destruct Hcase as [-> | ->]; [|apply hasTaint_filter]. apply not_true_iff_false. intros Ht.
    apply Hnot, Hnames. by exists x.
Qed.
End Taints.

(** ** The scenario *)

(** The plan as the first or second pass left it, looked at hours later, with its Job gone. *)
Definition laterCluster : Cluster := atTime (10000 * Second) (demoCluster true).
Definition laterWorld (n : nat) : World Ev GPURecoveryPlan :=
  mkWorld (set_plan_Status (statusAfter (demoCluster true) n) (demoPlan true)) [].
Definition laterEvent (n : nat) : RecoveryEvent := plan_Events (mem (laterWorld n)) !!! 0.

Lemma laterEvent_lookup n : n = 1 ∨ n = 2 → plan_Events (mem (laterWorld n)) !! 0 = Some (laterEvent n).
Proof. intros [-> | ->]; vm_compute; reflexivity. Qed.

Lemma overdue_job_fails_witness :
  ∃ e', plan_Events (mem (@syncJobStatus (clusterEnv laterCluster) demoReconciler 0 (laterWorld 2)).2)
        = <[0 := e']> (plan_Events (mem (laterWorld 2))) ∧ evt_State e' = RecoveryEventStateFailed.
Proof.
  destruct (@overdue_job_fails (clusterEnv laterCluster) demoReconciler 0 (laterEvent 2) (laterWorld 2)
              (laterEvent_lookup 2 (or_intror eq_refl)) 300 (1000 * Second)) as (e' & He & Hst & _).
  - vm_compute. reflexivity.
  - vm_compute. discriminate.
  - vm_compute. split; [reflexivity|split; reflexivity].
  - vm_compute. split; discriminate.
  - intros h. vm_compute. reflexivity.
  - exists e'. split; [exact He|exact Hst].
Defined.

Lemma overdue_drain_ends_witness :
  ∃ e', plan_Events (mem (@drainEvent (clusterEnv laterCluster) demoReconciler 0 (laterWorld 1)).2)
        = <[0 := e']> (plan_Events (mem (laterWorld 1))).
Proof.
  destruct (@overdue_drain_ends (clusterEnv laterCluster) demoReconciler 0 (laterEvent 1) (laterWorld 1)
              (laterEvent_lookup 1 (or_introl eq_refl)) (1000 * Second)) as (e' & He & _).
  - vm_compute. reflexivity.
  - vm_compute. reflexivity.
  - vm_compute. reflexivity.
  - vm_compute. discriminate.
  - vm_compute. split; discriminate.
  - intros h. vm_compute. reflexivity.
  - exists e'. exact He.
Defined.

Definition detectedEvent : RecoveryEvent := plan_Events (mem (demoDetected true)) !!! 0.
Lemma detectedEvent_lookup : plan_Events (mem (demoDetected true)) !! 0 = Some detectedEvent.
Proof. vm_compute. reflexivity. Qed.

Lemma images_verified_before_start_witness :
  let w' := (@startRecovery (clusterEnv (demoCluster true)) demoReconciler 0 demoApproval (∅, ∅) (demoDetected true)).2 in
  isActive (evt_State (plan_Events (mem w') !!! 0)) = true ∧
  (sp_SkipImageVerification (plan_Spec (mem (demoDetected true))) = true ∨
   ∀ img, img ∈ recoveryImagesForEvent (mem (demoDetected true)) detectedEvent →
     seen (log (demoDetected true)) (log w')
       (EvVerifyImage (mkImageVerifyRequest (ri_image img) "" (ri_insecureSkipTLSVerify img) (ri_files img)) (Ok tt))).
Proof.
  intros w'. assert (isActive (evt_State (plan_Events (mem w') !!! 0)) = true) as Hact by (vm_compute; reflexivity).
  split; [exact Hact|].
  exact (@images_verified_before_start (clusterEnv (demoCluster true)) demoReconciler 0 detectedEvent (demoDetected true)
           detectedEvent_lookup demoApproval (∅, ∅) eq_refl Hact).
Defined.

(** A registry that serves no image. *)
Definition noImages : Cluster :=
  mkCluster 0 [demoPlan true] [] [demoNode] [] [demoSlice] [] [] [] [].

Lemma image_failure_held_witness :
  let w' := (@ensureImagesUsable (clusterEnv noImages) "" 0 (demoDetected true)).2 in
  @ensureImagesUsable (clusterEnv noImages) "" 0 w' = (false, w').
Proof.
  intros w'.
  assert ((@ensureImagesUsable (clusterEnv noImages) "" 0 (demoDetected true)).1 = false) as Hno
    by (vm_compute; reflexivity).
  assert (plan_Generation (mem (demoDetected true)) ≠ 0%Z) as Hgen by (vm_compute; discriminate).
  exact (@image_failure_held (clusterEnv noImages) 0 detectedEvent (demoDetected true) detectedEvent_lookup "" Hgen Hno).
Defined.

(** An approved reflash on a plan without firmware. *)
Definition parkedEvent : RecoveryEvent :=
  mkRecoveryEvent "evt-n1-reflash-0000-02-00-0" "a1" (Some 0%Z) "n1" "0000:02:00.0" reasonSurvivability
    (mkRecoveryTypeSpec RecoveryTypeReflash RecoveryTypeUnset) RecoveryEventStateMissingFirmware
    "spec.firmware is not configured, so a reflash cannot be attempted" 0 None [] [] "" [] (Some (1000 * Second)%Z).
Definition parkedWorld : World Ev GPURecoveryPlan :=
  mkWorld (set_plan_Status (mkGPURecoveryPlanStatus PlanStateError [] [parkedEvent]) (demoPlan true)) [].

(** The cluster answers every image check with yes. *)
Definition openRegistry : Env := withVerify (clusterEnv laterCluster) (λ _, Ok tt).

Lemma missing_firmware_restamps_witness :
  plan_Status (mem (@startRecovery openRegistry demoReconciler 0 demoApproval (∅, ∅) parkedWorld).2)
  ≠ plan_Status (mem parkedWorld).
Proof.
  apply (@missing_firmware_restamps openRegistry demoReconciler 0 parkedEvent parkedWorld eq_refl demoApproval (∅, ∅));
    try reflexivity. intros h. vm_compute. discriminate.
Defined.

Lemma capped_text_witness :
  slen (capString "a message that is cut" 10) ≤ 10 ∧ capString "a message that is cut" 10 = "a messa...".
Proof.
  split; [|vm_compute; reflexivity].
  refine (proj1 (capped_text "a message that is cut" 10 _)). vm_compute. repeat constructor.
Defined.

(** A node that still carries the taint of a finished drain. *)
Definition taintedCluster : Cluster :=
  mkCluster 0 [demoPlan true] [] [set_node_taints [recoveryTaint "plan"] demoNode] [] [] [] [] [] [].

Lemma drain_taints_released_witness :
  let E := clusterEnv taintedCluster in
  ∃ x', @ns_nodes E (clusterEnv_nodes taintedCluster) (log (@untaintNodesExcept E ∅ (demoStart true)).2) !! "n1" = Some x' ∧
    hasTaint (recoveryTaint "plan") x' = false.
Proof.
  intros E.
  destruct (@drain_taints_released E (clusterEnv_nodes taintedCluster) ∅ (demoStart true) "n1"
              (set_node_taints [recoveryTaint "plan"] demoNode) eq_refl) as (x' & Hx & _ & _ & Hrel).
  exists x'. split; [exact Hx|]. destruct Hrel as [Hr|[Hr|Hr]]; [apply not_elem_of_empty|exact Hr|discriminate Hr|].
  exfalso. revert Hr. unfold nodeFailed.
  set (h := log _). assert (h = [EvUpdateNode (set_node_taints [] demoNode) (Ok tt);
    EvGetNode "n1" (Ok (set_node_taints [recoveryTaint "plan"] demoNode));
    EvListNodes ∅ (Ok [set_node_taints [recoveryTaint "plan"] demoNode])]) as -> by (vm_compute; reflexivity).
  intros [[e He]|(y & e & _ & He)]; repeat (apply elem_of_cons in He as [He|He]; [discriminate He|]);
    by apply not_elem_of_nil in He.
Defined.
