(* ===== verification/RecoveryWebhook.v ===== *)
(** * GPU recovery: the admission webhook

    [api/v1alpha1/gpurecoveryplan_webhook.go]: the defaulting and validation a GPURecoveryPlan goes
    through before it is stored.  An error is one constructor per [fmt.Errorf] of the source with its
    arguments; the texts are not modelled.  The image reference parser, the label selector validator
    and the random number generator are parameters. *)

From Stdlib Require Import Ascii NArith.
From S2P Require Import Prelude GoStrings Regex KubeTypes ApiTypes Common Client Drain Cluster.

(** ** [filepath.Base] on Unix *)

Definition isSlash (c : ascii) : bool := Ascii.eqb c "/".

Definition filepathBase (path : string) : string :=
  if bool_decide (path = "") then "."
  else
    match reverse (takeWhile (λ c, negb (isSlash c)) (reverse (trimRightL isSlash (s2l path)))) with
    | [] => "/"
    | l => l2s l
    end.

(** ** Errors *)

Inductive PlanError :=
| DeviceIDRequired
| DeviceIDPattern (id : string)
| DefaultResetTypeRequired
| DefaultResetTypeNotReset (rt : RecoveryType)
| SubDeviceIDPattern (id : string)
| SubVendorIDPattern (id : string)
| DuplicateApprovalID (i : nat) (id : string)
| EventIDAndSelector (i : nat)
| NoEventIDNorSelector (i : nat)
| PersistentWithoutSelector (i : nat)
| BadNodeSelector (i : nat) (e : GoErr)
| BadNamespace (i : nat) (ns : string) (problems : list string)
| DuplicateNamespace (i : nat) (ns : string)
| XpuSmiImageRequired
| BadXpuSmiImage (image : string) (e : GoErr)
| FirmwareSourceRequired
| ContainerSourceNameRequired
| BadContainerSourceName (image : string) (e : GoErr)
| VolumeSourceNameRequired
| FirmwareFileRequired
| FirmwareFilePath (file : string)
| FirmwareFileChars (file : string)
| FirmwareImmutable
| RandError (e : GoErr)
| NoUniqueApprovalID.

(** ** Parameters *)

Class Admission := {
  (** [reference.ParseAnyReference]: the error, if any. *)
  parseAnyReference : string → option GoErr;
  (** [labels.ValidatedSelectorFromSet] *)
  validatedSelectorFromSet : labels → option GoErr;
  (** The [k]th [rand.Read] of four bytes in a run. *)
  randRead : nat → res (list N);
}.

Definition approvalPrefix : string := "app-".

Definition hexLower (c : ascii) : bool := inRange "0" "9" c || inRange "a" "f" c.
Definition pciIDPattern : regex := RCat (lit "0") (RCat (lit "x") (rep 4 (RChar hexLower))).

Definition alnum (c : ascii) : bool := inRange "a" "z" c || inRange "A" "Z" c || inRange "0" "9" c.
Definition fileFirst (c : ascii) : bool := alnum c || Ascii.eqb c "_".
Definition fileRest (c : ascii) : bool :=
  alnum c || Ascii.eqb c "." || Ascii.eqb c "_" || Ascii.eqb c "-".
Definition firmwareFileNamePattern : regex := RCat (RChar fileFirst) (RStar (RChar fileRest)).

Section Webhook.
Context `{!Env, !Admission}.

(** ** Defaulting *)

(** The attempts left of [generateApprovalID]; [k] counts the draws made so far. *)
Fixpoint generateApprovalIDLoop (attempts : nat) (presentIDs : gset string) (k : nat) :
    (string * gset string * nat) + PlanError :=
  match attempts with
  | 0 => inr NoUniqueApprovalID
  | S attempts' =>
      match randRead k with
      | Err e => inr (RandError e)
      | Ok b =>
          let id := approvalPrefix +:+ hexEncode b in
          if bool_decide (id ∈ presentIDs) then generateApprovalIDLoop attempts' presentIDs (S k)
          else inl (id, {[id]} ∪ presentIDs, S k)
      end
  end.

Definition generateApprovalID (presentIDs : gset string) (k : nat) :
    (string * gset string * nat) + PlanError := generateApprovalIDLoop 10 presentIDs k.

(** The second loop of [Default]. *)
Fixpoint fillApprovalIDs (l : list RecoveryApproval) (presentIDs : gset string) (k : nat) :
    list RecoveryApproval + PlanError :=
  match l with
  | [] => inl []
  | a :: l' =>
      if bool_decide (ap_ID a = "") then
        match generateApprovalID presentIDs k with
        | inr e => inr e
        | inl (id, presentIDs', k') =>
            match fillApprovalIDs l' presentIDs' k' with
            | inr e => inr e
            | inl r => inl (set_ap_ID id a :: r)
            end
        end
      else
        match fillApprovalIDs l' presentIDs k with
        | inr e => inr e
        | inl r => inl (a :: r)
        end
  end.

Definition givenIDs (l : list RecoveryApproval) : list string := filter (λ id, id ≠ "") (ap_ID <$> l).

Definition defaultXpuSmi (x : XpuSmiSpec) : XpuSmiSpec :=
  if bool_decide (xs_PullPolicy x = "") then mkXpuSmiSpec (xs_Image x) "IfNotPresent" (xs_InsecureSkipTLSVerify x)
  else x.

Definition Default (plan : GPURecoveryPlan) : GPURecoveryPlan + PlanError :=
  match fillApprovalIDs (plan_Approvals plan) (list_to_set (givenIDs (plan_Approvals plan))) 0 with
  | inr e => inr e
  | inl l =>
      let p := set_plan_Approvals l plan in
      inl (set_plan_Spec (set_sp_XpuSmi (defaultXpuSmi (sp_XpuSmi (plan_Spec p))) (plan_Spec p)) p)
  end.

(** ** Validation *)

Definition validateApproval (i : nat) (a : RecoveryApproval) : option PlanError :=
  let hasEventID := negb (bool_decide (ap_EventID a = "")) in
  let hasSelector := match ap_Selector a with Some _ => true | None => false end in
  if hasEventID && hasSelector then Some (EventIDAndSelector i)
  else if negb hasEventID && negb hasSelector then Some (NoEventIDNorSelector i)
  else if ap_Persistent a && negb hasSelector then Some (PersistentWithoutSelector i)
  else
    match ap_Selector a with
    | Some sel =>
        if bool_decide (sel_NodeSelector sel = ∅) then None
        else match validatedSelectorFromSet (sel_NodeSelector sel) with
             | Some e => Some (BadNodeSelector i e)
             | None => None
             end
    | None => None
    end.

Fixpoint validateApprovalsFrom (i : nat) (seen : gset string) (l : list RecoveryApproval) : option PlanError :=
  match l with
  | [] => None
  | a :: l' =>
      if negb (bool_decide (ap_ID a = "")) && bool_decide (ap_ID a ∈ seen)
      then Some (DuplicateApprovalID i (ap_ID a))
      else
        let seen' := if bool_decide (ap_ID a = "") then seen else {[ap_ID a]} ∪ seen in
        match validateApproval i a with
        | Some e => Some e
        | None => validateApprovalsFrom (S i) seen' l'
        end
  end.

Definition validateApprovals (l : list RecoveryApproval) : option PlanError := validateApprovalsFrom 0 ∅ l.

Fixpoint validateNamespacesFrom (i : nat) (seen : gset string) (l : list string) : option PlanError :=
  match l with
  | [] => None
  | ns :: l' =>
      match isDNS1123Label ns with
      | [] => if bool_decide (ns ∈ seen) then Some (DuplicateNamespace i ns)
              else validateNamespacesFrom (S i) ({[ns]} ∪ seen) l'
      | problems => Some (BadNamespace i ns problems)
      end
  end.

Definition validateDrain (d : DrainSpec) : option PlanError := validateNamespacesFrom 0 ∅ (dr_NamespacesToSkip d).

Definition validateContainerSource (src : ContainerFirmwareSource) : option PlanError :=
  if bool_decide (cfs_Name src = "") then Some ContainerSourceNameRequired
  else match parseAnyReference (cfs_Name src) with
       | Some e => Some (BadContainerSourceName (cfs_Name src) e)
       | None => None
       end.

Definition validateFirmware (fw : FirmwareSpec) : option PlanError :=
  match fs_ContainerSource (fw_Source fw), fs_VolumeSource (fw_Source fw) with
  | None, None => Some FirmwareSourceRequired
  | c, v =>
      match match c with Some src => validateContainerSource src | None => None end with
      | Some e => Some e
      | None =>
          if match v with Some vs => bool_decide (vfs_Name vs = "") | None => false end
          then Some VolumeSourceNameRequired
          else if bool_decide (fw_File fw = "") then Some FirmwareFileRequired
          else if bool_decide (filepathBase (fw_File fw) ≠ fw_File fw) then Some (FirmwareFilePath (fw_File fw))
          else if negb (matchString firmwareFileNamePattern (fw_File fw)) then Some (FirmwareFileChars (fw_File fw))
          else None
      end
  end.

Definition validateRecoveryPlanSpec (spec : GPURecoveryPlanSpec) : option PlanError :=
  if bool_decide (sp_DeviceID spec = "") then Some DeviceIDRequired
  else if negb (matchString pciIDPattern (sp_DeviceID spec)) then Some (DeviceIDPattern (sp_DeviceID spec))
  else
    match sp_DefaultResetType spec with
    | RecoveryTypeUnset => Some DefaultResetTypeRequired
    | RecoveryTypeReflash => Some (DefaultResetTypeNotReset RecoveryTypeReflash)
    | _ =>
        if negb (bool_decide (sp_SubDeviceID spec = "")) && negb (matchString pciIDPattern (sp_SubDeviceID spec))
        then Some (SubDeviceIDPattern (sp_SubDeviceID spec))
        else if negb (bool_decide (sp_SubVendorID spec = "")) && negb (matchString pciIDPattern (sp_SubVendorID spec))
        then Some (SubVendorIDPattern (sp_SubVendorID spec))
        else
          match validateApprovals (sp_Approvals spec) with
          | Some e => Some e
          | None =>
              match validateDrain (sp_Drain spec) with
              | Some e => Some e
              | None =>
                  if bool_decide (xs_Image (sp_XpuSmi spec) = "") then Some XpuSmiImageRequired
                  else
                    match parseAnyReference (xs_Image (sp_XpuSmi spec)) with
                    | Some e => Some (BadXpuSmiImage (xs_Image (sp_XpuSmi spec)) e)
                    | None =>
                        match sp_Firmware spec with
                        | Some fw => validateFirmware fw
                        | None => None
                        end
                    end
              end
          end
    end.

Definition firmwareUpdateActive (plan : GPURecoveryPlan) : bool :=
  existsb (λ evt, IsReflash (evt_RecoveryType evt)
                  && match evt_State evt with
                     | RecoveryEventStateInProgress | RecoveryEventStateBlocked => true
                     | _ => false
                     end) (plan_Events plan).

Definition ValidateCreate (plan : GPURecoveryPlan) : option PlanError := validateRecoveryPlanSpec (plan_Spec plan).

Definition ValidateUpdate (oldPlan newPlan : GPURecoveryPlan) : option PlanError :=
  match
    match plan_DeletionTimestamp newPlan with
    | None => validateRecoveryPlanSpec (plan_Spec newPlan)
    | Some _ => None
    end
  with
  | Some e => Some e
  | None =>
      if firmwareUpdateActive oldPlan
         && negb (bool_decide (sp_Firmware (plan_Spec oldPlan) = sp_Firmware (plan_Spec newPlan)))
      then Some FirmwareImmutable
      else None
  end.

Definition ValidateDelete (_ : GPURecoveryPlan) : option PlanError := None.
End Webhook.
