(* ===== verification/RecoveryWebhookFacts.v ===== *)
(** * GPU recovery: what admission guarantees

    The plans the webhook lets through satisfy what the controller relies on, and the controller's own
    writes pass the webhook. *)

From Stdlib Require Import Ascii NArith.
From S2P Require Import Prelude GoStrings Regex KubeTypes ApiTypes Common Client Drain Cluster.
From S2P Require Import RecoveryNaming RecoveryNamingFacts RecoveryEvents RecoveryEventsFacts.
From S2P Require Import RecoveryController RecoveryScenario RecoveryWebhook.

Section Facts.
Context `{!Env, !Admission}.

(** ** Approval IDs *)

Lemma generateApprovalIDLoop_spec n present k id present' k' :
  generateApprovalIDLoop n present k = inl (id, present', k') →
  id ∉ present ∧ present' = {[id]} ∪ present ∧ id ≠ "".
Proof.
  revert k. induction n as [|n IH]; intros k; simpl; [done|]. destruct (randRead k) as [b|e]; [|done].
  case_bool_decide; [apply IH|]. intros [= <- <- _]. split_and!; [done..|]. discriminate.
Qed.

Lemma elem_of_givenIDs l id : id ∈ givenIDs l ↔ id ≠ "" ∧ id ∈ ap_ID <$> l.
Proof. unfold givenIDs. by rewrite list_elem_of_filter. Qed.

Lemma givenIDs_cons a l :
  givenIDs (a :: l) = if bool_decide (ap_ID a = "") then givenIDs l else ap_ID a :: givenIDs l.
Proof.
  unfold givenIDs. rewrite fmap_cons, filter_cons. case_bool_decide; case_decide; naive_solver.
Qed.

Lemma givenIDs_all l : Forall (λ a, ap_ID a ≠ "") l → givenIDs l = ap_ID <$> l.
Proof.
  induction 1 as [|a l Ha _ IH]; [done|]. rewrite givenIDs_cons, bool_decide_false, IH by done. done.
Qed.

Lemma givenIDs_filter (P : RecoveryApproval → Prop) `{∀ a, Decision (P a)} l :
  NoDup (givenIDs l) → NoDup (givenIDs (filter P l)).
Proof.
  induction l as [|a l IH]; [done|]. rewrite givenIDs_cons, filter_cons.
  assert (NoDup (if bool_decide (ap_ID a = "") then givenIDs l else ap_ID a :: givenIDs l) → NoDup (givenIDs l)) as Htl.
  { case_bool_decide; [done|]. by intros [_ ?]%NoDup_cons. }
  intros Hnd. destruct (decide (P a)) as [Ha|Ha]; [|by apply IH, Htl].
  specialize (IH (Htl Hnd)). rewrite givenIDs_cons. case_bool_decide as Hne; [done|].
  apply NoDup_cons in Hnd as [Hna _]. constructor; [|done]. intros Hin. apply Hna.
  apply elem_of_givenIDs in Hin as [_ (b & Hb & [_ Hbl]%list_elem_of_filter)%list_elem_of_fmap].
  apply elem_of_givenIDs. split; [done|]. rewrite Hb. by apply list_elem_of_fmap_2.
Qed.

(** An approval before and after defaulting. *)
Definition sameApproval (a a' : RecoveryApproval) : Prop :=
  a' = a ∨ ap_ID a = "" ∧ a' = set_ap_ID (ap_ID a') a.

Lemma fillApprovalIDs_spec l present k r :
  fillApprovalIDs l present k = inl r →
  Forall2 sameApproval l r ∧ Forall (λ a, ap_ID a ≠ "") r ∧
  ((∀ id, id ∈ givenIDs l → id ∈ present) → NoDup (givenIDs l) →
   NoDup (ap_ID <$> r) ∧ ∀ id, id ∈ ap_ID <$> r → id ∈ givenIDs l ∨ id ∉ present).
Proof.
  revert present k r. induction l as [|a l IH]; intros present k r; simpl.
  { intros [= <-]. split_and!; [constructor..|]. intros _ _. split; [constructor|]. by intros id []%not_elem_of_nil. }
  rewrite givenIDs_cons. case_bool_decide as Ha.
  - destruct (generateApprovalID present k) as [[[id present'] k']|e] eqn:Hg; [|done].
    apply generateApprovalIDLoop_spec in Hg as (Hnew & -> & Hne).
    destruct (fillApprovalIDs l _ k') as [r'|e] eqn:Hf; [|done]. intros [= <-].
    destruct (IH _ _ _ Hf) as (H1 & H2 & H3). split_and!.
    + constructor; [by right|done].
    + by constructor.
    + intros Hsub Hnd. destruct H3 as [H3 H4]; [set_solver|done|]. rewrite fmap_cons. simpl. split.
      * constructor; [|done]. intros [Hin|Hin]%H4; [by apply Hnew, Hsub|set_solver].
      * intros x [->|Hx]%elem_of_cons; [by right|]. destruct (H4 x Hx); [by left|right; set_solver].
  - destruct (fillApprovalIDs l present k) as [r'|e] eqn:Hf; [|done]. intros [= <-].
    destruct (IH _ _ _ Hf) as (H1 & H2 & H3). split_and!.
    + constructor; [by left|done].
    + by constructor.
    + intros Hsub Hnd. apply NoDup_cons in Hnd as [Hna Hnd].
      destruct H3 as [H3 H4]; [set_solver|done|]. rewrite fmap_cons. split.
      * constructor; [|done]. intros [Hin|Hin]%H4; [done|]. apply Hin, Hsub. by left.
      * intros x [->|Hx]%elem_of_cons; [left; by left|]. destruct (H4 x Hx); [left; by right|by right].
Qed.

(** ** Validation of approvals *)

Lemma validateApproval_index i j a : validateApproval i a = None → validateApproval j a = None.
Proof.
  unfold validateApproval. cbv zeta. repeat case_match; congruence.
Qed.

Lemma validateApprovalsFrom_spec i seen l :
  validateApprovalsFrom i seen l = None ↔
  NoDup (givenIDs l) ∧ (∀ id, id ∈ givenIDs l → id ∉ seen) ∧ Forall (λ a, validateApproval 0 a = None) l.
Proof.
  revert i seen. induction l as [|a l IH]; intros i seen; simpl.
  { split; [|done]. intros _. split_and!; [constructor| |constructor]. by intros id []%not_elem_of_nil. }
  rewrite givenIDs_cons, Forall_cons. case_bool_decide as Ha; cbn [negb andb].
  - destruct (validateApproval i a) as [e|] eqn:Hv.
    { split; [done|]. intros (_ & _ & Hv0 & _). by rewrite (validateApproval_index 0 i a Hv0) in Hv. }
    rewrite IH. apply (validateApproval_index i 0) in Hv. naive_solver.
  - case_bool_decide as Hin.
    { split; [done|]. intros (_ & Hs & _). destruct (Hs (ap_ID a)); [by left|done]. }
    destruct (validateApproval i a) as [e|] eqn:Hv.
    { split; [done|]. intros (_ & _ & Hv0 & _). by rewrite (validateApproval_index 0 i a Hv0) in Hv. }
    apply (validateApproval_index i 0) in Hv. rewrite IH, NoDup_cons. split.
    + intros (Hnd & Hs & HF). split_and!; [|done| |done|done]; [|set_solver].
      intros Hin'. specialize (Hs _ Hin'). set_solver.
    + intros ((Hna & Hnd) & Hs & _ & HF). split_and!; [done| |done]. intros id Hid.
      rewrite not_elem_of_union. split; [|apply Hs; by right]. intros ->%elem_of_singleton. done.
Qed.

Lemma validateApprovals_spec l :
  validateApprovals l = None ↔ NoDup (givenIDs l) ∧ Forall (λ a, validateApproval 0 a = None) l.
Proof.
  unfold validateApprovals. rewrite validateApprovalsFrom_spec. split; [naive_solver|].
  intros [? ?]. split_and!; [done|set_solver|done].
Qed.

Lemma validateApproval_sound i a :
  validateApproval i a = None →
  (ap_EventID a ≠ "" ∧ ap_Selector a = None ∨ ap_EventID a = "" ∧ is_Some (ap_Selector a)) ∧
  (ap_Persistent a = true → is_Some (ap_Selector a)).
Proof.
  unfold validateApproval. cbv zeta. case_bool_decide as He; destruct (ap_Selector a) as [sel|]; simpl; try done.
  - intros _. split; [right; split; [done|by eexists]|by eexists].
  - rewrite andb_true_r. destruct (ap_Persistent a); [done|]. intros _. split; [by left|done].
Qed.

(** The approvals of a spec that passed validation. *)
Lemma validSpec_approvals spec : validateRecoveryPlanSpec spec = None → validateApprovals (sp_Approvals spec) = None.
Proof.
  unfold validateRecoveryPlanSpec. intros Hv. destruct (validateApprovals (sp_Approvals spec)); [|done].
  exfalso. revert Hv. repeat case_match; congruence.
Qed.

Lemma validSpec_firmware spec fw :
  validateRecoveryPlanSpec spec = None → sp_Firmware spec = Some fw → validateFirmware fw = None.
Proof. unfold validateRecoveryPlanSpec. intros Hv Hf. rewrite Hf in Hv. revert Hv. repeat case_match; congruence. Qed.

(** Validation looks at the approvals through [validateApprovals] only. *)
Lemma validSpec_set_approvals spec l :
  validateRecoveryPlanSpec spec = None → validateApprovals l = None →
  validateRecoveryPlanSpec (set_sp_Approvals l spec) = None.
Proof.
  intros Hv Hl. pose proof (validSpec_approvals _ Hv) as Ha. revert Hv.
  unfold validateRecoveryPlanSpec. simpl. by rewrite Ha, Hl.
Qed.
End Facts.

(** ** Firmware file names *)

Lemma fileName_shape file :
  matchString firmwareFileNamePattern file = true →
  ∃ c l, s2l file = c :: l ∧ fileFirst c = true ∧ Forall (λ x, fileRest x = true) l.
Proof.
  intros Hm%matchL_spec. unfold firmwareFileNamePattern in Hm.
  apply reIn_RCat in Hm as (l1 & l2 & Hl & (c & -> & Hc)%reIn_RChar & Hs).
  exists c, l2. split_and!; [by rewrite Hl|done|]. eapply reIn_chars; [|exact Hs]. simpl. by intros.
Qed.

Lemma fileFirst_rest c : fileFirst c = true → fileRest c = true.
Proof.
  pose proof (forall_ascii (λ x, implb (fileFirst x) (fileRest x)) eq_refl c) as Hc. cbn beta in Hc.
  by destruct (fileFirst c).
Qed.

Lemma fileRest_plain c :
  fileRest c = true → isSpace c = false ∧ shellPlain c = true ∧ c ≠ "/"%char.
Proof.
  intros Hc. pose proof (forall_ascii (λ x, implb (fileRest x)
    (negb (isSpace x) && shellPlain x && negb (Ascii.eqb x "/"))) eq_refl c) as H1. cbn beta in H1.
  rewrite Hc in H1. cbn [implb] in H1. apply andb_true_iff in H1 as [[H1%negb_true_iff H2]%andb_true_iff H3%negb_true_iff].
  split_and!; [done..|]. by apply Ascii.eqb_neq.
Qed.

Lemma fileName_plain file :
  matchString firmwareFileNamePattern file = true →
  Forall (λ c, isSpace c = false) (s2l file) ∧ Forall (λ c, shellPlain c = true) (s2l file) ∧
  ("/"%char ∉ s2l file) ∧ file ≠ "" ∧ file ≠ "." ∧ file ≠ "..".
Proof.
  intros (c & l & Hl & Hc & HF)%fileName_shape.
  assert (Forall (λ x, isSpace x = false ∧ shellPlain x = true ∧ x ≠ "/"%char) (s2l file)) as Hall.
  { rewrite Hl. constructor; [by apply fileRest_plain, fileFirst_rest|].
    eapply Forall_impl; [exact HF|]. apply fileRest_plain. }
  rewrite Forall_forall in Hall. split_and!.
  - apply Forall_forall. intros x Hx. by apply Hall.
  - apply Forall_forall. intros x Hx. by apply Hall.
  - intros Hx. by apply Hall in Hx as (_ & _ & ?).
  - intros ->. done.
  - intros ->. simpl in Hl. injection Hl as <- _. done.
  - intros ->. simpl in Hl. injection Hl as <- _. done.
Qed.

(** The words [xpu-smi] is called with for a reflash. *)
Definition flashArgv (bdf file : string) : list string :=
  ["xpu-smi"; "updatefw"; "-d"; bdf; "-t"; "FDO"; "-f"; "/update/" +:+ file; "-y"; "--force"].

Lemma flashCommand_words bdf file :
  Forall (λ c, isSpace c = false) (s2l bdf) → Forall (λ c, isSpace c = false) (s2l file) →
  shellWords (buildFDOFlashCommand bdf file) = flashArgv bdf file.
Proof.
  intros Hb Hf. assert (Forall (λ c, isSpace c = false) (s2l ("/update/" +:+ file))) as Hp.
  { rewrite s2l_app. apply Forall_app. split; [by repeat constructor|done]. }
  change (buildFDOFlashCommand bdf file) with ("xpu-smi" +:+ " " +:+ "updatefw" +:+ " " +:+ "-d" +:+ " " +:+
    (bdf +:+ " " +:+ "-t" +:+ " " +:+ "FDO" +:+ " " +:+ "-f" +:+ " " +:+ ("/update/" +:+ (file +:+ " " +:+ "-y" +:+ " " +:+ "--force")))).
  assert (∀ a b c : string, a +:+ (b +:+ c) = (a +:+ b) +:+ c) as Hassoc.
  { intros a b c. apply s2l_inj. by rewrite !s2l_app, app_assoc. }
  rewrite (Hassoc "/update/" file).
  by rewrite !shellWords_cons, shellWords_word by (done || by repeat constructor).
Qed.

Section Claims.
Context `{!Env, !Admission}.

(** A plan that went through defaulting and validation has what the controller's approval handling
    relies on: every approval has an ID of its own, each either names an event or carries a selector and
    not both, and a persistent one carries a selector; and defaulting changed no approval that had an ID,
    nor anything but the missing ID of the others. *)
Theorem admitted_approvals plan plan' :
  Default plan = inl plan' → ValidateCreate plan' = None →
  NoDup (ap_ID <$> plan_Approvals plan') ∧ Forall2 sameApproval (plan_Approvals plan) (plan_Approvals plan') ∧
  ∀ a, a ∈ plan_Approvals plan' → ap_ID a ≠ "" ∧
    (ap_EventID a ≠ "" ∧ ap_Selector a = None ∨ ap_EventID a = "" ∧ is_Some (ap_Selector a)) ∧
    (ap_Persistent a = true → is_Some (ap_Selector a)).
Proof.
  intros Hd Hv. unfold Default in Hd.
  destruct (fillApprovalIDs _ _ 0) as [l|e] eqn:Hf; [|done]. injection Hd as <-.
  apply fillApprovalIDs_spec in Hf as (Hsame & Hne & _). apply validSpec_approvals in Hv. simpl in Hv.
  apply validateApprovals_spec in Hv as [Hnd Hok]. rewrite givenIDs_all in Hnd by done.
  split; [exact Hnd|]. split; [exact Hsame|]. intros a Ha. change (a ∈ l) in Ha.
  rewrite Forall_forall in Hne, Hok. split; [by apply Hne|]. by eapply validateApproval_sound, Hok.
Qed.

(** Generated IDs never clash: defaulting a plan whose given approval IDs are distinct leaves all
    approval IDs distinct and non-empty, whatever the random generator returns. *)
Theorem default_ids_unique plan plan' :
  Default plan = inl plan' → NoDup (givenIDs (plan_Approvals plan)) →
  NoDup (ap_ID <$> plan_Approvals plan') ∧ Forall (λ a, ap_ID a ≠ "") (plan_Approvals plan') ∧
  xs_PullPolicy (sp_XpuSmi (plan_Spec plan')) ≠ "".
Proof.
  intros Hd Hnd. unfold Default in Hd.
  destruct (fillApprovalIDs _ _ 0) as [l|e] eqn:Hf; [|done]. injection Hd as <-.
  apply fillApprovalIDs_spec in Hf as (_ & Hne & Huniq). destruct Huniq as [Hu _]; [|done|].
  { intros id Hid. by apply elem_of_list_to_set. }
  split; [exact Hu|]. split; [exact Hne|]. simpl. unfold defaultXpuSmi. by case_bool_decide.
Qed.

(** For a firmware spec the webhook accepts and a PCI address detection accepts, the reflash
    command line holds no character the shell treats specially and its words are exactly the intended
    [xpu-smi] call; and the file name is one path component, so the file read is in the staging
    directory and the file checked in the firmware image is in its firmware directory. *)
Theorem flash_command_words fw bdf :
  validateFirmware fw = None → validDeviceBDF bdf = true →
  shellWords (buildFDOFlashCommand bdf (fw_File fw)) = flashArgv bdf (fw_File fw) ∧
  Forall (λ c, shellPlain c = true) (s2l (buildFDOFlashCommand bdf (fw_File fw))) ∧
  ("/"%char ∉ s2l (fw_File fw)) ∧ fw_File fw ≠ "" ∧ fw_File fw ≠ "." ∧ fw_File fw ≠ "..".
Proof.
  intros Hv Hb. assert (matchString firmwareFileNamePattern (fw_File fw) = true) as Hm.
  { unfold validateFirmware in Hv. destruct (matchString _ (fw_File fw)); [done|]. exfalso.
    cbn [negb] in Hv. revert Hv. repeat case_match; congruence. }
  destruct (bdf_plain bdf Hb) as [Hs1 Hp1]. destruct (fileName_plain _ Hm) as (Hs2 & Hp2 & Hrest).
  split; [by apply flashCommand_words|]. split; [|exact Hrest].
  unfold buildFDOFlashCommand. rewrite !s2l_app, !Forall_app. split_and!; try done; by repeat constructor.
Qed.

(** The firmware of a plan cannot be swapped under a reflash that is running or queued, nor anything
    admitted that fails validation, and yet a plan that is being deleted can always be written with its
    firmware unchanged, so the finalizer can go even if the stored spec would no longer be accepted. *)
Theorem update_admission oldPlan newPlan :
  (ValidateUpdate oldPlan newPlan = None →
     (firmwareUpdateActive oldPlan = true → sp_Firmware (plan_Spec newPlan) = sp_Firmware (plan_Spec oldPlan)) ∧
     (plan_DeletionTimestamp newPlan = None → ValidateCreate newPlan = None)) ∧
  (is_Some (plan_DeletionTimestamp newPlan) → sp_Firmware (plan_Spec newPlan) = sp_Firmware (plan_Spec oldPlan) →
     ValidateUpdate oldPlan newPlan = None).
Proof.
  unfold ValidateUpdate, ValidateCreate. split.
  - intros Hv. destruct (plan_DeletionTimestamp newPlan).
    + split; [|done]. intros Ha. rewrite Ha in Hv. simpl in Hv. case_bool_decide; done.
    + destruct (validateRecoveryPlanSpec (plan_Spec newPlan)); [done|]. split; [|done].
      intros Ha. rewrite Ha in Hv. simpl in Hv. case_bool_decide; done.
  - intros [t ->] Hf. rewrite Hf, bool_decide_true by done. by rewrite andb_false_r.
Qed.

(** An update that leaves the firmware alone is judged by its spec. *)
Lemma ValidateUpdate_sameFirmware plan q :
  sp_Firmware (plan_Spec q) = sp_Firmware (plan_Spec plan) → validateRecoveryPlanSpec (plan_Spec q) = None →
  ValidateUpdate plan q = None.
Proof.
  intros Hf Hs. unfold ValidateUpdate. rewrite Hs, Hf, bool_decide_true by done.
  cbn [negb]. rewrite andb_false_r. by destruct (plan_DeletionTimestamp q).
Qed.

Lemma applyOne_valid ch i a : validateApproval i a = None → validateApproval i (applyOne ch a) = None.
Proof. unfold applyOne. by case_match. Qed.

(** C38: the controller never trips over its own webhook: the spec write of a pass, the approval changes
    merged into the stored plan, is admitted whenever the stored plan itself would be; and so is the write
    that adds or drops the finalizer. *)
Theorem controller_writes_admitted ch plan f :
  ValidateCreate plan = None →
  ValidateUpdate plan (applyChanges ch plan).1 = None ∧
  ValidateUpdate plan (addFinalizer plan f) = None ∧ ValidateUpdate plan (removeFinalizer plan f) = None.
Proof.
  intros Hv. split_and!; apply ValidateUpdate_sameFirmware; try done.
  - simpl. apply validSpec_set_approvals; [done|]. apply validSpec_approvals, validateApprovals_spec in Hv as [Hnd Hok].
    apply validateApprovals_spec. unfold applyApprovals.
    assert (∀ a, ap_ID (applyOne ch a) = ap_ID a) as Hid by (intros a; unfold applyOne; by case_match).
    unfold plan_Approvals. split.
    + unfold givenIDs in *. rewrite <- list_fmap_compose.
      rewrite (list_fmap_ext (ap_ID ∘ applyOne ch) ap_ID) by (intros; apply Hid).
      by apply (givenIDs_filter (λ a, ap_ID a ∉ ch_removed ch)).
    + apply Forall_forall. intros a (b & -> & [_ Hb]%list_elem_of_filter)%list_elem_of_fmap.
      apply applyOne_valid. by apply (proj1 (Forall_forall _ _) Hok).
  - unfold addFinalizer. by case_match.
  - unfold addFinalizer. by case_match.
Qed.
End Claims.

(** ** Examples *)

(** A webhook that takes every reference and selector, and a generator that repeats its first draw. *)
Definition demoAdmission : Admission :=
  {| parseAnyReference _ := None; validatedSelectorFromSet _ := None;
     randRead k := Ok [0; 0; 0; N.of_nat (k / 2)]%N |}.

Definition anonymousApproval : RecoveryApproval :=
  mkRecoveryApproval "" "evt-n1-sbr-0000-02-00-0" None None false false "".

Definition anonymousPlan : GPURecoveryPlan :=
  set_plan_Approvals [anonymousApproval; demoApproval; anonymousApproval] (demoPlan true).

Definition defaultedPlan : GPURecoveryPlan :=
  match @Default demoAdmission anonymousPlan with inl p => p | inr _ => anonymousPlan end.

Example defaulted_ids : ap_ID <$> plan_Approvals defaultedPlan = ["app-00000000"; "a1"; "app-00000001"].
Proof. vm_compute. reflexivity. Qed.

Lemma admitted_approvals_witness :
  @Default demoAdmission anonymousPlan = inl defaultedPlan ∧ NoDup (ap_ID <$> plan_Approvals defaultedPlan).
Proof.
  assert (@Default demoAdmission anonymousPlan = inl defaultedPlan) as Hd by (vm_compute; reflexivity).
  assert (@ValidateCreate (clusterEnv emptyCluster) demoAdmission defaultedPlan = None) as Hv
    by (vm_compute; reflexivity).
  split; [exact Hd|].
  exact (proj1 (@admitted_approvals (clusterEnv emptyCluster) demoAdmission anonymousPlan defaultedPlan Hd Hv)).
Defined.

Lemma default_ids_unique_witness : NoDup (ap_ID <$> plan_Approvals defaultedPlan).
Proof.
  assert (@Default demoAdmission anonymousPlan = inl defaultedPlan) as Hd by (vm_compute; reflexivity).
  assert (NoDup (givenIDs (plan_Approvals anonymousPlan))) as Hnd.
  { vm_compute. constructor; [apply not_elem_of_nil|constructor]. }
  exact (proj1 (@default_ids_unique demoAdmission anonymousPlan defaultedPlan Hd Hnd)).
Defined.

Definition demoFirmware : FirmwareSpec :=
  mkFirmwareSpec (mkFirmwareSource (Some (mkContainerFirmwareSource "intel/firmware:1" false)) None) "bmg_fw-1.2.bin".

Lemma flash_command_words_witness :
  shellWords (buildFDOFlashCommand "0000:02:00.0" "bmg_fw-1.2.bin")
  = ["xpu-smi"; "updatefw"; "-d"; "0000:02:00.0"; "-t"; "FDO"; "-f"; "/update/bmg_fw-1.2.bin"; "-y"; "--force"].
Proof.
  assert (@validateFirmware demoAdmission demoFirmware = None) as Hf by (vm_compute; reflexivity).
  assert (validDeviceBDF "0000:02:00.0" = true) as Hb by (vm_compute; reflexivity).
  exact (proj1 (@flash_command_words demoAdmission demoFirmware "0000:02:00.0" Hf Hb)).
Defined.

Lemma controller_writes_admitted_witness :
  @ValidateUpdate (clusterEnv emptyCluster) demoAdmission (demoPlan true)
    (applyChanges (mkApprovalChanges {["a1"]} ∅) (demoPlan true)).1 = None.
Proof.
  assert (@ValidateCreate (clusterEnv emptyCluster) demoAdmission (demoPlan true) = None) as Hv
    by (vm_compute; reflexivity).
  exact (proj1 (@controller_writes_admitted (clusterEnv emptyCluster) demoAdmission
                  (mkApprovalChanges {["a1"]} ∅) (demoPlan true) recoveryPlanFinalizer Hv)).
Defined.
