(* ===== verification/FwUpdate.v ===== *)
(** * Firmware updates: the reconciler

    [internal/controller/gpufirmwareupdate/gpufirmwareupdate_controller.go] and its [openshift.go].  The
    GPUFirmwareUpdate a pass holds is the memory of the computation; one definition per method.  The
    API server only stores pods with a container, so that the first container of a pod exists. *)

From Stdlib Require Import Ascii.
From S2P Require Import Prelude GoStrings Sha256 KubeTypes ApiTypes Common Client Drain OpenShift.
From S2P Require Import RecoveryNaming.

Abbreviation FOp := (Op GPUFirmwareUpdate).

Definition canaryUpdate : string := "canary".
Definition directUpdate : string := "direct".

Definition stateNotStarted : string := "".
Definition stateDraining : string := "draining".
Definition stateUpdating : string := "updating".
Definition stateError : string := "error".
Definition stateCleanup : string := "cleanup".
Definition stateComplete : string := "completed".
Definition stateErrorCleanup : string := "error_cleanup".
Definition stateCanaryDone : string := "canary_done".

Definition completedTag : string := "##COMPLETED##".
Definition maxUpdateJobNameLen : nat := 63.
Definition jobNameHashLen : nat := 8.
Definition gpuFwUpdateFinalizer : string := "gpufirmwareupdate.intel.com/finalizer".
Definition gpuFwUpdateResourcePart : string := "gpu-fwupdate".

Definition supportedFwTypes : list string :=
  ["GFX"; "GFX_DATA"; "GFX_CODE_DATA"; "GFX_PSCBIN"; "AMC"; "FAN_TABLE"; "VR_CONFIG"; "OPROM_CODE"; "OPROM_DATA"].

(** [taintTemplate] with the key of the spec *)
Definition updateTaint (key : string) : Taint := mkTaint key "" TaintEffectNoSchedule None.

Definition NodeReady : string := "Ready".

(** ** The status in memory *)

Definition set_fu_Status (s : GPUFirmwareUpdateStatus) (f : GPUFirmwareUpdate) : GPUFirmwareUpdate :=
  mkGPUFirmwareUpdate (fu_Name f) (fu_DeletionTimestamp f) (fu_Finalizers f) (fu_Spec f) s.
Definition set_fu_Finalizers (l : list string) (f : GPUFirmwareUpdate) : GPUFirmwareUpdate :=
  mkGPUFirmwareUpdate (fu_Name f) (fu_DeletionTimestamp f) l (fu_Spec f) (fu_Status f).

Definition fu_State (f : GPUFirmwareUpdate) : string := fst_State (fu_Status f).
Definition fu_Infos (f : GPUFirmwareUpdate) : GPUFirmwareUpdateSubsetStatus := fst_NodeInfos (fu_Status f).

Definition set_fu_State (st : string) (f : GPUFirmwareUpdate) : GPUFirmwareUpdate :=
  set_fu_Status (mkGPUFirmwareUpdateStatus st (fst_Messages (fu_Status f)) (fst_NodeInfos (fu_Status f))) f.
Definition add_fu_Message (m : string) (f : GPUFirmwareUpdate) : GPUFirmwareUpdate :=
  set_fu_Status (mkGPUFirmwareUpdateStatus (fu_State f) (fst_Messages (fu_Status f) ++ [m]) (fu_Infos f)) f.
Definition set_fu_Infos (i : GPUFirmwareUpdateSubsetStatus) (f : GPUFirmwareUpdate) : GPUFirmwareUpdate :=
  set_fu_Status (mkGPUFirmwareUpdateStatus (fu_State f) (fst_Messages (fu_Status f)) i) f.

Definition set_ni_All (l : list string) (i : GPUFirmwareUpdateSubsetStatus) :=
  mkGPUFirmwareUpdateSubsetStatus l (ni_Pending i) (ni_Draining i) (ni_Updating i) (ni_Completed i)
    (ni_Error i) (ni_Jobs i).
Definition set_ni_Pending (l : list string) (i : GPUFirmwareUpdateSubsetStatus) :=
  mkGPUFirmwareUpdateSubsetStatus (ni_All i) l (ni_Draining i) (ni_Updating i) (ni_Completed i)
    (ni_Error i) (ni_Jobs i).
Definition set_ni_Draining (l : list string) (i : GPUFirmwareUpdateSubsetStatus) :=
  mkGPUFirmwareUpdateSubsetStatus (ni_All i) (ni_Pending i) l (ni_Updating i) (ni_Completed i)
    (ni_Error i) (ni_Jobs i).
Definition set_ni_started (updating jobs : list string) (i : GPUFirmwareUpdateSubsetStatus) :=
  mkGPUFirmwareUpdateSubsetStatus (ni_All i) (ni_Pending i) (ni_Draining i) updating (ni_Completed i)
    (ni_Error i) jobs.
Definition set_ni_progress (failed remaining completed : list string) (i : GPUFirmwareUpdateSubsetStatus) :=
  mkGPUFirmwareUpdateSubsetStatus (ni_All i) (ni_Pending i) (ni_Draining i) remaining completed failed (ni_Jobs i).

Definition modInfos {S} (f : GPUFirmwareUpdateSubsetStatus → GPUFirmwareUpdateSubsetStatus) : M S GPUFirmwareUpdate unit :=
  modMem (λ fu, set_fu_Infos (f (fu_Infos fu)) fu).

(** ** Pure helpers *)

Definition verifyGivenParameters (fu : GPUFirmwareUpdate) : option GoErr :=
  if bool_decide (fus_UpdaterImage (fu_Spec fu) = "") then Some (errorf "updater image must be specified")
  else if bool_decide (fc_ContainerImage (fus_Content (fu_Spec fu)) = "")
  then Some (errorf "content container image must be specified")
  else
    match head (filter (λ fw, ff_Type fw ∉ supportedFwTypes) (fc_Files (fus_Content (fu_Spec fu)))) with
    | Some fw => Some (errorf ("unsupported firmware type " +:+ ff_Type fw))
    | None => None
    end.

(** The first "Ready" condition that is not "True" makes a node not ready. *)
Definition nodeNotReady (n : Node) : bool :=
  existsb (λ c, bool_decide (c.1 = NodeReady) && negb (bool_decide (c.2 = ConditionTrue))) (node_conditions n).

Definition updateJobName (fuName nodeName : string) : string :=
  let name := fuName +:+ "-fwupdate-" +:+ nodeName in
  if (slen name <=? maxUpdateJobNameLen)%nat then name
  else trimRight (strTake (maxUpdateJobNameLen - jobNameHashLen - 1) name) "-."
       +:+ "-" +:+ strTake jobNameHashLen (sha256hex name).

(** A string between double quotes. *)
Definition quoteChar : string := String (ascii_of_nat 34) "".
Definition quoted (s : string) : string := quoteChar +:+ s +:+ quoteChar.

Definition updateCommands (nodeName : string) (fu : GPUFirmwareUpdate) : list string :=
  ("echo " +:+ quoted ("Starting firmware update process on node " +:+ nodeName))
  :: (fc_Files (fus_Content (fu_Spec fu)) ≫= λ fw,
        let fwfile := "/update/" +:+ ff_FileName fw in
        ["echo " +:+ quoted ("Updating " +:+ ff_Type fw +:+ " firmware with file " +:+ fwfile);
         "sh /update/update.sh " +:+ quoted (fus_PCIDeviceID (fu_Spec fu)) +:+ " " +:+ quoted (ff_Type fw)
           +:+ " " +:+ quoted fwfile])
  ++ ["echo " +:+ quoted ("Firmware update process " +:+ completedTag)].

Definition mapHead {A} (f : A → A) (l : list A) : list A :=
  match l with [] => [] | x :: l' => f x :: l' end.

Definition buildFWUpdateSCC (name : string) : SCC :=
  BuildSCC name
    [("allowPrivilegedContainer", JBool true);
     ("allowHostDirVolumePlugin", JBool true);
     ("allowHostIPC", JBool false);
     ("allowHostNetwork", JBool false);
     ("allowHostPID", JBool false);
     ("allowHostPorts", JBool false);
     ("allowPrivilegeEscalation", JBool true);
     ("allowedCapabilities", JNull);
     ("defaultAddCapabilities", JNull);
     ("fsGroup", runAsAny);
     ("readOnlyRootFilesystem", JBool false);
     ("requiredDropCapabilities", JNull);
     ("runAsUser", runAsAny);
     ("seLinuxContext", runAsAny);
     ("seccompProfiles", JList [JStr "*"]);
     ("supplementalGroups", runAsAny);
     ("volumes", JList [JStr "hostPath"; JStr "emptyDir"]);
     ("users", JList []);
     ("groups", JList [])].

(** [GPUFirmwareUpdateReconciler]: the client, the log retriever and the image verifier are the
    environment. *)
Record GPUFirmwareUpdateReconciler := mkGPUFirmwareUpdateReconciler { fuOpts : ControllerOpts }.

Section FwReconciler.
Context `{!Env} (r : GPUFirmwareUpdateReconciler).

Definition createUpdateJobObjForNode (nodeName : string) (fu : GPUFirmwareUpdate) : Job :=
  let job := XpuManagerFWUpdateJob in
  let t := job_template job in
  let spec := fu_Spec fu in
  mkJob (Namespace (fuOpts r)) (updateJobName (fu_Name fu) nodeName)
    {[ "gpufirmwareupdate" := fu_Name fu; "node" := nodeName ]}
    (job_owner job) (job_creationTimestamp job) (job_deletionTimestamp job) (job_activeDeadlineSeconds job)
    (Some 0%Z) (Some 1%Z)
    (mkPodSpec (ps_nodeName t) {[ "kubernetes.io/hostname" := nodeName ]}
       (mkToleration (fus_UpdateTaint spec) "" "" TaintEffectNoSchedule :: fus_Tolerations spec)
       (if bool_decide (fus_ImagePullSecret spec = "") then ps_imagePullSecrets t else [fus_ImagePullSecret spec])
       (if OpenShift (fuOpts r) then os_saName (BuildOpenShiftNames (fu_Name fu) gpuFwUpdateResourcePart)
        else ps_serviceAccountName t)
       (mapHead (set_c_image (fc_ContainerImage (fus_Content spec))) (ps_initContainers t))
       (mapHead (λ c, set_c_args [join " && " (updateCommands nodeName fu)] (set_c_image (fus_UpdaterImage spec) c))
          (ps_containers t)))
    (job_conditions job) (job_startTime job) (job_succeeded job) (job_failed job).

(** [r.Status().Update(ctx, fu)] and [r.Update(ctx, fu)]: the answer replaces the object. *)
Definition updateStatus : FOp (option GoErr) :=
  fu ← getMem;
  u ← UpdateFUStatus fu;
  match u with
  | Err e => mret (Some e)
  | Ok f => _ ← putMem f; mret None
  end.

Definition updateObject : FOp (option GoErr) :=
  fu ← getMem;
  u ← UpdateFU fu;
  match u with
  | Err e => mret (Some e)
  | Ok f => _ ← putMem f; mret None
  end.

Definition checkJobCompletionFromLogs (job : Job) : FOp (res bool) :=
  l ← ListPods (job_namespace job) "job-name" (job_name job);
  match l with
  | Err e => mret (Err (errorf ("failed to list pods for job " +:+ job_name job +:+ ": " +:+ etext e)))
  | Ok [] => mret (Ok false)
  | Ok (pod :: _) =>
      let container := match pod_containers pod with c :: _ => c_name c | [] => "" end in
      g ← Logs (pod_namespace pod) (pod_name pod) container;
      mret match g with
           | Err e => Err (errorf ("failed to retrieve logs " +:+ etext e))
           | Ok lines => Ok (existsb (λ line, contains line completedTag) lines)
           end
  end.

(** The loop of [taintAndDrainNodes]: [draining] and [lastErr] so far; an [EnsureNodeTaint] error leaves
    the loop. *)
Definition taintAndDrainNodes (nodesToProcess : list string) : FOp (list string * option GoErr) :=
  fu ← getMem;
  let taint := updateTaint (fus_UpdateTaint (fu_Spec fu)) in
  o ← foldUntil (λ '(draining, lastErr) nodeName,
        a ← EnsureNodeTaint nodeName taint;
        match a with
        | Err e => mret (inr (draining, Some e))
        | Ok _ =>
            p ← GPUPodsOnNode nodeName;
            match p with
            | Err e =>
                mret (inl (draining, Some (wrapErr ("failed to get GPU pods for node " +:+ nodeName +:+ ": ") e)))
            | Ok toEvict =>
                let draining' := if (0 <? length toEvict)%nat then draining ++ [nodeName] else draining in
                v ← EvictPods toEvict;
                mret (inl (draining',
                  match v with
                  | Some e => Some (wrapErr ("failed to evict GPU pods from node " +:+ nodeName +:+ ": ") e)
                  | None => lastErr
                  end))
            end
        end) ([], None) nodesToProcess;
  mret match o with inl x => x | inr x => x end.

Definition selectNodesToUpdate (updateMethod : string) : FOp (list string) :=
  fu ← getMem;
  l ← ListNodes (fus_NodeSelector (fu_Spec fu));
  match l with
  | Err _ => mret []
  | Ok nodes =>
      let names := node_name <$> filter (λ n, node_deletionTimestamp n = None ∧ nodeNotReady n = false) nodes in
      mret (if bool_decide (updateMethod = canaryUpdate) then take 1 names else names)
  end.

Definition selectNodesTaintAndDrain : FOp (list string * option GoErr) :=
  allCandidates ← selectNodesToUpdate directUpdate;
  fu ← getMem;
  let canary := bool_decide (fus_UpdateMethod (fu_Spec fu) = canaryUpdate) && (0 <? length allCandidates)%nat in
  let firstBatch := if canary then take 1 allCandidates else allCandidates in
  _ ← (if canary then modInfos (set_ni_Pending (drop 1 allCandidates)) else mret tt);
  _ ← modInfos (set_ni_All firstBatch);
  d ← taintAndDrainNodes firstBatch;
  _ ← modInfos (set_ni_Draining d.1);
  mret (firstBatch, d.2).

Definition verifyContentImage : FOp (option GoErr) :=
  fu ← getMem;
  let spec := fu_Spec fu in
  v ← VerifyImage (mkImageVerifyRequest (fc_ContainerImage (fus_Content spec)) (fus_ImagePullSecret spec)
        (fus_InsecureSkipTLSVerify spec)
        ((λ fw, mkImageFile ("/fwupdate/" +:+ ff_FileName fw) (ff_Checksum fw)) <$> fc_Files (fus_Content spec)));
  mret match v with Err e => Some e | Ok _ => None end.

Definition ensureFwOpenShiftResources (fuName : string) : FOp (option GoErr) :=
  let n := BuildOpenShiftNames fuName gpuFwUpdateResourcePart in
  let ns := Namespace (fuOpts r) in
  a ← CreateServiceAccount (os_saName n) ns;
  match a with
  | Some e => mret (Some (wrapErr "failed to ensure FW update ServiceAccount: " e))
  | None =>
      b ← EnsureSCC (buildFWUpdateSCC (os_sccName n));
      match b with
      | Some e => mret (Some (wrapErr "failed to ensure FW update SCC: " e))
      | None =>
          c ← CreateSCCRole (os_roleName n) (os_sccName n);
          match c with
          | Some e => mret (Some (wrapErr "failed to ensure FW update SCC ClusterRole: " e))
          | None =>
              d ← CreateSCCRoleBinding (os_bindingName n) (os_roleName n) (os_saName n) ns;
              mret match d with
                   | Some e => Some (wrapErr "failed to ensure FW update SCC ClusterRoleBinding: " e)
                   | None => None
                   end
          end
      end
  end.

Definition cleanupFwOpenShiftResources (fuName : string) : FOp unit :=
  let n := BuildOpenShiftNames fuName gpuFwUpdateResourcePart in
  DeleteOpenShiftSCCResources (os_sccName n) (os_roleName n) (os_bindingName n) (os_saName n)
    (Namespace (fuOpts r)).

(** The error exits of [beginUpdate]: the state is error, the message is added, and the status written;
    a failed write takes the place of the error. *)
Definition failUpdate (msg : string) (err : GoErr) : FOp (Result * option GoErr) :=
  _ ← modMem (λ fu, add_fu_Message msg (set_fu_State stateError fu));
  u ← updateStatus;
  mret (noResult, Some match u with Some e => e | None => err end).

Definition requeueAfter (s : Z) : Result := mkResult (s * Second).

Definition beginUpdate : FOp (Result * option GoErr) :=
  fu ← getMem;
  match verifyGivenParameters fu with
  | Some e => failUpdate ("invalid parameters: " +:+ etext e) e
  | None =>
      o ← (if OpenShift (fuOpts r) then ensureFwOpenShiftResources (fu_Name fu) else mret None);
      match o with
      | Some e => failUpdate ("failed to ensure OpenShift SCC resources: " +:+ etext e) e
      | None =>
          v ← verifyContentImage;
          match v with
          | Some e => failUpdate ("content image verification failed: " +:+ etext e) e
          | None =>
              s ← selectNodesTaintAndDrain;
              match s with
              | (_, Some e) => failUpdate ("unable to select nodes, taint or drain: " +:+ etext e) e
              | ([], None) =>
                  failUpdate "No suitable nodes found for update" (errorf "no suitable nodes found for update")
              | (selectedNodes, None) =>
                  _ ← modMem (λ fu, add_fu_Message "Nodes selected, tainted and draining initiated"
                                      (set_fu_Infos (set_ni_All selectedNodes (fu_Infos fu))
                                         (set_fu_State stateDraining fu)));
                  u ← updateStatus;
                  match u with
                  | Some e => mret (noResult, Some e)
                  | None =>
                      _ ← modMem (λ fu, if bool_decide (gpuFwUpdateFinalizer ∈ fu_Finalizers fu) then fu
                                        else set_fu_Finalizers (fu_Finalizers fu ++ [gpuFwUpdateFinalizer]) fu);
                      w ← updateObject;
                      match w with
                      | Some e => mret (noResult, Some e)
                      | None => mret (requeueAfter 5, None)
                      end
                  end
              end
          end
      end
  end.

(** The loop of [checkForNodeDrainStatus]: the nodes still draining, or the error that left it. *)
Definition drainRemaining (draining : list string) : FOp (list string + GoErr) :=
  foldUntil (λ remaining nodeName,
    p ← GPUPodsOnNode nodeName;
    match p with
    | Err e => mret (inr e)
    | Ok [] => mret (inl remaining)
    | Ok pods =>
        v ← EvictPods pods;
        mret match v with
             | Some e => inr (wrapErr ("failed to evict GPU pods from node " +:+ nodeName +:+ ": ") e)
             | None => inl (remaining ++ [nodeName])
             end
    end) [] draining.

Definition checkForNodeDrainStatus : FOp (Result * option GoErr) :=
  fu ← getMem;
  o ← drainRemaining (ni_Draining (fu_Infos fu));
  match o with
  | inr lastErr =>
      _ ← modMem (λ fu, add_fu_Message ("unable to check drain status: " +:+ etext lastErr)
                          (set_fu_State stateError fu));
      _ ← updateStatus;
      mret (noResult, Some lastErr)
  | inl remaining =>
      _ ← modInfos (set_ni_Draining remaining);
      _ ← (if bool_decide (remaining = [])
           then modMem (λ fu, add_fu_Message "All nodes drained, proceeding to update"
                                (set_fu_State stateUpdating fu))
           else mret tt);
      _ ← updateStatus;
      mret (requeueAfter (if bool_decide (remaining = []) then 1 else 5), None)
  end.

(** The nodes [startUpdateJobs] starts Jobs for. *)
Definition nodesToStart (fu : GPUFirmwareUpdate) : list string :=
  filter (λ n, n ∉ ni_Completed (fu_Infos fu)) (ni_All (fu_Infos fu)).

Definition startUpdateJob (nodeName : string) : FOp (string + option GoErr) :=
  fu ← getMem;
  let job := createUpdateJobObjForNode nodeName fu in
  s ← SetControllerReference (fu_Name fu) job;
  owner ← match s with
          | Ok _ => mret (Some (fu_Name fu))
          | Err e =>
              _ ← modMem (add_fu_Message ("Failed to set controller reference for job " +:+ job_name job +:+ ": "
                                          +:+ etext e));
              mret (job_owner job)
          end;
  c ← CreateJob (mkJob (job_namespace job) (job_name job) (job_labels job) owner (job_creationTimestamp job)
                   (job_deletionTimestamp job) (job_activeDeadlineSeconds job) (job_backoffLimit job)
                   (job_completions job) (job_template job) (job_conditions job) (job_startTime job)
                   (job_succeeded job) (job_failed job));
  match c with
  | Ok _ => mret (inl (job_name job))
  | Err e =>
      if isAlreadyExists e then mret (inl (job_name job))
      else
        _ ← modMem (λ fu, add_fu_Message ("unable to create update Job for node " +:+ nodeName +:+ ": " +:+ etext e)
                            (set_fu_State stateErrorCleanup fu));
        u ← updateStatus;
        mret (inr (Some match u with Some ue => ue | None => e end))
  end.

Definition startUpdateJobs : FOp (option GoErr) :=
  fu ← getMem;
  o ← foldUntil (λ jobs nodeName,
        j ← startUpdateJob nodeName;
        mret match j with inl name => inl (jobs ++ [name]) | inr e => inr e end) [] (nodesToStart fu);
  match o with
  | inr e => mret e
  | inl jobs =>
      fu ← getMem;
      _ ← modInfos (λ i, set_ni_started (nodesToStart fu) (ni_Jobs i ++ jobs) i);
      mret None
  end.

(** [remaining], [updated] and [failed] of [continueUpdateJobs]. *)
Record jobTally := mkJobTally { tl_remaining : list string; tl_updated : list string; tl_failed : list string }.

Definition tallyJob (t : jobTally) (job : Job) : FOp jobTally :=
  fu ← getMem;
  match job_labels job !! "node" with
  | None =>
      _ ← modMem (add_fu_Message ("Job with no node label found: " +:+ job_name job));
      mret t
  | Some nodeName =>
      if bool_decide (nodeName ∈ ni_Completed (fu_Infos fu)) then mret t
      else if (0 <? job_succeeded job)%Z then
        c ← checkJobCompletionFromLogs job;
        completed ← match c with
                    | Err e =>
                        _ ← modMem (add_fu_Message ("Error checking job " +:+ job_name job +:+ ": " +:+ etext e));
                        mret false
                    | Ok b => mret b
                    end;
        mret (if (completed : bool)
              then mkJobTally (tl_remaining t) (tl_updated t ++ [nodeName]) (tl_failed t)
              else mkJobTally (tl_remaining t) (tl_updated t) (tl_failed t ++ [nodeName]))
      else if (0 <? job_failed job)%Z
      then mret (mkJobTally (tl_remaining t) (tl_updated t) (tl_failed t ++ [nodeName]))
      else mret (mkJobTally (tl_remaining t ++ [nodeName]) (tl_updated t) (tl_failed t))
  end.

Definition continueUpdateJobs : FOp (res bool) :=
  fu ← getMem;
  l ← ListJobs (Namespace (fuOpts r)) "gpufirmwareupdate" (fu_Name fu);
  match l with
  | Err e =>
      _ ← modMem (λ fu, add_fu_Message ("unable to list update Jobs: " +:+ etext e)
                          (set_fu_State stateErrorCleanup fu));
      mret (Err e)
  | Ok jobs =>
      t ← foldEach tallyJob (mkJobTally [] [] []) jobs;
      _ ← modInfos (λ i, set_ni_progress (tl_failed t) (tl_remaining t) (ni_Completed i ++ tl_updated t) i);
      if (0 <? length (tl_remaining t))%nat then mret (Ok false)
      else
        _ ← modMem (λ fu,
              if (0 <? length (ni_Error (fu_Infos fu)))%nat
              then add_fu_Message ("Firmware update completed with errors on "
                                   +:+ itoa (Z.of_nat (length (ni_Error (fu_Infos fu)))) +:+ " nodes")
                     (set_fu_State stateErrorCleanup fu)
              else if bool_decide (fus_UpdateMethod (fu_Spec fu) = canaryUpdate)
                      && (0 <? length (ni_Pending (fu_Infos fu)))%nat
              then add_fu_Message "Canary update succeeded, proceeding to full rollout"
                     (set_fu_State stateCanaryDone fu)
              else add_fu_Message "Firmware update completed on all nodes" (set_fu_State stateCleanup fu));
        mret (Ok true)
  end.

Definition startOrContinueUpdate : FOp (Result * option GoErr) :=
  fu ← getMem;
  if bool_decide (ni_Updating (fu_Infos fu) = []) then
    s ← startUpdateJobs;
    match s with
    | Some e => mret (noResult, Some e)
    | None => _ ← updateStatus; mret (requeueAfter 5, None)
    end
  else
    c ← continueUpdateJobs;
    match c with
    | Err e => mret (noResult, Some e)
    | Ok false => mret (requeueAfter 5, None)
    | Ok true => _ ← updateStatus; mret (requeueAfter 1, None)
    end.

Definition handleCanaryDone : FOp (Result * option GoErr) :=
  fu ← getMem;
  if fus_HoldAfterCanary (fu_Spec fu) then mret (requeueAfter 10, None)
  else
    let remaining := ni_Pending (fu_Infos fu) in
    _ ← modInfos (set_ni_Pending []);
    if bool_decide (remaining = []) then
      _ ← modMem (λ fu, add_fu_Message "Canary was the only node, proceeding to cleanup" (set_fu_State stateCleanup fu));
      u ← updateStatus;
      mret match u with Some e => (noResult, Some e) | None => (requeueAfter 1, None) end
    else
      _ ← modMem (add_fu_Message ("Canary succeeded, starting full rollout on "
                                  +:+ itoa (Z.of_nat (length remaining)) +:+ " remaining nodes"));
      _ ← modInfos (λ i, set_ni_All (ni_All i ++ remaining) i);
      d ← taintAndDrainNodes remaining;
      match d with
      | (_, Some e) =>
          _ ← modMem (λ fu, add_fu_Message ("failed to taint/drain nodes for full rollout: " +:+ etext e)
                              (set_fu_State stateError fu));
          _ ← updateStatus;
          mret (noResult, Some e)
      | (draining, None) =>
          _ ← modMem (λ fu, set_fu_State stateDraining (set_fu_Infos (set_ni_Draining draining (fu_Infos fu)) fu));
          u ← updateStatus;
          mret match u with Some e => (noResult, Some e) | None => (requeueAfter 5, None) end
      end.

Definition untaintNodesAndFinalize (withError : bool) : FOp (Result * option GoErr) :=
  fu ← getMem;
  let taint := updateTaint (fus_UpdateTaint (fu_Spec fu)) in
  lastErr ← foldEach (λ (lastErr : bool) nodeName,
        u ← RemoveNodeTaint nodeName taint;
        match u with
        | Err _ => mret true
        | Ok true => mret lastErr
        | Ok false =>
            _ ← modMem (add_fu_Message ("Node " +:+ nodeName +:+ " lost taint " +:+ fus_UpdateTaint (fu_Spec fu)
                                        +:+ ", skipping"));
            mret lastErr
        end) false (ni_All (fu_Infos fu));
  _ ← modMem (set_fu_State (if lastErr || withError then stateError else stateComplete));
  u ← updateStatus;
  mret match u with Some e => (noResult, Some e) | None => (noResult, None) end.

Definition finalCleanup : FOp (Result * option GoErr) :=
  fu ← getMem;
  match fu_DeletionTimestamp fu with
  | None => mret (noResult, None)
  | Some _ =>
      o ← foldUntil (λ (_ : unit) jobName,
            d ← DeleteJob (Namespace (fuOpts r)) jobName;
            mret match d with
                 | Ok _ => inl tt
                 | Err e => if isNotFound e then inl tt else inr e
                 end) tt (ni_Jobs (fu_Infos fu));
      match o with
      | inr e => mret (noResult, Some e)
      | inl _ =>
          _ ← (if OpenShift (fuOpts r) then cleanupFwOpenShiftResources (fu_Name fu) else mret tt);
          if bool_decide (gpuFwUpdateFinalizer ∈ fu_Finalizers fu) then
            _ ← modMem (λ fu, set_fu_Finalizers (filter (λ x, x ≠ gpuFwUpdateFinalizer) (fu_Finalizers fu)) fu);
            u ← updateObject;
            mret (noResult, u)
          else mret (noResult, None)
      end
  end.

(** What a pass comes to: a result for the controller runtime, or the end of the process
    ([klog.Fatalf]). *)
Inductive FuOutcome :=
| Finished (ret : Result * option GoErr)
| Fatal.

Definition finished (m : FOp (Result * option GoErr)) : FOp FuOutcome := x ← m; mret (Finished x).

Definition isDeletedEarly (fu : GPUFirmwareUpdate) : bool :=
  bool_decide (is_Some (fu_DeletionTimestamp fu))
  && bool_decide (fu_State fu = stateCanaryDone ∨ fu_State fu = stateNotStarted ∨ fu_State fu = stateDraining).

Definition dispatch (state : string) : FOp FuOutcome :=
  if bool_decide (state = stateNotStarted) then finished beginUpdate
  else if bool_decide (state = stateDraining) then finished checkForNodeDrainStatus
  else if bool_decide (state = stateUpdating) then finished startOrContinueUpdate
  else if bool_decide (state = stateCanaryDone) then finished handleCanaryDone
  else if bool_decide (state = stateCleanup) then finished (untaintNodesAndFinalize false)
  else if bool_decide (state = stateErrorCleanup) then finished (untaintNodesAndFinalize true)
  else if bool_decide (state = stateComplete) || bool_decide (state = stateError) then finished finalCleanup
  else mret Fatal.

Definition FuReconcile (name : string) : FOp FuOutcome :=
  g ← GetFU name;
  match g with
  | Err e => mret (Finished (noResult, if isNotFound e then None else Some e))
  | Ok fu =>
      _ ← putMem fu;
      if isDeletedEarly fu then finished (untaintNodesAndFinalize true) else dispatch (fu_State fu)
  end.
End FwReconciler.
