(* ===== verification/FwUpdateFacts.v ===== *)
(** * Firmware updates: what a pass writes

    The phases of a firmware update as a transition relation between statuses ([fuNext]), with what the
    API server must have shown before each transition, and the footprint of a pass on nodes, pods and
    Jobs ([fuEv]).  Every handler of [FwUpdate] is proved to stay within it. *)

From S2P Require Import Prelude GoStrings Sha256 KubeTypes ApiTypes Common Client Drain Cluster OpenShift.
From S2P Require Import RecoveryNaming FwUpdate.

Definition set_fu_Messages (l : list string) (f : GPUFirmwareUpdate) : GPUFirmwareUpdate :=
  set_fu_Status (mkGPUFirmwareUpdateStatus (fu_State f) l (fu_Infos f)) f.

(** [f] is [f0] with messages added. *)
Definition saysMore (f0 f : GPUFirmwareUpdate) : Prop :=
  ∃ l, f = set_fu_Messages (fst_Messages (fu_Status f0) ++ l) f0.

Lemma saysMore_refl f : saysMore f f.
Proof. exists []. rewrite app_nil_r. by destruct f as [? ? ? ? []]. Qed.

Lemma saysMore_add m f0 f : saysMore f0 f → saysMore f0 (add_fu_Message m f).
Proof. intros [l ->]. exists (l ++ [m]). rewrite app_assoc. done. Qed.

Section Shown.
Context (B : list Ev) (f0 : GPUFirmwareUpdate).
Implicit Types (h : list Ev) (f : GPUFirmwareUpdate).

Definition fuTaint : Taint := updateTaint (fus_UpdateTaint (fu_Spec f0)).

(** The node has been seen with the update taint, or has been given it. *)
Definition tainted h (n : string) : Prop :=
  ∃ x, seen B h (EvGetNode n (Ok x)) ∧
    (hasTaint fuTaint x = true ∨
     seen B h (EvUpdateNode (set_node_taints (node_taints x ++ [fuTaint]) x) (Ok tt))).

(** The node is tainted, and is still draining or has been seen without GPU pods. *)
Definition prepared h (draining : list string) (n : string) : Prop :=
  tainted h n ∧ (n ∈ draining ∨ nodeFree B h n).

(** The nodes the selector and the readiness of the nodes admit. *)
Definition selectable h (names : list string) : Prop :=
  ∃ nodes, seen B h (EvListNodes (fus_NodeSelector (fu_Spec f0)) (Ok nodes)) ∧
    names = node_name <$> filter (λ n, node_deletionTimestamp n = None ∧ nodeNotReady n = false) nodes.

(** The Job ended well: it reports success and the log of its pod carries the tag. *)
Definition jobDone h (j : Job) : Prop :=
  (0 < job_succeeded j)%Z ∧
  ∃ pod pods lines line, seen B h (EvListPods (job_namespace j) "job-name" (job_name j) (Ok (pod :: pods))) ∧
    seen B h (EvLogs (pod_namespace pod) (pod_name pod)
                match pod_containers pod with c :: _ => c_name c | [] => "" end (Ok lines)) ∧
    line ∈ lines ∧ contains line completedTag = true.

(** Among the Jobs listed for the update there is one that ended well on each of [nodes]. *)
Definition jobsUpdated (jobs : list Job) h (nodes : list string) : Prop :=
  ∀ n, n ∈ nodes → ∃ j, j ∈ jobs ∧ job_labels j !! "node" = Some n ∧ jobDone h j.

(** Every Job listed for the update is for a node that was done before, or ended well on one of [nodes]. *)
Definition jobsDone (jobs : list Job) h (nodes : list string) : Prop :=
  ∀ j n, j ∈ jobs → job_labels j !! "node" = Some n → n ∈ ni_Completed (fu_Infos f0) ∨ jobDone h j ∧ n ∈ nodes.

Definition jobsListed (ns : string) h (jobs : list Job) : Prop :=
  seen B h (EvListJobs ns "gpufirmwareupdate" (fu_Name f0) (Ok jobs)).

Abbreviation isCanary := (bool_decide (fus_UpdateMethod (fu_Spec f0) = canaryUpdate)).
Abbreviation I0 := (fu_Infos f0).

(** One status write, from the object read to the object written, made in history [h]. *)
Inductive fuNext (ns : string) h f : Prop :=
| FN_rejected :
    fu_State f0 = stateNotStarted → fu_State f = stateError → ni_Completed (fu_Infos f) = ni_Completed I0 →
    fuNext ns h f
| FN_begun nodes draining :
    fu_State f0 = stateNotStarted → fu_State f = stateDraining → selectable h nodes → nodes ≠ [] →
    fu_Infos f = set_ni_Draining draining (set_ni_All (if isCanary then take 1 nodes else nodes)
                   (if isCanary then set_ni_Pending (drop 1 nodes) I0 else I0)) →
    (∀ n, n ∈ ni_All (fu_Infos f) → prepared h draining n) → fuNext ns h f
| FN_drain_failed :
    fu_State f0 = stateDraining → fu_State f = stateError → fu_Infos f = I0 → fuNext ns h f
| FN_draining remaining :
    fu_State f0 = stateDraining → fu_State f = (if bool_decide (remaining = []) then stateUpdating else stateDraining) →
    fu_Infos f = set_ni_Draining remaining I0 → (∀ n, n ∈ remaining → n ∈ ni_Draining I0) →
    (∀ n, n ∈ ni_Draining I0 → n ∈ remaining ∨ nodeFree B h n) → fuNext ns h f
| FN_started jobs :
    fu_State f0 = stateUpdating → fu_State f = stateUpdating → ni_Updating I0 = [] →
    fu_Infos f = set_ni_started (nodesToStart f0) (ni_Jobs I0 ++ jobs) I0 → fuNext ns h f
| FN_start_failed :
    fu_State f0 = stateUpdating → fu_State f = stateErrorCleanup → fu_Infos f = I0 → fuNext ns h f
| FN_updated jobs nodes :
    fu_State f0 = stateUpdating → jobsListed ns h jobs → jobsUpdated jobs h nodes → jobsDone jobs h nodes →
    fu_State f = (if isCanary && negb (bool_decide (ni_Pending I0 = [])) then stateCanaryDone else stateCleanup) →
    fu_Infos f = set_ni_progress [] [] (ni_Completed I0 ++ nodes) I0 → fuNext ns h f
| FN_update_failed jobs failed nodes :
    fu_State f0 = stateUpdating → jobsListed ns h jobs → jobsUpdated jobs h nodes →
    fu_State f = stateErrorCleanup → failed ≠ [] →
    fu_Infos f = set_ni_progress failed [] (ni_Completed I0 ++ nodes) I0 → fuNext ns h f
| FN_rollout draining :
    fu_State f0 = stateCanaryDone → fu_State f = stateDraining → fus_HoldAfterCanary (fu_Spec f0) = false →
    ni_Pending I0 ≠ [] →
    fu_Infos f = set_ni_Draining draining (set_ni_All (ni_All I0 ++ ni_Pending I0) (set_ni_Pending [] I0)) →
    (∀ n, n ∈ ni_Pending I0 → prepared h draining n) → fuNext ns h f
| FN_rollout_empty :
    fu_State f0 = stateCanaryDone → fu_State f = stateCleanup → ni_Pending I0 = [] → fu_Infos f = I0 → fuNext ns h f
| FN_rollout_failed :
    fu_State f0 = stateCanaryDone → fu_State f = stateError →
    fu_Infos f = set_ni_All (ni_All I0 ++ ni_Pending I0) (set_ni_Pending [] I0) → fuNext ns h f
| FN_finished :
    fu_State f0 = stateCleanup → fu_State f = stateComplete ∨ fu_State f = stateError → fu_Infos f = I0 → fuNext ns h f
| FN_aborted :
    fu_State f0 = stateErrorCleanup ∨ isDeletedEarly f0 = true → fu_State f = stateError → fu_Infos f = I0 →
    fuNext ns h f.

(** A status write changes the status only, and only adds messages. *)
Definition fuWrite (ns : string) h f : Prop :=
  fuNext ns h f ∧ f = set_fu_Status (fu_Status f) f0 ∧
  fst_Messages (fu_Status f0) `prefix_of` fst_Messages (fu_Status f).

(** The nodes a pass may taint, drain and untaint. *)
Definition mayTaint h (n : string) : Prop :=
  isDeletedEarly f0 = false ∧
  (fu_State f0 = stateNotStarted ∧ (∃ names, selectable h names ∧ n ∈ names) ∨
   fu_State f0 = stateCanaryDone ∧ fus_HoldAfterCanary (fu_Spec f0) = false ∧ n ∈ ni_Pending I0).
Definition mayDrain h (n : string) : Prop :=
  mayTaint h n ∨ isDeletedEarly f0 = false ∧ fu_State f0 = stateDraining ∧ n ∈ ni_Draining I0.
Definition mayUntaint (n : string) : Prop :=
  n ∈ ni_All I0 ∧ (isDeletedEarly f0 = true ∨ fu_State f0 = stateCleanup ∨ fu_State f0 = stateErrorCleanup).

Definition fuNodeWrite h (x' : Node) : Prop :=
  ∃ n x, seen B h (EvGetNode n (Ok x)) ∧
    (mayTaint h n ∧ hasTaint fuTaint x = false ∧ x' = set_node_taints (node_taints x ++ [fuTaint]) x ∨
     mayUntaint n ∧ x' = set_node_taints (filter (λ y, taintsEqual y fuTaint = false) (node_taints x)) x).

Definition fuEviction h (ns name : string) : Prop :=
  ∃ n pods pod, mayDrain h n ∧ seen B h (EvListPodsOnNode n (Ok pods)) ∧ pod ∈ pods ∧
    pod_namespace pod = ns ∧ pod_name pod = name ∧ gpuPod B h pod ∧ pod_deletionTimestamp pod = None.

Definition set_job_owner (o : option string) (j : Job) : Job :=
  mkJob (job_namespace j) (job_name j) (job_labels j) o (job_creationTimestamp j) (job_deletionTimestamp j)
    (job_activeDeadlineSeconds j) (job_backoffLimit j) (job_completions j) (job_template j) (job_conditions j)
    (job_startTime j) (job_succeeded j) (job_failed j).

Definition fuJob (r : GPUFirmwareUpdateReconciler) (j : Job) : Prop :=
  fu_State f0 = stateUpdating ∧ ni_Updating I0 = [] ∧
  ∃ n o, n ∈ nodesToStart f0 ∧ (o = None ∨ o = Some (fu_Name f0)) ∧
    j = set_job_owner o (createUpdateJobObjForNode r n f0).

(** Every Job of the update has been deleted or was gone. *)
Definition jobsGone (ns : string) h : Prop :=
  ∀ n, n ∈ ni_Jobs I0 → ∃ a, seen B h (EvDeleteJob ns n a) ∧ ∀ e, a = Err e → isNotFound e = true.

(** The object itself is written for the finalizer only: it is added to the object the first status write
    returned, and removed from a finished one that is being deleted once its Jobs are gone. *)
Definition fuFinalizer (ns : string) h f : Prop :=
  (fu_State f0 = stateNotStarted ∧ ∃ s g, seen B h (EvUpdateFUStatus s (Ok g)) ∧
     f = if bool_decide (gpuFwUpdateFinalizer ∈ fu_Finalizers g) then g
         else set_fu_Finalizers (fu_Finalizers g ++ [gpuFwUpdateFinalizer]) g) ∨
  (is_Some (fu_DeletionTimestamp f0) ∧ (fu_State f0 = stateComplete ∨ fu_State f0 = stateError) ∧ jobsGone ns h ∧
     f = set_fu_Finalizers (filter (λ x, x ≠ gpuFwUpdateFinalizer) (fu_Finalizers f0)) f0).

(** The footprint of a pass over [f0]. *)
Definition fuEv (r : GPUFirmwareUpdateReconciler) h (e : Ev) : Prop :=
  match e with
  | EvUpdatePlan _ _ | EvUpdatePlanStatus _ _ => False
  | EvUpdateFU f _ => fuFinalizer (Namespace (fuOpts r)) h f
  | EvUpdateFUStatus f _ => fuWrite (Namespace (fuOpts r)) h f
  | EvUpdateNode x _ => fuNodeWrite h x
  | EvEvict ns name _ => fuEviction h ns name
  | EvCreateJob j _ => fuJob r j
  | EvDeleteJob ns name _ =>
      ns = Namespace (fuOpts r) ∧ name ∈ ni_Jobs I0 ∧ is_Some (fu_DeletionTimestamp f0) ∧
      (fu_State f0 = stateComplete ∨ fu_State f0 = stateError)
  | _ => True
  end.
End Shown.

Section Handlers.
Context `{!Env} (r : GPUFirmwareUpdateReconciler) (B : list Ev) (f0 : GPUFirmwareUpdate).
Implicit Types (w : World Ev GPUFirmwareUpdate).

Abbreviation ns := (Namespace (fuOpts r)).

Lemma tainted_mono h h' n : h `suffix_of` h' → tainted B f0 h n → tainted B f0 h' n.
Proof.
  intros Hs (x & Hx & Ht). exists x. split; [by eapply seen_mono|]. destruct Ht; [by left|right; by eapply seen_mono].
Qed.

Lemma prepared_mono h h' d d' n :
  h `suffix_of` h' → (∀ x, x ∈ d → x ∈ d') → prepared B f0 h d n → prepared B f0 h' d' n.
Proof.
  intros Hs Hd [Ht Hn]. split; [by eapply tainted_mono|]. destruct Hn; [left; by apply Hd|right; by eapply nodeFree_mono].
Qed.

(** ** Tainting and draining *)

(** The exchanges of a drain: [tn] are the nodes it may taint, [nodes] those it may drain. *)
Definition drainEv (tn nodes : list string) (h : list Ev) (e : Ev) : Prop :=
  match e with
  | EvUpdateNode x' _ => ∃ n x, n ∈ tn ∧ seen B h (EvGetNode n (Ok x)) ∧ hasTaint (fuTaint f0) x = false ∧
      x' = set_node_taints (node_taints x ++ [fuTaint f0]) x
  | EvEvict ns name _ => ∃ n pods pod, n ∈ nodes ∧ seen B h (EvListPodsOnNode n (Ok pods)) ∧ pod ∈ pods ∧
      pod_namespace pod = ns ∧ pod_name pod = name ∧ gpuPod B h pod ∧ pod_deletionTimestamp pod = None
  | e => isRead e
  end.

Lemma reads_drainEv tn nodes w w' : logged isRead w w' → loggedIn (drainEv tn nodes) w w'.
Proof. apply logged_loggedIn. by intros ? []. Qed.

Lemma EnsureNodeTaint_spec tn nodes n w :
  n ∈ tn → B `suffix_of` log w →
  wp (EnsureNodeTaint n (fuTaint f0)) (λ a w', mem w' = mem w ∧ loggedIn (drainEv tn nodes) w w' ∧
    (is_Err a = false → tainted B f0 (log w') n)) w.
Proof.
  intros Hn HB. unfold EnsureNodeTaint. wp_steps.
  destruct (env_getNode (log w) n) as [x|e]; wp_steps; [|split_and!; [done|by eexists [_]|done]].
  assert (seen B (EvGetNode n (Ok x) :: log w) (EvGetNode n (Ok x))) as Hx by by apply seen_now.
  destruct (existsb _ _) eqn:Ht; wp_steps.
  { split_and!; [done|by eexists [_]|]. intros _. exists x. split; [done|by left]. }
  assert (∀ a, loggedIn (drainEv tn nodes) w
    (mkWorld (mem w) (EvUpdateNode (set_node_taints (node_taints x ++ [fuTaint f0]) x) a
       :: EvGetNode n (Ok x) :: log w))) as Hl.
  { intros a. eexists [_; _]. split; [done|]. split; [|done]. by exists n, x. }
  destruct (env_updateNode _ _) as [[]|e]; wp_steps; (split_and!; [done|apply Hl|]); [|done].
  intros _. exists x. split; [eapply seen_mono; [|exact Hx]; by eexists [_]|]. right. apply seen_now.
  etrans; [exact HB|]. by eexists [_].
Qed.

(** Eviction of GPU pods seen on one of the nodes. *)
Lemma EvictPods_drainEv tn nodes n pods gp w :
  n ∈ nodes → seen B (log w) (EvListPodsOnNode n (Ok pods)) →
  (∀ pod, pod ∈ gp → pod ∈ pods ∧ gpuPod B (log w) pod) →
  wp (EvictPods gp) (λ _ w', mem w' = mem w ∧ loggedIn (drainEv tn nodes) w w') w.
Proof.
  intros Hn Hseen Hgp. apply wp_and; [apply (EvictPods_sameMem gp)|].
  eapply wp_mono; [apply keeps_wp, EvictPods_logged|]. cbn beta. intros _ w' Hl.
  eapply (loggedIn_from (λ _ e, evictsOneOf gp e)); [|by eapply logged_loggedIn; [|exact Hl]].
  intros h e Hs (pod & a & Hin & Hd & ->). destruct (Hgp pod Hin). exists n, pods, pod.
  split_and!; try done; [by eapply seen_mono|by eapply gpuPod_mono].
Qed.

Lemma GPUPodsOnNode_drainEv tn nodes n w :
  B `suffix_of` log w →
  wp (GPUPodsOnNode n) (λ a w', mem w' = mem w ∧ loggedIn (drainEv tn nodes) w w' ∧
    match a with
    | Ok gp => ∃ pods, seen B (log w') (EvListPodsOnNode n (Ok pods)) ∧
        (∀ pod, pod ∈ gp → pod ∈ pods ∧ gpuPod B (log w') pod) ∧ (gp = [] → nodeFree B (log w') n)
    | Err _ => True
    end) w.
Proof.
  intros HB. eapply wp_mono; [apply wp_and; [by apply (GPUPodsOnNode_spec B)|apply keeps_wp, GPUPodsOnNode_reads]|].
  cbn beta. intros a w' [(Hm & _ & Ha) Hl]. split_and!; [done|by apply reads_drainEv|]. destruct a as [gp|e]; [|done].
  destruct Ha as (pods & H1 & H2 & H3). exists pods. split_and!; [done..|]. intros ->. exists pods. split; [done|].
  intros pod Hin. by destruct (H3 pod Hin) as [?%not_elem_of_nil|?].
Qed.

Lemma taintAndDrainNodes_spec nodes w :
  fu_Spec (mem w) = fu_Spec f0 → B `suffix_of` log w →
  wp (taintAndDrainNodes nodes) (λ d w', mem w' = mem w ∧ loggedIn (drainEv nodes nodes) w w' ∧
    (∀ n, n ∈ d.1 → n ∈ nodes) ∧ (d.2 = None → ∀ n, n ∈ nodes → prepared B f0 (log w') d.1 n)) w.
Proof.
  intros Hspec HB. unfold taintAndDrainNodes. apply wp_bind, wp_getMem. rewrite Hspec. fold (fuTaint f0). cbv zeta.
  apply wp_bind. eapply wp_mono.
  { apply (wp_foldUntil _ (λ done d w', mem w' = mem w ∧ loggedIn (drainEv nodes nodes) w w' ∧ (∀ n, n ∈ d.1 → n ∈ nodes) ∧
        (d.2 = None → ∀ n, n ∈ done → prepared B f0 (log w') d.1 n))
      (λ d w', mem w' = mem w ∧ loggedIn (drainEv nodes nodes) w w' ∧ (∀ n, n ∈ d.1 → n ∈ nodes) ∧ d.2 ≠ None)).
    { split_and!; [done|reflexivity|by intros n ?%not_elem_of_nil|]. by intros _ n ?%not_elem_of_nil. }
    intros pre n post [d lastErr] w1 Hsplit (Hm & Hl & Hd & Hpre). simpl in *.
    assert (n ∈ nodes) as Hn by (rewrite Hsplit; set_solver).
    assert (B `suffix_of` log w1) as HB1 by (etrans; [exact HB|by eapply loggedIn_grows]).
    apply wp_bind. eapply wp_mono; [by apply (EnsureNodeTaint_spec nodes nodes)|]. intros a w2 (Hm2 & Hl2 & Ht).
    destruct a as [added|e]; [|apply wp_ret; split_and!; [congruence|by etrans|done|done]].
    pose proof (loggedIn_grows _ _ _ Hl2) as Hg2. unfold grows in Hg2.
    apply wp_bind. eapply wp_mono; [apply (GPUPodsOnNode_drainEv nodes nodes); by etrans|]. intros p w3 (Hm3 & Hl3 & Hp).
    assert (loggedIn (drainEv nodes nodes) w w3) as Hl03 by (etrans; [exact Hl|]; by etrans).
    destruct p as [gp|e]; [|apply wp_ret; split_and!; [congruence|done|done|done]].
    destruct Hp as (pods & Hseen & Hgp & Hfree).
    apply wp_bind. eapply wp_mono; [by eapply (EvictPods_drainEv nodes nodes n pods gp)|]. intros v w4 [Hm4 Hl4].
    pose proof (loggedIn_grows _ _ _ Hl3) as Hg3. pose proof (loggedIn_grows _ _ _ Hl4) as Hg4. unfold grows in Hg3, Hg4.
    apply wp_ret. cbv zeta. cbn [fst snd]. split_and!; [congruence|by etrans| |].
    - destruct (0 <? length gp)%nat; [|done]. intros x [?|Hx%list_elem_of_singleton]%elem_of_app; [auto|by subst].
    - destruct v; [done|]. intros -> x [Hx|Hx%list_elem_of_singleton]%elem_of_app.
      + eapply prepared_mono; [| |by apply Hpre]; [etrans; [exact Hg2|]; by etrans|].
        intros y Hy. destruct (0 <? length gp)%nat; set_solver.
      + subst x. split; [eapply tainted_mono; [|by apply Ht]; by etrans|].
        destruct (Nat.ltb_spec 0 (length gp)) as [?|Hz]; [left; set_solver|right].
        eapply nodeFree_mono; [exact Hg4|]. apply Hfree. apply nil_length_inv. lia. }
  cbn beta. intros [d|d] w'; intros (Hm & Hl & Hd & Hp); apply wp_ret; split_and!; try done.
Qed.

(** ** The handlers *)

Abbreviation within := (loggedIn (fuEv B f0 r)).

Lemma reads_within w w' : logged isRead w w' → within w w'.
Proof. apply logged_loggedIn. by intros ? []. Qed.

Lemma openShift_within w w' : logged isOpenShift w w' → within w w'.
Proof. apply logged_loggedIn. by intros ? []. Qed.

Lemma drain_within tn nodes w w' :
  (∀ h n, log w `suffix_of` h → n ∈ tn → mayTaint B f0 h n) →
  (∀ h n, log w `suffix_of` h → n ∈ nodes → mayDrain B f0 h n) →
  loggedIn (drainEv tn nodes) w w' → within w w'.
Proof.
  intros Ht Hd. apply loggedIn_from. intros h [] Hs; try done.
  - intros (m & x & Hm & Hx & H1 & ->). exists m, x. split; [done|]. left. split_and!; auto.
  - intros (m & pods & pod & Hm & ?). exists m, pods, pod. split; [by apply Hd|done].
Qed.

Lemma updateStatus_within w0 w :
  B `suffix_of` log w0 → within w0 w → fuWrite B f0 ns (log w) (mem w) →
  wp updateStatus (λ u w', within w0 w' ∧
    (u = None → ∃ s, seen B (log w') (EvUpdateFUStatus s (Ok (mem w'))))) w.
Proof.
  intros HB Hw Hf. unfold updateStatus. apply wp_bind, wp_getMem, wp_bind, wp_exchange.
  assert (B `suffix_of` log w) as HB' by (etrans; [exact HB|by eapply loggedIn_grows]).
  assert (∀ a s, within w0 (mkWorld s (EvUpdateFUStatus (mem w) a :: log w))) as Hl.
  { intros a s. etrans; [exact Hw|]. eexists [_]. by split; [|split]. }
  destruct (env_updateFUStatus _ _) as [g|e]; [|apply wp_ret; by split].
  apply wp_bind, wp_putMem, wp_ret. split; [apply Hl|]. intros _. exists (mem w). by apply seen_now.
Qed.

Hypothesis Hlive : isDeletedEarly f0 = false.

Lemma set_fu_Infos_id f : set_fu_Infos (fu_Infos f) f = f.
Proof. by destruct f as [? ? ? ? []]. Qed.

Lemma failUpdate_within msg err i w0 w :
  B `suffix_of` log w0 → within w0 w → fu_State f0 = stateNotStarted → mem w = set_fu_Infos i f0 →
  ni_Completed i = ni_Completed (fu_Infos f0) →
  wp (failUpdate msg err) (λ _ w', within w0 w') w.
Proof.
  intros HB Hw Hst Hm Hi. unfold failUpdate. apply wp_bind, wp_modMem, wp_bind.
  eapply wp_mono; [apply (updateStatus_within w0)|]; [done| | |by intros u w' [? _]; apply wp_ret].
  - etrans; [exact Hw|]. by exists [].
  - cbn [mem log]. rewrite Hm. split_and!; [by apply FN_rejected|done|by eexists].
Qed.

(** What the selection of nodes leaves in memory. *)
Definition selectedInfos (nodes draining : list string) : GPUFirmwareUpdateSubsetStatus :=
  let canary := bool_decide (fus_UpdateMethod (fu_Spec f0) = canaryUpdate) in
  set_ni_Draining draining (set_ni_All (if canary then take 1 nodes else nodes)
    (if canary then set_ni_Pending (drop 1 nodes) (fu_Infos f0) else fu_Infos f0)).

Lemma selectNodesToUpdate_spec w :
  mem w = f0 → B `suffix_of` log w →
  wp (selectNodesToUpdate directUpdate) (λ nodes w', mem w' = f0 ∧ within w w' ∧
    (nodes = [] ∨ selectable B f0 (log w') nodes)) w.
Proof.
  intros Hm HB. unfold selectNodesToUpdate. apply wp_bind, wp_getMem, wp_bind, wp_exchange. rewrite Hm.
  assert (∀ a, within w (mkWorld f0 (EvListNodes (fus_NodeSelector (fu_Spec f0)) a :: log w))) as Hl
    by (intros a; by eexists [_]).
  destruct (env_listNodes _ _) as [nodes|e]; apply wp_ret; (split_and!; [done|apply Hl|]); [right|by left].
  exists nodes. split; [by apply seen_now|done].
Qed.

Lemma selectNodes_spec w :
  mem w = f0 → B `suffix_of` log w → fu_State f0 = stateNotStarted →
  wp selectNodesTaintAndDrain (λ s w', within w w' ∧
    ∃ nodes d, (nodes = [] → s.1 = []) ∧ (nodes = [] ∨ selectable B f0 (log w') nodes) ∧
      (nodes ≠ [] → mem w' = set_fu_Infos (selectedInfos nodes d) f0 ∧ s.1 = ni_All (selectedInfos nodes d)) ∧
      (∃ i, mem w' = set_fu_Infos i f0 ∧ ni_Completed i = ni_Completed (fu_Infos f0)) ∧
      (s.2 = None → ∀ n, n ∈ s.1 → prepared B f0 (log w') d n)) w.
Proof.
  intros Hm HB Hst. unfold selectNodesTaintAndDrain. apply wp_bind.
  eapply wp_mono; [by apply selectNodesToUpdate_spec|]. intros nodes w1 (Hm1 & Hl1 & Hsel).
  apply wp_bind, wp_getMem. rewrite Hm1. cbv zeta. set (canary := bool_decide _ && _).
  set (batch := if canary then take 1 nodes else nodes).
  assert (∀ n, n ∈ batch → n ∈ nodes) as Hbatch.
  { intros n. unfold batch. destruct canary; [|done]. intros (i & Hi)%list_elem_of_lookup.
    apply lookup_take_Some in Hi as [Hi _]. by eapply list_elem_of_lookup_2. }
  apply wp_bind.
  apply (wp_mono _ (λ _ w2, log w2 = log w1 ∧
    mem w2 = set_fu_Infos (if canary then set_ni_Pending (drop 1 nodes) (fu_Infos f0) else fu_Infos f0) f0)).
  { unfold modInfos. destruct canary; [apply wp_modMem|apply wp_ret]; cbn [mem log]; rewrite Hm1; [done|].
    by rewrite set_fu_Infos_id. }
  intros [] w2 [Hlog2 Hm2]. unfold modInfos. apply wp_bind, wp_modMem, wp_bind. cbn [mem log]. rewrite Hm2, Hlog2.
  eapply wp_mono.
  { apply taintAndDrainNodes_spec; [done|]. cbn [log]. etrans; [exact HB|]. by eapply loggedIn_grows. }
  cbn [mem log]. intros [d err] w3 (Hm3 & Hl3 & Hd & Hprep). cbn [fst snd] in *.
  apply wp_bind, wp_modMem, wp_ret. cbn [fst snd mem log]. rewrite Hm3.
  assert (log w1 `suffix_of` log w3) as Hg13 by (apply (loggedIn_grows _ _ _ Hl3)).
  assert (∀ h n, log w1 `suffix_of` h → n ∈ batch → mayTaint B f0 h n) as Hmay.
  { intros h n Hs Hn%Hbatch. split; [done|]. left. split; [done|]. destruct Hsel as [-> | (x & Hx & ->)];
      [by apply not_elem_of_nil in Hn|]. eexists. split; [|exact Hn]. exists x. split; [by eapply seen_mono|done]. }
  split.
  { etrans; [exact Hl1|]. apply (drain_within batch batch) in Hl3; cbn [log] in *.
    - destruct Hl3 as (new & Hn & HF). by exists new.
    - done.
    - intros h n Hs Hn. left. by apply Hmay. }
  exists nodes, d. split_and!.
  - intros Hnil. unfold batch. rewrite Hnil. by destruct canary.
  - destruct Hsel as [?|(x & Hx & ?)]; [by left|right]. exists x. split; [by eapply seen_mono|done].
  - intros Hne. assert (canary = bool_decide (fus_UpdateMethod (fu_Spec f0) = canaryUpdate)) as Hc.
    { unfold canary. destruct nodes; [done|]. apply andb_true_r. }
    unfold selectedInfos, batch. rewrite Hc. by destruct (bool_decide _).
  - eexists. split; [done|]. simpl. by destruct canary.
  - done.
Qed.

Lemma ensureFw_within w n :
  wp (if OpenShift (fuOpts r) then ensureFwOpenShiftResources r n else mret None)
    (λ _ w', mem w' = mem w ∧ within w w') w.
Proof.
  destruct (OpenShift (fuOpts r)); [|apply wp_ret; split; [done|reflexivity]].
  assert (keeps sameMem (ensureFwOpenShiftResources r n)) as Hm by (unfold ensureFwOpenShiftResources; keeps_auto).
  assert (keeps (logged isOpenShift) (ensureFwOpenShiftResources r n)) as Hl by (unfold ensureFwOpenShiftResources; keeps_auto).
  split; [apply Hm|apply openShift_within, Hl].
Qed.

Lemma beginUpdate_within w :
  mem w = f0 → log w = B → fu_State f0 = stateNotStarted → wp (beginUpdate r) (λ _ w', within w w') w.
Proof.
  intros Hm HB Hst. assert (B `suffix_of` log w) as HBs by by rewrite HB.
  unfold beginUpdate. apply wp_bind, wp_getMem. rewrite Hm.
  assert (∀ msg err w1, within w w1 → mem w1 = f0 → wp (failUpdate msg err) (λ _ w', within w w') w1) as Hfail.
  { intros msg err w1 Hw Hm1. apply (failUpdate_within _ _ (fu_Infos f0)); try done. by rewrite set_fu_Infos_id. }
  destruct (verifyGivenParameters f0) as [e|]; [by apply Hfail|].
  apply wp_bind. eapply wp_mono; [apply ensureFw_within|]. rewrite Hm. intros o w1 [Hm1 Hl1].
  destruct o as [e|]; [by apply Hfail|].
  apply wp_bind. apply (wp_mono _ (λ _ w2, mem w2 = f0 ∧ within w w2)).
  { unfold verifyContentImage. wp_steps. split; [done|]. etrans; [exact Hl1|]. by eexists [_]. }
  intros v w2 [Hm2 Hl2]. destruct v as [e|]; [by apply Hfail|].
  apply wp_bind. pose proof (loggedIn_grows _ _ _ Hl2) as Hg2. unfold grows in Hg2.
  eapply wp_mono; [apply selectNodes_spec; [done|by etrans|done]|].
  intros [selected err] w3 (Hl3 & nodes & d & Hnil & Hsel & Hmem & (i & Hi & Hci) & Hprep). cbn [fst snd] in *.
  assert (within w w3) as Hl03 by by etrans.
  destruct err as [e|]; [destruct selected; by apply (failUpdate_within _ _ i)|].
  destruct selected as [|n0 sel]; [by apply (failUpdate_within _ _ i)|].
  assert (nodes ≠ []) as Hne by (intros ->; by specialize (Hnil eq_refl)).
  destruct (Hmem Hne) as [Hm3 Hall]. destruct Hsel as [?|Hsel]; [done|].
  apply wp_bind, wp_modMem, wp_bind. eapply wp_mono; [apply (updateStatus_within w)|]; cbn [mem log]; [done| | |].
  - etrans; [exact Hl03|]. by exists [].
  - rewrite Hm3. split_and!; [|done|by eexists]. apply (FN_begun _ _ _ _ _ nodes d); try done.
    + rewrite Hall. unfold selectedInfos. by destruct (bool_decide _).
    + simpl. intros n Hn. by apply Hprep.
  - intros [e|] w4 [Hl4 Hs4]; [by apply wp_ret|]. destruct (Hs4 eq_refl) as [s Hs].
    apply wp_bind, wp_modMem, wp_bind. unfold updateObject. apply wp_bind, wp_getMem, wp_bind, wp_exchange.
    cbn [mem log]. set (f := if bool_decide _ then _ else _).
    assert (∀ a s', within w (mkWorld s' (EvUpdateFU f a :: log w4))) as Hl5.
    { intros a s'. etrans; [exact Hl4|]. eexists [_]. split; [done|]. split; [|done]. left. split; [done|].
      exists s, (mem w4). split; [done|]. unfold f. by case_bool_decide. }
    destruct (env_updateFU _ _); by wp_steps.
Qed.

(** ** Draining *)

Lemma drainRemaining_spec nodes w :
  B `suffix_of` log w →
  wp (drainRemaining nodes) (λ o w', mem w' = mem w ∧ loggedIn (drainEv [] nodes) w w' ∧
    match o with
    | inl remaining => (∀ n, n ∈ remaining → n ∈ nodes) ∧ ∀ n, n ∈ nodes → n ∈ remaining ∨ nodeFree B (log w') n
    | inr _ => True
    end) w.
Proof.
  intros HB. unfold drainRemaining. eapply wp_mono.
  { apply (wp_foldUntil _ (λ done rem w', mem w' = mem w ∧ loggedIn (drainEv [] nodes) w w' ∧
        (∀ n, n ∈ rem → n ∈ nodes) ∧ ∀ n, n ∈ done → n ∈ rem ∨ nodeFree B (log w') n)
      (λ _ w', mem w' = mem w ∧ loggedIn (drainEv [] nodes) w w')).
    { split_and!; [done|reflexivity|by intros n ?%not_elem_of_nil|]. by intros n ?%not_elem_of_nil. }
    intros pre n post rem w1 Hsplit (Hm & Hl & Hrem & Hpre).
    assert (n ∈ nodes) as Hn by (rewrite Hsplit; set_solver).
    apply wp_bind. eapply wp_mono.
    { apply (GPUPodsOnNode_drainEv [] nodes). etrans; [exact HB|]. by eapply loggedIn_grows. }
    intros p w2 (Hm2 & Hl2 & Hp). pose proof (loggedIn_grows _ _ _ Hl2) as Hg2. unfold grows in Hg2.
    destruct p as [gp|e]; [|apply wp_ret; split; [congruence|by etrans]].
    destruct Hp as (pods & Hseen & Hgp & Hfree).
    assert (∀ w3, log w2 `suffix_of` log w3 → ∀ x, x ∈ pre → x ∈ rem ∨ nodeFree B (log w3) x) as Hold.
    { intros w3 Hg3 x Hx. destruct (Hpre x Hx); [by left|right]. eapply nodeFree_mono; [|done]. by etrans. }
    destruct gp as [|pod gp].
    { apply wp_ret. split_and!; [congruence|by etrans|done|]. intros x [Hx|Hx%list_elem_of_singleton]%elem_of_app.
      - by apply Hold.
      - subst x. right. by apply Hfree. }
    apply wp_bind. eapply wp_mono; [by eapply (EvictPods_drainEv [] nodes n pods)|]. intros v w3 [Hm3 Hl3].
    pose proof (loggedIn_grows _ _ _ Hl3) as Hg3. unfold grows in Hg3.
    assert (loggedIn (drainEv [] nodes) w w3) as Hl03 by (etrans; [exact Hl|]; by etrans).
    apply wp_ret. destruct v as [e|]; [split; [congruence|done]|]. split_and!; [congruence|done| |].
    - intros x [?|Hx%list_elem_of_singleton]%elem_of_app; [auto|by subst].
    - intros x [Hx|Hx%list_elem_of_singleton]%elem_of_app; [|left; set_solver].
      destruct (Hold w3 Hg3 x Hx); [left; set_solver|by right]. }
  cbn beta. intros [rem|e] w'; naive_solver.
Qed.

(** The handlers end in a status write whose failure they ignore. *)
Lemma updateStatus_ignored {A} (a : A) w0 w :
  B `suffix_of` log w0 → within w0 w → fuWrite B f0 ns (log w) (mem w) →
  wp (_ ← updateStatus; mret a) (λ _ w', within w0 w') w.
Proof.
  intros HB Hw Hf. apply wp_bind. eapply wp_mono; [by apply (updateStatus_within w0)|].
  intros u w' [? _]. by apply wp_ret.
Qed.

(** They end in one whose failure they return. *)
Lemma updateStatus_returned {A} (a : GoErr → A) (b : A) w0 w :
  B `suffix_of` log w0 → within w0 w → fuWrite B f0 ns (log w) (mem w) →
  wp (u ← updateStatus; mret match u with Some e => a e | None => b end) (λ _ w', within w0 w') w.
Proof.
  intros HB Hw Hf. apply wp_bind. eapply wp_mono; [by apply (updateStatus_within w0)|].
  intros u w' [? _]. by apply wp_ret.
Qed.

Lemma within_mem w0 w s : within w0 w → within w0 (mkWorld s (log w)).
Proof. intros Hw. etrans; [exact Hw|]. by exists []. Qed.

Lemma checkForNodeDrainStatus_within w :
  mem w = f0 → log w = B → fu_State f0 = stateDraining → wp checkForNodeDrainStatus (λ _ w', within w w') w.
Proof.
  intros Hm HB Hst. assert (B `suffix_of` log w) as HBs by by rewrite HB.
  unfold checkForNodeDrainStatus. apply wp_bind, wp_getMem. rewrite Hm.
  apply wp_bind. eapply wp_mono; [by apply drainRemaining_spec|]. rewrite Hm. intros o w1 (Hm1 & Hl1 & Ho).
  assert (within w w1) as Hl.
  { eapply drain_within; [| |exact Hl1]; [by intros h n _ ?%not_elem_of_nil|]. intros h n _ Hn. by right. }
  destruct o as [rem|e].
  - destruct Ho as [Hsub Hfree]. unfold modInfos. apply wp_bind, wp_modMem, wp_bind.
    apply (wp_mono _ (λ _ w2, log w2 = log w1 ∧ ∃ m, mem w2 = set_fu_Messages (fst_Messages (fu_Status f0) ++ m)
      (set_fu_State (if bool_decide (rem = []) then stateUpdating else stateDraining)
         (set_fu_Infos (set_ni_Draining rem (fu_Infos f0)) f0)))).
    { case_bool_decide; [apply wp_modMem|apply wp_ret]; cbn [mem log]; rewrite Hm1; (split; [done|]).
      - by eexists.
      - exists []. rewrite app_nil_r. rewrite <- Hst. by destruct f0 as [? ? ? ? []]. }
    intros [] w2 [Hlog2 [m Hm2]]. apply updateStatus_ignored; [done| |].
    + destruct w2 as [m2 l2]. simpl in Hlog2. subst l2. by apply within_mem.
    + rewrite Hm2, Hlog2. split_and!; [|done|by eexists]. by apply (FN_draining _ _ _ _ _ rem).
  - apply wp_bind, wp_modMem. apply updateStatus_ignored; cbn [mem log]; [done|by apply within_mem|].
    rewrite Hm1. split_and!; [by apply FN_drain_failed|done|by eexists].
Qed.

Lemma handleCanaryDone_within w :
  mem w = f0 → log w = B → fu_State f0 = stateCanaryDone → wp handleCanaryDone (λ _ w', within w w') w.
Proof.
  intros Hm HB Hst. assert (B `suffix_of` log w) as HBs by by rewrite HB.
  unfold handleCanaryDone. apply wp_bind, wp_getMem. rewrite Hm.
  destruct (fus_HoldAfterCanary (fu_Spec f0)) eqn:Hhold; [apply wp_ret; reflexivity|]. cbv zeta.
  unfold modInfos. apply wp_bind, wp_modMem. cbn [mem log]. rewrite Hm. case_bool_decide as Hnil.
  { apply wp_bind, wp_modMem. cbn [mem log]. apply updateStatus_returned; [done|by exists []|]. cbn [mem log].
    split_and!; [|done|by eexists]. apply FN_rollout_empty; try done. simpl.
    destruct f0 as [? ? ? ? [? ? []]]; simpl in *. by subst. }
  apply wp_bind, wp_modMem, wp_bind, wp_modMem, wp_bind. cbn [mem log].
  eapply wp_mono; [by apply taintAndDrainNodes_spec|]. cbn [mem log].
  intros [d err] w1 (Hm1 & Hl1 & Hd & Hprep). cbn [fst snd] in *.
  assert (within w w1) as Hl.
  { apply (drain_within (ni_Pending (fu_Infos f0)) (ni_Pending (fu_Infos f0))) in Hl1.
    - destruct Hl1 as (new & Hn & HF). by exists new.
    - intros h n _ Hn. split; [done|]. by right.
    - intros h n _ Hn. left. split; [done|]. by right. }
  destruct err as [e|].
  - apply wp_bind, wp_modMem. apply updateStatus_ignored; cbn [mem log]; [done|by apply within_mem|].
    rewrite Hm1. split_and!; [|done|simpl; rewrite <- app_assoc; by eexists]. by apply FN_rollout_failed.
  - apply wp_bind, wp_modMem. apply updateStatus_returned; cbn [mem log]; [done|by apply within_mem|].
    rewrite Hm1. split_and!; [|done|by eexists]. apply (FN_rollout _ _ _ _ _ d); try done. by apply Hprep.
Qed.

(** ** Updating *)

Lemma startUpdateJob_within n w0 w :
  B `suffix_of` log w0 → within w0 w → saysMore f0 (mem w) → fu_State f0 = stateUpdating →
  ni_Updating (fu_Infos f0) = [] → n ∈ nodesToStart f0 →
  wp (startUpdateJob r n) (λ j w', within w0 w' ∧ match j with inl _ => saysMore f0 (mem w') | inr _ => True end) w.
Proof.
  intros HB Hw Hsm Hst Hup Hn. unfold startUpdateJob. apply wp_bind, wp_getMem. cbv zeta.
  assert (fu_Name (mem w) = fu_Name f0) as Hname by by destruct Hsm as [l ->].
  assert (createUpdateJobObjForNode r n (mem w) = createUpdateJobObjForNode r n f0) as -> by by destruct Hsm as [l ->].
  rewrite Hname. set (job := createUpdateJobObjForNode r n f0). apply wp_bind, wp_exchange.
  set (a := env_setControllerReference _ _ _). set (w1 := mkWorld (mem w) _).
  assert (within w0 w1) as Hw1 by (etrans; [exact Hw|]; by eexists [_]).
  apply wp_bind. apply (wp_mono _ (λ o w2, within w0 w2 ∧ saysMore f0 (mem w2) ∧ (o = None ∨ o = Some (fu_Name f0)))).
  { destruct a as [[]|e]; [apply wp_ret; by split_and!; [..|right]|]. apply wp_bind, wp_modMem, wp_ret.
    split_and!; [by apply within_mem|by apply saysMore_add|by left]. }
  intros o w2 (Hw2 & Hsm2 & Ho). apply wp_bind, wp_exchange. set (j := mkJob _ _ _ _ _ _ _ _ _ _ _ _ _ _).
  set (c := env_createJob _ _). set (w3 := mkWorld (mem w2) _).
  assert (within w0 w3) as Hw3.
  { etrans; [exact Hw2|]. eexists [_]. split; [done|]. split; [|done]. split_and!; [done..|]. by exists n, o. }
  destruct c as [[]|e]; [by apply wp_ret|]. destruct (isAlreadyExists e); [by apply wp_ret|].
  apply wp_bind, wp_modMem, wp_bind. destruct Hsm2 as [l Hl]. cbn [mem log w3].
  eapply wp_mono; [apply (updateStatus_within w0); cbn [mem log]; [done|by apply (within_mem w0 w3)|]|].
  - rewrite Hl. split_and!; [by apply FN_start_failed|done|]. simpl. rewrite <- app_assoc. by eexists.
  - intros u w4 [? _]. by apply wp_ret.
Qed.

(** Leaving the loop early is an error. *)
Lemma startUpdateJob_error n w : wp (startUpdateJob r n) (λ j _, ∀ e, j = inr e → e ≠ None) w.
Proof.
  unfold startUpdateJob. apply wp_bind, wp_getMem. cbv zeta. apply wp_bind, wp_exchange, wp_bind.
  apply (wp_mono _ (λ _ _, True)); [done|]. intros o w1 _. apply wp_bind, wp_exchange.
  destruct (env_createJob _ _) as [[]|e]; [by apply wp_ret|]. destruct (isAlreadyExists e); [by apply wp_ret|].
  apply wp_bind, wp_modMem, wp_bind. apply (wp_mono _ (λ _ _, True)); [done|]. intros u w2 _. apply wp_ret.
  by intros ? [= <-].
Qed.

Lemma startUpdateJobs_within w0 w :
  B `suffix_of` log w0 → within w0 w → mem w = f0 → fu_State f0 = stateUpdating → ni_Updating (fu_Infos f0) = [] →
  wp (startUpdateJobs r) (λ o w', within w0 w' ∧
    (o = None → ∃ jobs m, mem w' = set_fu_Messages m (set_fu_Infos
       (set_ni_started (nodesToStart f0) (ni_Jobs (fu_Infos f0) ++ jobs) (fu_Infos f0)) f0) ∧
       fst_Messages (fu_Status f0) `prefix_of` m)) w.
Proof.
  intros HB Hw Hm Hst Hup. unfold startUpdateJobs. apply wp_bind, wp_getMem. rewrite Hm. apply wp_bind. eapply wp_mono.
  { apply (wp_foldUntil_inv _ (λ _ w', within w0 w' ∧ saysMore f0 (mem w')) (λ e w', within w0 w' ∧ e ≠ None)).
    { split; [done|]. rewrite Hm. apply saysMore_refl. }
    intros n jobs w1 Hn [Hw1 Hsm]. apply wp_bind. eapply wp_mono; [apply wp_and; [by apply startUpdateJob_within|]|].
    { apply (startUpdateJob_error n w1). }
    cbn beta. intros [j|e] w2 [[Hw2 Hj] He]; apply wp_ret; [done|]. split; [done|]. by apply He. }
  cbn beta. intros [jobs|e] w1 [Hw1 Hj]; [|by apply wp_ret].
  destruct Hj as [l Hl]. apply wp_bind, wp_getMem. unfold modInfos. apply wp_bind, wp_modMem, wp_ret.
  cbn [mem log]. split; [by apply within_mem|]. intros _. exists jobs, (fst_Messages (fu_Status f0) ++ l).
  rewrite Hl. split; [done|by eexists].
Qed.

Lemma jobDone_mono h h' j : h `suffix_of` h' → jobDone B h j → jobDone B h' j.
Proof.
  intros Hs (? & pod & pods & lines & line & ? & ? & ?). split; [done|]. exists pod, pods, lines, line.
  split_and!; [by eapply seen_mono|by eapply seen_mono|naive_solver..].
Qed.

Lemma checkJobCompletionFromLogs_spec job w :
  B `suffix_of` log w → (0 < job_succeeded job)%Z →
  wp (checkJobCompletionFromLogs job) (λ c w', mem w' = mem w ∧ logged isRead w w' ∧
    (c = Ok true → jobDone B (log w') job)) w.
Proof.
  intros HB Hsucc. unfold checkJobCompletionFromLogs. apply wp_bind, wp_exchange.
  assert (∀ a, logged isRead w (mkWorld (mem w) (EvListPods (job_namespace job) "job-name" (job_name job) a :: log w))) as Hl1.
  { intros a. eexists [_]. split; [done|]. by apply Forall_singleton. }
  destruct (env_listPods _ _ _ _) as [[|pod pods]|e];
    [apply wp_ret; split_and!; [done|apply Hl1|done]| |apply wp_ret; split_and!; [done|apply Hl1|done]].
  cbv zeta. apply wp_bind, wp_exchange, wp_ret. cbn [mem log]. split_and!; [done| |].
  - etrans; [apply Hl1|]. eexists [_]. split; [done|]. by apply Forall_singleton.
  - destruct (env_logs _ _ _ _) as [lines|e]; [|done]. intros [= (line & Hin%list_elem_of_In & Hc)%existsb_exists].
    split; [done|]. exists pod, pods, lines, line. split_and!; [| |done|done].
    + eapply seen_mono; [by eexists [_]|]. by apply seen_now.
    + apply seen_now. etrans; [exact HB|]. by eexists [_].
Qed.

(** The tally after the Jobs [done], when none of them is outstanding or failed. *)
Definition tallied (done : list Job) (t : jobTally) (h : list Ev) : Prop :=
  (tl_remaining t = [] → tl_failed t = [] → ∀ j n, j ∈ done → job_labels j !! "node" = Some n →
     n ∈ ni_Completed (fu_Infos f0) ∨ jobDone B h j ∧ n ∈ tl_updated t) ∧
  ∀ n, n ∈ tl_updated t → ∃ j, j ∈ done ∧ job_labels j !! "node" = Some n ∧ jobDone B h j.

Lemma tallied_mono done t h h' : h `suffix_of` h' → tallied done t h → tallied done t h'.
Proof.
  intros Hs [H1 H2]. split.
  - intros Hr Hf j n Hj Hn. destruct (H1 Hr Hf j n Hj Hn) as [?|[? ?]]; [by left|right]. by split; [eapply jobDone_mono|].
  - intros n (j & ? & ? & ?)%H2. exists j. split_and!; [done..|by eapply jobDone_mono].
Qed.

(** One more Job, which changes neither the nodes done nor the outstanding ones unless it must. *)
Lemma tallied_skip done t h j :
  tallied done t h →
  (∀ n, job_labels j !! "node" = Some n → n ∈ ni_Completed (fu_Infos f0) ∨ jobDone B h j ∧ n ∈ tl_updated t) →
  tallied (done ++ [j]) t h.
Proof.
  intros [H1 H2] Hj. split.
  - intros Hr Hf x n [Hx|Hx%list_elem_of_singleton]%elem_of_app Hn; [by apply H1|]. subst x. by apply Hj.
  - intros n (x & ? & ?)%H2. exists x. set_solver.
Qed.

Lemma tallied_open done t t' h j :
  tallied done t h → tl_updated t' = tl_updated t → tl_remaining t' ≠ [] ∨ tl_failed t' ≠ [] →
  tallied (done ++ [j]) t' h.
Proof.
  intros [_ H2] Hu Hne. split; [intros; by destruct Hne|]. rewrite Hu. intros n (x & ? & ?)%H2. exists x. set_solver.
Qed.

Lemma tallied_done done rem upd failed h j n :
  tallied done (mkJobTally rem upd failed) h → job_labels j !! "node" = Some n → jobDone B h j →
  tallied (done ++ [j]) (mkJobTally rem (upd ++ [n]) failed) h.
Proof.
  intros [H1 H2] Hn Hj. simpl in *. split; simpl.
  - intros Hr Hf x m [Hx|Hx%list_elem_of_singleton]%elem_of_app Hm.
    + destruct (H1 Hr Hf x m Hx Hm) as [?|[? ?]]; [by left|right; set_solver].
    + subst x. right. split; [done|]. assert (m = n) as -> by congruence. set_solver.
  - intros m [(x & ? & ?)%H2|Hm%list_elem_of_singleton]%elem_of_app; [exists x; set_solver|]. subst m. exists j. set_solver.
Qed.

Lemma tallyJob_spec done t job w :
  B `suffix_of` log w → saysMore f0 (mem w) → tallied done t (log w) →
  wp (tallyJob t job) (λ t' w', saysMore f0 (mem w') ∧ logged isRead w w' ∧ tallied (done ++ [job]) t' (log w')) w.
Proof.
  intros HB Hsm Ht. unfold tallyJob. apply wp_bind, wp_getMem.
  assert (∀ m, logged isRead w (mkWorld m (log w))) as Hl0 by (intros m; by exists []).
  destruct (job_labels job !! "node") as [n|] eqn:Hn.
  2:{ apply wp_bind, wp_modMem, wp_ret. split_and!; [by apply saysMore_add|apply Hl0|]. apply tallied_skip; [done|congruence]. }
  assert (fu_Infos (mem w) = fu_Infos f0) as -> by by destruct Hsm as [l ->].
  case_bool_decide as Hc.
  { apply wp_ret. split_and!; [done|reflexivity|]. apply tallied_skip; [done|]. intros m Hm. left. congruence. }
  destruct (Z.ltb_spec 0 (job_succeeded job)) as [Hs|_].
  2:{ destruct (0 <? job_failed job)%Z; apply wp_ret; (split_and!; [done|reflexivity|]);
        (eapply tallied_open; [done|done|]); simpl; [right|left]; by destruct (tl_failed t), (tl_remaining t). }
  apply wp_bind. eapply wp_mono; [by apply checkJobCompletionFromLogs_spec|]. intros c w1 (Hm1 & Hl1 & Hdone).
  pose proof (logged_suffix _ _ _ Hl1) as Hg1. pose proof (tallied_mono _ _ _ _ Hg1 Ht) as Ht1. apply wp_bind.
  apply (wp_mono _ (λ b w2, saysMore f0 (mem w2) ∧ logged isRead w w2 ∧ log w2 = log w1 ∧ (b = true → jobDone B (log w1) job))).
  { destruct c as [b|e].
    - apply wp_ret. rewrite Hm1. split_and!; [done..|]. by intros ->; apply Hdone.
    - apply wp_bind, wp_modMem, wp_ret. cbn [mem log]. rewrite Hm1. split_and!; [by apply saysMore_add| |done|done].
      etrans; [exact Hl1|]. by exists []. }
  intros b w2 (Hsm2 & Hl2 & Hlog & Hb). apply wp_ret. split_and!; [done..|]. rewrite Hlog. destruct b.
  - destruct t. apply tallied_done; auto.
  - eapply tallied_open; [done|done|]. right. simpl. by destruct (tl_failed t).
Qed.

Lemma continueUpdateJobs_spec w :
  mem w = f0 → B `suffix_of` log w → fu_State f0 = stateUpdating →
  wp (continueUpdateJobs r) (λ c w', within w w' ∧ (c = Ok true → fuWrite B f0 ns (log w') (mem w'))) w.
Proof.
  intros Hm HB Hst. unfold continueUpdateJobs. apply wp_bind, wp_getMem, wp_bind, wp_exchange. rewrite Hm.
  assert (∀ a m, within w (mkWorld m (EvListJobs ns "gpufirmwareupdate" (fu_Name f0) a :: log w))) as Hl1
    by (intros a m; by eexists [_]).
  destruct (env_listJobs _ _ _ _) as [jobs|e]; [|apply wp_bind, wp_modMem, wp_ret; split; [apply Hl1|done]].
  set (h1 := EvListJobs ns "gpufirmwareupdate" (fu_Name f0) (Ok jobs) :: log w).
  assert (log w `suffix_of` h1) as Hg1 by by eexists [_].
  apply wp_bind. eapply wp_mono.
  { apply (wp_foldEach _ (λ done t w', saysMore f0 (mem w') ∧ logged isRead (mkWorld f0 h1) w' ∧ tallied done t (log w'))).
    - split_and!; [apply saysMore_refl|by exists []|]. split; [by intros _ _ j n ?%not_elem_of_nil|].
      by intros n ?%not_elem_of_nil.
    - intros pre j post t w1 _ (Hsm & Hl & Ht). eapply wp_mono.
      { apply tallyJob_spec; [|done|done]. etrans; [exact HB|]. etrans; [exact Hg1|].
        apply (logged_suffix _ _ _ Hl). }
      intros t' w2 (? & ? & ?). split_and!; [done|by etrans|done]. }
  cbn beta. intros t w1 ([l Hl] & Hr & [H1 H2]). pose proof (logged_suffix _ _ _ Hr) as Hg. cbn [log] in Hg.
  assert (∀ m, within w (mkWorld m (log w1))) as Hw1.
  { intros m. etrans; [apply (Hl1 (Ok jobs) f0)|]. etrans; [by apply reads_within|]. by exists []. }
  unfold modInfos. apply wp_bind, wp_modMem. cbn [mem log]. rewrite Hl. set (f := set_fu_Infos _ _).
  destruct (Nat.ltb_spec 0 (length (tl_remaining t))) as [_|Hrem]; [apply wp_ret; split; [apply Hw1|done]|].
  assert (tl_remaining t = []) as Hnil by (apply nil_length_inv; lia).
  assert (fu_Infos f = set_ni_progress (tl_failed t) [] (ni_Completed (fu_Infos f0) ++ tl_updated t) (fu_Infos f0)) as HfI
    by by rewrite <- Hnil.
  apply wp_bind, wp_modMem, wp_ret. cbn [mem log]. split; [apply Hw1|]. intros _.
  change (ni_Error (fu_Infos f)) with (tl_failed t). change (fus_UpdateMethod (fu_Spec f)) with (fus_UpdateMethod (fu_Spec f0)).
  change (ni_Pending (fu_Infos f)) with (ni_Pending (fu_Infos f0)).
  assert (∀ msg st, fst_Messages (fu_Status f0) `prefix_of` fst_Messages (fu_Status (add_fu_Message msg (set_fu_State st f)))) as Hpre.
  { intros msg st. simpl. rewrite <- app_assoc. by eexists. }
  assert (jobsListed B f0 ns (log w1) jobs) as Hlist by (eapply seen_mono; [exact Hg|]; by apply seen_now).
  destruct (Nat.ltb_spec 0 (length (tl_failed t))) as [Hfail|Hfail].
  - split_and!; [|done|apply Hpre]. apply (FN_update_failed _ _ _ _ _ jobs (tl_failed t) (tl_updated t)); try done.
    intros Hf. rewrite Hf in Hfail. simpl in Hfail. lia.
  - assert (tl_failed t = []) as Hfnil by (apply nil_length_inv; lia).
    rewrite Hfnil in HfI. assert (jobsDone B f0 jobs (log w1) (tl_updated t)) as Hdone by (intros j n; by apply H1).
    assert ((0 <? length (ni_Pending (fu_Infos f0)))%nat = negb (bool_decide (ni_Pending (fu_Infos f0) = []))) as ->.
    { by destruct (ni_Pending (fu_Infos f0)). }
    destruct (bool_decide (fus_UpdateMethod (fu_Spec f0) = canaryUpdate) && _) eqn:Hc;
      (split_and!; [|done|apply Hpre]); (apply (FN_updated _ _ _ _ _ jobs (tl_updated t)); [done..|by rewrite Hc|exact HfI]).
Qed.

Lemma startOrContinueUpdate_within w :
  mem w = f0 → log w = B → fu_State f0 = stateUpdating → wp (startOrContinueUpdate r) (λ _ w', within w w') w.
Proof.
  intros Hm HB Hst. assert (B `suffix_of` log w) as HBs by by rewrite HB.
  unfold startOrContinueUpdate. apply wp_bind, wp_getMem. rewrite Hm. case_bool_decide as Hup.
  - apply wp_bind. eapply wp_mono; [by apply (startUpdateJobs_within w)|]. intros [e|] w1 [Hw1 Hm1]; [by apply wp_ret|].
    destruct (Hm1 eq_refl) as (jobs & m & Hmem & Hpre). apply updateStatus_ignored; [done..|]. rewrite Hmem.
    split_and!; [by apply (FN_started _ _ _ _ _ jobs)|done|done].
  - apply wp_bind. eapply wp_mono; [by apply continueUpdateJobs_spec|]. intros [[]|e] w1 [Hw1 Hf]; try by apply wp_ret.
    apply updateStatus_ignored; [done..|]. by apply Hf.
Qed.

(** ** The end *)

Lemma RemoveNodeTaint_within n w :
  B `suffix_of` log w → mayUntaint f0 n →
  wp (RemoveNodeTaint n (fuTaint f0)) (λ _ w', mem w' = mem w ∧ within w w') w.
Proof.
  intros HB Hn. unfold RemoveNodeTaint. wp_steps.
  destruct (env_getNode (log w) n) as [x|e]; wp_steps; [|split; [done|by eexists [_]]].
  destruct (existsb _ _); cbn [negb]; wp_steps; [|split; [done|by eexists [_]]].
  destruct (env_updateNode _ _); wp_steps; (split; [done|]); (eexists [_; _]; split; [done|]); (split; [|done]);
    exists n, x; (split; [by apply seen_now|by right]).
Qed.

Lemma untaintNodesAndFinalize_within (withError : bool) w :
  mem w = f0 → log w = B → (∀ n, n ∈ ni_All (fu_Infos f0) → mayUntaint f0 n) →
  (if withError then fu_State f0 = stateErrorCleanup ∨ isDeletedEarly f0 = true else fu_State f0 = stateCleanup) →
  wp (untaintNodesAndFinalize withError) (λ _ w', within w w') w.
Proof.
  intros Hm HB Hall Hst. assert (B `suffix_of` log w) as HBs by by rewrite HB.
  unfold untaintNodesAndFinalize. apply wp_bind, wp_getMem. rewrite Hm. cbv zeta. fold (fuTaint f0).
  apply wp_bind. eapply wp_mono.
  { apply (wp_foldEach_inv _ (λ _ w', within w w' ∧ saysMore f0 (mem w'))).
    { split; [reflexivity|]. rewrite Hm. apply saysMore_refl. }
    intros n lastErr w1 Hn [Hw1 Hsm]. apply wp_bind. eapply wp_mono.
    { apply RemoveNodeTaint_within; [|by apply Hall]. etrans; [exact HBs|]. by eapply loggedIn_grows. }
    intros u w2 [Hm2 Hw2]. assert (within w w2) as Hw by by etrans. rewrite <- Hm2 in Hsm.
    destruct u as [[]|e]; [by apply wp_ret| |by apply wp_ret].
    apply wp_bind, wp_modMem, wp_ret. split; [by apply within_mem|by apply saysMore_add]. }
  cbn beta. intros lastErr w1 [Hw1 [l Hl]]. apply wp_bind, wp_modMem.
  apply updateStatus_returned; cbn [mem log]; [done|by apply within_mem|]. rewrite Hl.
  split_and!; [|done|by eexists]. destruct withError.
  - rewrite orb_true_r. by apply FN_aborted.
  - apply FN_finished; [done| |done]. destruct lastErr; [by right|by left].
Qed.

Lemma cleanupFw_within n w :
  wp (if OpenShift (fuOpts r) then cleanupFwOpenShiftResources r n else mret tt) (λ _ w', mem w' = mem w ∧ within w w') w.
Proof.
  destruct (OpenShift (fuOpts r)); [|apply wp_ret; split; [done|reflexivity]].
  assert (keeps sameMem (cleanupFwOpenShiftResources r n)) as Hm by (unfold cleanupFwOpenShiftResources; auto with keeps).
  assert (keeps (logged isOpenShift) (cleanupFwOpenShiftResources r n)) as Hl
    by (unfold cleanupFwOpenShiftResources; auto with keeps).
  split; [apply Hm|apply openShift_within, Hl].
Qed.

Lemma finalCleanup_within w :
  mem w = f0 → log w = B → fu_State f0 = stateComplete ∨ fu_State f0 = stateError →
  wp (finalCleanup r) (λ _ w', within w w') w.
Proof.
  intros Hm HB Hst. assert (B `suffix_of` log w) as HBs by by rewrite HB.
  unfold finalCleanup. apply wp_bind, wp_getMem. rewrite Hm.
  destruct (fu_DeletionTimestamp f0) as [t|] eqn:Hdel; [|apply wp_ret; reflexivity].
  assert (is_Some (fu_DeletionTimestamp f0)) as Hsome by by rewrite Hdel.
  apply wp_bind. eapply wp_mono.
  { apply (wp_foldUntil _ (λ done _ w', within w w' ∧ mem w' = f0 ∧ ∀ n, n ∈ done →
        ∃ a, seen B (log w') (EvDeleteJob ns n a) ∧ ∀ e, a = Err e → isNotFound e = true)
      (λ _ w', within w w')).
    { split_and!; [reflexivity|done|]. by intros n ?%not_elem_of_nil. }
    intros pre n post [] w1 Hsplit (Hw1 & Hm1 & Hpre). apply wp_bind, wp_exchange, wp_ret.
    pose proof (loggedIn_grows _ _ _ Hw1) as Hg1. unfold grows in Hg1. set (a := env_deleteJob _ _ _).
    assert (within w (mkWorld (mem w1) (EvDeleteJob ns n a :: log w1))) as Hw2.
    { etrans; [exact Hw1|]. eexists [_]. split; [done|]. split; [|done]. split_and!; [done|rewrite Hsplit; set_solver|done..]. }
    assert ((∀ e, a = Err e → isNotFound e = true) → within w (mkWorld (mem w1) (EvDeleteJob ns n a :: log w1)) ∧ mem w1 = f0 ∧
      ∀ x, x ∈ pre ++ [n] → ∃ a', seen B (EvDeleteJob ns n a :: log w1) (EvDeleteJob ns x a') ∧ ∀ e, a' = Err e → isNotFound e = true) as Hok.
    { intros Ha. split_and!; [done..|]. intros x [(a' & Ha' & ?)%Hpre|Hx%list_elem_of_singleton]%elem_of_app.
      - exists a'. split; [|done]. eapply seen_mono; [by eexists [_]|done].
      - subst x. exists a. split; [|done]. apply seen_now. by etrans. }
    destruct a as [[]|e]; [by apply Hok|]. destruct (isNotFound e) eqn:Hnf; [|done]. apply Hok. by intros ? [= <-]. }
  cbn beta. intros [[]|e] w1; [|intros Hw; by apply wp_ret]. intros (Hw1 & Hm1 & Hgone).
  apply wp_bind. eapply wp_mono; [apply cleanupFw_within|]. intros [] w2 [Hm2 Hw2].
  assert (within w w2) as Hw by by etrans. case_bool_decide; [|by apply wp_ret].
  apply wp_bind, wp_modMem, wp_bind. unfold updateObject. apply wp_bind, wp_getMem, wp_bind, wp_exchange. cbn [mem log].
  assert (∀ a m, within w (mkWorld m (EvUpdateFU (set_fu_Finalizers (filter (λ x, x ≠ gpuFwUpdateFinalizer)
    (fu_Finalizers (mem w2))) (mem w2)) a :: log w2))) as Hl.
  { intros a m. etrans; [exact Hw|]. eexists [_]. split; [done|]. split; [|done]. right. rewrite Hm2, Hm1.
    split_and!; [done|done| |done]. intros n (a' & Ha' & ?)%Hgone. exists a'. split; [|done].
    eapply seen_mono; [|exact Ha']. by eapply loggedIn_grows. }
  destruct (env_updateFU _ _); wp_steps; apply Hl.
Qed.
End Handlers.

Section Pass.
Context `{!Env} (r : GPUFirmwareUpdateReconciler).

Lemma finished_within B f0 (m : FOp (Result * option GoErr)) w :
  wp m (λ _ w', loggedIn (fuEv B f0 r) w w') w → wp (finished m) (λ _ w', loggedIn (fuEv B f0 r) w w') w.
Proof. intros Hm. unfold finished. apply wp_bind. eapply wp_mono; [exact Hm|]. intros x w' Hw. by apply wp_ret. Qed.

(** A pass reads the update and stays within the footprint of what it read. *)
Lemma FuReconcile_logged name w :
  wp (FuReconcile r name) (λ _ w', loggedIn (λ h e, (∃ a, e = EvGetFU name a) ∨
    ∃ f0, env_getFU (log w) name = Ok f0 ∧ fuEv (EvGetFU name (Ok f0) :: log w) f0 r h e) w w') w.
Proof.
  unfold FuReconcile. apply wp_bind, wp_exchange.
  assert (∀ a s, loggedIn (λ h e, (∃ a, e = EvGetFU name a) ∨
    ∃ f0, env_getFU (log w) name = Ok f0 ∧ fuEv (EvGetFU name (Ok f0) :: log w) f0 r h e) w
    (mkWorld s (EvGetFU name a :: log w))) as Hget by (intros a s; eexists [_]; split; [done|]; split; [left; by eexists|done]).
  destruct (env_getFU (log w) name) as [f0|e] eqn:Hf0; [|apply wp_ret; apply Hget].
  apply wp_bind, wp_putMem. cbn [log]. set (B := EvGetFU name (Ok f0) :: log w). set (w1 := mkWorld f0 B).
  enough (wp (if isDeletedEarly f0 then finished (untaintNodesAndFinalize true) else dispatch r (fu_State f0))
    (λ _ w', loggedIn (fuEv B f0 r) w1 w') w1) as Hd.
  { eapply wp_mono; [exact Hd|]. intros o w' Hl. etrans; [apply (Hget (Ok f0) f0)|]. fold B. fold w1.
    eapply loggedIn_mono; [|exact Hl]. intros h e He. right. by exists f0. }
  destruct (isDeletedEarly f0) eqn:Hdel.
  { apply finished_within, untaintNodesAndFinalize_within; [done|done| |by right]. intros n Hn. split; [done|by left]. }
  unfold dispatch.
  case_bool_decide; [by apply finished_within, beginUpdate_within|].
  case_bool_decide; [by apply finished_within, checkForNodeDrainStatus_within|].
  case_bool_decide; [by apply finished_within, startOrContinueUpdate_within|].
  case_bool_decide; [by apply finished_within, handleCanaryDone_within|].
  case_bool_decide.
  { apply finished_within, untaintNodesAndFinalize_within; [done|done| |done]. intros n Hn. split; [done|by right; left]. }
  case_bool_decide.
  { apply finished_within, untaintNodesAndFinalize_within; [done|done| |by left]. intros n Hn. split; [done|by right; right]. }
  destruct (bool_decide (fu_State f0 = stateComplete) || _) eqn:Hc; [|apply wp_ret; reflexivity].
  apply finished_within, finalCleanup_within; [done..|].
  apply orb_true_iff in Hc as [?%bool_decide_eq_true|?%bool_decide_eq_true]; auto.
Qed.
End Pass.
