(* ===== verification/FwUpdateSafety.v ===== *)
(** * Firmware updates: the theorems

    The phases of an update over any history of passes and other clients: they come to an end, Jobs run
    on tainted and drained nodes only, a node counts as updated only when its Job said so; and the
    footprint of each pass. *)

From S2P Require Import Prelude GoStrings Sha256 KubeTypes ApiTypes Common Client Drain Cluster OpenShift.
From S2P Require Import RecoveryNaming FwUpdate FwUpdateFacts.

(** Evidence from a pass is evidence from the whole history. *)
Lemma nodeFree_base B h n : nodeFree B h n → nodeFree [] h n.
Proof.
  intros (pods & Hp & Hall). exists pods. split; [by eapply seen_base|]. intros pod Hin.
  destruct (Hall pod Hin) as [He Hc]. split; [done|]. intros rc Hrc. destruct (Hc rc Hrc) as [[?|H1] [?|H2]]; split;
    try (by left); right.
  all: try (destruct H1 as (m & c & ? & ? & ?); exists m, c; split_and!; [done|by eapply seen_base|done]).
  all: destruct H2 as (m & c & ? & ? & ?); exists m, c; split_and!; [done|by eapply seen_base|done].
Qed.

Lemma tainted_base B f h n : tainted B f h n → tainted [] f h n.
Proof.
  intros (x & Hx & Ht). exists x. split; [by eapply seen_base|]. destruct Ht; [by left|right; by eapply seen_base].
Qed.

Lemma tainted_spec B f f' h n :
  fus_UpdateTaint (fu_Spec f') = fus_UpdateTaint (fu_Spec f) → tainted B f h n → tainted B f' h n.
Proof. intros Hk. unfold tainted, fuTaint. by rewrite Hk. Qed.

Lemma jobDone_base B h j : jobDone B h j → jobDone [] h j.
Proof.
  intros (? & pod & pods & lines & line & ? & ? & ?). split; [done|]. exists pod, pods, lines, line.
  split_and!; [by eapply seen_base|by eapply seen_base|naive_solver..].
Qed.

(** ** Histories of one update *)

Definition emptyFUStatus : GPUFirmwareUpdateStatus :=
  mkGPUFirmwareUpdateStatus "" [] (mkGPUFirmwareUpdateSubsetStatus [] [] [] [] [] [] []).

Section History.
Context `{!Env} (r : GPUFirmwareUpdateReconciler) (name : string).

(** [fuReach h k f]: in history [h] the update may be stored as [f], and its state has changed [k] times.
    A pass reads the stored update and writes a status; in between other clients, and passes whose
    write is refused, extend the history; they leave the status, and the taint the spec names, alone. *)
Inductive fuReach : list Ev → nat → GPUFirmwareUpdate → Prop :=
| fr_new h f : fu_Status f = emptyFUStatus → fuReach h 0 f
| fr_other h h' k f f' :
    fuReach h k f → h `suffix_of` h' → fu_Status f' = fu_Status f →
    fus_UpdateTaint (fu_Spec f') = fus_UpdateTaint (fu_Spec f) → fuReach h' k f'
| fr_pass h k f f' m a :
    fuReach h k f → env_getFU h name = Ok f →
    seen h (log (FuReconcile r name (mkWorld m h)).2) (EvUpdateFUStatus f' a) →
    fuReach (log (FuReconcile r name (mkWorld m h)).2) (if bool_decide (fu_State f' = fu_State f) then k else S k) f'.

(** The status writes of a pass. *)
Lemma pass_write h f f' m a :
  env_getFU h name = Ok f → seen h (log (FuReconcile r name (mkWorld m h)).2) (EvUpdateFUStatus f' a) →
  ∃ h', EvUpdateFUStatus f' a :: h' `suffix_of` log (FuReconcile r name (mkWorld m h)).2 ∧ h `suffix_of` h' ∧
    fuWrite (EvGetFU name (Ok f) :: h) f (Namespace (fuOpts r)) h' f'.
Proof.
  intros Hf (new & Hn & Hin). destruct (FuReconcile_logged r name (mkWorld m h)) as (new' & Hn' & HF). cbn [log] in *.
  assert (new' = new) as -> by (apply (app_inv_tail h); congruence).
  destruct (eachIn_elem _ _ _ _ HF Hin) as (pre & post & -> & [(b & Hb)|(f1 & Hf1 & HP)]); [done|].
  rewrite Hf in Hf1. injection Hf1 as <-. exists (post ++ h). split_and!; [|by eexists|exact HP].
  exists pre. by rewrite Hn, <- app_assoc.
Qed.

(** How far an update is from its end: the number of state changes it can still make. *)
Definition fuRank (s : GPUFirmwareUpdateStatus) : nat :=
  let pending := negb (bool_decide (ni_Pending (fst_NodeInfos s) = [])) in
  let st := fst_State s in
  if bool_decide (st = stateNotStarted) then 7
  else if bool_decide (st = stateDraining) then (if pending then 6 else 3)
  else if bool_decide (st = stateUpdating) then (if pending then 5 else 2)
  else if bool_decide (st = stateCanaryDone) then (if pending then 4 else 2)
  else if bool_decide (st = stateCleanup) || bool_decide (st = stateErrorCleanup) then 1
  else 0.

Lemma fuRank_step B f ns h f' :
  fuNext B f ns h f' →
  (if bool_decide (fu_State f' = fu_State f) then 0 else 1) + fuRank (fu_Status f') ≤ fuRank (fu_Status f).
Proof.
  unfold fuRank. fold (fu_Infos f). fold (fu_Infos f'). fold (fu_State f). fold (fu_State f').
  assert (∀ st, fu_State f = st → isDeletedEarly f = true → st ∈ [stateCanaryDone; stateNotStarted; stateDraining]) as Hdel.
  { intros st Hst [_ Hc%bool_decide_eq_true]%andb_true_iff. rewrite Hst in Hc. set_solver. }
  intros [H1 H2 _|nodes d H1 H2 _ _ _ _|H1 H2 _|rem H1 H2 H3 _ _|jobs H1 H2 _ H3|H1 H2 _|jobs nodes H1 _ _ _ H2 H3
         |jobs fl c H1 _ _ H2 _ _|d H1 H2 _ Hp H3 _|H1 H2 Hp H3|H1 H2 _|H1 H2 _|H1 H2 _].
  - rewrite H1, H2. vm_compute. lia.
  - rewrite H1, H2. cbn -[Nat.le]. destruct (bool_decide (ni_Pending (fu_Infos f') = [])); vm_compute; lia.
  - rewrite H1, H2. destruct (bool_decide (ni_Pending (fu_Infos f) = [])), (bool_decide (ni_Pending (fu_Infos f') = [])); vm_compute; lia.
  - rewrite H1, H2, H3. cbn [ni_Pending set_ni_Draining].
    destruct (bool_decide (rem = [])), (bool_decide (ni_Pending (fu_Infos f) = [])); vm_compute; lia.
  - rewrite H1, H2, H3. cbn [ni_Pending set_ni_started]. destruct (bool_decide (ni_Pending (fu_Infos f) = [])); vm_compute; lia.
  - rewrite H1, H2. destruct (bool_decide (ni_Pending (fu_Infos f) = [])); vm_compute; lia.
  - rewrite H1, H2, H3. cbn [ni_Pending set_ni_progress].
    destruct (bool_decide (fus_UpdateMethod (fu_Spec f) = canaryUpdate)), (bool_decide (ni_Pending (fu_Infos f) = [])); vm_compute; lia.
  - rewrite H1, H2. destruct (bool_decide (ni_Pending (fu_Infos f) = [])); vm_compute; lia.
  - rewrite H1, H2, H3. cbn [ni_Pending set_ni_Draining set_ni_All set_ni_Pending]. rewrite (bool_decide_false _ Hp). vm_compute. lia.
  - rewrite H1, H2. rewrite (bool_decide_true _ Hp). vm_compute. lia.
  - rewrite H1, H2. destruct (bool_decide (ni_Pending (fu_Infos f) = [])); vm_compute; lia.
  - rewrite H1. destruct H2 as [-> | ->]; vm_compute; lia.
  - rewrite H2. destruct H1 as [H1|H1]; [rewrite H1; vm_compute; lia|]. specialize (Hdel _ eq_refl H1).
    apply elem_of_cons in Hdel as [-> | Hdel]; [destruct (bool_decide (ni_Pending (fu_Infos f) = [])); vm_compute; lia|].
    apply elem_of_cons in Hdel as [-> | Hdel]; [vm_compute; lia|]. apply list_elem_of_singleton in Hdel as ->.
    destruct (bool_decide (ni_Pending (fu_Infos f) = [])); vm_compute; lia.
Qed.

Lemma fuReach_rank h k f : fuReach h k f → k + fuRank (fu_Status f) ≤ 7.
Proof.
  induction 1 as [h f Hs|h h' k f f' _ IH _ Hs _|h k f f' m a _ IH Hget Hw].
  - rewrite Hs. vm_compute. lia.
  - by rewrite Hs.
  - destruct (pass_write _ _ _ _ _ Hget Hw) as (h' & _ & _ & Hn & _ & _). apply fuRank_step in Hn.
    destruct (bool_decide _); lia.
Qed.

Definition fuStates : list string :=
  [stateNotStarted; stateDraining; stateUpdating; stateCanaryDone; stateCleanup; stateErrorCleanup; stateComplete;
   stateError].

Lemma fuNext_states B f ns h f' : fuNext B f ns h f' → fu_State f' ∈ fuStates.
Proof.
  intros Hn. apply (bool_decide_eq_true_1 (fu_State f' ∈ fuStates)).
  destruct Hn as [_ H2 _|? ? _ H2 _ _ _ _|_ H2 _|? _ H2 _ _ _|? _ H2 _ _|_ H2 _|? ? _ _ _ _ H2 _|? ? ? _ _ _ H2 _ _
         |? _ H2 _ _ _ _|_ H2 _ _|_ H2 _|_ [H2|H2] _|_ H2 _]; rewrite H2; repeat case_match; vm_compute; reflexivity.
Qed.

Lemma fuReach_state h k f : fuReach h k f → fu_State f ∈ fuStates.
Proof.
  induction 1 as [h f Hs|h h' k f f' _ IH _ Hs _|h k f f' m a _ IH Hget Hw].
  - unfold fu_State. rewrite Hs. apply (bool_decide_eq_true_1 ("" ∈ fuStates)). vm_compute. reflexivity.
  - unfold fu_State. rewrite Hs. exact IH.
  - destruct (pass_write _ _ _ _ _ Hget Hw) as (h' & _ & _ & Hn & _). by eapply fuNext_states.
Qed.

(** A Job of the update that ended well on node [n]: one that the API server listed in the operator's
    namespace, under the update label with the name of the update as it was read. *)
Definition updatedOn (h : list Ev) (n : string) : Prop :=
  ∃ f0 jobs j, EvGetFU name (Ok f0) ∈ h ∧
    EvListJobs (Namespace (fuOpts r)) "gpufirmwareupdate" (fu_Name f0) (Ok jobs) ∈ h ∧ j ∈ jobs ∧
    job_labels j !! "node" = Some n ∧ jobDone [] h j.

Record fuInv (h : list Ev) (f : GPUFirmwareUpdate) : Prop := mkFuInv {
  fi_draining : fu_State f = stateDraining → ∀ n, n ∈ ni_All (fu_Infos f) → prepared [] f h (ni_Draining (fu_Infos f)) n;
  fi_ready : fu_State f = stateUpdating ∨ fu_State f = stateCanaryDone → ∀ n, n ∈ ni_All (fu_Infos f) →
    tainted [] f h n ∧ nodeFree [] h n;
  fi_done : ∀ n, n ∈ ni_Completed (fu_Infos f) → updatedOn h n;
}.

Lemma updatedOn_mono h h' n : h `suffix_of` h' → updatedOn h n → updatedOn h' n.
Proof.
  intros Hs (f0 & jobs & j & Hg & Hl & ? & ? & ?). exists f0, jobs, j. split_and!; [| |done|done|by eapply jobDone_mono].
  all: apply seen_nil; eapply seen_mono; [exact Hs|]; by apply seen_nil.
Qed.

(** The invariant only refers to the status and the taint. *)
Lemma fuInv_mono h h' f f' :
  h `suffix_of` h' → fu_Status f' = fu_Status f → fus_UpdateTaint (fu_Spec f') = fus_UpdateTaint (fu_Spec f) →
  fuInv h f → fuInv h' f'.
Proof.
  intros Hs Hst Hk [H1 H2 H3]. split; unfold fu_State, fu_Infos; rewrite Hst.
  - intros Hd n Hn. destruct (H1 Hd n Hn) as [Ht Hp].
    split; [apply (tainted_spec _ f); [done|]; by eapply tainted_mono|].
    destruct Hp; [by left|right; by eapply nodeFree_mono].
  - intros Hd n Hn. destruct (H2 Hd n Hn). split; [apply (tainted_spec _ f); [done|]; by eapply tainted_mono|by eapply nodeFree_mono].
  - intros n Hn. eapply updatedOn_mono; [done|]. by apply H3.
Qed.

Lemma prepared_base B f h d n : prepared B f h d n → prepared [] f h d n.
Proof. intros [Ht Hn]. split; [by eapply tainted_base|]. destruct Hn; [by left|right; by eapply nodeFree_base]. Qed.

Lemma fuInv_step B f h f' :
  EvGetFU name (Ok f) ∈ B → fuInv h f → fuWrite B f (Namespace (fuOpts r)) h f' → fuInv h f'.
Proof.
  intros Hread [I1 I2 I3] (Hn & Hf' & _).
  assert (∀ d n, prepared [] f h d n → prepared [] f' h d n) as Hprep by (rewrite Hf'; done).
  assert (∀ n, tainted [] f h n → tainted [] f' h n) as Htaint by (rewrite Hf'; done).
  assert (∀ jobs nodes, jobsListed B f (Namespace (fuOpts r)) h jobs → jobsUpdated B jobs h nodes →
    ∀ n, n ∈ ni_Completed (fu_Infos f) ++ nodes → updatedOn h n) as Hmore.
  { intros jobs nodes Hl Hu n [Hn'|Hn']%elem_of_app; [by apply I3|]. destruct (Hu n Hn') as (j & ? & ? & ?).
    exists f, jobs, j. split_and!; [|by eapply seen_elem|done|done|by eapply jobDone_base].
    destruct Hl as (new & -> & _). apply elem_of_app. by right. }
  assert (fu_State f' = stateError ∨ fu_State f' = stateComplete ∨ fu_State f' = stateCleanup ∨ fu_State f' = stateErrorCleanup →
    ni_Completed (fu_Infos f') = ni_Completed (fu_Infos f) → fuInv h f') as Hend.
  { intros Hst Hc. split; [intros Hd|intros [Hd|Hd]|by rewrite Hc]; exfalso;
      destruct Hst as [Hst|[Hst|[Hst|Hst]]]; rewrite Hst in Hd; discriminate. }
  destruct Hn as [H1 H2 H3|nodes d H1 H2 Hsel Hne H3 H4|H1 H2 H3|rem H1 H2 H3 Hsub Hfree|jobs H1 H2 _ H3|H1 H2 H3
         |jobs nodes H1 Hl Hu Hdone H2 H3|jobs fl c H1 Hl Hu H2 _ H3|d H1 H2 _ Hp H3 H4|H1 H2 Hp H3|H1 H2 H3|H1 H2 H3|H1 H2 H3];
    try (apply Hend; [by auto|by rewrite ?H3]); [..|apply Hend; [destruct H2; by auto|by rewrite H3]].
  - split; [| |rewrite H3; by destruct (bool_decide _)].
    + intros _ n Hn. rewrite H3 at 1. cbn. apply Hprep. eapply prepared_base, H4. exact Hn.
    + intros [Hs|Hs]; rewrite H2 in Hs; discriminate.
  - assert (∀ n, n ∈ ni_All (fu_Infos f) → prepared [] f h rem n) as Hall.
    { intros n Hn. destruct (I1 H1 n Hn) as [Ht Hd]. split; [done|]. destruct Hd as [Hd|?]; [|by right].
      destruct (Hfree n Hd); [by left|right; by eapply nodeFree_base]. }
    split; [| |by rewrite H3].
    + intros _ n Hn. rewrite H3 in Hn |- *. apply Hprep. by apply Hall.
    + intros Hst n Hn. rewrite H3 in Hn. destruct (Hall n Hn) as [Ht Hd]. split; [by apply Htaint|].
      destruct Hd as [Hd|?]; [|done]. rewrite H2 in Hst. case_bool_decide as Hnil; [|by destruct Hst].
      subst rem. by apply not_elem_of_nil in Hd.
  - split; [intros Hs; rewrite H2 in Hs; discriminate| |by rewrite H3].
    intros _ n Hn. rewrite H3 in Hn. destruct (I2 (or_introl H1) n Hn). split; [by apply Htaint|done].
  - split; [| |rewrite H3; by eapply Hmore].
    + intros Hs. rewrite H2 in Hs. by destruct (_ && _).
    + intros _ n Hn. rewrite H3 in Hn. destruct (I2 (or_introl H1) n Hn). split; [by apply Htaint|done].
  - split; [intros Hs; rewrite H2 in Hs; discriminate|intros [Hs|Hs]; rewrite H2 in Hs; discriminate|]. rewrite H3. by eapply Hmore.
  - split; [|intros [Hs|Hs]; rewrite H2 in Hs; discriminate|by rewrite H3].
    intros _ n Hn. rewrite H3 in Hn |- *. apply Hprep. cbn in Hn |- *. apply elem_of_app in Hn as [Hn|Hn].
    + destruct (I2 (or_intror H1) n Hn). split; [done|by right].
    + by eapply prepared_base, H4.
Qed.

Lemma fuReach_inv h k f : fuReach h k f → fuInv h f.
Proof.
  induction 1 as [h f Hs|h h' k f f' _ IH Hsuf Hs Hk|h k f f' m a _ IH Hget Hw].
  - split; unfold fu_State, fu_Infos; rewrite Hs; simpl; [done|by intros [?|?]|by intros n ?%not_elem_of_nil].
  - by eapply fuInv_mono.
  - destruct (pass_write _ _ _ _ _ Hget Hw) as (h' & [k1 Hs1] & Hs2 & Hwr).
    apply (fuInv_mono h' _ f'); [|done|done|].
    + exists (k1 ++ [EvUpdateFUStatus f' a]). by rewrite Hs1, <- app_assoc.
    + eapply fuInv_step; [|by eapply fuInv_mono|exact Hwr]. by left.
Qed.
End History.

(** ** The theorems *)

Section Claims.
Context `{!Env} (r : GPUFirmwareUpdateReconciler) (name : string).

(** What a pass adds to the log besides the read of the update, with the history it was added to. *)
Lemma FuReconcile_new w :
  wp (FuReconcile r name) (λ _ w', ∀ h e, (∀ a, e ≠ EvGetFU name a) → made w w' h e →
    ∃ f0, env_getFU (log w) name = Ok f0 ∧ fuEv (EvGetFU name (Ok f0) :: log w) f0 r h e) w.
Proof.
  eapply wp_mono; [apply FuReconcile_logged|]. cbn beta. intros _ w' Hlog h e He Hmade.
  destruct (loggedIn_made _ _ _ _ _ Hlog Hmade) as [(a & ->)|(f0 & Hf0 & Hev)]; [by destruct (He a)|]. by exists f0.
Qed.

(** C17: every status a pass writes is one step of the update's state machine [fuNext] from the update it
    read: only the status changes, messages are only added, and the step is backed by what the API server
    answered in that pass before the write.  An update begins only on ready nodes the selector admits,
    each tainted; it goes on to updating only when every draining node was seen without GPU pods; it
    leaves updating for cleanup or the held canary state only when every listed Job of a node not done
    before succeeded with the completion tag in its log; a finished update writes no status at all. *)
Theorem fw_status_steps w :
  wp (FuReconcile r name) (λ _ w', ∀ h f a, made w w' h (EvUpdateFUStatus f a) →
    ∃ f0, env_getFU (log w) name = Ok f0 ∧
      let start := EvGetFU name (Ok f0) :: log w in
      fuNext start f0 (Namespace (fuOpts r)) h f ∧ f = set_fu_Status (fu_Status f) f0 ∧
      fst_Messages (fu_Status f0) `prefix_of` fst_Messages (fu_Status f)) w.
Proof.
  eapply wp_mono; [apply FuReconcile_new|]. cbn beta. intros _ w' Hall h f a Hin.
  destruct (Hall h (EvUpdateFUStatus f a) (λ b Hb, ltac:(discriminate Hb)) Hin) as (f0 & Hf0 & Hw). by exists f0.
Qed.

(** C18: a pass writes a node back only as it has read it in that pass but for the update's own taint.  The
    taint is added, where it was absent, only to nodes of a new update that the selector and their
    readiness admit, or to the nodes that wait for the rollout after the canary; it is removed only from
    the update's nodes, once the update is cleaning up, or when it was deleted while it had not started, was draining or
    was held after its canary nodes.  A pass evicts only
    pods it has just seen on a node that it may drain, that are not terminating, and that hold an extended
    GPU resource or a claim (or claim template) the API server showed to request the GPU device class. *)
Theorem fw_node_discipline w :
  wp (FuReconcile r name) (λ _ w',
    (∀ h x' a, made w w' h (EvUpdateNode x' a) →
       ∃ f0 n x, env_getFU (log w) name = Ok f0 ∧
         let start := EvGetFU name (Ok f0) :: log w in
         let t := updateTaint (fus_UpdateTaint (fu_Spec f0)) in
         seen start h (EvGetNode n (Ok x)) ∧
         (mayTaint start f0 h n ∧ hasTaint t x = false ∧ x' = set_node_taints (node_taints x ++ [t]) x ∨
          mayUntaint f0 n ∧ x' = set_node_taints (filter (λ y, taintsEqual y t = false) (node_taints x)) x)) ∧
    (∀ h ns pod a, made w w' h (EvEvict ns pod a) →
       ∃ f0 n pods x, env_getFU (log w) name = Ok f0 ∧
         let start := EvGetFU name (Ok f0) :: log w in
         mayDrain start f0 h n ∧ seen start h (EvListPodsOnNode n (Ok pods)) ∧ x ∈ pods ∧
         pod_namespace x = ns ∧ pod_name x = pod ∧ gpuPod start h x ∧ pod_deletionTimestamp x = None)) w.
Proof.
  eapply wp_mono; [apply FuReconcile_new|]. cbn beta. intros _ w' Hall. split.
  - intros h x' a Hin.
    destruct (Hall h (EvUpdateNode x' a) (λ b Hb, ltac:(discriminate Hb)) Hin) as (f0 & Hf0 & n & x & Hx & Hc).
    by exists f0, n, x.
  - intros h ns pod a Hin.
    destruct (Hall h (EvEvict ns pod a) (λ b Hb, ltac:(discriminate Hb)) Hin) as (f0 & Hf0 & n & pods & x & H1 & H2 & H3).
    by exists f0, n, pods, x.
Qed.

(** The update finalizer is removed only from an update that is being deleted and has finished, and only
    after every Job recorded in its status was deleted or found gone in that pass. *)
Theorem fw_finalizer_guard w :
  wp (FuReconcile r name) (λ _ w', ∀ h f a, made w w' h (EvUpdateFU f a) → gpuFwUpdateFinalizer ∉ fu_Finalizers f →
    ∃ f0, env_getFU (log w) name = Ok f0 ∧
      is_Some (fu_DeletionTimestamp f0) ∧ (fu_State f0 = stateComplete ∨ fu_State f0 = stateError) ∧
      ∀ n, n ∈ ni_Jobs (fu_Infos f0) → ∃ b,
        seen (EvGetFU name (Ok f0) :: log w) h (EvDeleteJob (Namespace (fuOpts r)) n b) ∧
        ∀ e, b = Err e → isNotFound e = true) w.
Proof.
  eapply wp_mono; [apply FuReconcile_new|]. cbn beta. intros _ w' Hall h f a Hin Hfin.
  destruct (Hall h (EvUpdateFU f a) (λ b Hb, ltac:(discriminate Hb)) Hin) as (f0 & Hf0 & Hc). exists f0. split_and!; [done..| | |].
  all: destruct Hc as [(_ & s & g & _ & ->)|(Hd & Hst & Hg & _)]; [|done].
  all: exfalso; case_bool_decide; [done|]; simpl in Hfin; set_solver.
Qed.

Section Histories.
Context (h : list Ev) (k : nat) (f : GPUFirmwareUpdate).
Hypothesis Hreach : fuReach r name h k f.

(** C19: an update comes to an end: over any history its state changes at most seven times (a canary update
    that goes all the way: draining, updating, canary done, draining, updating, cleanup, completed).  And a
    pass over the stored update never takes the branch for unknown states that ends the process. *)
Theorem fw_phases_bounded :
  k ≤ 7 ∧ ∀ m, env_getFU h name = Ok f → (FuReconcile r name (mkWorld m h)).1 ≠ Fatal.
Proof using Hreach.
  split; [pose proof (fuReach_rank _ _ _ _ _ Hreach); lia|]. intros m Hget.
  change (wp (FuReconcile r name) (λ o _, o ≠ Fatal) (mkWorld m h)).
  unfold FuReconcile. apply wp_bind, wp_exchange. cbn [log]. rewrite Hget. apply wp_bind, wp_putMem.
  assert (∀ x w, wp (finished x) (λ o _, o ≠ Fatal) w) as Hfin by done.
  destruct (isDeletedEarly f); [apply Hfin|]. unfold dispatch. pose proof (fuReach_state _ _ _ _ _ Hreach) as Hst.
  repeat (case_bool_decide; [apply Hfin|]). cbn [orb]. exfalso. unfold fuStates in Hst. set_solver.
Qed.


(** C6: a node counts as completed only on the word of its own Job: for every node in the status's list of
    completed nodes, over any history, the API server, asked in the operator's namespace for the Jobs labelled
    with the name of the update as it was read, listed a Job labelled with the node that had succeeded, and the log of that Job's pod, as it was retrieved, has a line with the completion
    tag the update commands print last. *)
Theorem fw_completed_nodes_verified n :
  n ∈ ni_Completed (fu_Infos f) →
  ∃ f0 jobs j, EvGetFU name (Ok f0) ∈ h ∧
    EvListJobs (Namespace (fuOpts r)) "gpufirmwareupdate" (fu_Name f0) (Ok jobs) ∈ h ∧ j ∈ jobs ∧
    job_labels j !! "node" = Some n ∧ (0 < job_succeeded j)%Z ∧
    ∃ pod pods c lines line,
      EvListPods (job_namespace j) "job-name" (job_name j) (Ok (pod :: pods)) ∈ h ∧
      EvLogs (pod_namespace pod) (pod_name pod) c (Ok lines) ∈ h ∧
      line ∈ lines ∧ contains line completedTag = true.
Proof using Hreach.
  intros Hn. destruct (fi_done _ _ _ _ (fuReach_inv _ _ _ _ _ Hreach) n Hn) as (f0 & jobs & j & Hg & Hl & Hj & Hlab & Hs & Hd).
  destruct Hd as (pod & pods & lines & line & H1%seen_elem & H2%seen_elem & H3 & H4).
  exists f0, jobs, j. split_and!; try done. exists pod, pods. by eexists _, lines, line.
Qed.
End Histories.

(** An update that has failed leaves its taints where they are: a pass over an update in state error (or
    completed) writes no node, whatever the state of the cluster and whether or not the update is being
    deleted.  So the taints placed before a drain that failed are never taken off by the controller. *)
Theorem fw_error_keeps_taints w f0 :
  env_getFU (log w) name = Ok f0 → fu_State f0 = stateError ∨ fu_State f0 = stateComplete →
  wp (FuReconcile r name) (λ _ w', ∀ h x a, ¬ made w w' h (EvUpdateNode x a)) w.
Proof.
  intros Hget Hst. eapply wp_mono; [apply FuReconcile_new|]. cbn beta. intros _ w' Hall h x a Hin.
  destruct (Hall h (EvUpdateNode x a) (λ b Hb, ltac:(discriminate Hb)) Hin) as (f1 & Hf1 & n & y & _ & Hc).
  rewrite Hget in Hf1. injection Hf1 as <-.
  assert (isDeletedEarly f0 = false) as Hd.
  { unfold isDeletedEarly. rewrite (bool_decide_false (fu_State f0 = _ ∨ _)); [apply andb_false_r|].
    destruct Hst as [-> | ->]; intros [?|[?|?]]; discriminate. }
  destruct Hc as [([_ Ht] & _)|([_ Hu] & _)].
  - destruct Ht as [[Ht _]|[Ht _]]; destruct Hst as [Hst|Hst]; rewrite Hst in Ht; discriminate.
  - destruct Hu as [Hu|[Hu|Hu]]; [congruence|..]; destruct Hst as [Hst|Hst]; rewrite Hst in Hu; discriminate.
Qed.
End Claims.

(** ** A worked scenario

    One node, one update; its Job has run and its pod's log carries the tag. *)

Module Demo.
Definition opts : ControllerOpts := mkControllerOpts "demo" "gpu-operator" "" (15 * Second) true false false "" "".
Definition reconciler : GPUFirmwareUpdateReconciler := mkGPUFirmwareUpdateReconciler opts.

Definition spec : GPUFirmwareUpdateSpec :=
  mkGPUFirmwareUpdateSpec (mkGPUFirmwareContent "fw-content" [mkGPUFirmwareFile "GFX" "gfx.bin" ""]) directUpdate
    "xpumanager" "" "0xe20b" "fw-update" [] ∅ false false.
Definition update : GPUFirmwareUpdate := mkGPUFirmwareUpdate "fw" None [] spec emptyFUStatus.

Definition node : Node := mkNode "n1" ∅ [] None [("Ready", "True")].

(** The Job as the Job controller leaves it once its pod has succeeded. *)
Definition endedWell (j : Job) : Job :=
  mkJob (job_namespace j) (job_name j) (job_labels j) (job_owner j) (job_creationTimestamp j) (job_deletionTimestamp j)
    (job_activeDeadlineSeconds j) (job_backoffLimit j) (job_completions j) (job_template j) (job_conditions j)
    (job_startTime j) 1 0.

Definition jobPod : Pod :=
  mkPod "gpu-operator" "fw-fwupdate-n1-x" "u2" "n1" {[ "job-name" := "fw-fwupdate-n1" ]} ∅ [] "Succeeded" None [] [] [].

Definition cluster : Cluster :=
  mkCluster 0 [] [update] [node] [jobPod] [] [] [endedWell (createUpdateJobObjForNode reconciler "n1" update)]
    ["fw-content"] ["done"; "Firmware update process ##COMPLETED##"].

Definition pass (h : list Ev) : list Ev := log (@FuReconcile (clusterEnv cluster) reconciler "fw" (mkWorld update h)).2.
Definition passes (n : nat) : list Ev := Nat.iter n pass [].
Definition stored (n : nat) : GPUFirmwareUpdate := default update (fusAt cluster (passes n) !! "fw").

Example demo_states :
  (λ n, (fu_State (stored n), ni_Completed (fu_Infos (stored n)))) <$> [0; 1; 2; 3; 4; 5; 6]
  = [("", []); ("draining", []); ("updating", []); ("updating", []); ("cleanup", ["n1"]); ("completed", ["n1"]);
     ("completed", ["n1"])].
Proof. vm_compute. reflexivity. Qed.

Lemma pass_grows h : h `suffix_of` pass h.
Proof. eapply (loggedIn_grows _ (mkWorld update h)). apply (@FuReconcile_logged (clusterEnv cluster)). Qed.

Lemma seen_lookup (h l : list Ev) i e : h `suffix_of` l → l !! i = Some e → i + length h < length l → seen h l e.
Proof.
  intros [new ->] Hi Hlt. exists new. split; [done|]. rewrite length_app in Hlt. rewrite lookup_app_l in Hi by lia.
  by eapply list_elem_of_lookup_2.
Qed.

(** One pass of the scenario, whose status write is entry [i] of the log. *)
Lemma reach_step n k i f' a :
  @fuReach (clusterEnv cluster) reconciler "fw" (passes n) k (stored n) →
  @env_getFU (clusterEnv cluster) (passes n) "fw" = Ok (stored n) →
  passes (S n) !! i = Some (EvUpdateFUStatus f' a) → i + length (passes n) < length (passes (S n)) →
  fu_Status (stored (S n)) = fu_Status f' →
  fus_UpdateTaint (fu_Spec (stored (S n))) = fus_UpdateTaint (fu_Spec f') →
  @fuReach (clusterEnv cluster) reconciler "fw" (passes (S n))
    (if bool_decide (fu_State f' = fu_State (stored n)) then k else S k) (stored (S n)).
Proof.
  intros Hr Hget Hi Hlt Hs Ht. eapply (@fr_other (clusterEnv cluster)); [|reflexivity|exact Hs|exact Ht].
  eapply (@fr_pass (clusterEnv cluster)); [exact Hr|exact Hget|]. by eapply seen_lookup; [apply pass_grows|..].
Qed.

Definition writeAt (n i : nat) : GPUFirmwareUpdate :=
  match passes n !! i with Some (EvUpdateFUStatus f _) => f | _ => update end.

Lemma reach1 : @fuReach (clusterEnv cluster) reconciler "fw" (passes 1) 1 (stored 1).
Proof.
  apply (reach_step 0 0 1 (writeAt 1 1) (Ok (writeAt 1 1))); try (vm_compute; reflexivity); [|vm_compute; lia].
  by apply fr_new.
Qed.

Lemma reach2 : @fuReach (clusterEnv cluster) reconciler "fw" (passes 2) 2 (stored 2).
Proof.
  apply (reach_step 1 1 0 (writeAt 2 0) (Ok (writeAt 2 0))); try (vm_compute; reflexivity); [apply reach1|vm_compute; lia].
Qed.

Lemma reach3 : @fuReach (clusterEnv cluster) reconciler "fw" (passes 3) 2 (stored 3).
Proof.
  apply (reach_step 2 2 0 (writeAt 3 0) (Ok (writeAt 3 0))); try (vm_compute; reflexivity); [apply reach2|vm_compute; lia].
Qed.

Lemma reach4 : @fuReach (clusterEnv cluster) reconciler "fw" (passes 4) 3 (stored 4).
Proof.
  apply (reach_step 3 2 0 (writeAt 4 0) (Ok (writeAt 4 0))); try (vm_compute; reflexivity); [apply reach3|vm_compute; lia].
Qed.

(** The same cluster with a pod whose resource claim is gone: the drain fails after the node was tainted. *)
Definition badPod : Pod := mkPod "apps" "train" "u1" "n1" ∅ ∅ [] "Running" None [] [mkPodResourceClaim (Some "gone") None] [].
Definition badCluster : Cluster := mkCluster 0 [] [update] [node] [badPod] [] [] [] ["fw-content"] [].
Definition badPass (h : list Ev) : list Ev :=
  log (@FuReconcile (clusterEnv badCluster) reconciler "fw" (mkWorld update h)).2.
Definition badStored (h : list Ev) : GPUFirmwareUpdate := default update (fusAt badCluster h !! "fw").

Example demo_taint_left :
  (λ n, let h := Nat.iter n badPass [] in
        (fu_State (badStored h), taint_key <$> (default node (nodesAt badCluster h !! "n1")).(node_taints))) <$> [0; 1; 2; 3]
  = [("", []); ("error", ["fw-update"]); ("error", ["fw-update"]); ("error", ["fw-update"])].
Proof. vm_compute. reflexivity. Qed.
End Demo.

Lemma fw_phases_bounded_witness :
  @env_getFU (clusterEnv Demo.cluster) (Demo.passes 2) "fw" = Ok (Demo.stored 2) ∧ 2 ≤ 7.
Proof.
  split; [vm_compute; reflexivity|].
  exact (proj1 (@fw_phases_bounded (clusterEnv Demo.cluster) Demo.reconciler "fw" (Demo.passes 2) 2 (Demo.stored 2)
                  Demo.reach2)).
Defined.

(** The Job the third pass asks for. *)
Definition demoJob : Job := set_job_owner (Some "fw") (createUpdateJobObjForNode Demo.reconciler "n1" Demo.update).
Definition demoAnswer : res unit := Err (mkErr AlreadyExists "fw-fwupdate-n1 already exists").

Lemma demoJob_created :
  seen (Demo.passes 2)
    (log (@FuReconcile (clusterEnv Demo.cluster) Demo.reconciler "fw" (mkWorld Demo.update (Demo.passes 2))).2)
    (EvCreateJob demoJob demoAnswer).
Proof.
  apply (Demo.seen_lookup _ (Demo.passes 3) 1); [apply Demo.pass_grows|vm_compute; reflexivity|vm_compute; lia].
Qed.


Lemma fw_completed_nodes_verified_witness :
  ∃ f0 jobs j, EvGetFU "fw" (Ok f0) ∈ Demo.passes 4 ∧
    EvListJobs (Namespace (fuOpts Demo.reconciler)) "gpufirmwareupdate" (fu_Name f0) (Ok jobs) ∈ Demo.passes 4 ∧ j ∈ jobs ∧
    job_labels j !! "node" = Some "n1".
Proof.
  assert ("n1" ∈ ni_Completed (fu_Infos (Demo.stored 4))) as Hin.
  { apply list_elem_of_lookup_2 with 0%nat. vm_compute. reflexivity. }
  destruct (@fw_completed_nodes_verified (clusterEnv Demo.cluster) Demo.reconciler "fw" (Demo.passes 4) 3 (Demo.stored 4)
              Demo.reach4 "n1" Hin) as (f0 & jobs & j & H0 & H1 & H2 & H3 & _).
  exists f0, jobs, j. split; [exact H0|split; [exact H1|split; [exact H2|exact H3]]].
Defined.

Lemma fw_error_keeps_taints_witness :
  let h := Demo.badPass [] in
  fu_State (Demo.badStored h) = stateError ∧
  ∀ h' x a, ¬ made (mkWorld Demo.update h)
    (@FuReconcile (clusterEnv Demo.badCluster) Demo.reconciler "fw" (mkWorld Demo.update h)).2 h' (EvUpdateNode x a).
Proof.
  assert (@env_getFU (clusterEnv Demo.badCluster) (Demo.badPass []) "fw" = Ok (Demo.badStored (Demo.badPass []))) as Hget
    by (vm_compute; reflexivity).
  assert (fu_State (Demo.badStored (Demo.badPass [])) = stateError) as Hst by (vm_compute; reflexivity).
  split; [exact Hst|].
  exact (@fw_error_keeps_taints (clusterEnv Demo.badCluster) Demo.reconciler "fw"
           (mkWorld Demo.update (Demo.badPass [])) (Demo.badStored (Demo.badPass [])) Hget (or_introl Hst)).
Defined.
