(* ===== verification/FwUpdateNames.v ===== *)
(** * Firmware updates: the names of the Jobs

    [updateJobName] yields DNS-1123 names for DNS-1123 inputs: an automaton for subdomains shows that a
    cut name with its trailing separators removed is still one.  It does not keep distinct pairs
    apart. *)

From Stdlib Require Import Ascii.
From S2P Require Import Prelude GoStrings Regex Sha256 KubeTypes ApiTypes Common Client Drain Cluster OpenShift.
From S2P Require Import RecoveryNaming RecoveryNamingFacts FwUpdate.

(** ** An automaton for subdomains *)

(** Before a label, after an alphanumeric, after a hyphen. *)
Inductive dnsState := DStart | DAlnum | DHyphen.

Definition dnsStep (s : dnsState) (c : ascii) : option dnsState :=
  if dnsAlnum c then Some DAlnum
  else match s with
       | DStart => None
       | DAlnum => if Ascii.eqb c "-" then Some DHyphen else if Ascii.eqb c "." then Some DStart else None
       | DHyphen => if Ascii.eqb c "-" then Some DHyphen else None
       end.

Fixpoint dnsRun (s : dnsState) (l : list ascii) : option dnsState :=
  match l with
  | [] => Some s
  | c :: l' => match dnsStep s c with Some s' => dnsRun s' l' | None => None end
  end.

Lemma dnsRun_app s l k : dnsRun s (l ++ k) = match dnsRun s l with Some s' => dnsRun s' k | None => None end.
Proof. revert s. induction l as [|c l IH]; intros s; [done|]. simpl. by destruct (dnsStep s c). Qed.

Lemma dnsRun_alnum s l : Forall (λ c, dnsAlnum c = true) l → l ≠ [] → dnsRun s l = Some DAlnum.
Proof.
  intros HF Hne. destruct l as [|c l]; [done|]. clear Hne. revert s c HF.
  induction l as [|d l IH]; intros s c HF; inversion HF as [|? ? Hc HF']; subst; simpl; unfold dnsStep; rewrite Hc; [done|].
  apply (IH DAlnum d HF').
Qed.

(** The state after an alphanumeric is known. *)
Lemma dnsRun_last s l x s' : dnsRun s (l ++ [x]) = Some s' → dnsAlnum x = true → s' = DAlnum.
Proof.
  rewrite dnsRun_app. destruct (dnsRun s l); [|done]. simpl. unfold dnsStep. intros Hs Hx. rewrite Hx in Hs. congruence.
Qed.

Lemma dnsInner_run s l :
  s ≠ DStart → Forall (λ c, dnsInner c = true) l → ∃ s', dnsRun s l = Some s' ∧ s' ≠ DStart.
Proof.
  intros Hs HF. revert s Hs. induction HF as [|c l Hc _ IH]; intros s Hs; [by exists s|]. simpl. unfold dnsStep.
  unfold dnsInner in Hc. destruct (dnsAlnum c); [by apply IH|]. simpl in Hc. rewrite Hc. destruct s; [done|by apply IH..].
Qed.

Lemma reIn_star_chars p l : reIn (RStar (RChar p)) l → Forall (λ c, p c = true) l.
Proof. apply (reIn_chars (λ c, p c = true)). simpl. auto. Qed.

Lemma dnsLabel_run l : reIn dnsLabelRe l → dnsRun DStart l = Some DAlnum.
Proof.
  intros (l1 & l2 & -> & (c & -> & Hc)%reIn_RChar & Hl2)%reIn_RCat. simpl. unfold dnsStep. rewrite Hc.
  apply reIn_RAlt in Hl2 as [->%reIn_REps|(k & l3 & -> & Hk%reIn_star_chars & (d & -> & Hd)%reIn_RChar)%reIn_RCat]; [done|].
  destruct (dnsInner_run DAlnum k) as (s & Hs & _); [done..|]. rewrite dnsRun_app, Hs. simpl. unfold dnsStep. by rewrite Hd.
Qed.

Lemma dnsTail_run l : reIn (RStar (RCat (lit ".") dnsLabelRe)) l → dnsRun DAlnum l = Some DAlnum.
Proof.
  remember (RStar (RCat (lit ".") dnsLabelRe)) as re eqn:Hre. induction 1 as [| | | | | |r k l Hk _ _ IH]; try discriminate; [done|].
  injection Hre as ->. apply reIn_RCat in Hk as (k1 & k2 & -> & (c & -> & Hc)%reIn_RChar & Hk2).
  apply Ascii.eqb_eq in Hc as <-. rewrite dnsRun_app. simpl.
  change (dnsStep DAlnum ".") with (Some DStart). cbn. rewrite (dnsLabel_run _ Hk2). by apply IH.
Qed.

Lemma dnsSubdomain_run l : reIn dnsSubdomainRe l → dnsRun DStart l = Some DAlnum.
Proof.
  intros (l1 & l2 & -> & H1 & H2)%reIn_RCat. rewrite dnsRun_app, (dnsLabel_run _ H1). by apply dnsTail_run.
Qed.

Abbreviation labelEnd := (RCat (RStar (RChar dnsInner)) (RChar dnsAlnum)).
Abbreviation moreLabels := (RStar (RCat (lit ".") dnsLabelRe)).

Lemma labelEnd_cons c l : dnsInner c = true → reIn labelEnd l → reIn labelEnd (c :: l).
Proof.
  intros Hc (l1 & l2 & -> & H1 & H2)%reIn_RCat. change (c :: l1 ++ l2) with (([c] ++ l1) ++ l2).
  constructor; [|done]. constructor; [by constructor|done].
Qed.

(** What the automaton accepts is a subdomain, seen from each of its states. *)
Lemma dnsRun_reIn l :
  (dnsRun DStart l = Some DAlnum → reIn dnsSubdomainRe l) ∧
  (dnsRun DAlnum l = Some DAlnum → reIn (RCat (RAlt REps labelEnd) moreLabels) l) ∧
  (dnsRun DHyphen l = Some DAlnum → reIn (RCat labelEnd moreLabels) l).
Proof.
  induction l as [|c l (IHs & IHa & IHh)].
  { split_and!; try done. intros _. apply reIn_RCat. exists [], []. split; [done|]. split; [apply reIn_alt_l|]; constructor. }
  assert (dnsAlnum c = true → dnsRun DAlnum l = Some DAlnum → reIn (RCat labelEnd moreLabels) (c :: l)) as Hal.
  { intros Hc Hr. apply IHa in Hr as (l1 & l2 & -> & H1 & H2)%reIn_RCat. apply reIn_RCat. exists (c :: l1), l2.
    split; [done|]. split; [|done]. apply reIn_RAlt in H1 as [->%reIn_REps|H1].
    - change [c] with ([] ++ [c]). constructor; [constructor|by constructor].
    - apply labelEnd_cons; [by apply dnsAlnum_inner|done]. }
  assert (Ascii.eqb c "-" = true → dnsRun DHyphen l = Some DAlnum → reIn (RCat labelEnd moreLabels) (c :: l)) as Hhy.
  { intros Hc Hr. apply IHh in Hr as (l1 & l2 & -> & H1 & H2)%reIn_RCat. apply reIn_RCat. exists (c :: l1), l2.
    split; [done|]. split; [|done]. apply labelEnd_cons; [|done]. unfold dnsInner. by rewrite Hc, orb_true_r. }
  assert (reIn (RCat labelEnd moreLabels) (c :: l) → reIn (RCat (RAlt REps labelEnd) moreLabels) (c :: l)) as Hweak.
  { intros (l1 & l2 & Heq & H1 & H2)%reIn_RCat. apply reIn_RCat. exists l1, l2. split; [done|]. split; [by apply reIn_alt_r|done]. }
  simpl. unfold dnsStep. destruct (dnsAlnum c) eqn:Hc.
  - split_and!; [|auto|auto]. intros Hr. apply IHa in Hr as (l1 & l2 & -> & H1 & H2)%reIn_RCat.
    apply reIn_RCat. exists (c :: l1), l2. split; [done|]. split; [|done]. change (c :: l1) with ([c] ++ l1).
    constructor; [by constructor|done].
  - split_and!; [done| |by destruct (Ascii.eqb c "-"); auto].
    destruct (Ascii.eqb c "-") eqn:Hd; [auto|]. destruct (Ascii.eqb c ".") eqn:Hdot; [|done].
    intros Hr%IHs. apply Ascii.eqb_eq in Hdot as ->. apply reIn_RCat. exists [], ("."%char :: l). split; [done|].
    split; [apply reIn_alt_l; constructor|]. apply reIn_RCat in Hr as (l1 & l2 & -> & H1 & H2).
    change ("."%char :: l1 ++ l2) with ((["."%char] ++ l1) ++ l2). constructor; [|done]. constructor; [by constructor|done].
Qed.

Lemma dnsSubdomain_iff s : dnsSubdomain s = true ↔ slen s ≤ 253 ∧ dnsRun DStart (s2l s) = Some DAlnum.
Proof.
  unfold dnsSubdomain, matchString. rewrite andb_true_iff, Nat.leb_le, matchL_spec. split; intros [? Hr]; (split; [done|]).
  - by apply dnsSubdomain_run.
  - by apply dnsRun_reIn.
Qed.

(** ** Cut names *)

Lemma dnsStep_separator s c s' : dnsStep s c = Some s' → inCutset "-." c = false → dnsAlnum c = true.
Proof.
  unfold dnsStep, inCutset. intros Hs Hc%bool_decide_eq_false. destruct (dnsAlnum c); [done|]. exfalso. apply Hc.
  destruct s; [done|..]; (destruct (Ascii.eqb_spec c "-") as [->|_]; [simpl; set_solver|]); [|done].
  destruct (Ascii.eqb_spec c "."); [subst; simpl; set_solver|done].
Qed.

Lemma dnsStart_separator c : inCutset "-." c = true → dnsStep DStart c = None.
Proof.
  unfold inCutset. intros Hc%bool_decide_eq_true. simpl in Hc.
  apply elem_of_cons in Hc as [->|Hc%list_elem_of_singleton]; [done|]. by subst c.
Qed.

(** A prefix of a subdomain, its trailing separators removed, is a subdomain. *)
Lemma dnsRun_trimmed l k c l' s :
  dnsRun DStart (l ++ k) = Some s → trimRightL (inCutset "-.") l = c :: l' →
  dnsRun DStart (trimRightL (inCutset "-.") l) = Some DAlnum.
Proof.
  intros Hr Ht. destruct (trimRightL (inCutset "-.") l) as [|x m _] eqn:Hm using rev_ind; [done|]. clear Ht.
  assert (∃ rest, l = (m ++ [x]) ++ rest) as [rest ->].
  { unfold trimRightL in Hm. destruct (dropWhile_suffix (inCutset "-.") (reverse l)) as (pre & Hpre & _).
    exists (reverse pre). rewrite <- Hm, <- reverse_app, <- Hpre. by rewrite reverse_involutive. }
  rewrite <- app_assoc, dnsRun_app in Hr. destruct (dnsRun DStart (m ++ [x])) as [s1|] eqn:H1; [|done].
  f_equal. eapply dnsRun_last; [exact H1|]. rewrite dnsRun_app in H1. destruct (dnsRun DStart m) as [s2|]; [|done].
  simpl in H1. destruct (dnsStep s2 x) as [s3|] eqn:Hx; [|done]. eapply dnsStep_separator; [exact Hx|].
  apply (trimRightL_last _ ((m ++ [x]) ++ rest)). by rewrite Hm, last_snoc.
Qed.

Lemma updateName_run fuName nodeName :
  dnsSubdomain fuName = true → dnsSubdomain nodeName = true →
  dnsRun DStart (s2l (fuName +:+ "-fwupdate-" +:+ nodeName)) = Some DAlnum.
Proof.
  intros [_ Hf]%dnsSubdomain_iff [_ Hn]%dnsSubdomain_iff. rewrite !s2l_app, !dnsRun_app, Hf.
  change (dnsRun DAlnum (s2l "-fwupdate-")) with (Some DHyphen). cbn [dnsRun].
  destruct (s2l nodeName) as [|c l]; [done|]. simpl in Hn |- *. unfold dnsStep in *. by destruct (dnsAlnum c).
Qed.

(** The Job of an update on a node has a valid resource name of 63 bytes at most, so that it also fits the
    label the Job controller puts on its pods, for any update and node whose names are DNS-1123 subdomains,
    as the API server requires of them; also when the name had to be cut and given its hash. *)
Theorem fw_job_name_valid `{!Env, !DNSChecker} fuName nodeName :
  isDNS1123Subdomain fuName = [] → isDNS1123Subdomain nodeName = [] →
  isDNS1123Subdomain (updateJobName fuName nodeName) = [] ∧ slen (updateJobName fuName nodeName) ≤ 63.
Proof.
  rewrite !dns_subdomain. intros Hf Hn. pose proof (updateName_run _ _ Hf Hn) as Hr. unfold updateJobName. cbv zeta.
  set (name := fuName +:+ "-fwupdate-" +:+ nodeName) in *. rewrite dnsSubdomain_iff.
  destruct (Nat.leb_spec (slen name) maxUpdateJobNameLen) as [Hle|Hgt]; unfold maxUpdateJobNameLen in *; [split_and!; [lia|done|lia]|].
  change (63 - jobNameHashLen - 1) with 54. set (cut := strTake 54 name). set (hash := strTake jobNameHashLen (sha256hex name)).
  assert (slen hash = 8) as Hhash by (unfold hash; by rewrite slen_strTake, sha256hex_length).
  assert (Forall (λ c, dnsAlnum c = true) (s2l hash)) as Hal.
  { unfold hash, strTake. rewrite s2l_l2s. apply Forall_take. eapply Forall_impl; [apply sha256hex_hex|]. apply isHexLower_alnum. }
  assert (s2l name = s2l cut ++ drop 54 (s2l name)) as Hsplit.
  { unfold cut, strTake. by rewrite s2l_l2s, take_drop. }
  assert (slen (trimRight cut "-.") ≤ 54) as Hcut.
  { unfold trimRight. rewrite slen_l2s. etrans; [apply trimRightL_length|]. rewrite <- slen_s2l. unfold cut. rewrite slen_strTake. lia. }
  assert (dnsRun DStart (s2l (trimRight cut "-.")) = Some DAlnum) as Hrun.
  { unfold trimRight. rewrite s2l_l2s. destruct (trimRightL (inCutset "-.") (s2l cut)) as [|c l] eqn:Ht.
    - exfalso. apply trimRightL_nil in Ht. destruct (s2l name) as [|c l] eqn:Hname.
      { rewrite slen_s2l, Hname in Hgt. simpl in Hgt. lia. }
      simpl in Hr. destruct (dnsStep DStart c) eqn:Hc; [|done].
      assert (s2l cut = c :: take 53 l) as Hcl by (unfold cut, strTake; by rewrite s2l_l2s, Hname).
      rewrite Hcl in Ht. apply Forall_inv in Ht. apply dnsStart_separator in Ht. congruence.
    - rewrite <- Ht. rewrite Hsplit in Hr. by eapply dnsRun_trimmed. }
  rewrite !slen_app, !s2l_app, !dnsRun_app, Hrun, Hhash. change (slen "-") with 1.
  split_and!; [lia| |lia]. rewrite dnsRun_app. change (dnsRun DAlnum (s2l "-")) with (Some DHyphen). cbn iota.
  apply dnsRun_alnum; [done|]. intros Hnil. rewrite slen_s2l, Hnil in Hhash. discriminate.
Qed.

Lemma fw_job_name_valid_witness :
  slen (updateJobName "gfx-update.2024" "a-rather-long-node-name-of-a-large-cluster.example.com") ≤ 63.
Proof.
  apply (@fw_job_name_valid (clusterEnv emptyCluster) (clusterEnv_dns _) "gfx-update.2024"
           "a-rather-long-node-name-of-a-large-cluster.example.com"); vm_compute; reflexivity.
Defined.

(** The name of a Job does not determine the update and the node: the separator may occur in either. *)
Lemma updateJobName_collision a b c :
  updateJobName a (b +:+ "-fwupdate-" +:+ c) = updateJobName (a +:+ "-fwupdate-" +:+ b) c.
Proof.
  unfold updateJobName. assert (a +:+ "-fwupdate-" +:+ (b +:+ "-fwupdate-" +:+ c)
    = (a +:+ "-fwupdate-" +:+ b) +:+ "-fwupdate-" +:+ c) as ->; [|done].
  apply s2l_inj. by rewrite !s2l_app, <- !app_assoc.
Qed.
