(* ===== verification/FwWebhook.v ===== *)
(** * Firmware updates: the admission webhook and the command line of the Jobs

    [api/v1alpha1/gpufirmwareupdate_webhook.go], with one constructor per [fmt.Errorf] of the source; the
    texts are not modelled.  Labels and lists are compared as values: a nil and an empty one, which
    [reflect.DeepEqual] tells apart, are not distinguished.  The second part shows what the shell makes
    of the command line of an update Job of an admitted update. *)

From Stdlib Require Import Ascii.
From S2P Require Import Prelude GoStrings Regex Sha256 KubeTypes ApiTypes Common Client Drain Cluster OpenShift.
From S2P Require Import RecoveryNaming RecoveryNamingFacts RecoveryWebhook RecoveryWebhookFacts FwUpdate FwUpdateNames.

Inductive FwError :=
| DuplicateFile (name : string)
| FilePathComponents (name : string)
| FileNameChars (name : string)
| ChecksumFormat (name sum : string)
| ChecksumLength (name sum : string)
| ImageNotPinned (image : string)
| BadPCIDeviceID (id : string)
| ImageEmpty
| BadImageReference (image : string) (e : GoErr)
| Immutable (field state : string).

(** The states in which an update is under way. *)
Definition inProgressStates : gset string := {[ "draining"; "updating"; "canary_done"; "cleanup"; "error_cleanup" ]}.

Section Webhook.
Context `{!Admission}.

(** The first loop: the first name that occurs again. *)
Fixpoint duplicateFile (uniqueFileNames : gset string) (l : list GPUFirmwareFile) : option FwError :=
  match l with
  | [] => None
  | fwFile :: l' =>
      if bool_decide (ff_FileName fwFile ∈ uniqueFileNames) then Some (DuplicateFile (ff_FileName fwFile))
      else duplicateFile ({[ff_FileName fwFile]} ∪ uniqueFileNames) l'
  end.

(** The body of the second loop. *)
Definition validateFile (fwFile : GPUFirmwareFile) : option FwError :=
  if negb (bool_decide (filepathBase (ff_FileName fwFile) = ff_FileName fwFile))
  then Some (FilePathComponents (ff_FileName fwFile))
  else if negb (matchString firmwareFileNamePattern (ff_FileName fwFile)) then Some (FileNameChars (ff_FileName fwFile))
  else if bool_decide (ff_Checksum fwFile = "") then None
  else if negb (hasPrefix (ff_Checksum fwFile) "sha256:")
  then Some (ChecksumFormat (ff_FileName fwFile) (ff_Checksum fwFile))
  else if negb (slen (ff_Checksum fwFile) =? slen "sha256:" + 64)%nat
  then Some (ChecksumLength (ff_FileName fwFile) (ff_Checksum fwFile))
  else None.

Definition validateImage (image : string) : option FwError :=
  if bool_decide (image = "") then Some ImageEmpty
  else match parseAnyReference image with Some e => Some (BadImageReference image e) | None => None end.

(** The first error of a list of checks. *)
Definition firstError (l : list (option FwError)) : option FwError := head (omap id l).

Definition validateInputs (spec : GPUFirmwareUpdateSpec) : option FwError :=
  let files := fc_Files (fus_Content spec) in
  let hasChecksum := existsb (λ f, negb (bool_decide (ff_Checksum f = ""))) files in
  firstError
    ([duplicateFile ∅ files] ++ (validateFile <$> files) ++
     [if hasChecksum && negb (contains (fc_ContainerImage (fus_Content spec)) "@sha256:")
      then Some (ImageNotPinned (fc_ContainerImage (fus_Content spec))) else None;
      if negb (matchString pciIDPattern (fus_PCIDeviceID spec)) then Some (BadPCIDeviceID (fus_PCIDeviceID spec)) else None;
      validateImage (fus_UpdaterImage spec);
      validateImage (fc_ContainerImage (fus_Content spec))]).

Definition FwValidateCreate (newFU : GPUFirmwareUpdate) : option FwError := validateInputs (fu_Spec newFU).

Definition changed {A} `{EqDecision A} (name : string) (state : string) (oldVal newVal : A) : option FwError :=
  if bool_decide (oldVal = newVal) then None else Some (Immutable name state).

Definition FwValidateUpdate (oldFU newFU : GPUFirmwareUpdate) : option FwError :=
  let o := fu_Spec oldFU in
  let n := fu_Spec newFU in
  let state := fst_State (fu_Status oldFU) in
  match (if bool_decide (fu_DeletionTimestamp newFU = None) then validateInputs n else None) with
  | Some e => Some e
  | None =>
      if negb (bool_decide (state ∈ inProgressStates)) then None
      else firstError
        [changed "spec.updateMethod" state (fus_UpdateMethod o) (fus_UpdateMethod n);
         changed "spec.nodeSelector" state (fus_NodeSelector o) (fus_NodeSelector n);
         changed "spec.updaterImage" state (fus_UpdaterImage o) (fus_UpdaterImage n);
         changed "spec.pciDeviceID" state (fus_PCIDeviceID o) (fus_PCIDeviceID n);
         changed "spec.content" state (fus_Content o) (fus_Content n);
         changed "spec.updateTaint" state (fus_UpdateTaint o) (fus_UpdateTaint n)]
  end.

Definition FwValidateDelete (_ : GPUFirmwareUpdate) : option FwError := None.
End Webhook.

(** ** The command line of an update Job *)

(** A word of a command line: bare, or between double quotes. *)
Inductive tok := Bare (w : string) | DQuoted (s : string).

Definition tokWord (t : tok) : string := match t with Bare w => w | DQuoted s => s end.
Definition tokText (t : tok) : string := match t with Bare w => w | DQuoted s => quoted s end.

Definition isQuote (c : ascii) : bool := Ascii.eqb c (ascii_of_nat 34).

(** Characters that stand for themselves outside quotes ([&] only ever as the word [&&]), and inside double
    quotes: there the shell acts on the quote, the dollar sign, the backquote and the backslash. *)
Definition bareChar (c : ascii) : bool := shellPlain c && negb (isSpace c) || Ascii.eqb c "&".
Definition quotedChar (c : ascii) : bool :=
  negb (isQuote c || Ascii.eqb c "$" || Ascii.eqb c "`" || Ascii.eqb c "\").

(** The words a POSIX shell makes of a line of such characters; [None] when the line holds any other, or an
    open quote.  [cur] is the word being read, if one has begun. *)
Fixpoint shellParseL (inQuotes : bool) (cur : option (list ascii)) (l : list ascii) : option (list string) :=
  match l with
  | [] => if inQuotes then None else Some match cur with Some w => [l2s (reverse w)] | None => [] end
  | c :: l' =>
      if inQuotes then
        if isQuote c then shellParseL false cur l'
        else if quotedChar c then shellParseL true (Some (c :: default [] cur)) l' else None
      else if isQuote c then shellParseL true (Some (default [] cur)) l'
      else if isSpace c then
        match shellParseL false None l' with
        | Some ws => Some match cur with Some w => l2s (reverse w) :: ws | None => ws end
        | None => None
        end
      else if bareChar c then shellParseL false (Some (c :: default [] cur)) l' else None
  end.
Definition shellParse (line : string) : option (list string) := shellParseL false None (s2l line).

Definition tokOK (t : tok) : Prop :=
  match t with
  | Bare w => w ≠ "" ∧ Forall (λ c, bareChar c = true) (s2l w)
  | DQuoted s => Forall (λ c, quotedChar c = true) (s2l s)
  end.

Lemma bareChar_other c : bareChar c = true → isQuote c = false ∧ isSpace c = false.
Proof.
  intros Hc. pose proof (forall_ascii (λ x, implb (bareChar x) (negb (isQuote x) && negb (isSpace x))) eq_refl c) as Hx.
  cbn beta in Hx. rewrite Hc in Hx. simpl in Hx. by apply andb_true_iff in Hx as [?%negb_true_iff ?%negb_true_iff].
Qed.

Lemma quotedChar_other c : quotedChar c = true → isQuote c = false.
Proof. unfold quotedChar. by destruct (isQuote c). Qed.

Lemma shellParseL_bare cur w l :
  Forall (λ c, bareChar c = true) w → w ≠ [] →
  shellParseL false cur (w ++ l) = shellParseL false (Some (reverse w ++ default [] cur)) l.
Proof.
  intros HF. revert cur. induction HF as [|c w Hc HF IH]; intros cur Hne; [done|]. simpl.
  destruct (bareChar_other c Hc) as [-> ->]. rewrite Hc. destruct w as [|d w]; [done|].
  rewrite IH by done. simpl. by rewrite (reverse_cons (d :: w) c), <- app_assoc.
Qed.

Lemma shellParseL_quotedPart cur w l :
  Forall (λ c, quotedChar c = true) w →
  shellParseL true (Some cur) (w ++ l) = shellParseL true (Some (reverse w ++ cur)) l.
Proof.
  intros HF. revert cur. induction HF as [|c w Hc HF IH]; intros cur; [done|]. simpl.
  rewrite (quotedChar_other c Hc), Hc. simpl. rewrite IH. by rewrite reverse_cons, <- app_assoc.
Qed.

Lemma shellParseL_tok t l :
  tokOK t → shellParseL false None (s2l (tokText t) ++ l) = shellParseL false (Some (reverse (s2l (tokWord t)))) l.
Proof.
  destruct t as [w|s]; simpl.
  - intros [Hne HF]. rewrite shellParseL_bare; [by simpl; rewrite app_nil_r|done|].
    intros Hnil. destruct Hne. by apply s2l_inj.
  - intros HF. unfold quoted, quoteChar. rewrite !s2l_app. simpl. rewrite <- app_assoc, shellParseL_quotedPart by done.
    simpl. by rewrite app_nil_r.
Qed.

Definition lineOf (ts : list tok) : string := join " " (tokText <$> ts).

Lemma shellParse_line ts : Forall tokOK ts → shellParse (lineOf ts) = Some (tokWord <$> ts).
Proof.
  intros HF. unfold shellParse, lineOf. induction HF as [|t ts Ht HF IH]; [done|].
  destruct ts as [|t' ts].
  - simpl in *. rewrite <- (app_nil_r (s2l (tokText t))), shellParseL_tok by done. simpl.
    by rewrite reverse_involutive, l2s_s2l.
  - change (join " " (tokText <$> t :: t' :: ts)) with (tokText t +:+ " " +:+ join " " (tokText <$> t' :: ts)).
    rewrite !s2l_app, shellParseL_tok by done. cbn [s2l String.append app].
    change (s2l " ") with [" "%char]. cbn [app shellParseL]. change (isQuote " ") with false.
    change (isSpace " ") with true. cbn iota. rewrite IH. by rewrite reverse_involutive, l2s_s2l.
Qed.

(** Commands joined by [&&] are one line. *)
Fixpoint joinToks (l : list (list tok)) : list tok :=
  match l with
  | [] => []
  | [ts] => ts
  | ts :: l' => ts ++ Bare "&&" :: joinToks l'
  end.

Lemma lineOf_app ts us : ts ≠ [] → us ≠ [] → lineOf (ts ++ us) = lineOf ts +:+ " " +:+ lineOf us.
Proof.
  intros Hts Hus. unfold lineOf. induction ts as [|t ts IH]; [done|]. destruct ts as [|t' ts].
  - simpl. destruct us; [done|]. done.
  - change ((t :: t' :: ts) ++ us) with (t :: t' :: (ts ++ us)).
    change (join " " (tokText <$> t :: t' :: ts ++ us)) with (tokText t +:+ " " +:+ join " " (tokText <$> (t' :: ts) ++ us)).
    rewrite IH by done. apply s2l_inj. change (join " " (tokText <$> t :: t' :: ts)) with (tokText t +:+ " " +:+ join " " (tokText <$> t' :: ts)).
    by rewrite !s2l_app, <- !app_assoc.
Qed.

Lemma joinToks_ne l : l ≠ [] → Forall (λ ts, ts ≠ []) l → joinToks l ≠ [].
Proof. intros Hne HF. destruct HF as [|ts l Hts]; [done|]. destruct l; [done|]. by destruct ts. Qed.

Lemma join_lines l : Forall (λ ts, ts ≠ []) l → join " && " (lineOf <$> l) = lineOf (joinToks l).
Proof.
  induction 1 as [|ts l Hts HF IH]; [done|]. destruct l as [|us l]; [done|].
  change (join " && " (lineOf <$> ts :: us :: l)) with (lineOf ts +:+ " && " +:+ join " && " (lineOf <$> us :: l)).
  change (joinToks (ts :: us :: l)) with (ts ++ [Bare "&&"] ++ joinToks (us :: l)).
  rewrite IH, lineOf_app; [|done|done]. rewrite lineOf_app; [|done|by apply joinToks_ne].
  apply s2l_inj. by rewrite !s2l_app.
Qed.

(** The words meant: announce the node, then announce and run the update script once per file, in the
    order of the spec and stopping at the first failure, and announce the end last. *)
Definition updateWords (nodeName : string) (fu : GPUFirmwareUpdate) : list string :=
  ["echo"; "Starting firmware update process on node " +:+ nodeName]
  ++ (fc_Files (fus_Content (fu_Spec fu)) ≫= λ fw,
        ["&&"; "echo"; "Updating " +:+ ff_Type fw +:+ " firmware with file /update/" +:+ ff_FileName fw;
         "&&"; "sh"; "/update/update.sh"; fus_PCIDeviceID (fu_Spec fu); ff_Type fw; "/update/" +:+ ff_FileName fw])
  ++ ["&&"; "echo"; "Firmware update process " +:+ completedTag].

(** The same commands as tokens. *)
Definition fileToks (id : string) (fw : GPUFirmwareFile) : list (list tok) :=
  [[Bare "echo"; DQuoted ("Updating " +:+ ff_Type fw +:+ " firmware with file " +:+ "/update/" +:+ ff_FileName fw)];
   [Bare "sh"; Bare "/update/update.sh"; DQuoted id; DQuoted (ff_Type fw); DQuoted ("/update/" +:+ ff_FileName fw)]].
Definition endToks : list tok := [Bare "echo"; DQuoted ("Firmware update process " +:+ completedTag)].
Definition commandToks (nodeName : string) (fu : GPUFirmwareUpdate) : list (list tok) :=
  [Bare "echo"; DQuoted ("Starting firmware update process on node " +:+ nodeName)]
  :: (fc_Files (fus_Content (fu_Spec fu)) ≫= fileToks (fus_PCIDeviceID (fu_Spec fu))) ++ [endToks].

Lemma commandToks_lines nodeName fu : updateCommands nodeName fu = lineOf <$> commandToks nodeName fu.
Proof.
  unfold updateCommands, commandToks. cbn [fmap list_fmap]. f_equal. rewrite fmap_app. f_equal.
  induction (fc_Files (fus_Content (fu_Spec fu))) as [|fw l IH]; [done|]. cbn [mbind list_bind].
  rewrite fmap_app. f_equal. exact IH.
Qed.

Lemma commandToks_words nodeName fu : tokWord <$> joinToks (commandToks nodeName fu) = updateWords nodeName fu.
Proof.
  unfold commandToks, updateWords. assert (∀ (l : list (list tok)) ts, l ≠ [] → joinToks (ts :: l) = ts ++ Bare "&&" :: joinToks l) as Hj.
  { intros l ts ?. by destruct l. }
  rewrite Hj by (intros [_ ?]%app_nil; done). cbn [app fmap list_fmap tokWord]. do 2 f_equal.
  induction (fc_Files (fus_Content (fu_Spec fu))) as [|fw l IH]; [done|]. cbn [mbind list_bind].
  rewrite <- app_assoc. cbn [fileToks app]. rewrite Hj by done. rewrite Hj by (intros [_ ?]%app_nil; done).
  cbn [app fmap list_fmap tokWord]. repeat (f_equal; []). exact IH.
Qed.

(** ** What the admitted parts of the line may hold *)

Definition quotable (s : string) : Prop := Forall (λ c, quotedChar c = true) (s2l s).

Lemma quotable_app s t : quotable s → quotable t → quotable (s +:+ t).
Proof. unfold quotable. rewrite s2l_app. by apply Forall_app_2. Qed.

Lemma dnsRun_quotable s l : is_Some (dnsRun s l) → Forall (λ c, quotedChar c = true) l.
Proof.
  revert s. induction l as [|c l IH]; intros s [s' Hs]; [constructor|]. simpl in Hs.
  destruct (dnsStep s c) as [s1|] eqn:Hc; [|done]. constructor; [|eapply IH; by eexists].
  pose proof (forall_ascii (λ x, implb (dnsAlnum x || Ascii.eqb x "-" || Ascii.eqb x ".") (quotedChar x)) eq_refl c) as Hx.
  cbn beta in Hx. revert Hx Hc. unfold dnsStep. destruct (dnsAlnum c); [done|].
  destruct (Ascii.eqb c "-"); [done|]. destruct (Ascii.eqb c "."); [done|]. by destruct s.
Qed.

Lemma dns_quotable s : dnsSubdomain s = true → quotable s.
Proof. intros [_ Hr]%dnsSubdomain_iff. eapply dnsRun_quotable. by eexists. Qed.

Lemma pciID_quotable id : matchString pciIDPattern id = true → quotable id.
Proof.
  intros Hm%matchL_spec. eapply reIn_chars; [|exact Hm]. unfold pciIDPattern. cbn [reChars rep lit].
  assert (∀ c, hexLower c = true → quotedChar c = true) as Hx.
  { intros c Hc. pose proof (forall_ascii (λ x, implb (hexLower x) (quotedChar x)) eq_refl c) as Hc'.
    cbn beta in Hc'. by rewrite Hc in Hc'. }
  split_and!; auto; by intros c <-%Ascii.eqb_eq.
Qed.

Lemma fileName_quotable file : matchString firmwareFileNamePattern file = true → quotable file.
Proof.
  intros (c & l & Hl & Hc & HF)%fileName_shape. unfold quotable. rewrite Hl.
  assert (∀ x, fileRest x = true → quotedChar x = true) as Hx.
  { intros x Hx. pose proof (forall_ascii (λ x, implb (fileRest x) (quotedChar x)) eq_refl x) as Hx'.
    cbn beta in Hx'. by rewrite Hx in Hx'. }
  constructor; [by apply Hx, fileFirst_rest|]. eapply Forall_impl; [exact HF|]. exact Hx.
Qed.

Lemma fwType_quotable ty : ty ∈ supportedFwTypes → quotable ty.
Proof.
  assert (Forall quotable supportedFwTypes) as HF by (repeat constructor). rewrite Forall_forall in HF. apply HF.
Qed.

Lemma firstError_none l : firstError l = None → Forall (λ o, o = None) l.
Proof. unfold firstError. induction l as [|[e|] l IH]; simpl; [constructor|done|]. intros Hn. constructor; [done|by apply IH]. Qed.

Lemma verified_types fu fw :
  verifyGivenParameters fu = None → fw ∈ fc_Files (fus_Content (fu_Spec fu)) → ff_Type fw ∈ supportedFwTypes.
Proof.
  unfold verifyGivenParameters. repeat case_bool_decide; try done. intros Hh Hfw. apply dec_stable. intros Hn.
  assert (fw ∈ filter (λ fw, ff_Type fw ∉ supportedFwTypes) (fc_Files (fus_Content (fu_Spec fu)))) as Hin
    by (by apply list_elem_of_filter).
  destruct (filter _ _); [by apply not_elem_of_nil in Hin|done].
Qed.

Section Accepted.
Context `{!Admission}.

Lemma admitted_file spec fw :
  validateInputs spec = None → fw ∈ fc_Files (fus_Content spec) → matchString firmwareFileNamePattern (ff_FileName fw) = true.
Proof.
  intros Hv Hfw. apply firstError_none in Hv. rewrite !Forall_app in Hv. destruct Hv as (_ & Hf & _).
  rewrite Forall_fmap, Forall_forall in Hf. specialize (Hf _ Hfw). simpl in Hf. unfold validateFile in Hf.
  destruct (matchString _ _); [done|]. by destruct (bool_decide (filepathBase _ = _)).
Qed.

Lemma admitted_id spec : validateInputs spec = None → matchString pciIDPattern (fus_PCIDeviceID spec) = true.
Proof.
  intros Hv. apply firstError_none in Hv. rewrite !Forall_app in Hv. destruct Hv as (_ & _ & Hr).
  rewrite Forall_cons in Hr. destruct Hr as [_ Hr]. rewrite Forall_cons in Hr. destruct Hr as [Hr _]. revert Hr.
  by destruct (matchString _ _).
Qed.

Ltac quotableText := solve [repeat constructor].
Ltac bareWords :=
  repeat match goal with
         | |- Forall tokOK (Bare _ :: _) => apply Forall_cons_2; [by split; [|repeat constructor]|]
         | |- Forall tokOK (DQuoted ?s :: _) => apply Forall_cons_2; [change (quotable s)|]
         | |- Forall tokOK [] => apply Forall_nil_2
         end.

Lemma admitted_toks nodeName fu :
  validateInputs (fu_Spec fu) = None → verifyGivenParameters fu = None → dnsSubdomain nodeName = true →
  Forall tokOK (joinToks (commandToks nodeName fu)).
Proof.
  intros Hv Hp Hn. assert (∀ l, Forall (Forall tokOK) l → Forall tokOK (joinToks l)) as Hj.
  { induction 1 as [|ts l Hts HF IH]; [constructor|]. destruct l; [done|]. apply Forall_app. split; [done|].
    constructor; [|exact IH]. split; [done|by repeat constructor]. }
  apply Hj. unfold commandToks. constructor; [|apply Forall_app; split].
  - bareWords. apply quotable_app; [quotableText|by apply dns_quotable].
  - apply Forall_bind, Forall_forall. intros fw Hfw. pose proof (admitted_file _ _ Hv Hfw) as Hf%fileName_quotable.
    pose proof (fwType_quotable _ (verified_types _ _ Hp Hfw)) as Ht. pose proof (pciID_quotable _ (admitted_id _ Hv)) as Hi.
    apply Forall_cons_2; [|apply Forall_cons_2; [|by apply Forall_nil_2]]; bareWords;
      repeat (first [done|quotableText|apply quotable_app]).
  - apply Forall_cons_2; [|by apply Forall_nil_2]. unfold endToks. bareWords. quotableText.
Qed.

(** C39: the command line of the update Job of an admitted and verified update is one argument that the shell
    reads as exactly the words meant, whatever the files, the device id and the node are called: nothing in
    them can end a quoted word, start a command or be expanded. *)
Theorem fw_commands_plain `{!Env, !DNSChecker} r nodeName fu :
  validateInputs (fu_Spec fu) = None → verifyGivenParameters fu = None → isDNS1123Subdomain nodeName = [] →
  ∃ c line, head (ps_containers (job_template (createUpdateJobObjForNode r nodeName fu))) = Some c ∧
    c_args c = [line] ∧ shellParse line = Some (updateWords nodeName fu).
Proof.
  rewrite dns_subdomain. intros Hv Hp Hn. eexists _, _. split; [reflexivity|]. split; [reflexivity|].
  rewrite commandToks_lines, join_lines.
  - rewrite shellParse_line by (by apply admitted_toks). by rewrite commandToks_words.
  - constructor; [done|]. apply Forall_app. split; [|by repeat constructor].
    apply Forall_bind, Forall_forall. intros fw _. by repeat constructor.
Qed.

Lemma Immutable_none {A} `{EqDecision A} name st (a b : A) : changed name st a b = None → a = b.
Proof. unfold changed. by case_bool_decide. Qed.

(** An accepted change of an update under way leaves the fields the running steps read. *)
Lemma accepted_update_frozen oldFU newFU :
  FwValidateUpdate oldFU newFU = None → fst_State (fu_Status oldFU) ∈ inProgressStates →
  fus_NodeSelector (fu_Spec newFU) = fus_NodeSelector (fu_Spec oldFU) ∧
  fus_UpdateTaint (fu_Spec newFU) = fus_UpdateTaint (fu_Spec oldFU) ∧
  fus_Content (fu_Spec newFU) = fus_Content (fu_Spec oldFU).
Proof.
  unfold FwValidateUpdate. intros Hv Hs. destruct (if bool_decide _ then _ else _); [done|].
  rewrite (bool_decide_eq_true_2 _ Hs) in Hv. simpl negb in Hv. cbn iota in Hv. apply firstError_none in Hv.
  rewrite !Forall_cons in Hv. destruct Hv as (_ & H1%Immutable_none & _ & _ & H2%Immutable_none & H3%Immutable_none & _).
  by rewrite H1, H2, H3.
Qed.
End Accepted.

Definition demoFwUpdate : GPUFirmwareUpdate :=
  mkGPUFirmwareUpdate "gfx" None []
    (mkGPUFirmwareUpdateSpec
       (mkGPUFirmwareContent "intel/fw:1" [mkGPUFirmwareFile "GFX" "gfx_fw-1.bin" ""; mkGPUFirmwareFile "AMC" "amc.bin" ""])
       directUpdate "intel/xpumanager:1" "" "0xe211" "gpu-update" [] ∅ false false)
    (mkGPUFirmwareUpdateStatus "" [] (mkGPUFirmwareUpdateSubsetStatus [] [] [] [] [] [] [])).

Definition demoFwReconciler : GPUFirmwareUpdateReconciler :=
  mkGPUFirmwareUpdateReconciler (mkControllerOpts "demo" "gpu-operator" "" (15 * Second) true false false "" "").

Lemma fw_commands_plain_witness :
  ∃ c line, head (ps_containers (job_template
              (createUpdateJobObjForNode demoFwReconciler "n1.example.com" demoFwUpdate))) = Some c ∧
    c_args c = [line] ∧
    shellParse line = Some
      ["echo"; "Starting firmware update process on node n1.example.com";
       "&&"; "echo"; "Updating GFX firmware with file /update/gfx_fw-1.bin";
       "&&"; "sh"; "/update/update.sh"; "0xe211"; "GFX"; "/update/gfx_fw-1.bin";
       "&&"; "echo"; "Updating AMC firmware with file /update/amc.bin";
       "&&"; "sh"; "/update/update.sh"; "0xe211"; "AMC"; "/update/amc.bin";
       "&&"; "echo"; "Firmware update process " +:+ completedTag].
Proof.
  assert (@validateInputs demoAdmission (fu_Spec demoFwUpdate) = None) as Hv by (vm_compute; reflexivity).
  assert (verifyGivenParameters demoFwUpdate = None) as Hp by (vm_compute; reflexivity).
  assert (@isDNS1123Subdomain (clusterEnv emptyCluster) "n1.example.com" = []) as Hn by (vm_compute; reflexivity).
  exact (@fw_commands_plain demoAdmission (clusterEnv emptyCluster) (clusterEnv_dns _)
           demoFwReconciler "n1.example.com" demoFwUpdate Hv Hp Hn).
Defined.
