(* ===== verification/FwLogs.v ===== *)
(** * Firmware updates: reading the update Job's log

    [DefaultLogsRetriever.RetrieveLogsForPodContainer] of
    [internal/controller/gpufirmwareupdate/gpufirmwareupdate_controller.go], with the [bufio.Scanner] it
    reads the stream with, and what the verdict on a Job is worth. *)

From Stdlib Require Import Ascii.
From S2P Require Import Prelude GoStrings KubeTypes ApiTypes Common Client Drain Cluster FwUpdate.

(** ** [bufio.Scanner] with [bufio.ScanLines] *)

Definition lineFeed : ascii := ascii_of_nat 10.
Definition carriageReturn : ascii := ascii_of_nat 13.

(** [bufio.MaxScanTokenSize]: the buffer must hold a line and what ends it. *)
Definition maxScanTokenSize : nat := 64 * 1024.

(** The pieces between line feeds; nothing after the last one is no line. *)
Definition rawLines (l : list ascii) : list (list ascii) :=
  match reverse (splitL lineFeed l) with
  | [] :: ps => reverse ps
  | _ => splitL lineFeed l
  end.

Definition dropCR (l : list ascii) : list ascii :=
  match reverse l with
  | c :: r => if Ascii.eqb c carriageReturn then reverse r else l
  | [] => l
  end.

(** Scanning stops at the first line that does not fit; a read error ends the text like an end of file. *)
Definition scanLines (text : string) : list string :=
  (λ p, l2s (dropCR p)) <$> takeWhile (λ p, length p <? maxScanTokenSize) (rawLines (s2l text)).

(** The stream's text up to its end or its read error, or the error of opening it. *)
Definition RetrieveLogsForPodContainer (stream : res string) : res (list string) :=
  match stream with
  | Err e => Err e
  | Ok text => Ok (scanLines text)
  end.

(** The loop of [checkJobCompletionFromLogs]. *)
Definition reportsCompletion (lines : list string) : bool := existsb (λ line, contains line completedTag) lines.

(** ** Occurrences *)

Lemma prefixL_spec p l : prefixL p l = true ↔ ∃ k, l = p ++ k.
Proof.
  revert l. induction p as [|a p IH]; intros l; simpl; [naive_solver|].
  destruct l as [|b l]; [naive_solver|]. rewrite andb_true_iff, IH, Ascii.eqb_eq. naive_solver.
Qed.

Lemma containsL_spec l p : containsL l p = true ↔ ∃ a b, l = a ++ p ++ b.
Proof.
  induction l as [|c l IH]; cbn [containsL]; rewrite orb_true_iff, prefixL_spec.
  - split; [intros [[k Hk]|]; [by exists [], k|done]|].
    intros (a & b & Hab). destruct a; [by left; exists b|done].
  - rewrite IH. split.
    + intros [[k Hk]|(a & b & ->)]; [by exists [], k|by exists (c :: a), b].
    + intros ([|x a] & b & Hab); [by left; exists b|right]. exists a, b. by simplify_list_eq.
Qed.

(** A word without the separator occurs on one side of it. *)
Lemma containsL_sep sep l1 l2 p :
  p ≠ [] → sep ∉ p → containsL (l1 ++ sep :: l2) p = true ↔ containsL l1 p = true ∨ containsL l2 p = true.
Proof.
  intros Hne Hsep. rewrite !containsL_spec. split.
  - intros (a & b & Hab). apply app_eq_inv in Hab as [(k & -> & Hk)|(k & -> & Hk)].
    + symmetry in Hk. apply app_eq_inv in Hk as [(k' & -> & Hk')|(k' & -> & Hk')].
      * left. by exists a, k'.
      * destruct k' as [|x k']; [left; exists a, []; by rewrite !app_nil_r|].
        exfalso. apply Hsep. injection Hk' as -> _. rewrite elem_of_app. right. by left.
    + destruct k as [|x k].
      * destruct p as [|x p]; [done|]. exfalso. apply Hsep. simplify_list_eq. by left.
      * right. exists k, b. by simplify_list_eq.
  - intros [(a & b & ->)|(a & b & ->)].
    + exists a, (b ++ sep :: l2). by rewrite <- !app_assoc.
    + exists (l1 ++ sep :: a), b. by rewrite <- app_assoc.
Qed.

Lemma splitL_cases sep l :
  Forall (λ c, c ≠ sep) l ∧ splitL sep l = [l] ∨
  ∃ l1 l2, l = l1 ++ sep :: l2 ∧ splitL sep l = l1 :: splitL sep l2.
Proof.
  induction l as [|c l IH]; [by left|]. destruct (Ascii.eqb_spec c sep) as [->|Hc].
  { right. exists [], l. simpl. by rewrite Ascii.eqb_refl. }
  destruct IH as [[HF Hs]|(l1 & l2 & -> & Hs)].
  - left. split; [by constructor|]. apply splitL_none. by constructor.
  - right. exists (c :: l1), l2. split; [done|]. simpl. rewrite Hs. by destruct (Ascii.eqb_spec c sep).
Qed.

(** A word without the separator occurs in a text when it occurs in one of the pieces. *)
Lemma containsL_split sep p l :
  p ≠ [] → sep ∉ p → containsL l p = true ↔ Exists (λ q, containsL q p = true) (splitL sep l).
Proof.
  intros Hne Hsep. remember (length l) as n eqn:Hn. revert l Hn.
  induction (lt_wf n) as [n _ IH]. intros l ->. destruct (splitL_cases sep l) as [[_ ->]|(l1 & l2 & -> & ->)].
  - rewrite Exists_cons, Exists_nil. tauto.
  - rewrite containsL_sep, Exists_cons by done. rewrite (IH (length l2) ltac:(rewrite length_app; simpl; lia) l2 eq_refl). done.
Qed.

Lemma containsL_rawLines p l :
  p ≠ [] → lineFeed ∉ p → containsL l p = true ↔ Exists (λ q, containsL q p = true) (rawLines l).
Proof.
  intros Hne Hlf. rewrite (containsL_split lineFeed) by done. unfold rawLines.
  destruct (reverse (splitL lineFeed l)) as [|[|c q] ps] eqn:Hr; [done| |done].
  apply (f_equal reverse) in Hr. rewrite reverse_involutive, reverse_cons in Hr. rewrite Hr, Exists_app, Exists_cons, Exists_nil.
  assert (containsL [] p ≠ true) by (rewrite containsL_spec; intros (a & b & Hab); destruct a, p; done). tauto.
Qed.

Lemma containsL_dropCR p l : p ≠ [] → carriageReturn ∉ p → containsL (dropCR l) p = containsL l p.
Proof.
  intros Hne Hcr. unfold dropCR. destruct (reverse l) as [|c r] eqn:Hr; [done|].
  destruct (Ascii.eqb_spec c carriageReturn) as [->|]; [|done].
  apply (f_equal reverse) in Hr. rewrite reverse_involutive, reverse_cons in Hr. subst l.
  apply Bool.eq_iff_eq_true. rewrite containsL_sep by done.
  assert (containsL [] p ≠ true) by (rewrite containsL_spec; intros (a & b & Hab); destruct a, p; done). tauto.
Qed.

Lemma takeWhile_prefix {A} (p : A → bool) l : ∃ k, l = takeWhile p l ++ k.
Proof. induction l as [|x l [k Hk]]; simpl; [by exists []|]. destruct (p x); [exists k; simpl; by f_equal|by eexists]. Qed.

Lemma takeWhile_all {A} (p : A → bool) l : Forall (λ x, p x = true) l → takeWhile p l = l.
Proof. induction 1 as [|x l Hx _ IH]; simpl; [done|]. by rewrite Hx, IH. Qed.

(** A line short enough for the scanner's buffer. *)
Definition fits (p : list ascii) : Prop := length p < maxScanTokenSize.

Lemma tag_ne : s2l completedTag ≠ [].
Proof. done. Qed.
Lemma tag_oneLine : lineFeed ∉ s2l completedTag ∧ carriageReturn ∉ s2l completedTag.
Proof. split; apply (bool_decide_unpack _); vm_compute; exact I. Qed.

Lemma reportsCompletion_spec text :
  reportsCompletion (scanLines text) = true ↔
  Exists (λ q, containsL q (s2l completedTag) = true) (takeWhile (λ p, length p <? maxScanTokenSize) (rawLines (s2l text))).
Proof.
  unfold reportsCompletion, scanLines. rewrite existsb_exists, Exists_exists. setoid_rewrite <- list_elem_of_In.
  destruct tag_oneLine as [_ Hcr]. split.
  - intros (line & (q & -> & Hq)%list_elem_of_fmap & Hc). exists q. split; [done|].
    unfold contains in Hc. by rewrite s2l_l2s, containsL_dropCR in Hc.
  - intros (q & Hq & Hc). exists (l2s (dropCR q)). split; [apply list_elem_of_fmap; by exists q|].
    unfold contains. by rewrite s2l_l2s, containsL_dropCR.
Qed.

(** What is reported was written; and it is reported when every line fits. *)
Lemma reportsCompletion_sound text : reportsCompletion (scanLines text) = true → contains text completedTag = true.
Proof.
  rewrite reportsCompletion_spec. intros Hex. unfold contains. apply containsL_rawLines; [done|apply tag_oneLine|].
  destruct (takeWhile_prefix (λ p, length p <? maxScanTokenSize) (rawLines (s2l text))) as [k ->].
  rewrite Exists_app. by left.
Qed.

Lemma reportsCompletion_exact text :
  Forall fits (rawLines (s2l text)) → reportsCompletion (scanLines text) = contains text completedTag.
Proof.
  intros Hfit. apply Bool.eq_iff_eq_true. rewrite reportsCompletion_spec. unfold contains.
  rewrite containsL_rawLines by (done || apply tag_oneLine). rewrite takeWhile_all; [done|].
  eapply Forall_impl; [exact Hfit|]. intros q Hq. by apply Nat.ltb_lt.
Qed.

(** ** The verdict on a Job *)

(** The logs the controller gets are retrieved from these streams. *)
Class LogsFromStream `{!Env} (stream : list Ev → string → string → string → res string) : Prop :=
  logs_retrieved : ∀ h ns p c, env_logs h ns p c = RetrieveLogsForPodContainer (stream h ns p c).

(** C27: what the controller concludes from a Job's log.  A Job is found complete only when the text of
    its pod's log has the completion tag, so no line break, carriage return or cut in the log makes a failed
    update pass; and when no line of the log exceeds the scanner's buffer the verdict is exact.  Without
    an error and without pods the Job counts as incomplete. *)
Theorem fw_log_verdict `{!Env} stream `{!LogsFromStream stream} job (w : World Ev GPUFirmwareUpdate) :
  wp (checkJobCompletionFromLogs job) (λ r w', match r with
    | Err _ => True
    | Ok complete =>
        complete = false ∧ EvListPods (job_namespace job) "job-name" (job_name job) (Ok []) ∈ log w' ∨
        ∃ pods pod h container text,
          EvListPods (job_namespace job) "job-name" (job_name job) (Ok pods) ∈ log w' ∧ head pods = Some pod ∧
          stream h (pod_namespace pod) (pod_name pod) container = Ok text ∧
          (complete = true → contains text completedTag = true) ∧
          (Forall fits (rawLines (s2l text)) → complete = contains text completedTag)
    end) w.
Proof.
  unfold checkJobCompletionFromLogs, ListPods. apply wp_bind, wp_exchange.
  destruct (env_listPods (log w) _ _ _) as [[|pod pods]|e]; [apply wp_ret; left; split; [done|by left]| |by apply wp_ret].
  cbv zeta. unfold Logs. apply wp_bind, wp_exchange, wp_ret. cbn [log]. rewrite logs_retrieved.
  destruct (stream _ _ _ _) as [text|e] eqn:Hs; [|done]. simpl. right. exists (pod :: pods), pod. do 3 eexists.
  split; [right; by left|]. split; [done|]. split; [exact Hs|]. fold (reportsCompletion (scanLines text)).
  split; [apply reportsCompletion_sound|apply reportsCompletion_exact].
Qed.

(** ** Examples *)

Definition lf : string := l2s [lineFeed].
Definition goodLog : string := "start" +:+ l2s [carriageReturn; lineFeed] +:+ lf +:+ "Firmware update process " +:+ completedTag +:+ lf.

Example scanned_lines : scanLines goodLog = ["start"; ""; "Firmware update process ##COMPLETED##"].
Proof. vm_compute. reflexivity. Qed.

(** A line that does not fit hides the rest of the log, and no error tells. *)
Example long_line_hides_completion :
  let text := l2s (replicate maxScanTokenSize "x"%char) +:+ lf +:+ goodLog in
  contains text completedTag = true ∧ RetrieveLogsForPodContainer (Ok text) = Ok [] ∧
  reportsCompletion (scanLines text) = false.
Proof. vm_compute. done. Qed.

Definition logPod : Pod := mkPod "gpu" "job-1-x" "u" "n1" {[ "job-name" := "job-1" ]} ∅ [] PodSucceeded None [] [] [].
Definition logJob : Job :=
  mkJob "gpu" "job-1" ∅ None None None None None None emptyPodSpec [] None 1 0.
Definition logCluster : Cluster := mkCluster 0 [] [] [] [logPod] [] [] [] [] (scanLines goodLog).
Definition logEnv : Env := clusterEnv logCluster.

#[local] Instance logEnv_stream : @LogsFromStream logEnv (λ _ _ _ _, Ok goodLog).
Proof. intros h ns p c. reflexivity. Qed.

Definition logUpdate : GPUFirmwareUpdate :=
  mkGPUFirmwareUpdate "fw" None [] (mkGPUFirmwareUpdateSpec (mkGPUFirmwareContent "" []) directUpdate "" "" "" "" [] ∅ false false)
    (mkGPUFirmwareUpdateStatus "" [] (mkGPUFirmwareUpdateSubsetStatus [] [] [] [] [] [] [])).

Lemma fw_log_verdict_witness :
  let o := @checkJobCompletionFromLogs logEnv logJob (mkWorld logUpdate []) in
  o.1 = Ok true ∧ ∃ text, (Ok text : res string) = Ok goodLog ∧ contains text completedTag = true.
Proof.
  split; [vm_compute; reflexivity|].
  pose proof (@fw_log_verdict logEnv (λ _ _ _ _, Ok goodLog) logEnv_stream logJob (mkWorld logUpdate [])) as Hv.
  unfold wp in Hv.
  assert ((@checkJobCompletionFromLogs logEnv logJob (mkWorld logUpdate [])).1 = Ok true) as He by (vm_compute; reflexivity).
  rewrite He in Hv. destruct Hv as [[Hf _]|(pods & pod & h & c & text & _ & _ & Ht & Hc & _)]; [discriminate|].
  exists text. split; [symmetry; exact Ht|apply Hc; reflexivity].
Defined.
