(* ===== verification/ImageContent.v ===== *)
(** * From admission to the registry: the firmware a started update will find

    The composition of the firmware webhook, the controller's first pass and the content image verifier.
    The controller sees the verifier through [VerifyImage] only; the class below states that the verifier
    behind it is the one of [ImageVerifier], over some registry. *)

From Stdlib Require Import Ascii.
From S2P Require Import Prelude GoStrings Regex Sha256 KubeTypes ApiTypes Common Client ImageVerifier.
From S2P Require Import ImageVerifierFacts Drain OpenShift Cluster RecoveryWebhook RecoveryWebhookFacts FwUpdate.
From S2P Require Import FwUpdateFacts FwUpdateSafety FwWebhook.

Class VerifiedBy {Auth} (order : list string → list string) (reg : @Registry Auth) (E : Env) : Prop := {
  visits_all : ∀ l, order l ≡ₚ l;
  verifier_asked : ∀ h q, env_verifyImage h q = Ok tt → VerifyImageWith order reg q = None;
}.

(** ** The paths asked for *)

Lemma realComp_fileName file : matchString firmwareFileNamePattern file = true → realComp file.
Proof. intros (_ & _ & H1 & H2 & H3 & H4)%fileName_plain. by split_and!. Qed.

Lemma contentPath_key file :
  matchString firmwareFileNamePattern file = true → normalizeImagePath ("/fwupdate/" +:+ file) = "fwupdate/" +:+ file.
Proof.
  intros Hf%realComp_fileName. change ("/fwupdate/" +:+ file) with ("/" +:+ "fwupdate/" +:+ file).
  rewrite normalize_rooted, normalize_comps. change ("fwupdate/" +:+ file) with (join "/" ["fwupdate"; file]).
  rewrite pathComps_join; [done|]. repeat constructor; try done; try set_solver. all: by apply Hf.
Qed.

(** What the image holds for a file of the update. *)
Definition carries (entries : list TarEntry) (fw : GPUFirmwareFile) : Prop :=
  ∃ e, e ∈ entries ∧ normalizeImagePath (te_name e) = "fwupdate/" +:+ ff_FileName fw ∧
    (ff_Checksum fw = "" ∨ te_regular e = true ∧ ∃ c, te_content e = Ok c ∧ digest c = ff_Checksum fw).

Definition contentFiles (spec : GPUFirmwareUpdateSpec) : list ImageFile :=
  (λ fw, mkImageFile ("/fwupdate/" +:+ ff_FileName fw) (ff_Checksum fw)) <$> fc_Files (fus_Content spec).

Lemma duplicateFile_spec l names :
  duplicateFile names l = None → NoDup (ff_FileName <$> l) ∧ ∀ f, f ∈ l → ff_FileName f ∉ names.
Proof.
  revert names. induction l as [|f l IH]; intros names Hd; simpl in *.
  { split; [constructor|by intros ? ?%not_elem_of_nil]. }
  case_bool_decide as Hin; [done|]. destruct (IH _ Hd) as [Hnd Hfree]. split.
  - constructor; [|done]. intros (g & Hg & Hgl)%list_elem_of_fmap. specialize (Hfree g Hgl). set_solver.
  - intros g [->|Hg]%elem_of_cons; [done|]. specialize (Hfree g Hg). set_solver.
Qed.

Section Accepted_content.
Context `{!Admission}.

Lemma contentFiles_keys spec :
  validateInputs spec = None →
  fileKey <$> contentFiles spec = (λ fw, "fwupdate/" +:+ ff_FileName fw) <$> fc_Files (fus_Content spec).
Proof.
  intros Hv. unfold contentFiles. rewrite <- list_fmap_compose. apply list_fmap_ext. intros i fw Hfw. unfold compose.
  apply contentPath_key. eapply admitted_file; [done|]. by eapply list_elem_of_lookup_2.
Qed.

Lemma contentFiles_nodup spec : validateInputs spec = None → NoDup (fileKey <$> contentFiles spec).
Proof.
  intros Hv. rewrite contentFiles_keys by done. apply firstError_none in Hv. apply Forall_cons in Hv as [Hd _].
  apply duplicateFile_spec in Hd as [Hd _]. rewrite (list_fmap_compose ff_FileName (λ n, "fwupdate/" +:+ n)).
  apply NoDup_fmap; [|done]. intros x y Hxy. by injection Hxy.
Qed.

Lemma carries_entryIs spec entries :
  validateInputs spec = None →
  (∀ f, f ∈ contentFiles spec → ∃ e, e ∈ entries ∧ entryIs f e) ↔ ∀ fw, fw ∈ fc_Files (fus_Content spec) → carries entries fw.
Proof.
  intros Hv. assert (∀ fw e, fw ∈ fc_Files (fus_Content spec) →
    entryIs (mkImageFile ("/fwupdate/" +:+ ff_FileName fw) (ff_Checksum fw)) e ↔
    normalizeImagePath (te_name e) = "fwupdate/" +:+ ff_FileName fw ∧
    (ff_Checksum fw = "" ∨ te_regular e = true ∧ ∃ c, te_content e = Ok c ∧ digest c = ff_Checksum fw)) as Heq.
  { intros fw e Hfw. unfold entryIs, fileKey, entryKey. cbn [if_Name if_Checksum].
    by rewrite contentPath_key by by eapply admitted_file. }
  split.
  - intros Hall fw Hfw. destruct (Hall _ (list_elem_of_fmap_2 _ _ _ Hfw)) as (e & He & Hi). exists e. split; [done|].
    by apply Heq.
  - intros Hall f (fw & -> & Hfw)%list_elem_of_fmap. destruct (Hall fw Hfw) as (e & He & Hi). exists e. split; [done|].
    by apply Heq.
Qed.

(** For an update the webhook admitted, the check of its content image passes exactly when the image has
    every declared file as fwupdate/<name>, with the declared checksum where there is one. The webhook's rules
    (distinct plain file names) rule out the verifier's duplicate error and any path that would be cleaned to
    another one. *)
Theorem fw_content_check_exact order spec entries serr :
  (∀ l, order l ≡ₚ l) → validateInputs spec = None → fc_Files (fus_Content spec) ≠ [] →
  NoDup (normalizeImagePath ∘ te_name <$> entries) →
  verifyChecksumsFromExport order entries serr (contentFiles spec) = None ↔
  ∀ fw, fw ∈ fc_Files (fus_Content spec) → carries entries fw.
Proof.
  intros Ho Hv Hne Hnd. rewrite <- carries_entryIs by done. split; [intros Hc; by eapply verify_sound|].
  intros Hall. apply verify_complete; try done; [|by apply contentFiles_nodup].
  intros He. apply fmap_nil_inv in He. done.
Qed.
End Accepted_content.

(** ** The first pass of an update *)

(** The exchanges that touch a node or its pods. *)
Definition touchesNode (e : Ev) : bool :=
  match e with EvUpdateNode _ _ | EvEvict _ _ _ => true | _ => false end.

Section Begin.
Context {Auth : Type} (order : list string → list string) (reg : @Registry Auth).
Context `{!Env, !Admission, !VerifiedBy order reg _} (r : GPUFirmwareUpdateReconciler).

(** The registry has the content image: its manifest, where the update declares no files, and otherwise the
    image itself with every declared file in it. *)
Definition contentServed (spec : GPUFirmwareUpdateSpec) : Prop :=
  ∃ ref kc, parseReference reg (fc_ContainerImage (fus_Content spec)) = Ok ref ∧
    match fc_Files (fus_Content spec) with
    | [] => remoteHead reg ref kc (fus_InsecureSkipTLSVerify spec) = Ok tt
    | files =>
        ∃ entries serr, remoteImage reg ref kc (fus_InsecureSkipTLSVerify spec) = Ok (entries, serr) ∧
          ∀ fw, fw ∈ files → carries entries fw
    end.

Lemma VerifyImageWith_head req :
  iv_Files req = [] → VerifyImageWith order reg req = None →
  ∃ ref kc, parseReference reg (iv_Image req) = Ok ref ∧ remoteHead reg ref kc (iv_InsecureSkipTLSVerify req) = Ok tt.
Proof.
  intros Hf. unfold VerifyImageWith. rewrite Hf. destruct (parseReference _ _) as [ref|]; [|done].
  destruct (buildKeychain _) as [kc|]; [|done]. simpl.
  destruct (remoteHead reg ref kc _) as [[]|] eqn:Hh; [|done]. by exists ref, kc.
Qed.

(** Before the check has passed, only the registry, the OpenShift objects and the status are touched. *)
Definition quiet (e : Ev) : Prop := touchesNode e = false.

Lemma openShift_quiet (w w' : World Ev GPUFirmwareUpdate) : logged isOpenShift w w' → logged quiet w w'.
Proof. intros (n & Hn & HF). exists n. split; [done|]. eapply Forall_impl; [exact HF|]. by intros []. Qed.

Lemma failUpdate_quiet msg err : keeps (logged quiet) (failUpdate msg err).
Proof. unfold failUpdate, updateStatus. keeps_auto; intros w; by eexists [_]. Qed.

Lemma verifyContentImage_served w :
  validateInputs (fu_Spec (mem w)) = None →
  wp verifyContentImage (λ v w', logged quiet w w' ∧ (v = None → contentServed (fu_Spec (mem w)))) w.
Proof.
  intros Hv. unfold verifyContentImage. wp_steps. fold (contentFiles (fu_Spec (mem w))).
  split; [eexists [_]; split; [done|by repeat constructor]|]. destruct (env_verifyImage _ _) as [[]|] eqn:Hq; [|done]. intros _.
  apply verifier_asked in Hq. pose proof (carries_entryIs (fu_Spec (mem w))) as Hcar. unfold contentServed.
  destruct (fc_Files (fus_Content (fu_Spec (mem w)))) as [|fw files] eqn:Hf.
  - apply VerifyImageWith_head in Hq; [done|]. simpl. unfold contentFiles. by rewrite Hf.
  - apply VerifyImageWith_files in Hq as (ref & kc & entries & serr & Hr & Hi & Hc).
    + exists ref, kc. split; [done|]. exists entries, serr. split; [done|]. apply Hcar; [done|].
      eapply verify_sound; [|done]. apply visits_all.
    + simpl. unfold contentFiles. by rewrite Hf.
Qed.

Lemma logged_impl (P Q : Ev → Prop) (w w' : World Ev GPUFirmwareUpdate) :
  (∀ e, P e → Q e) → logged P w w' → logged Q w w'.
Proof. intros HPQ (n & Hn & HF). exists n. split; [done|]. by eapply Forall_impl. Qed.

Lemma beginUpdate_content w :
  validateInputs (fu_Spec (mem w)) = None →
  wp (beginUpdate r) (λ _ w', logged (λ e, touchesNode e = true → contentServed (fu_Spec (mem w))) w w') w.
Proof.
  intros Hv. set (C := contentServed _). set (P := λ e, touchesNode e = true → C).
  assert (∀ w1 w2 : World Ev GPUFirmwareUpdate, logged quiet w1 w2 → logged P w1 w2) as Hquiet.
  { intros w1 w2. apply logged_impl. unfold P, quiet. by intros ? ->. }
  assert (∀ msg err w1, logged P w w1 → wp (failUpdate msg err) (λ _ w', logged P w w') w1) as Hfail.
  { intros msg err w1 Hl. eapply wp_mono; [apply keeps_wp, failUpdate_quiet|]. intros ? w2 Hq. etrans; [done|by apply Hquiet]. }
  unfold beginUpdate. apply wp_bind, wp_getMem. destruct (verifyGivenParameters _) as [err|]; [by apply Hfail|].
  apply wp_bind. apply (wp_mono _ (λ _ w1, mem w1 = mem w ∧ logged P w w1)).
  { destruct (OpenShift (fuOpts r)); [|apply wp_ret; split; [done|reflexivity]].
    assert (keeps sameMem (ensureFwOpenShiftResources r (fu_Name (mem w)))) as Hm by (unfold ensureFwOpenShiftResources; keeps_auto).
    assert (keeps (logged isOpenShift) (ensureFwOpenShiftResources r (fu_Name (mem w)))) as Hl
      by (unfold ensureFwOpenShiftResources; keeps_auto).
    split; [apply Hm|apply Hquiet, openShift_quiet, Hl]. }
  intros [err|] w1 [Hm1 Hl1]; [by apply Hfail|]. apply wp_bind.
  eapply wp_mono; [apply verifyContentImage_served; by rewrite Hm1|]. rewrite Hm1. intros [err|] w2 [Hl2 HC].
  { apply Hfail. etrans; [done|by apply Hquiet]. }
  specialize (HC eq_refl). assert (∀ w3, logged (λ _, True) w2 w3 → logged P w w3) as Hrest.
  { intros w3 Hl3. etrans; [exact Hl1|]. etrans; [by apply Hquiet|]. revert Hl3. apply logged_impl. intros ? _ _. exact HC. }
  apply (wp_mono _ (λ _ w3, logged (λ _, True) w2 w3)); [apply keeps_wp|intros ? w3 Hw3; by apply Hrest].
  unfold failUpdate, updateStatus, updateObject, selectNodesTaintAndDrain, selectNodesToUpdate, taintAndDrainNodes, modInfos,
    EnsureNodeTaint, GPUPodsOnNode, EvictPods, evictPod, podsOnNode, podClaimsIntelGPU. keeps_auto.
Qed.

(** C31: the first pass over an admitted update, one read in its initial state and not being deleted, touches
    no node and evicts no pod unless the registry has served the content image, holding every firmware file the
    update declares with the checksum it declares: a wrong or missing file is found before any workload is
    disturbed.  (For an update that declares no files only the image's manifest is asked for.) *)
Theorem fw_content_before_nodes name f0 w h e :
  env_getFU (log w) name = Ok f0 → validateInputs (fu_Spec f0) = None →
  fu_State f0 = stateNotStarted → fu_DeletionTimestamp f0 = None →
  made w (FuReconcile r name w).2 h e → touchesNode e = true → contentServed (fu_Spec f0).
Proof.
  intros Hget Hv Hst Hdel Hmade. set (P := λ x : Ev, touchesNode x = true → contentServed (fu_Spec f0)).
  apply (loggedIn_made (λ _, P) w (FuReconcile r name w).2 h e); [|exact Hmade].
  apply (logged_loggedIn P); [auto|].
  change (wp (FuReconcile r name) (λ _ w', logged P w w') w).
  unfold FuReconcile, GetFU. apply wp_bind, wp_exchange. rewrite Hget. apply wp_bind, wp_putMem. cbn [log].
  assert (isDeletedEarly f0 = false) as -> by (unfold isDeletedEarly; by rewrite Hdel).
  unfold dispatch. rewrite Hst, bool_decide_true by done. unfold finished. apply wp_bind.
  eapply wp_mono; [by apply beginUpdate_content|]. intros x w' Hl. apply wp_ret.
  etrans; [|exact Hl]. eexists [_]. split; [done|]. by repeat constructor.
Qed.
End Begin.

(** ** An update whose file is served, and its first pass *)

Definition shaText : string := digest "firmware".
Definition pinnedImage : string := "intel/fw@" +:+ shaText.
Definition pinnedSpec : GPUFirmwareUpdateSpec :=
  mkGPUFirmwareUpdateSpec (mkGPUFirmwareContent pinnedImage [mkGPUFirmwareFile "GFX" "gfx.bin" shaText])
    directUpdate "intel/xpumanager:1" "" "0xe211" "gpu-update" [] ∅ false false.
Definition pinnedUpdate : GPUFirmwareUpdate := mkGPUFirmwareUpdate "fw" None [] pinnedSpec emptyFUStatus.

(** A registry that serves the one image, to anyone. *)
Definition oneImage : @Registry unit :=
  mkRegistry (λ s, Ok s) (λ s, Err (notFound s)) (λ _, Ok ∅) (λ _ _ _, Ok tt)
    (λ ref _ _, if bool_decide (ref = pinnedImage) then Ok (demoExport, None) else Err (errorf "manifest unknown")).

Definition servingEnv : Env :=
  withVerify (clusterEnv (mkCluster 0 [] [pinnedUpdate] [mkNode "n1" ∅ [] None [("Ready", "True")]] [] [] [] [] [] []))
    (λ q, match VerifyImageWith id oneImage q with None => Ok tt | Some _ => Err (errorf "verification failed") end).

#[local] Instance servingEnv_verified : VerifiedBy id oneImage servingEnv.
Proof.
  split; [reflexivity|]. intros h q. simpl. by destruct (VerifyImageWith id oneImage q).
Qed.

Lemma pinned_admitted : @validateInputs demoAdmission pinnedSpec = None.
Proof. vm_compute. reflexivity. Qed.

Lemma fw_content_check_exact_witness :
  ∀ fw, fw ∈ fc_Files (fus_Content pinnedSpec) → carries demoExport fw.
Proof.
  apply (@fw_content_check_exact demoAdmission id pinnedSpec demoExport None (λ l, Permutation_refl l) pinned_admitted).
  - discriminate.
  - apply (bool_decide_unpack _). vm_compute. exact I.
  - vm_compute. reflexivity.
Defined.

Definition firstPass : World Ev GPUFirmwareUpdate :=
  (@FuReconcile servingEnv demoFwReconciler "fw" (mkWorld pinnedUpdate [])).2.

Lemma fw_content_before_nodes_witness :
  ∃ h x a, made (mkWorld pinnedUpdate []) firstPass h (EvUpdateNode x a) ∧ contentServed oneImage pinnedSpec.
Proof.
  assert (∃ k h x a, log firstPass = k ++ EvUpdateNode x a :: h) as (k & h & x & a & Hl).
  { vm_compute. eexists [_; _; _], _, _, _. reflexivity. }
  exists h, x, a. assert (made (mkWorld pinnedUpdate []) firstPass h (EvUpdateNode x a)) as Hm.
  { split; [by exists k|apply suffix_nil]. }
  split; [exact Hm|].
  assert (@env_getFU servingEnv (log (mkWorld pinnedUpdate [])) "fw" = Ok pinnedUpdate) as Hget by (vm_compute; reflexivity).
  exact (@fw_content_before_nodes _ id oneImage servingEnv demoAdmission servingEnv_verified demoFwReconciler
           "fw" pinnedUpdate (mkWorld pinnedUpdate []) h (EvUpdateNode x a) Hget pinned_admitted eq_refl eq_refl Hm eq_refl).
Defined.
