(* ===== verification/PolicyClient.v ===== *)
(** * ClusterPolicy: requests to the API server

    The answers of the API server to the requests of the ClusterPolicy controllers, and the requests.  The
    controllers share one ClusterPolicy in memory, [None] when the object is gone (a nil pointer). *)

From S2P Require Import Prelude GoStrings KubeTypes ApiTypes Common PolicyTypes PolicyObjects Client.

Class PolicyEnv := {
  penv_getPolicy : list Ev → string → res ClusterPolicy;
  penv_updatePolicy : list Ev → ClusterPolicy → res ClusterPolicy;
  penv_updatePolicyStatus : list Ev → ClusterPolicy → res ClusterPolicy;
  penv_listPolicies : list Ev → res (list ClusterPolicy);
  penv_listCRDs : list Ev → res (list string);
  penv_getCRDScope : list Ev → string → res string;
  penv_getDaemonSet : list Ev → string → string → res DaemonSet;
  penv_getModule : list Ev → string → string → res KmmModule;
  penv_createModule : list Ev → KmmModule → res KmmModule;
  penv_patchModule : list Ev → KmmModule → res KmmModule;
  penv_getConfigMap : list Ev → string → string → res ConfigMap;
  penv_getDeviceClass : list Ev → string → res DeviceClass;
  penv_getNodeFeatureRule : list Ev → string → string → res NodeFeatureRule;
  penv_getResourceFlavor : list Ev → string → res ResourceFlavor;
  penv_getClusterQueue : list Ev → string → res ClusterQueue;
  penv_getLocalQueue : list Ev → string → string → res LocalQueue;
  penv_listServiceMonitors : list Ev → string → labels → res (list string);
  penv_listServices : list Ev → string → labels → res (list string);
  penv_listClusterQueues : list Ev → labels → res (list string);
  penv_listLocalQueues : list Ev → labels → res (list (string * string));
  penv_listNodes : list Ev → res (list KueueNode);
  penv_listSlices : list Ev → res (list KueueSlice);
  penv_setControllerReference : list Ev → string → Ref → res unit;
  penv_create : list Ev → Obj → res unit;
  penv_update : list Ev → Obj → res unit;
  penv_patch : list Ev → Obj → res unit;
  penv_delete : list Ev → Ref → res unit;
  penv_deleteAllOf : list Ev → Kind → labels → res unit;
  (** What [Quantity.Value] gives for an amount that does not fit an [int64]: it depends on how the amount
      is represented. *)
  penv_overflowValue : Z → Z;
}.

Abbreviation COp := (Op (option ClusterPolicy)).

Section Requests.
Context `{!PolicyEnv}.

Definition asks {A} (f : list Ev → A) (ev : A → PolEv) : COp A := exchange f (λ a, EvPolicy (ev a)).

Definition GetPolicy n : COp _ := asks (λ h, penv_getPolicy h n) (PvGetPolicy n).
Definition UpdatePolicy p : COp _ := asks (λ h, penv_updatePolicy h p) (PvUpdatePolicy p).
Definition UpdatePolicyStatus p : COp _ := asks (λ h, penv_updatePolicyStatus h p) (PvUpdatePolicyStatus p).
Definition ListAllPolicies : COp _ := asks penv_listPolicies PvListPolicies.
Definition ListCRDs : COp _ := asks penv_listCRDs PvListCRDs.
Definition GetCRDScope n : COp _ := asks (λ h, penv_getCRDScope h n) (PvGetCRDScope n).
Definition GetDaemonSet ns n : COp _ := asks (λ h, penv_getDaemonSet h ns n) (PvGetDaemonSet ns n).
Definition GetModule ns n : COp _ := asks (λ h, penv_getModule h ns n) (PvGetModule ns n).
Definition CreateModule m : COp _ := asks (λ h, penv_createModule h m) (PvCreateModule m).
Definition PatchModule m : COp _ := asks (λ h, penv_patchModule h m) (PvPatchModule m).
Definition GetConfigMap ns n : COp _ := asks (λ h, penv_getConfigMap h ns n) (PvGetConfigMap ns n).
Definition GetDeviceClass n : COp _ := asks (λ h, penv_getDeviceClass h n) (PvGetDeviceClass n).
Definition GetNodeFeatureRule ns n : COp _ := asks (λ h, penv_getNodeFeatureRule h ns n) (PvGetNodeFeatureRule ns n).
Definition GetResourceFlavor n : COp _ := asks (λ h, penv_getResourceFlavor h n) (PvGetResourceFlavor n).
Definition GetClusterQueue n : COp _ := asks (λ h, penv_getClusterQueue h n) (PvGetClusterQueue n).
Definition GetLocalQueue ns n : COp _ := asks (λ h, penv_getLocalQueue h ns n) (PvGetLocalQueue ns n).
Definition ListServiceMonitors ns l : COp _ := asks (λ h, penv_listServiceMonitors h ns l) (PvListServiceMonitors ns l).
Definition ListServices ns l : COp _ := asks (λ h, penv_listServices h ns l) (PvListServices ns l).
Definition ListClusterQueues l : COp _ := asks (λ h, penv_listClusterQueues h l) (PvListClusterQueues l).
Definition ListLocalQueues l : COp _ := asks (λ h, penv_listLocalQueues h l) (PvListLocalQueues l).
Definition ListKueueNodes : COp _ := asks penv_listNodes PvListNodes.
Definition ListKueueSlices : COp _ := asks penv_listSlices PvListSlices.
Definition SetOwner o x : COp _ := asks (λ h, penv_setControllerReference h o x) (PvSetControllerReference o x).
Definition Create o : COp _ := asks (λ h, penv_create h o) (PvCreate o).
Definition Update o : COp _ := asks (λ h, penv_update h o) (PvUpdate o).
Definition Patch o : COp _ := asks (λ h, penv_patch h o) (PvPatch o).
Definition Delete o : COp _ := asks (λ h, penv_delete h o) (PvDelete o).
Definition DeleteAllOf k l : COp _ := asks (λ h, penv_deleteAllOf h k l) (PvDeleteAllOf k l).
End Requests.

(** ** The status under construction *)

Definition set_cp_Status (s : ClusterPolicyStatus) (cp : ClusterPolicy) : ClusterPolicy :=
  mkClusterPolicy (cp_Name cp) (cp_DeletionTimestamp cp) (cp_Finalizers cp) (cp_Spec cp) s.
Definition set_cp_Finalizers (l : list string) (cp : ClusterPolicy) : ClusterPolicy :=
  mkClusterPolicy (cp_Name cp) (cp_DeletionTimestamp cp) l (cp_Spec cp) (cp_Status cp).

Definition set_DevicePluginStatus (v : string) (s : ClusterPolicyStatus) : ClusterPolicyStatus :=
  mkClusterPolicyStatus v (cpst_DRAStatus s) (cpst_XPUManagerStatus s) (cpst_KMMStatus s) (cpst_Errors s).
Definition set_DRAStatus (v : string) (s : ClusterPolicyStatus) : ClusterPolicyStatus :=
  mkClusterPolicyStatus (cpst_DevicePluginStatus s) v (cpst_XPUManagerStatus s) (cpst_KMMStatus s) (cpst_Errors s).
Definition set_XPUManagerStatus (v : string) (s : ClusterPolicyStatus) : ClusterPolicyStatus :=
  mkClusterPolicyStatus (cpst_DevicePluginStatus s) (cpst_DRAStatus s) v (cpst_KMMStatus s) (cpst_Errors s).
Definition set_KMMStatus (v : string) (s : ClusterPolicyStatus) : ClusterPolicyStatus :=
  mkClusterPolicyStatus (cpst_DevicePluginStatus s) (cpst_DRAStatus s) (cpst_XPUManagerStatus s) v (cpst_Errors s).
Definition set_Errors (l : list string) (s : ClusterPolicyStatus) : ClusterPolicyStatus :=
  mkClusterPolicyStatus (cpst_DevicePluginStatus s) (cpst_DRAStatus s) (cpst_XPUManagerStatus s) (cpst_KMMStatus s) l.

(** A change of the status when there is a policy. *)
Definition onStatus (f : ClusterPolicyStatus → ClusterPolicyStatus) : COp unit :=
  modMem (fmap (λ cp, set_cp_Status (f (cp_Status cp)) cp)).

(** [addIfMissing(&cp.Status.Errors, s)] *)
Definition addIfMissing (l : list string) (s : string) : list string :=
  if bool_decide (s ∈ l) then l else l ++ [s].
Definition addError (s : string) : COp unit := onStatus (λ st, set_Errors (addIfMissing (cpst_Errors st) s) st).
