(* ===== verification/PolicyDaemonSets.v ===== *)
(** * ClusterPolicy: the DaemonSets of the device plugin and of the DRA driver

    [controller_utils.go] and the object building parts of [deviceplugin_controller.go] and
    [dra_controller.go] of [internal/controller/clusterpolicy], with the manifests they start from
    ([config/deployments/dp/dp.yaml], [dra/daemonset.yaml]).  The manifests are translated as far as the
    object types reach; numbers inside carried JSON are their text. *)

From S2P Require Import Prelude GoStrings KubeTypes ApiTypes Common PolicyTypes PolicyObjects Client Drain OpenShift.

(** ** [controller_utils.go] *)

Definition nfdGpuWithDriver : string := "intel.feature.node.kubernetes.io/gpu".
Definition nfdGpuWithoutDriver : string := "intel.feature.node.kubernetes.io/gpu-pci".
Definition trueValue : string := "true".
Definition ownerKey : string := "owner".
Definition xpumdSocketPath : string := "/run/xpumd/intel_xpu_info.sock".

(** Entries of the policy's selector replace the one written before them; the loop over a map with distinct
    keys is the union. *)
Definition generateNodeSelector (cp : ClusterPolicy) (opts : ControllerOpts) : labels :=
  let s := cp_Spec cp in
  let ns0 : labels := cps_NodeSelector s ∪ {[ "kubernetes.io/arch" := "amd64" ]} in
  let ns1 := if cps_UseNFDLabeling s then <[nfdGpuWithDriver := trueValue]> ns0 else ns0 in
  if bool_decide (KMMModuleReadyLabel opts ≠ "") && bool_decide (is_Some (cps_KernelModule s))
  then <[KMMModuleReadyLabel opts := ""]> ns1 else ns1.

Definition generateNodeSelectorDriverless (cp : ClusterPolicy) (opts : ControllerOpts) : labels :=
  let ns := generateNodeSelector cp opts in
  if cps_UseNFDLabeling (cp_Spec cp) then <[nfdGpuWithoutDriver := trueValue]> (delete nfdGpuWithDriver ns) else ns.

Definition generateTolerations (cp : ClusterPolicy) : list Toleration := cps_Tolerations (cp_Spec cp).

Definition generateAffinity (affinity : option json) : option json := affinity.

Definition setHostPath (volumes : list Volume) (name path : string) : list Volume :=
  (λ v, if bool_decide (vol_Name v = name) then
          match vol_Source v with VSHostPath _ t => mkVolume (vol_Name v) (VSHostPath path t) | _ => v end
        else v) <$> volumes.

Definition isClusterPolicyBeingDeleted (cp : option ClusterPolicy) : bool :=
  match cp with None => true | Some p => bool_decide (is_Some (cp_DeletionTimestamp p)) end.

Definition shouldRemoveDRA (cp : option ClusterPolicy) : bool :=
  isClusterPolicyBeingDeleted cp
  || match cp with Some p => negb (bool_decide (cps_ResourceRegistration (cp_Spec p) = resourceModeDRA)) | None => true end.

Definition shouldRemoveDevicePlugin (cp : option ClusterPolicy) : bool :=
  isClusterPolicyBeingDeleted cp
  || match cp with Some p => negb (bool_decide (cps_ResourceRegistration (cp_Spec p) = resourceModeDP)) | None => true end.

Definition shouldRemoveXpumd (cp : option ClusterPolicy) : bool :=
  isClusterPolicyBeingDeleted cp
  || match cp with Some p => negb (cps_ResourceMonitoring (cp_Spec p)) | None => true end.

(** ** Changes of a DaemonSet *)

Definition onSpec (f : DPodSpec → DPodSpec) (ds : DaemonSet) : DaemonSet :=
  mkDaemonSet (ds_Name ds) (ds_Namespace ds) (ds_Labels ds) (ds_Annotations ds) (f (ds_Spec ds)) (ds_NumberReady ds)
    (ds_DesiredNumberScheduled ds).
Definition setMeta (name namespace : string) (l : labels) (ds : DaemonSet) : DaemonSet :=
  mkDaemonSet name namespace l (ds_Annotations ds) (ds_Spec ds) (ds_NumberReady ds) (ds_DesiredNumberScheduled ds).
Definition setAnnotations (a : labels) (ds : DaemonSet) : DaemonSet :=
  mkDaemonSet (ds_Name ds) (ds_Namespace ds) (ds_Labels ds) a (ds_Spec ds) (ds_NumberReady ds) (ds_DesiredNumberScheduled ds).

Definition setServiceAccount (n : string) (p : DPodSpec) : DPodSpec :=
  mkDPodSpec n (dps_NodeSelector p) (dps_Tolerations p) (dps_Affinity p) (dps_ImagePullSecrets p) (dps_Volumes p)
    (dps_Containers p) (dps_ResourceClaims p).
Definition setPlacement (sel : labels) (tols : list Toleration) (aff : option json) (p : DPodSpec) : DPodSpec :=
  mkDPodSpec (dps_ServiceAccountName p) sel tols aff (dps_ImagePullSecrets p) (dps_Volumes p) (dps_Containers p)
    (dps_ResourceClaims p).
Definition setPullSecrets (l : list string) (p : DPodSpec) : DPodSpec :=
  mkDPodSpec (dps_ServiceAccountName p) (dps_NodeSelector p) (dps_Tolerations p) (dps_Affinity p) l (dps_Volumes p)
    (dps_Containers p) (dps_ResourceClaims p).
Definition onVolumes (f : list Volume → list Volume) (p : DPodSpec) : DPodSpec :=
  mkDPodSpec (dps_ServiceAccountName p) (dps_NodeSelector p) (dps_Tolerations p) (dps_Affinity p) (dps_ImagePullSecrets p)
    (f (dps_Volumes p)) (dps_Containers p) (dps_ResourceClaims p).
Definition onContainers (f : list DContainer → list DContainer) (p : DPodSpec) : DPodSpec :=
  mkDPodSpec (dps_ServiceAccountName p) (dps_NodeSelector p) (dps_Tolerations p) (dps_Affinity p) (dps_ImagePullSecrets p)
    (dps_Volumes p) (f (dps_Containers p)) (dps_ResourceClaims p).
Definition setResourceClaims (l : list (string * option string)) (p : DPodSpec) : DPodSpec :=
  mkDPodSpec (dps_ServiceAccountName p) (dps_NodeSelector p) (dps_Tolerations p) (dps_Affinity p) (dps_ImagePullSecrets p)
    (dps_Volumes p) (dps_Containers p) l.

(** [Containers[0]]: a DaemonSet always has one. *)
Definition onFirst (f : DContainer → DContainer) : DPodSpec → DPodSpec :=
  onContainers (λ l, match l with [] => [] | c :: l' => f c :: l' end).

Definition setImage (i : string) (c : DContainer) : DContainer :=
  mkDContainer (dc_Name c) i (dc_Args c) (dc_Env c) (dc_Ports c) (dc_StartupProbe c) (dc_LivenessProbe c) (dc_Limits c)
    (dc_Requests c) (dc_Claims c) (dc_VolumeMounts c) (dc_SecurityContext c).
Definition setArgs (a : list string) (c : DContainer) : DContainer :=
  mkDContainer (dc_Name c) (dc_Image c) a (dc_Env c) (dc_Ports c) (dc_StartupProbe c) (dc_LivenessProbe c) (dc_Limits c)
    (dc_Requests c) (dc_Claims c) (dc_VolumeMounts c) (dc_SecurityContext c).
Definition onEnv (f : list EnvVar → list EnvVar) (c : DContainer) : DContainer :=
  mkDContainer (dc_Name c) (dc_Image c) (dc_Args c) (f (dc_Env c)) (dc_Ports c) (dc_StartupProbe c) (dc_LivenessProbe c)
    (dc_Limits c) (dc_Requests c) (dc_Claims c) (dc_VolumeMounts c) (dc_SecurityContext c).
Definition setHealth (ports : list (string * Z)) (startup liveness : option Probe) (c : DContainer) : DContainer :=
  mkDContainer (dc_Name c) (dc_Image c) (dc_Args c) (dc_Env c) ports startup liveness (dc_Limits c) (dc_Requests c)
    (dc_Claims c) (dc_VolumeMounts c) (dc_SecurityContext c).
Definition setResources (limits requests : option (gmap string string)) (claims : list string) (c : DContainer) : DContainer :=
  mkDContainer (dc_Name c) (dc_Image c) (dc_Args c) (dc_Env c) (dc_Ports c) (dc_StartupProbe c) (dc_LivenessProbe c) limits
    requests claims (dc_VolumeMounts c) (dc_SecurityContext c).
Definition onMounts (f : list VolumeMount → list VolumeMount) (c : DContainer) : DContainer :=
  mkDContainer (dc_Name c) (dc_Image c) (dc_Args c) (dc_Env c) (dc_Ports c) (dc_StartupProbe c) (dc_LivenessProbe c)
    (dc_Limits c) (dc_Requests c) (dc_Claims c) (f (dc_VolumeMounts c)) (dc_SecurityContext c).
Definition setSecurity (s : option SecurityContext) (c : DContainer) : DContainer :=
  mkDContainer (dc_Name c) (dc_Image c) (dc_Args c) (dc_Env c) (dc_Ports c) (dc_StartupProbe c) (dc_LivenessProbe c)
    (dc_Limits c) (dc_Requests c) (dc_Claims c) (dc_VolumeMounts c) s.

(** The security context with the SELinux type set, created where there is none. *)
Definition withSELinuxType (t : string) (c : DContainer) : DContainer :=
  setSecurity (Some (mkSecurityContext (Some t) match dc_SecurityContext c with Some s => sc_rest s | None => JNull end)) c.

(** The pull secrets of all three DaemonSets. *)
Definition pullSecrets (opts : ControllerOpts) (cp : ClusterPolicy) : list string :=
  (if bool_decide (SecretName opts = "") then [] else [SecretName opts])
  ++ match cps_PullSecret (cp_Spec cp) with Some n => [n] | None => [] end.

Fixpoint deleteFirst {A} (p : A → bool) (l : list A) : list A :=
  match l with [] => [] | x :: l' => if p x then l' else x :: deleteFirst p l' end.

(** ** The device plugin *)

Definition dpValue : string := "intel-gpu-plugin".
Definition xpumdVolumeName : string := "runxpumd".
Definition dpCDIVolume : string := "cdipath".
Definition dpResourcePart : string := "gpu-dp".

Definition logLevelForDp (cp : ClusterPolicy) : Z :=
  Z.max (Z.max 0 (cps_LogLevel (cp_Spec cp))) (dp_LogLevel (cps_DevicePluginSpec (cp_Spec cp))).

Definition hexArgStr (s : list string) : string :=
  join "," ((λ str, if hasPrefix str "0x" then str else "0x" +:+ str) <$> s).

Definition isXpumdVolume (v : Volume) : bool := bool_decide (vol_Name v = xpumdVolumeName).
Definition isXpumdMount (m : VolumeMount) : bool := bool_decide (vm_Name m = xpumdVolumeName).

Definition addXpumdMounts (p : DPodSpec) : DPodSpec :=
  if existsb isXpumdVolume (dps_Volumes p) then p
  else
    onFirst (onMounts (λ l, l ++ [mkVolumeMount xpumdVolumeName "/run/xpumd" false]))
      (onVolumes (λ l, l ++ [mkVolume xpumdVolumeName (VSHostPath "/run/xpumd" (Some "DirectoryOrCreate"))]) p).

Definition removeXpumdMounts (p : DPodSpec) : DPodSpec :=
  onFirst (onMounts (deleteFirst isXpumdMount)) (onVolumes (deleteFirst isXpumdVolume) p).

Definition dpArgs (cp : ClusterPolicy) : list string :=
  let dpspec := cps_DevicePluginSpec (cp_Spec cp) in
  let logLevel := logLevelForDp cp in
  (if cps_ResourceMonitoring (cp_Spec cp) then ["-enable-monitoring"; "-xpumd-endpoint=" +:+ xpumdSocketPath] else [])
  ++ (if (0 <? logLevel)%Z then ["-v=" +:+ itoa logLevel] else [])
  ++ (if bool_decide (dp_ByPathMode dpspec = "") then [] else ["-bypath=" +:+ dp_ByPathMode dpspec])
  ++ (if (0 <? length (dp_AllowIDs dpspec))%nat then ["-allow-ids=" +:+ hexArgStr (dp_AllowIDs dpspec)] else [])
  ++ (if (0 <? length (dp_DenyIDs dpspec))%nat then ["-deny-ids=" +:+ hexArgStr (dp_DenyIDs dpspec)] else []).

Definition dpDaemonSetName (crName : string) : string := crName +:+ "-device-plugin".

Definition updateDpDaemonSet (opts : ControllerOpts) (cp : ClusterPolicy) (ds : DaemonSet) : DaemonSet :=
  let s := cp_Spec cp in
  onSpec (λ p,
    let p1 := onFirst (λ c, setArgs (dpArgs cp) (setImage (dp_PluginImage (cps_DevicePluginSpec s)) c)) p in
    let p2 := setPlacement (generateNodeSelector cp opts) (generateTolerations cp)
                (generateAffinity (dp_Affinity (cps_DevicePluginSpec s))) p1 in
    let p3 := onVolumes (λ l, setHostPath l dpCDIVolume (cdi_DynamicHostPath (WithDefaults (cps_CDI s)))) p2 in
    let p4 := setPullSecrets (pullSecrets opts cp) p3 in
    let p5 := if cps_ResourceMonitoring s then addXpumdMounts p4 else removeXpumdMounts p4 in
    if OpenShift opts then setServiceAccount (os_saName (BuildOpenShiftNames (cp_Name cp) dpResourcePart)) p5 else p5)
  (setMeta (dpDaemonSetName (cp_Name cp)) (Namespace opts) (<[ownerKey := cp_Name cp]> (ds_Labels ds)) ds).

(** [dp/dp.yaml] *)
Definition DevicePluginDaemonset : DaemonSet :=
  mkDaemonSet "intel-gpu-plugin" "" {[ "app" := "intel-gpu-plugin" ]} ∅
    (mkDPodSpec "" {[ "kubernetes.io/arch" := "amd64" ]} [] None []
       [mkVolume "devfs" (VSHostPath "/dev/dri" None); mkVolume "sysfsdrm" (VSHostPath "/sys/class/drm" None);
        mkVolume "kubeletsockets" (VSHostPath "/var/lib/kubelet/device-plugins" None);
        mkVolume "cdipath" (VSHostPath "/var/run/cdi" (Some "DirectoryOrCreate"))]
       [mkDContainer "intel-gpu-plugin" "intel/intel-gpu-plugin:devel" ["-health-management"]
          [mkEnvVar "NODE_NAME" (EnvField "spec.nodeName"); mkEnvVar "HOST_IP" (EnvField "status.hostIP")] [] None None
          (Some (list_to_map [("cpu", "100m"); ("memory", "90Mi")])) (Some (list_to_map [("cpu", "40m"); ("memory", "45Mi")])) []
          [mkVolumeMount "devfs" "/dev/dri" true; mkVolumeMount "sysfsdrm" "/sys/class/drm" true;
           mkVolumeMount "kubeletsockets" "/var/lib/kubelet/device-plugins" false;
           mkVolumeMount "cdipath" "/var/run/cdi" false]
          (Some (mkSecurityContext (Some "container_device_plugin_t")
             (JObj [("allowPrivilegeEscalation", JBool false); ("capabilities", JObj [("drop", JList [JStr "ALL"])]);
                    ("readOnlyRootFilesystem", JBool true); ("seccompProfile", JObj [("type", JStr "RuntimeDefault")])])))]
       [])
    0 0.

Definition buildDpDaemonSet (opts : ControllerOpts) (cp : ClusterPolicy) : DaemonSet :=
  updateDpDaemonSet opts cp DevicePluginDaemonset.

Definition buildDevicePluginSCC (name : string) : SCC :=
  BuildSCC name
    [("allowPrivilegedContainer", JBool false); ("allowHostDirVolumePlugin", JBool true); ("allowHostIPC", JBool false);
     ("allowHostNetwork", JBool false); ("allowHostPID", JBool false); ("allowHostPorts", JBool false);
     ("allowPrivilegeEscalation", JBool false); ("allowedCapabilities", JNull); ("defaultAddCapabilities", JNull);
     ("fsGroup", runAsAny); ("readOnlyRootFilesystem", JBool false); ("requiredDropCapabilities", JList [JStr "ALL"]);
     ("runAsUser", runAsAny); ("seLinuxContext", runAsAny); ("seccompProfiles", JList [JStr "*"]);
     ("supplementalGroups", runAsAny); ("volumes", JList [JStr "hostPath"; JStr "emptyDir"]); ("users", JList []);
     ("groups", JList [])].

(** ** The DRA driver *)

Definition draValue : string := "intel-gpu-resource-driver-kubelet-plugin".
Definition healthCheckPort : Z := 51516.
Definition vfioGpuDeviceClass : string := "gpu-vfio.intel.com".
Definition draStaticCDIVolume : string := "cdi".
Definition draDynamicCDIVolume : string := "varruncdi".
Definition draResourcePart : string := "gpu-dra".

Definition draDaemonSetName (crName : string) : string := crName +:+ "-gpu-dra".

Definition draArgs (cp : ClusterPolicy) : list string :=
  let d := cps_DynamicResourceAllocationSpec (cp_Spec cp) in
  ["-v=" +:+ itoa (Z.max (Z.max 0 (dra_LogLevel d)) (cps_LogLevel (cp_Spec cp)))]
  ++ (if cps_ResourceMonitoring (cp_Spec cp)
      then ["--health-monitoring=true"; "--xpumd-socket=" +:+ xpumdSocketPath] else [])
  ++ [if dra_PodHealthCheck d then "--healthcheck-port=" +:+ itoa healthCheckPort else "--healthcheck-port=-1"]
  ++ ["--manage-binding=" +:+ (if dra_ManageBinding d then "true" else "false")].

Definition addHealthCheckIfMissing (port : Z) (c : DContainer) : DContainer :=
  if existsb (λ p, bool_decide (p.2 = port)) (dc_Ports c) then c
  else setHealth (dc_Ports c ++ [("healthcheck", port)]) (Some (mkProbe 60 10 10 port "liveness"))
         (Some (mkProbe 3 30 10 port "liveness")) c.

Definition removeHealthCheckIfExists (c : DContainer) : DContainer :=
  let isHealth (p : string * Z) := bool_decide (p.1 = "healthcheck") in
  if existsb isHealth (dc_Ports c) then setHealth (deleteFirst isHealth (dc_Ports c)) None None c else c.

Definition updateDraDaemonSet (opts : ControllerOpts) (cp : ClusterPolicy) (ds : DaemonSet) : DaemonSet :=
  let s := cp_Spec cp in
  let d := cps_DynamicResourceAllocationSpec s in
  let name := draDaemonSetName (cp_Name cp) in
  let cdi := WithDefaults (cps_CDI s) in
  onSpec (λ p,
    let p1 := onFirst (λ c, setArgs (draArgs cp) (setImage (dra_Image d) c)) (setServiceAccount name p) in
    let p2 := setPlacement (generateNodeSelector cp opts) (generateTolerations cp) (generateAffinity (dra_Affinity d)) p1 in
    let p3 := onVolumes (λ l, setHostPath (setHostPath l draStaticCDIVolume (cdi_StaticHostPath cdi))
                                draDynamicCDIVolume (cdi_DynamicHostPath cdi)) p2 in
    let p4 := onFirst (if dra_PodHealthCheck d then addHealthCheckIfMissing healthCheckPort else removeHealthCheckIfExists) p3 in
    let p5 := setPullSecrets (pullSecrets opts cp) p4 in
    if OpenShift opts then onFirst (withSELinuxType "spc_t") p5 else p5)
  (setMeta name (Namespace opts) (<[ownerKey := cp_Name cp]> (ds_Labels ds)) ds).

(** [dra/daemonset.yaml] *)
Definition DynamicResourceAllocationDaemonset : DaemonSet :=
  mkDaemonSet "intel-gpu-resource-driver-kubelet-plugin" "intel-gpu-resource-driver"
    {[ "app" := "intel-gpu-resource-driver-kubelet-plugin" ]} ∅
    (mkDPodSpec "intel-gpu-resource-driver-service-account" ∅ [] None []
       [mkVolume "plugins-registry" (VSHostPath "/var/lib/kubelet/plugins_registry" None);
        mkVolume "plugins" (VSHostPath "/var/lib/kubelet/plugins" None); mkVolume "cdi" (VSHostPath "/etc/cdi" None);
        mkVolume "varruncdi" (VSHostPath "/var/run/cdi" None); mkVolume "sysfs" (VSHostPath "/sys" None);
        mkVolume "xpumdrundir" (VSHostPath "/run/xpumd" (Some "DirectoryOrCreate"))]
       [mkDContainer "kubelet-plugin"
          "ghcr.io/intel/intel-resource-drivers-for-kubernetes/intel-gpu-resource-driver:v0.9.0" []
          [mkEnvVar "NODE_NAME" (EnvField "spec.nodeName"); mkEnvVar "POD_NAMESPACE" (EnvField "metadata.namespace");
           mkEnvVar "SYSFS_ROOT" (EnvValue "/sysfs")] [] None None None None []
          [mkVolumeMount "plugins-registry" "/var/lib/kubelet/plugins_registry" false;
           mkVolumeMount "plugins" "/var/lib/kubelet/plugins" false; mkVolumeMount "cdi" "/etc/cdi" false;
           mkVolumeMount "varruncdi" "/var/run/cdi" false; mkVolumeMount "xpumdrundir" "/run/xpumd" false;
           mkVolumeMount "sysfs" "/sysfs" false]
          (Some (mkSecurityContext None
             (JObj [("allowPrivilegeEscalation", JBool false); ("capabilities", JObj [("drop", JList [JStr "ALL"])]);
                    ("readOnlyRootFilesystem", JBool true); ("runAsUser", JStr "0");
                    ("seccompProfile", JObj [("type", JStr "RuntimeDefault")])])))]
       [])
    0 0.

Definition buildDraDaemonset (opts : ControllerOpts) (cp : ClusterPolicy) : DaemonSet :=
  updateDraDaemonSet opts cp DynamicResourceAllocationDaemonset.

Definition buildDRASCC (name : string) : SCC :=
  BuildSCC name
    [("allowPrivilegedContainer", JBool false); ("allowHostDirVolumePlugin", JBool true); ("allowHostIPC", JBool false);
     ("allowHostNetwork", JBool false); ("allowHostPID", JBool false); ("allowHostPorts", JBool false);
     ("allowPrivilegeEscalation", JBool false); ("allowedCapabilities", JNull); ("defaultAddCapabilities", JNull);
     ("fsGroup", runAsAny); ("readOnlyRootFilesystem", JBool false); ("requiredDropCapabilities", JList [JStr "ALL"]);
     ("runAsUser", runAsAny); ("seLinuxContext", runAsAny); ("seccompProfiles", JList [JStr "*"]);
     ("supplementalGroups", runAsAny); ("volumes", JList [JStr "hostPath"; JStr "projected"]); ("users", JList []);
     ("groups", JList [])].

(** *** Device classes: [deployments.go] and [dra/device-class.yaml], [dra/device-class-vfio.yaml] *)

Definition dq : string := String (Ascii.ascii_of_nat 34) "".
Definition driverIs (d : string) : string := "device.attributes[" +:+ dq +:+ "gpu.intel.com" +:+ dq +:+ "].driver == '" +:+ d +:+ "'".
Definition classSelector : string := "device.driver == " +:+ dq +:+ "gpu.intel.com" +:+ dq.

Definition DynamicResourceAllocationDeviceClass (limitToKMDs : bool) : DeviceClass :=
  mkDeviceClass "gpu.intel.com"
    (classSelector :: if limitToKMDs then [driverIs "i915" +:+ " || " +:+ driverIs "xe"] else []) (Some "intel.com/gpu").

Definition DynamicResourceAllocationDeviceClassVfio (limitToVfio : bool) : DeviceClass :=
  mkDeviceClass "gpu-vfio.intel.com"
    (classSelector :: if limitToVfio then [driverIs "vfio-pci" +:+ " || " +:+ driverIs "xe-vfio-pci"] else []) None.
