(* ===== verification/PolicyXpum.v ===== *)
(** * ClusterPolicy: the XPU manager's DaemonSet and collector configuration

    The object building parts of [xpumanager_controller.go] of [internal/controller/clusterpolicy], the
    configuration types of [config/deployments/otel_types.go] and the embedded [xpum/xpum.yaml] and
    [xpum/otel-config.yaml].  The YAML encoder is a parameter of the controller; thresholds are whole
    degrees.  Maps of the configuration that the embedded file leaves empty (extensions, receiver metrics, attributes
    of the crash log receiver) are left out, and the exporter of the health socket, which the code only carries along,
    is a JSON value. *)

From S2P Require Import Prelude GoStrings Sha256 KubeTypes ApiTypes Common PolicyTypes PolicyObjects Client Drain.
From S2P Require Import OpenShift PolicyDaemonSets.

Definition xpumdContainerName : string := "xpumd".
Definition xpumdConfigVolume : string := "config".
Definition crashlogVolume : string := "crashlog".
Definition crashlogHostDir : string := "/var/log/crashlog".
Definition crashlogReceiver : string := "intel_crashlog".
Definition tracefsVolume : string := "tracefs".
Definition tracefsHostDir : string := "/sys/kernel/tracing".
Definition monResourcePrefix : string := "gpu.intel.com".
Definition monClaim : string := "monitor-claim".
Definition otelConfigMapKey : string := "config.yaml".
Definition otelConfigMountDir : string := "/etc/xpumd".
Definition otelConfigHashKey : string := "gpu.intel.com/xpum-otel-config-hash".
Definition xpumResourcePart : string := "xpu-manager".
Definition otlpHTTPExporter : string := "otlp_http".
Definition otlpGRPCExporter : string := "otlp_grpc".
Definition otlpHeaderEnvPrefix : string := "OTLP_HEADER_".
Definition otlpCAVolume : string := "otlp-ca".
Definition otlpCAMountDir : string := "/etc/otlp/ca".
Definition otlpCAFile : string := "ca.crt".
Definition otlpClientCertVolume : string := "otlp-client-cert".
Definition otlpClientCertMountDir : string := "/etc/otlp/client".
Definition TLSCertKey : string := "tls.crt".
Definition TLSPrivateKeyKey : string := "tls.key".

(** ** Volumes and mounts *)

(** The change of every container named xpumd. *)
Definition onXpumd (f : DContainer → DContainer) : DPodSpec → DPodSpec :=
  onContainers (fmap (λ c, if bool_decide (dc_Name c = xpumdContainerName) then f c else c)).

Definition configSource (otelConfigMapName : string) : VolumeSource := VSConfigMap otelConfigMapName [] (Some 272%Z).  (* 0420 *)

Definition processXpumdConfigMapMount (otelConfigMapName : string) (p : DPodSpec) : DPodSpec :=
  let isConfig (v : Volume) := bool_decide (vol_Name v = xpumdConfigVolume) in
  let isConfigMount (m : VolumeMount) := bool_decide (vm_Name m = xpumdConfigVolume) in
  onXpumd (onMounts (λ l,
      ((λ m, if isConfigMount m then mkVolumeMount (vm_Name m) otelConfigMountDir true else m) <$> l)
      ++ (if existsb isConfigMount l then [] else [mkVolumeMount xpumdConfigVolume otelConfigMountDir true])))
    (onVolumes (λ l,
      ((λ v, if isConfig v then mkVolume (vol_Name v) (configSource otelConfigMapName) else v) <$> l)
      ++ (if existsb isConfig l then [] else [mkVolume xpumdConfigVolume (configSource otelConfigMapName)])) p).

Definition setXpumdVolume (name : string) (source : option VolumeSource) (path : string) (readOnly : bool) (p : DPodSpec) : DPodSpec :=
  onXpumd (onMounts (λ l, filter (λ m, vm_Name m ≠ name) l
                          ++ match source with Some _ => [mkVolumeMount name path readOnly] | None => [] end))
    (onVolumes (λ l, filter (λ v, vol_Name v ≠ name) l
                     ++ match source with Some s => [mkVolume name s] | None => [] end) p).

Definition setXpumdHostPathMount (enabled : bool) (name path pathType : string) (readOnly : bool) (p : DPodSpec) : DPodSpec :=
  setXpumdVolume name (if enabled then Some (VSHostPath path (Some pathType)) else None) path readOnly p.

Definition processXpumdLogMounts (cp : ClusterPolicy) (p : DPodSpec) : DPodSpec :=
  let xspec := cps_XpuManagerSpec (cp_Spec cp) in
  setXpumdHostPathMount (xpu_InfoLogs xspec) tracefsVolume tracefsHostDir "Directory" false
    (setXpumdHostPathMount (xpu_CrashLog xspec) crashlogVolume crashlogHostDir "DirectoryOrCreate" true p).

(** ** OTLP export *)

Definition otlpExporter (xspec : XpuManagerSpec) : option (string * OTLPExporterSpec) :=
  match xpu_OTLP xspec with
  | None => None
  | Some o =>
      match otlp_HTTP o, otlp_GRPC o with
      | Some e, _ => Some (otlpHTTPExporter, e)
      | None, Some e => Some (otlpGRPCExporter, e)
      | None, None => None
      end
  end.

Definition otlpHeaderEnvName (idx : nat) : string := otlpHeaderEnvPrefix +:+ itoa (Z.of_nat idx).

Definition otlpEnv (exp : OTLPExporterSpec) : list EnvVar :=
  imap (λ i h, mkEnvVar (otlpHeaderEnvName i) (EnvSecret (oh_ValueFrom h))) (oe_Headers exp).

Definition caSource (exp : OTLPExporterSpec) : option VolumeSource :=
  tls ← oe_TLS exp; ca ← ot_CA tls; Some (VSConfigMap (ks_Name ca) [(ks_Key ca, otlpCAFile)] (Some 292%Z)).  (* 0o444 *)

Definition clientCertSource (exp : OTLPExporterSpec) : option VolumeSource :=
  tls ← oe_TLS exp; n ← ot_ClientCertSecret tls;
  Some (VSSecret n [(TLSCertKey, TLSCertKey); (TLSPrivateKeyKey, TLSPrivateKeyKey)] (Some 256%Z)).            (* 0o400 *)

Definition processXpumdOTLP (cp : ClusterPolicy) (p : DPodSpec) : DPodSpec :=
  let exp := snd <$> otlpExporter (cps_XpuManagerSpec (cp_Spec cp)) in
  onXpumd (onEnv (λ l, filter (λ e, hasPrefix (env_Name e) otlpHeaderEnvPrefix = false) l ++ default [] (otlpEnv <$> exp)))
    (setXpumdVolume otlpClientCertVolume (exp ≫= clientCertSource) otlpClientCertMountDir true
       (setXpumdVolume otlpCAVolume (exp ≫= caSource) otlpCAMountDir true p)).

(** ** Container resources *)

Definition isMonitoring (res : string) : bool := hasPrefix res monResourcePrefix && hasSuffix res "monitoring".

Definition removePrevMonitoring (l : gmap string string) : gmap string string := filter (λ kv, isMonitoring kv.1 = false) l.

Definition xpumdResources (xspec : XpuManagerSpec) (draClaim : string) (c : DContainer) : DContainer :=
  let limits := removePrevMonitoring <$> dc_Limits c in
  let requests := removePrevMonitoring <$> dc_Requests c in
  if bool_decide (draClaim = "") then
    let selected := if bool_decide (xpu_MonitoringResource xspec = "") then "monitoring" else xpu_MonitoringResource xspec in
    let resName := monResourcePrefix +:+ "/" +:+ selected in
    setResources (Some (<[resName := "1"]> (default ∅ limits))) (Some (<[resName := "1"]> (default ∅ requests))) [] c
  else setResources limits requests [monClaim] c.

Definition processContainerResources (cp : ClusterPolicy) (draClaim : string) (p : DPodSpec) : DPodSpec :=
  let xspec := cps_XpuManagerSpec (cp_Spec cp) in
  onXpumd (xpumdResources xspec draClaim)
    (onContainers (fmap (setImage (xpu_Image xspec)))
       (setResourceClaims (if bool_decide (draClaim = "") then [] else [(monClaim, Some draClaim)]) p)).

(** ** The DaemonSet *)

Definition xpumDaemonSetName (cpName : string) : string := cpName +:+ "-xpu-manager".

(** The four [process] steps. *)
Definition processXpum (cp : ClusterPolicy) (draClaim otelConfigMapName : string) (p : DPodSpec) : DPodSpec :=
  processXpumdOTLP cp (processXpumdLogMounts cp
    (processXpumdConfigMapMount otelConfigMapName (processContainerResources cp draClaim p))).

(** Placement, pull secrets and the OpenShift settings. *)
Definition finishXpum (opts : ControllerOpts) (cp : ClusterPolicy) (p : DPodSpec) : DPodSpec :=
  let p2 := setPlacement (generateNodeSelector cp opts) (generateTolerations cp)
              (generateAffinity (xpu_Affinity (cps_XpuManagerSpec (cp_Spec cp)))) p in
  let p3 := setPullSecrets (pullSecrets opts cp) p2 in
  if OpenShift opts then
    onFirst (withSELinuxType "spc_t") (setServiceAccount (os_saName (BuildOpenShiftNames (cp_Name cp) xpumResourcePart)) p3)
  else p3.

Definition updateXpumDaemonSet (opts : ControllerOpts) (cp : ClusterPolicy) (draClaim otelConfigMapName configHash : string)
    (ds : DaemonSet) : DaemonSet :=
  onSpec (λ p, finishXpum opts cp (processXpum cp draClaim otelConfigMapName p))
    (setAnnotations {[ otelConfigHashKey := configHash ]}
       (setMeta (xpumDaemonSetName (cp_Name cp)) (Namespace opts) (<[xpuLabel := xpuValue]> {[ ownerKey := cp_Name cp ]}) ds)).

(** [xpum/xpum.yaml] *)
Definition XpuManagerDaemonset : DaemonSet :=
  mkDaemonSet "intel-xpumd" "" (list_to_map [("app.kubernetes.io/name", "xpumd"); ("app", "intel-xpumanager")]) ∅
    (mkDPodSpec "" {[ "kubernetes.io/arch" := "amd64" ]} [] None []
       [mkVolume "config" (VSConfigMap "changed-by-the-operator" [] None);
        mkVolume "rundir" (VSHostPath "/run/xpumd" (Some "DirectoryOrCreate"))]
       [mkDContainer "xpumd" "changed.io/by/the/operator:reconcile" ["--config=/etc/xpumd/config.yaml"] [] [("http", 8080%Z)]
          None None (Some (list_to_map [("cpu", "100m"); ("memory", "512Mi")]))
          (Some (list_to_map [("cpu", "10m"); ("memory", "128Mi")])) []
          [mkVolumeMount "config" "/etc/xpumd" true; mkVolumeMount "rundir" "/run/xpumd" false]
          (Some (mkSecurityContext None
             (JObj [("readOnlyRootFilesystem", JBool true); ("allowPrivilegeEscalation", JBool false); ("runAsUser", JStr "0");
                    ("capabilities", JObj [("drop", JList [JStr "ALL"]); ("add", JList [JStr "SYS_ADMIN"])])])))]
       [])
    0 0.

Definition buildXpumDaemonSet (opts : ControllerOpts) (cp : ClusterPolicy) (draClaim cmName configHash : string) : DaemonSet :=
  updateXpumDaemonSet opts cp draClaim cmName configHash XpuManagerDaemonset.

Definition buildXpuManagerSCC (name : string) : SCC :=
  BuildSCC name
    [("allowPrivilegedContainer", JBool false); ("allowHostDirVolumePlugin", JBool true); ("allowHostIPC", JBool false);
     ("allowHostNetwork", JBool false); ("allowHostPID", JBool false); ("allowHostPorts", JBool false);
     ("allowPrivilegeEscalation", JBool false); ("allowedCapabilities", JList [JStr "SYS_ADMIN"]);
     ("defaultAddCapabilities", JNull); ("fsGroup", runAsAny); ("readOnlyRootFilesystem", JBool false);
     ("requiredDropCapabilities", JList [JStr "ALL"]); ("runAsUser", runAsAny); ("seLinuxContext", runAsAny);
     ("seccompProfiles", JList [JStr "*"]); ("supplementalGroups", runAsAny);
     ("volumes", JList [JStr "hostPath"; JStr "configMap"; JStr "secret"]); ("users", JList []); ("groups", JList [])].

(** ** The collector configuration *)

Record OTLPExporterTLS := mkOTLPExporterTLS {
  xt_Insecure : bool;
  xt_InsecureSkipVerify : bool;
  xt_CAFile : string;
  xt_CertFile : string;
  xt_KeyFile : string;
  xt_ServerNameOverride : string;
}.
Record OTLPExporter := mkOTLPExporter { xo_Endpoint : string; xo_Headers : gmap string string; xo_TLS : option OTLPExporterTLS }.

#[global] Instance OTLPExporterTLS_eq_dec : EqDecision OTLPExporterTLS.
Proof. solve_decision. Defined.

Record InfoLogsConfig := mkInfoLogsConfig { il_Enabled : bool; il_InstanceName : string }.
Record IntelXPUReceiver := mkIntelXPUReceiver {
  rx_CollectionInterval : string;
  rx_InitialDelay : string;
  rx_Timeout : Z;
  rx_SamplingInterval : string;
  rx_FailOnSysmanInit : bool;
  rx_InfoLogs : option InfoLogsConfig;
}.
Record IntelCrashlogReceiver := mkIntelCrashlogReceiver { cr_Directory : string; cr_Glob : string; cr_IgnoreOlderThan : string }.
Record KeyValues := mkKeyValues { kv_Key : string; kv_Values : list string }.
Record StateCondition := mkStateCondition { sco_Value : Z; sco_ParentFilters : list KeyValues }.
Record StatusState := mkStatusState { ss_StateName : string; ss_Conditions : list StateCondition }.
Record StatusRule := mkStatusRule {
  sr_Name : string;
  sr_SourceMetric : string;
  sr_ParentMetric : string;
  sr_ParentRefAttribute : string;
  sr_ParentFilters : list KeyValues;
  sr_ComponentFilters : list KeyValues;
  sr_CopyAttributes : list string;
  sr_AddAttributes : gmap string string;
  sr_States : list StatusState;
}.
Record Pipeline := mkPipeline { pl_Receivers : list string; pl_Processors : list string; pl_Exporters : list string }.
Record OTelConfig := mkOTelConfig {
  oc_IntelXPU : IntelXPUReceiver;
  oc_IntelCrashlog : option IntelCrashlogReceiver;
  oc_Rules : list StatusRule;
  oc_IntelXPUInfo : json;
  oc_Prometheus : string;
  oc_OTLPHTTP : option OTLPExporter;
  oc_OTLPGRPC : option OTLPExporter;
  oc_LogLevel : string;
  oc_DisableStacktrace : bool;
  oc_Metrics : Pipeline;
  oc_Logs : option Pipeline;
}.

Definition buildOTLPExporterConfig (exp : OTLPExporterSpec) : OTLPExporter :=
  mkOTLPExporter (oe_Endpoint exp)
    (list_to_map (reverse (imap (λ i h, (oh_Name h, "${env:" +:+ otlpHeaderEnvName i +:+ "}")) (oe_Headers exp))))
    (if hasPrefix (oe_Endpoint exp) "http://" then Some (mkOTLPExporterTLS true false "" "" "" "")
     else match oe_TLS exp with
          | None => None
          | Some t =>
              let hasCert := bool_decide (is_Some (ot_ClientCertSecret t)) in
              let tls := mkOTLPExporterTLS false (ot_InsecureSkipVerify t)
                           (if bool_decide (is_Some (ot_CA t)) then otlpCAMountDir +:+ "/" +:+ otlpCAFile else "")
                           (if hasCert then otlpClientCertMountDir +:+ "/" +:+ TLSCertKey else "")
                           (if hasCert then otlpClientCertMountDir +:+ "/" +:+ TLSPrivateKeyKey else "")
                           (ot_ServerName t) in
              if bool_decide (tls = mkOTLPExporterTLS false false "" "" "" "") then None else Some tls
          end).

Definition logLevelForXpum (cp : ClusterPolicy) : string :=
  let v := Z.max (cps_LogLevel (cp_Spec cp)) (xpu_LogLevel (cps_XpuManagerSpec (cp_Spec cp))) in
  if (v =? 0)%Z then "error" else if (v =? 1)%Z then "warn" else if (v =? 2)%Z then "info" else "debug".

(** The first state named critical gets the threshold in all its conditions. *)
Fixpoint setCritical (threshold : Z) (l : list StatusState) : list StatusState :=
  match l with
  | [] => []
  | st :: l' =>
      if bool_decide (ss_StateName st = "critical")
      then mkStatusState (ss_StateName st) ((λ c, mkStateCondition threshold (sco_ParentFilters c)) <$> ss_Conditions st) :: l'
      else st :: setCritical threshold l'
  end.

Definition setCriticalThreshold (threshold : Z) (rule : StatusRule) : StatusRule :=
  mkStatusRule (sr_Name rule) (sr_SourceMetric rule) (sr_ParentMetric rule) (sr_ParentRefAttribute rule) (sr_ParentFilters rule)
    (sr_ComponentFilters rule) (sr_CopyAttributes rule) (sr_AddAttributes rule) (setCritical threshold (sr_States rule)).

Definition applyHealth (health : HealthinessSpec) (rule : StatusRule) : StatusRule :=
  if bool_decide (sr_SourceMetric rule = "hw.temperature") then
    foldl (λ r loc,
        if bool_decide (loc = "gpu") then setCriticalThreshold (hs_CoreTemperatureThreshold health) r
        else if bool_decide (loc = "memory") then setCriticalThreshold (hs_MemoryTemperatureThreshold health) r
        else r)
      rule (mbind kv_Values (sr_ComponentFilters rule))
  else rule.

Definition addOnce (x : string) (l : list string) : list string := if bool_decide (x ∈ l) then l else l ++ [x].

Definition temperatureRule (name location : string) : StatusRule :=
  mkStatusRule name "hw.temperature" "hw.gpu.info" "hw.id" [mkKeyValues "pci.vendor_id" ["8086"]]
    [mkKeyValues "hw.sensor_location" [location]]
    ["hw.id"; "hw.name"; "pci.bdf"; "hw.sensor_location"; "com.intel.subdevice_id"] {[ "hw.type" := "temperature" ]}
    [mkStatusState "ok" []; mkStatusState "critical" [mkStateCondition 100 []]].

Definition severity (s : string) : json := JObj [("severity", JStr s)].
Definition filterOn (k : string) (vs : list string) : json := JObj [("key", JStr k); ("values", JList (JStr <$> vs))].

(** [xpum/otel-config.yaml] *)
Definition XpuManagerOTelConfig : OTelConfig :=
  mkOTelConfig (mkIntelXPUReceiver "5s" "1s" 0 "1s" false (Some (mkInfoLogsConfig false "xpumd")))
    (Some (mkIntelCrashlogReceiver "/var/log/crashlog" "*.crashlog" "0s"))
    [temperatureRule "Intel GPU core temperature health" "gpu"; temperatureRule "Intel GPU memory temperature health" "memory"]
    (JObj
       [("endpoint", JStr "/run/xpumd/intel_xpu_info.sock");
        ("hw_status_mappings", JList
          [JObj [("health_domain", JStr "gpu.{{ .hw_state }}");
                 ("filters", JList [filterOn "hw.type" ["gpu"]; filterOn "hw.state" ["wedged"; "survivability"]]);
                 ("state_mapping", JObj [("wedged", severity "failed"); ("survivability", severity "failed")])];
           JObj [("health_domain", JStr "memory"); ("filters", JList [filterOn "hw.type" ["memory"]]);
                 ("state_mapping", JObj
                    [("unknown", severity "unknown"); ("ok", severity "ok"); ("degraded", severity "warning");
                     ("critical", severity "critical"); ("replace", severity "critical");
                     ("*", JObj [("severity", JStr "warning");
                                 ("message", JStr "Unexpected memory health state, mapped to warning")])])];
           JObj [("health_domain", JStr "gpu");
                 ("filters", JList [filterOn "hw.type" ["gpu"];
                    filterOn "hw.state" ["ecc_disabled"; "ecc_enabled"; "ecc_available"; "ecc_unavailable"]]);
                 ("state_mapping", JObj [])];
           JObj [("health_domain", JStr "{{ .hw_type }}");
                 ("state_mapping", JObj
                    [("unknown", severity "unknown"); ("ok", severity "ok"); ("warning", severity "warning");
                     ("critical", severity "critical"); ("failed", severity "failed"); ("*", severity "warning")])]])])
    "0.0.0.0:8080" None None "info" true
    (mkPipeline ["intel_xpu"] ["intel_xpu_status"] ["intel_xpu_info"; "prometheus"])
    (Some (mkPipeline ["intel_xpu"] [] ["intel_xpu_info"])).

(** The configuration of [buildOTelConfigData] before it is encoded. *)
Definition otelConfigFor (cp : ClusterPolicy) (cfg : OTelConfig) : OTelConfig :=
  let xspec := cps_XpuManagerSpec (cp_Spec cp) in
  let rx := oc_IntelXPU cfg in
  let infoLogs := (λ il, mkInfoLogsConfig (xpu_InfoLogs xspec) (il_InstanceName il)) <$> rx_InfoLogs rx in
  let crash := xpu_CrashLog xspec && bool_decide (is_Some (oc_IntelCrashlog cfg)) && bool_decide (is_Some (oc_Logs cfg)) in
  let crashlog := if crash then oc_IntelCrashlog cfg else None in
  let logs := if crash then (λ p, mkPipeline (addOnce crashlogReceiver (pl_Receivers p)) (pl_Processors p) (pl_Exporters p)) <$> oc_Logs cfg
              else oc_Logs cfg in
  let otlp := otlpExporter xspec in
  let exportTo (p : Pipeline) :=
    match otlp with Some (name, _) => mkPipeline (pl_Receivers p) (pl_Processors p) (addOnce name (pl_Exporters p)) | None => p end in
  let exporterIf (name : string) (old : option OTLPExporter) :=
    match otlp with Some (n, e) => if bool_decide (n = name) then Some (buildOTLPExporterConfig e) else old | None => old end in
  let health := cps_HealthinessSpec (cp_Spec cp) in
  mkOTelConfig
    (mkIntelXPUReceiver
       (match health with Some h => itoa (hs_CheckIntervalSeconds h) +:+ "s" | None => rx_CollectionInterval rx end)
       (rx_InitialDelay rx) (rx_Timeout rx) (rx_SamplingInterval rx) (rx_FailOnSysmanInit rx) infoLogs)
    crashlog (match health with Some h => applyHealth h <$> oc_Rules cfg | None => oc_Rules cfg end) (oc_IntelXPUInfo cfg)
    (oc_Prometheus cfg) (exporterIf otlpHTTPExporter (oc_OTLPHTTP cfg)) (exporterIf otlpGRPCExporter (oc_OTLPGRPC cfg))
    (logLevelForXpum cp) (oc_DisableStacktrace cfg) (exportTo (oc_Metrics cfg)) (exportTo <$> logs).

Definition otelConfigHash (data : string) : string := sha256hex data.
