(* ===== verification/PolicyDeploy.v ===== *)
(** * ClusterPolicy: the controllers of the device plugin, the DRA driver and the XPU manager

    The [Reconcile] methods of [deviceplugin_controller.go], [dra_controller.go] and
    [xpumanager_controller.go] of [internal/controller/clusterpolicy], with everything they call. *)

From S2P Require Import Prelude GoStrings KubeTypes ApiTypes Common PolicyTypes PolicyObjects Client Drain OpenShift.
From S2P Require Import PolicyClient PolicyDaemonSets PolicyXpum.

Definition notAvailableStatus : string := "N/A".
Definition draNotEnabledMsg : string := "DRA is not enabled in the cluster, but ClusterPolicy requests it.".

(** What a sub-controller returns. *)
Abbreviation SubResult := (Result * option GoErr)%type.

Definition errOf {A} (r : res A) : option GoErr := match r with Ok _ => None | Err e => Some e end.

(** YAML, through [sigs.k8s.io/yaml]: the encoder, and the error of the decoder if any. *)
Class YamlCodec := {
  yamlMarshal : OTelConfig → res string;
  yamlUnmarshal : string → option GoErr;
}.

Section Deploy.
Context `{!Env, !PolicyEnv, !YamlCodec} (opts : ControllerOpts).

(** ** Shared *)

Definition allocatedTo (driverName : string) (claim : ResourceClaim) : bool :=
  match rc_allocation claim with
  | None => false
  | Some results => existsb (λ dev, bool_decide (ar_driver dev = driverName)) results
  end.

Definition anyAllocatedResourceClaims (driverName : string) : COp bool :=
  r ← ListClaims;
  mret match r with
       | Err _ => true
       | Ok claims => existsb (allocatedTo driverName) claims
       end.

(** [controllerutil.CreateOrPatch] of a DaemonSet with the mutation [f]. *)
Definition createOrPatchDaemonSet (ds : DaemonSet) (f : DaemonSet → DaemonSet) : COp (option GoErr) :=
  r ← GetDaemonSet (ds_Namespace ds) (ds_Name ds);
  match r with
  | Err e =>
      if isNotFound e then (c ← Create (ODaemonSet (f ds)); mret (errOf c)) else mret (Some e)
  | Ok cur =>
      if bool_decide (f cur = cur) then mret None
      else (p ← Patch (ODaemonSet (f cur)); mret (errOf p))
  end.

(** The service account, SCC, role and binding of a component, in that order. *)
Definition ensureOpenShift (crName part : string) (scc : SCC) (what : string) : COp (option GoErr) :=
  let n := BuildOpenShiftNames crName part in
  a ← CreateServiceAccount (os_saName n) (Namespace opts);
  match a with
  | Some e => mret (Some (wrapErr ("failed to ensure " +:+ what +:+ " ServiceAccount: ") e))
  | None =>
      b ← EnsureSCC scc;
      match b with
      | Some e => mret (Some (wrapErr ("failed to ensure " +:+ what +:+ " SCC: ") e))
      | None =>
          c ← CreateSCCRole (os_roleName n) (os_sccName n);
          match c with
          | Some e => mret (Some (wrapErr ("failed to ensure " +:+ what +:+ " SCC ClusterRole: ") e))
          | None =>
              d ← CreateSCCRoleBinding (os_bindingName n) (os_roleName n) (os_saName n) (Namespace opts);
              mret match d with
                   | Some e => Some (wrapErr ("failed to ensure " +:+ what +:+ " SCC ClusterRoleBinding: ") e)
                   | None => None
                   end
          end
      end
  end.

Definition cleanupOpenShift (crName part : string) : COp unit :=
  let n := BuildOpenShiftNames crName part in
  DeleteOpenShiftSCCResources (os_sccName n) (os_roleName n) (os_bindingName n) (os_saName n) (Namespace opts).

(** [removeDeploymentIfExists] of the device plugin and of the XPU manager: [status] records the removal. *)
Definition removeDaemonSet (part name : string) (status : ClusterPolicyStatus → ClusterPolicyStatus) : COp SubResult :=
  _ ← (if OpenShift opts then cleanupOpenShift (ReqName opts) part else mret tt);
  r ← Delete (mkRef KDaemonSet (Namespace opts) name);
  match r with
  | Err e => if isNotFound e then (_ ← onStatus status; mret (noResult, None)) else mret (noResult, Some e)
  | Ok _ => _ ← onStatus status; mret (noResult, None)
  end.

Definition readiness (ds : DaemonSet) : string := itoa (ds_NumberReady ds) +:+ "/" +:+ itoa (ds_DesiredNumberScheduled ds).

(** [updateStatus] of the three: [status] writes the text to its field. *)
Definition updateDaemonSetStatus (name : string) (status : string → ClusterPolicyStatus → ClusterPolicyStatus) : COp (option GoErr) :=
  r ← GetDaemonSet (Namespace opts) name;
  match r with
  | Err e => if isNotFound e then (_ ← onStatus (status notAvailableStatus); mret None) else mret (Some e)
  | Ok ds => _ ← onStatus (status (readiness ds)); mret None
  end.

(** ** Device plugin *)

Definition DpReconcile : COp SubResult :=
  m ← getMem;
  match m with
  | Some cp =>
      if shouldRemoveDevicePlugin m
      then removeDaemonSet dpResourcePart (dpDaemonSetName (ReqName opts)) (set_DevicePluginStatus notAvailableStatus)
      else
        o ← (if OpenShift opts then
               ensureOpenShift (cp_Name cp) dpResourcePart
                 (buildDevicePluginSCC (os_sccName (BuildOpenShiftNames (cp_Name cp) dpResourcePart))) "DP"
             else mret None);
        match o with
        | Some e => mret (noResult, Some e)
        | None =>
            c ← createOrPatchDaemonSet (buildDpDaemonSet opts cp) (updateDpDaemonSet opts cp);
            match c with
            | Some e => mret (noResult, Some e)
            | None => u ← updateDaemonSetStatus (dpDaemonSetName (cp_Name cp)) set_DevicePluginStatus; mret (noResult, u)
            end
        end
  | None => removeDaemonSet dpResourcePart (dpDaemonSetName (ReqName opts)) (set_DevicePluginStatus notAvailableStatus)
  end.

(** ** DRA driver *)

(** The creation loop: what exists already is left alone. *)
Fixpoint createMissing (l : list Obj) : COp (option GoErr) :=
  match l with
  | [] => mret None
  | o :: l' =>
      r ← Create o;
      match r with
      | Err e => if isAlreadyExists e then createMissing l' else mret (Some e)
      | Ok _ => createMissing l'
      end
  end.

(** The deletion loop. *)
Fixpoint deleteRefs (l : list Ref) : COp (option GoErr) :=
  match l with
  | [] => mret None
  | o :: l' =>
      r ← Delete o;
      match r with
      | Err e => if isNotFound e then deleteRefs l' else mret (Some e)
      | Ok _ => deleteRefs l'
      end
  end.

Definition draComponents (cp : ClusterPolicy) : list Obj :=
  let objName := draDaemonSetName (cp_Name cp) in
  let mb := dra_ManageBinding (cps_DynamicResourceAllocationSpec (cp_Spec cp)) in
  [OServiceAccount (Namespace opts) objName;
   ODraClusterRole objName;
   ODraClusterRoleBinding objName (Namespace opts) objName [(objName, Namespace opts)];
   ODeviceClass (DynamicResourceAllocationDeviceClass (negb mb));
   ODeviceClass (DynamicResourceAllocationDeviceClassVfio (negb mb));
   OAdmissionPolicy objName
     ("request.userInfo.username == " +:+ dq +:+ "system:serviceaccount:" +:+ Namespace opts +:+ ":" +:+ objName +:+ dq);
   OAdmissionPolicyBinding objName objName].

Definition createDependencyComponentsIfMissing (cp : ClusterPolicy) : COp (option GoErr) := createMissing (draComponents cp).

(** [CreateOrPatch] of a device class whose mutation writes the selectors back; errors are only logged. *)
Definition ensureDeviceClass (desired : DeviceClass) : COp unit :=
  r ← GetDeviceClass (dcl_Name desired);
  match r with
  | Err e => if isNotFound e then (_ ← Create (ODeviceClass desired); mret tt) else mret tt
  | Ok cur =>
      if bool_decide (dcl_Selectors cur = dcl_Selectors desired) then mret tt
      else (_ ← Patch (ODeviceClass (mkDeviceClass (dcl_Name cur) (dcl_Selectors desired) (dcl_ExtendedResourceName cur)));
            mret tt)
  end.

Definition ensureDrmDeviceClass (manageBinding : bool) : COp unit :=
  ensureDeviceClass (DynamicResourceAllocationDeviceClass (negb manageBinding)).
Definition ensureVfioDeviceClass (manageBinding : bool) : COp unit :=
  ensureDeviceClass (DynamicResourceAllocationDeviceClassVfio (negb manageBinding)).

Definition draObjects (crName : string) : list Ref :=
  let objName := draDaemonSetName crName in
  let n := BuildOpenShiftNames crName draResourcePart in
  [mkRef KServiceAccount (Namespace opts) objName; mkRef KClusterRole "" objName;
   mkRef KClusterRoleBinding (Namespace opts) objName; mkRef KDeviceClass "" GPUDeviceClass;
   mkRef KDeviceClass "" vfioGpuDeviceClass; mkRef KAdmissionPolicy "" objName; mkRef KAdmissionPolicyBinding "" objName;
   mkRef KDaemonSet (Namespace opts) objName]
  ++ (if OpenShift opts then
        [mkRef KSCC "" (os_sccName n); mkRef KClusterRole "" (os_roleName n); mkRef KClusterRoleBinding "" (os_bindingName n)]
      else []).

Definition deleteAll (crName : string) : COp (option GoErr) := deleteRefs (draObjects crName).

Definition draOpenShift (crName : string) : COp (option GoErr) :=
  let n := BuildOpenShiftNames crName draResourcePart in
  a ← EnsureSCC (buildDRASCC (os_sccName n));
  match a with
  | Some e => mret (Some e)
  | None =>
      b ← CreateSCCRole (os_roleName n) (os_sccName n);
      match b with
      | Some e => mret (Some e)
      | None => CreateSCCRoleBinding (os_bindingName n) (os_roleName n) (draDaemonSetName crName) (Namespace opts)
      end
  end.

Definition removeDra : COp SubResult :=
  b ← anyAllocatedResourceClaims GPUDeviceClass;
  if (b : bool) then mret (mkResult (RequeueDelay opts), Some (RequeueReconcileErr None))
  else
    d ← deleteAll (ReqName opts);
    match d with
    | Some e => mret (noResult, Some e)
    | None => _ ← onStatus (set_DRAStatus notAvailableStatus); mret (noResult, None)
    end.

Definition DraReconcile : COp SubResult :=
  m ← getMem;
  if negb (DRAEnable opts) then
    _ ← (match m with
         | Some cp => if bool_decide (cps_ResourceRegistration (cp_Spec cp) = resourceModeDRA) then addError draNotEnabledMsg
                      else mret tt
         | None => mret tt
         end);
    mret (noResult, None)
  else
    match m with
    | Some cp =>
        if shouldRemoveDRA m then removeDra
        else
          o ← (if OpenShift opts then draOpenShift (cp_Name cp) else mret None);
          match o with
          | Some e => mret (noResult, Some e)
          | None =>
              c ← createDependencyComponentsIfMissing cp;
              match c with
              | Some e => mret (noResult, Some e)
              | None =>
                  let mb := dra_ManageBinding (cps_DynamicResourceAllocationSpec (cp_Spec cp)) in
                  _ ← ensureDrmDeviceClass mb;
                  _ ← ensureVfioDeviceClass mb;
                  p ← createOrPatchDaemonSet (buildDraDaemonset opts cp) (updateDraDaemonSet opts cp);
                  match p with
                  | Some e => mret (noResult, Some e)
                  | None => u ← updateDaemonSetStatus (draDaemonSetName (cp_Name cp)) set_DRAStatus; mret (noResult, u)
                  end
              end
          end
    | None => removeDra
    end.

(** ** XPU manager *)

Definition buildOTelConfigData (cp : ClusterPolicy) : res string :=
  match yamlMarshal (otelConfigFor cp XpuManagerOTelConfig) with
  | Err e => Err (wrapErr "failed to marshal otel config: " e)
  | Ok s => Ok s
  end.

Definition nilMapPanic : GoErr := mkErr Panicked "assignment to entry in nil map".

Definition createOrUpdateOTelConfigMap (cp : ClusterPolicy) (cmName : string) : COp (res string) :=
  match buildOTelConfigData cp with
  | Err e => mret (Err e)
  | Ok data =>
      let configHash := otelConfigHash data in
      g ← GetConfigMap (Namespace opts) cmName;
      match g with
      | Err e =>
          if isNotFound e then
            s ← SetOwner (cp_Name cp) (mkRef KConfigMap (Namespace opts) cmName);
            match s with
            | Err se => mret (Err se)
            | Ok _ =>
                c ← Create (OConfigMap (mkConfigMap (Namespace opts) cmName {[ xpuLabel := xpuValue ]}
                                          (Some {[ otelConfigMapKey := data ]})));
                mret match c with Err ce => Err ce | Ok _ => Ok configHash end
            end
          else mret (Err e)
      | Ok existing =>
          if bool_decide (default "" (cm_Data existing ≫= lookup otelConfigMapKey) = data) then mret (Ok configHash)
          else
            match cm_Data existing with
            | None => mret (Err nilMapPanic)
            | Some m =>
                u ← Update (OConfigMap (mkConfigMap (cm_Namespace existing) (cm_Name existing) (cm_Labels existing)
                                          (Some (<[otelConfigMapKey := data]> m))));
                mret match u with Err ue => Err ue | Ok _ => Ok configHash end
            end
      end
  end.

Definition fetchConfigHashFromConfigMap (cmName : string) : COp (res string) :=
  g ← GetConfigMap (Namespace opts) cmName;
  match g with
  | Err e => mret (Err e)
  | Ok cm =>
      match cm_Data cm ≫= lookup otelConfigMapKey with
      | None => mret (Err (errorf ("override ConfigMap " +:+ cmName +:+ " does not contain key " +:+ otelConfigMapKey)))
      | Some data =>
          match yamlUnmarshal data with
          | Some e => mret (Err (wrapErr "failed to parse OTel config from override ConfigMap: " e))
          | None => mret (Ok (otelConfigHash data))
          end
      end
  end.

(** The name of the config map and the hash of its content. *)
Definition generateXpumdConfigEntries (cp : ClusterPolicy) : COp (res (string * string)) :=
  let override := xpu_ConfigMapOverride (cps_XpuManagerSpec (cp_Spec cp)) in
  if bool_decide (override = "") then
    let cmName := cp_Name cp +:+ "-xpumanager-otel-config" in
    r ← createOrUpdateOTelConfigMap cp cmName;
    mret match r with
         | Err e => Err (if isPanic e then e else wrapErr "unable to create or update otel ConfigMap: " e)
         | Ok h => Ok (cmName, h)
         end
  else
    r ← fetchConfigHashFromConfigMap override;
    mret match r with
         | Err e => Err (wrapErr "unable to fetch otel ConfigMap hash: " e)
         | Ok h => Ok (override, h)
         end.

Definition createMonitoringResourceClaim (cp : ClusterPolicy) (claimName : string) : COp (option GoErr) :=
  s ← SetOwner (cp_Name cp) (mkRef KClaimTemplate (Namespace opts) claimName);
  match s with
  | Err e => mret (Some e)
  | Ok _ =>
      c ← Create (OClaimTemplate (Namespace opts) claimName);
      mret match c with
           | Err e => if isAlreadyExists e then None else Some e
           | Ok _ => None
           end
  end.

Definition useDra (cp : ClusterPolicy) : bool :=
  DRAEnable opts && bool_decide (cps_ResourceRegistration (cp_Spec cp) = resourceModeDRA).

Definition draClaimFor (cp : ClusterPolicy) : string := if useDra cp then cp_Name cp +:+ "-monitor-claim" else "".

Definition XpumReconcile : COp SubResult :=
  m ← getMem;
  let remove := removeDaemonSet xpumResourcePart (xpumDaemonSetName (ReqName opts)) (set_XPUManagerStatus notAvailableStatus) in
  match m with
  | None => remove
  | Some cp =>
      if shouldRemoveXpumd m then remove
      else
        o ← (if OpenShift opts then
               ensureOpenShift (cp_Name cp) xpumResourcePart
                 (buildXpuManagerSCC (os_sccName (BuildOpenShiftNames (cp_Name cp) xpumResourcePart))) "XPUM"
             else mret None);
        match o with
        | Some e => mret (noResult, Some e)
        | None =>
            c ← (if useDra cp then createMonitoringResourceClaim cp (draClaimFor cp) else mret None);
            match c with
            | Some e => mret (noResult, Some e)
            | None =>
                g ← generateXpumdConfigEntries cp;
                match g with
                | Err e => mret (noResult, Some e)
                | Ok (cmName, configHash) =>
                    p ← createOrPatchDaemonSet (buildXpumDaemonSet opts cp (draClaimFor cp) cmName configHash)
                          (updateXpumDaemonSet opts cp (draClaimFor cp) cmName configHash);
                    match p with
                    | Some e => mret (noResult, Some e)
                    | None => u ← updateDaemonSetStatus (xpumDaemonSetName (cp_Name cp)) set_XPUManagerStatus; mret (noResult, u)
                    end
                end
            end
        end
  end.
End Deploy.
