(* ===== verification/PolicyKmm.v ===== *)
(** * ClusterPolicy: the kernel module controller

    [internal/controller/clusterpolicy/kmm_controller.go]. *)

From S2P Require Import Prelude GoStrings KubeTypes ApiTypes Common PolicyTypes PolicyObjects Client Drain OpenShift.
From S2P Require Import PolicyClient PolicyDaemonSets PolicyXpum PolicyDeploy.

Definition kmmModuleSuffix : string := "-gpu".
Definition kmmNotEnabledMsg : string := "KMM is not installed in the cluster.".
Definition kmmModuleName (cpName : string) : string := cpName +:+ kmmModuleSuffix.

(** The first occurrence of each string. *)
Fixpoint dedupeFrom (seen : gset string) (l : list string) : list string :=
  match l with
  | [] => []
  | v :: l' => if bool_decide (v ∈ seen) then dedupeFrom seen l' else v :: dedupeFrom ({[v]} ∪ seen) l'
  end.
Definition dedupeStrings (l : list string) : list string := dedupeFrom ∅ l.

Definition convertBuildSpec (src : KernelModuleBuildSpec) (selector : labels) : Build :=
  mkBuild (kb_DockerfileConfigMap src) (kb_Secrets src) selector ((λ a, (ba_Name a, ba_Value a)) <$> kb_BuildArgs src).

Definition tlsOptions (t : RegistryTLSSpec) : TLSOptions := mkTLSOptions (rt_Insecure t) (rt_InsecureSkipTLSVerify t).

Definition kernelMapping (km : KernelModuleSpec) (selector : labels) (m : KernelMappingSpec) : KernelMapping :=
  mkKernelMapping (kms_Regexp m) (kms_ContainerImage m)
    (if (0 <? length (kms_InTreeModulesToRemove m))%nat
     then dedupeStrings (km_ModuleName km :: kms_InTreeModulesToRemove m) else [])
    (tlsOptions <$> kms_RegistryTLS m)
    ((λ b, convertBuildSpec b selector) <$> kms_Build m).

Definition moduleLoaderContainer (km : KernelModuleSpec) (selector : labels) : ModuleLoaderContainerSpec :=
  mkModuleLoaderContainerSpec (km_ModuleName km) (km_FirmwarePath km) (km_ModulesLoadingOrder km) (km_Version km)
    [km_ModuleName km] "IfNotPresent"
    (match km_RegistryTLS km with Some t => tlsOptions t | None => mkTLSOptions false false end)
    (kernelMapping km selector <$> km_KernelMappings km).

(** [setModuleDesiredState] after the owner reference has been set, with [setModuleLoader]. *)
Definition desiredModule (opts : ControllerOpts) (cp : ClusterPolicy) (km : KernelModuleSpec) (md : KmmModule) : KmmModule :=
  let selector := generateNodeSelectorDriverless cp opts in
  mkKmmModule (mod_Name md) (mod_Namespace md) (mod_DeletionTimestamp md) (Some (cp_Name cp)) selector
    (generateTolerations cp) (cps_PullSecret (cp_Spec cp))
    (Some (mkModuleLoaderSpec (moduleLoaderContainer km selector) (ModuleLoaderServiceAccountName opts)))
    (mod_AvailableNumber md) (mod_DesiredNumber md).

Section Kmm.
Context `{!Env, !PolicyEnv} (opts : ControllerOpts).

Definition setModuleDesiredState (cp : ClusterPolicy) (km : KernelModuleSpec) (md : KmmModule) : COp (res KmmModule) :=
  s ← SetOwner (cp_Name cp) (mkRef KModule (mod_Namespace md) (mod_Name md));
  mret match s with
       | Err e => Err (wrapErr "failed to set controller reference: " e)
       | Ok _ => Ok (desiredModule opts cp km md)
       end.

(** [CreateOrPatch]: the object as it is left in memory, and the error. *)
Definition createOrPatchModule (cp : ClusterPolicy) (km : KernelModuleSpec) (md : KmmModule) : COp (KmmModule * option GoErr) :=
  g ← GetModule (mod_Namespace md) (mod_Name md);
  match g with
  | Err e =>
      if isNotFound e then
        d ← setModuleDesiredState cp km md;
        match d with
        | Err de => mret (md, Some de)
        | Ok m => c ← CreateModule m; mret match c with Ok m' => (m', None) | Err ce => (m, Some ce) end
        end
      else mret (md, Some e)
  | Ok cur =>
      d ← setModuleDesiredState cp km cur;
      match d with
      | Err de => mret (cur, Some de)
      | Ok m =>
          if bool_decide (m = cur) then mret (m, None)
          else (p ← PatchModule m; mret match p with Ok m' => (m', None) | Err pe => (m, Some pe) end)
      end
  end.

(** [(currentVersion == "") == (wanted == "")] *)
Definition sameEmptiness (a b : string) : bool := eqb (bool_decide (a = "")) (bool_decide (b = "")).

Definition currentVersion (md : KmmModule) : string :=
  match mod_ModuleLoader md with Some l => mlc_Version (ml_Container l) | None => "" end.

Definition requeueDelay : Result := mkResult (RequeueDelay opts).

(** [None]: the caller goes on; otherwise what it returns. *)
Definition recreateOnVersionToggle (km : KernelModuleSpec) (name : string) : COp (option SubResult) :=
  g ← GetModule (Namespace opts) name;
  match g with
  | Err e =>
      if isNotFound e then mret None
      else mret (Some (noResult, Some (wrapErr ("failed to get KMM Module " +:+ name +:+ ": ") e)))
  | Ok existing =>
      if sameEmptiness (currentVersion existing) (km_Version km) then mret None
      else if bool_decide (is_Some (mod_DeletionTimestamp existing)) then
        _ ← onStatus (set_KMMStatus "Recreating");
        mret (Some (requeueDelay, None))
      else
        b ← (if DRAEnable opts then anyAllocatedResourceClaims GPUDeviceClass else mret false);
        if (b : bool) then
          _ ← addError ("allocated GPU ResourceClaims blocking modules.kmm.sigs.x-k8s.io/" +:+ name
                        +:+ " recreation for version change");
          mret (Some (requeueDelay, Some (RequeueReconcileErr None)))
        else
          d ← Delete (mkRef KModule (mod_Namespace existing) (mod_Name existing));
          match d with
          | Err e =>
              if isNotFound e then
                _ ← onStatus (set_KMMStatus "Recreating"); mret (Some (requeueDelay, None))
              else mret (Some (noResult, Some (wrapErr ("failed to delete KMM Module " +:+ name +:+ " for version change: ") e)))
          | Ok _ => _ ← onStatus (set_KMMStatus "Recreating"); mret (Some (requeueDelay, None))
          end
  end.

Definition deleteModuleIfExists (name : string) : COp SubResult :=
  g ← GetModule (Namespace opts) name;
  match g with
  | Err e =>
      if isNotFound e then (_ ← onStatus (set_KMMStatus notAvailableStatus); mret (noResult, None))
      else mret (noResult, Some (wrapErr ("failed to get KMM Module " +:+ name +:+ ": ") e))
  | Ok md =>
      b ← (if DRAEnable opts then anyAllocatedResourceClaims GPUDeviceClass else mret false);
      if (b : bool) then
        _ ← addError ("allocated GPU ResourceClaims blocking modules.kmm.sigs.x-k8s.io/" +:+ name +:+ " deletion");
        mret (requeueDelay, Some (RequeueReconcileErr None))
      else if bool_decide (is_Some (mod_DeletionTimestamp md)) then
        _ ← onStatus (set_KMMStatus "Removing");
        _ ← addError ("modules.kmm.sigs.x-k8s.io/" +:+ name +:+ " is pending deletion");
        mret (requeueDelay, None)
      else
        d ← Delete (mkRef KModule (mod_Namespace md) (mod_Name md));
        mret match d with
             | Err e => if isNotFound e then (noResult, None)
                        else (noResult, Some (wrapErr ("failed to delete KMM Module " +:+ name +:+ ": ") e))
             | Ok _ => (noResult, None)
             end
  end.

(** [updateStatus], reached only with a kernel module in the policy. *)
Definition updateKmmStatus (md : KmmModule) : COp unit :=
  let counts := itoa (mod_AvailableNumber md) +:+ "/" +:+ itoa (mod_DesiredNumber md) in
  _ ← onStatus (set_KMMStatus counts);
  if (0 <? mod_DesiredNumber md)%Z && (mod_AvailableNumber md <? mod_DesiredNumber md)%Z
  then addError ("module loader not fully available (" +:+ counts +:+ ") for modules.kmm.sigs.x-k8s.io/" +:+ mod_Name md)
  else mret tt.

Definition KmmReconcile : COp SubResult :=
  m ← getMem;
  let moduleName := kmmModuleName (ReqName opts) in
  let km := m ≫= (λ cp, cps_KernelModule (cp_Spec cp)) in
  if negb (KMMEnable opts) then
    _ ← (match km with Some _ => addError kmmNotEnabledMsg | None => mret tt end);
    mret (noResult, None)
  else
    match m, km with
    | Some cp, Some km =>
        t ← recreateOnVersionToggle km moduleName;
        match t with
        | Some r => mret r
        | None =>
            c ← createOrPatchModule cp km
                  (mkKmmModule moduleName (Namespace opts) None None ∅ [] None None 0 0);
            _ ← updateKmmStatus c.1;
            match c.2 with
            | Some e =>
                mret (noResult, Some (wrapErr ("failed to reconcile KMM Module " +:+ moduleName +:+ " for ClusterPolicy "
                                               +:+ cp_Name cp +:+ ": ") e))
            | None => mret (noResult, None)
            end
        end
    | _, _ => deleteModuleIfExists moduleName
    end.
End Kmm.
