(* ===== verification/PolicyMisc.v ===== *)
(** * ClusterPolicy: node feature rules, Prometheus objects and Kueue queues

    [internal/controller/clusterpolicy/misc_controller.go], with the rule of
    [config/deployments/nfd/node-feature-rules-gpu.yaml].  A read that succeeds but cannot be converted to its
    type is a failed read. *)

From S2P Require Import Prelude GoStrings KubeTypes ApiTypes Common PolicyTypes PolicyObjects Client Drain OpenShift.
From S2P Require Import PolicyClient PolicyDaemonSets PolicyXpum PolicyDeploy.

Definition nfdRuleName : string := "intel-gpu-devices".
Definition nfdRuleCrd : string := "nodefeaturerules.nfd.k8s-sigs.io".
Definition serviceMonitorCrd : string := "servicemonitors.monitoring.coreos.com".
Definition gpuResourceName : string := "gpu.intel.com".
Definition draResourceName : string := "dra." +:+ gpuResourceName.
Definition kueueResourceFlavorCrd : string := "resourceflavors.kueue.x-k8s.io".
Definition kueueClusterQueueCrd : string := "clusterqueues.kueue.x-k8s.io".
Definition kueueLocalQueueCrd : string := "localqueues.kueue.x-k8s.io".
Definition kueueFlavorName : string := gpuResourceName +:+ "-kueue-flavor".
Definition kueueAppLabel : string := gpuResourceName +:+ "-kueue-queue".

(** ** The node feature rule *)

Definition opIn (vs : list string) : json := JObj [("op", JStr "In"); ("value", JList (JStr <$> vs))].
Definition pciDevice (exprs : list (string * json)) : json :=
  JObj [("feature", JStr "pci.device"); ("matchExpressions", JObj (("vendor", opIn ["8086"]) :: exprs))].
Definition displayClasses : json := pciDevice [("class", opIn ["0300"; "0380"])].
Definition accelerators : json :=
  pciDevice [("class", opIn ["1200"]); ("device", opIn ["674c"; "674d"; "674e"; "674f"; "6750"; "6751"])].
Definition nfdLabels (l : list (string * string)) : json := JObj ((λ kv : string * string, (kv.1, JStr kv.2)) <$> l).
Definition productRule (name product arch : string) (devices : list string) : json :=
  JObj [("name", JStr name);
        ("labels", nfdLabels [("gpu.intel.com/product", product); ("gpu.intel.com/architecture", arch)]);
        ("matchFeatures", JList [pciDevice [("class", opIn ["0300"]); ("device", opIn devices)]])].

Definition nfdRuleSpec : json :=
  JObj [("rules", JList
    [JObj [("name", JStr "intel.gpu"); ("labels", nfdLabels [(nfdGpuWithDriver, "true")]);
           ("matchAny", JList
              [JObj [("matchFeatures", JList
                 [displayClasses;
                  JObj [("feature", JStr "kernel.enabledmodule"); ("matchName", opIn ["i915"; "xe"])]])];
               JObj [("matchFeatures", JList
                 [accelerators;
                  JObj [("feature", JStr "kernel.enabledmodule");
                        ("matchExpressions", JObj [("xe", JObj [("op", JStr "Exists")])])]])]])];
     JObj [("name", JStr "intel.gpu.without-driver"); ("labels", nfdLabels [(nfdGpuWithoutDriver, "true")]);
           ("matchAny", JList [JObj [("matchFeatures", JList [displayClasses])]; JObj [("matchFeatures", JList [accelerators])]])];
     productRule "intel.gpu.pro.b50" "Arc_Pro_B50" "Xe2" ["e212"];
     productRule "intel.gpu.pro.b60" "Arc_Pro_B60" "Xe2" ["e211"];
     productRule "intel.gpu.pro.b65" "Arc_Pro_B65" "Xe2" ["e222"];
     productRule "intel.gpu.pro.b70" "Arc_Pro_B70" "Xe2" ["e223"];
     productRule "intel.gpu.b370" "Arc_B370" "Xe3" ["b081"; "b083"; "b085"; "b087"];
     productRule "intel.gpu.b390" "Arc_B390" "Xe3" ["b080"; "b082"; "b084"; "b086"];
     productRule "intel.gpu.b570" "Arc_B570" "Xe2" ["e20c"];
     productRule "intel.gpu.b580" "Arc_B580" "Xe2" ["e20b"]])].

Definition nfdRuleLabels (owner : string) : labels := <["app" := "nfd-gpu"]> {[ "owner" := owner ]}.

Definition createNfdRule (cp : ClusterPolicy) (namespace : string) : NodeFeatureRule :=
  mkNodeFeatureRule nfdRuleName namespace (nfdRuleLabels (cp_Name cp)) nfdRuleSpec.

Definition NamespaceScoped : string := "Namespaced".

Definition monitorLabels (owner : string) : labels := <["app" := "intel-xpumanager"]> {[ "owner" := owner ]}.
Definition kueueLabels (owner : string) : labels := <["app" := kueueAppLabel]> {[ "owner" := owner ]}.

(** ** Amounts *)

(** An amount is kept in billionths; its whole units are rounded away from zero. *)
Definition wholeUnits (q : Quantity) : Z := (Z.sgn q * ((Z.abs q + 999999999) / 1000000000))%Z.

Definition fitsInt64 (z : Z) : Prop := (int64_min ≤ z ≤ int64_max)%Z.
#[global] Instance fitsInt64_dec z : Decision (fitsInt64 z).
Proof. unfold fitsInt64. apply _. Defined.

(** [Quantity.Value], an [int64]: the whole units, where they fit. *)
Definition quantityValue `{!PolicyEnv} (q : Quantity) : Z :=
  if bool_decide (fitsInt64 (wholeUnits q)) then wholeUnits q else wrap64 (penv_overflowValue q).
Definition NewQuantity (v : Z) : Quantity := (v * 1000000000)%Z.

Abbreviation clusterResourceMap := (gmap string Quantity).

Definition addToResource (resources : clusterResourceMap) (kind : string) (quantity : Quantity) : clusterResourceMap :=
  <[kind := (default 0 (resources !! kind) + quantity)%Z]> resources.

Definition allocatable (n : KueueNode) (kind : string) : Quantity := default 0%Z (kn_Allocatable n !! kind).

Definition addNodeResources (resources : clusterResourceMap) (n : KueueNode) : clusterResourceMap :=
  addToResource (addToResource resources "cpu" (allocatable n "cpu")) "memory" (allocatable n "memory").

(** The body of the loop over the nodes of [getDevicePluginResources]. *)
Definition addDevicePluginNode (resources : clusterResourceMap) (n : KueueNode) : clusterResourceMap :=
  let add r kind := match kn_Allocatable n !! kind with Some q => addToResource r kind q | None => r end in
  let r := add (add resources I915Resource) XeResource in
  if bool_decide (is_Some (kn_Allocatable n !! I915Resource)) || bool_decide (is_Some (kn_Allocatable n !! XeResource))
  then addNodeResources r n else r.

Definition nodeMap (l : list KueueNode) : gmap string KueueNode := list_to_map (reverse ((λ n, (kn_Name n, n)) <$> l)).

(** What one queue gets of one kind: [None] leaves the kind out, an error ends the division. *)
Definition divideShare `{!PolicyEnv} (numQueues i : Z) (kind : string) (quantity : Quantity) : option Quantity + GoErr :=
  if (quantity =? 0)%Z then inl None
  else
    let v := quantityValue quantity in
    let value := (Z.quot v numQueues + (if (i <? Z.rem v numQueues)%Z then 1 else 0))%Z in
    if (value <? 1)%Z then
      inr (errorf ("unable to create " +:+ itoa numQueues +:+ " queues using " +:+ itoa v +:+ " '" +:+ kind +:+ "' reources"))
    else inl (Some (NewQuantity value)).

(** One queue's resources, the kinds visited in the order given. *)
Fixpoint divideQueue `{!PolicyEnv} (numQueues i : Z) (l : list (string * Quantity)) : clusterResourceMap + GoErr :=
  match l with
  | [] => inl ∅
  | (kind, q) :: l' =>
      match divideShare numQueues i kind q with
      | inr e => inr e
      | inl share =>
          match divideQueue numQueues i l' with
          | inr e => inr e
          | inl m => inl match share with Some v => <[kind := v]> m | None => m end
          end
      end
  end.

Definition nilPointerPanic : GoErr := mkErr Panicked "invalid memory address or nil pointer dereference".

(** [addResourceFromResourceSlice]: the resources, and the node the slice contributes. *)
Definition addResourceFromResourceSlice (rs : KueueSlice) (resources : clusterResourceMap) (clusterNodes : gmap string KueueNode) :
    res (clusterResourceMap * option string) :=
  match ksl_NodeName rs with
  | None => Err nilPointerPanic
  | Some nodeName =>
      if bool_decide (clusterNodes !! nodeName = None) then Ok (resources, None)
      else if negb (bool_decide (ksl_Driver rs = gpuResourceName)) then Ok (resources, None)
      else
        let devices := filter (λ b, b = true) (ksl_Devices rs) in
        Ok (foldl (λ r _, addToResource r draResourceName (NewQuantity 1)) resources devices,
            if (0 <? length devices)%nat then Some nodeName else None)
  end.

Fixpoint addSlices (l : list KueueSlice) (resources : clusterResourceMap) (addNodes : list string)
    (clusterNodes : gmap string KueueNode) : res (clusterResourceMap * list string) :=
  match l with
  | [] => Ok (resources, addNodes)
  | rs :: l' =>
      match addResourceFromResourceSlice rs resources clusterNodes with
      | Err e => Err e
      | Ok (resources', n) => addSlices l' resources' (addNodes ++ match n with Some x => [x] | None => [] end) clusterNodes
      end
  end.

Section Misc.
Context `{!Env, !PolicyEnv} (opts : ControllerOpts) (CrdNames : list string).

Definition checkIfCRDsExists (crdName : string) : bool := bool_decide (crdName ∈ CrdNames).

(** ** Prometheus *)

Fixpoint deleteEach (l : list Ref) : COp (option GoErr) :=
  match l with
  | [] => mret None
  | o :: l' => r ← Delete o; match r with Err e => mret (Some e) | Ok _ => deleteEach l' end
  end.

Definition reconcilePrometheusComponents (cp : ClusterPolicy) : COp (option GoErr) :=
  if negb (checkIfCRDsExists serviceMonitorCrd) then mret None
  else
    let ns := Namespace opts in
    let matchLabels := monitorLabels (cp_Name cp) in
    ms ← ListServiceMonitors ns matchLabels;
    match ms with
    | Err e => mret (Some e)
    | Ok monitors =>
        ss ← ListServices ns matchLabels;
        match ss with
        | Err e => mret (Some e)
        | Ok services =>
            let monitorAndProm := cps_ResourceMonitoring (cp_Spec cp) && cps_PrometheusIntegration (cp_Spec cp) in
            if ((length monitors =? 0)%nat || (length services =? 0)%nat) && monitorAndProm then
              createMissing [OServiceMonitor ns "intel-xpumanager" matchLabels [ns]; OService ns "intel-xpumanager" matchLabels]
            else if ((0 <? length monitors)%nat || (0 <? length services)%nat) && negb monitorAndProm then
              deleteEach ((mkRef KServiceMonitor ns <$> monitors) ++ (mkRef KService ns <$> services))
            else mret None
        end
    end.

Definition removePrometheusComponents : COp (option GoErr) :=
  if negb (checkIfCRDsExists serviceMonitorCrd) then mret None
  else deleteRefs [mkRef KServiceMonitor (Namespace opts) "intel-xpumanager"; mkRef KService (Namespace opts) "intel-xpumanager"].

(** ** Node feature rules *)

Definition getNFDCRDScope : COp (res string) :=
  r ← GetCRDScope nfdRuleCrd;
  mret match r with
       | Err e => Err (wrapErr ("unable to get NFD CRD " +:+ nfdRuleCrd +:+ ": ") e)
       | Ok s => Ok s
       end.

Definition nfrNamespace (scope : string) : string := if bool_decide (scope = NamespaceScoped) then Namespace opts else "".

Definition deleteNfdRule (scope : string) : COp (option GoErr) :=
  d ← Delete (mkRef KNodeFeatureRule (nfrNamespace scope) nfdRuleName);
  mret match d with Err e => if isNotFound e then None else Some e | Ok _ => None end.

Definition reconcileNfdRules (cp : ClusterPolicy) : COp (option GoErr) :=
  s ← getNFDCRDScope;
  match s with
  | Err e => mret (if isNotFound e then None else Some e)
  | Ok scope =>
      if cps_UseNFDLabeling (cp_Spec cp) then
        g ← GetNodeFeatureRule (nfrNamespace scope) nfdRuleName;
        match g with
        | Err e =>
            if isNotFound e then
              c ← Create (ONodeFeatureRule (createNfdRule cp (nfrNamespace scope))); mret (errOf c)
            else mret (Some e)
        | Ok nfr =>
            let fromPolicy := createNfdRule cp "" in
            if bool_decide (nfr_Spec nfr = nfr_Spec fromPolicy) then mret None
            else
              u ← Update (ONodeFeatureRule (mkNodeFeatureRule (nfr_Name nfr) (nfr_Namespace nfr) (nfr_Labels nfr)
                                              (nfr_Spec fromPolicy)));
              mret (errOf u)
        end
      else deleteNfdRule scope
  end.

Definition removeNfdRules : COp (option GoErr) :=
  s ← getNFDCRDScope;
  match s with
  | Err e => mret (if isNotFound e then None else Some e)
  | Ok scope => deleteNfdRule scope
  end.

(** ** Kueue *)

(** [IgnoreAlreadyExists] of a create or update. *)
Definition unlessExists (r : res unit) : option GoErr :=
  match r with Err e => if isAlreadyExists e then None else Some e | Ok _ => None end.

Definition getClusterNodes : COp (res (gmap string KueueNode)) :=
  r ← ListKueueNodes;
  mret match r with Err e => Err e | Ok l => Ok (nodeMap l) end.

Definition getDevicePluginResources (clusterNodes : gmap string KueueNode) : COp clusterResourceMap :=
  l ← rangeMap (map_to_list clusterNodes);
  mret (foldl (λ r kn, addDevicePluginNode r kn.2) ∅ l).

Definition getDraResources (clusterNodes : gmap string KueueNode) : COp (res (option clusterResourceMap)) :=
  r ← ListKueueSlices;
  mret match r with
       | Err _ => Ok None
       | Ok slices =>
           match addSlices slices ∅ [] clusterNodes with
           | Err e => Err e
           | Ok (resources, addNodes) =>
               Ok (Some (foldl (λ r n, match clusterNodes !! n with Some node => addNodeResources r node | None => r end)
                           resources addNodes))
           end
       end.

Definition divideResources (resources : clusterResourceMap) (numQueues : nat) : COp (res (list clusterResourceMap)) :=
  o ← foldUntil (λ acc i,
        l ← rangeMap (map_to_list resources);
        mret match divideQueue (Z.of_nat numQueues) (Z.of_nat i) l with
             | inl m => inl (acc ++ [m])
             | inr e => inr e
             end) [] (seq 0 numQueues);
  mret match o with inl l => Ok l | inr e => Err e end.

Definition createResourceFlavor (owner : string) : ResourceFlavor := mkResourceFlavor kueueFlavorName (kueueLabels owner).

Definition modifyResourceFlavor (owner : string) : COp (option GoErr) :=
  g ← GetResourceFlavor kueueFlavorName;
  match g with
  | Err e =>
      if isNotFound e then (c ← Create (OResourceFlavor (createResourceFlavor owner)); mret (unlessExists c))
      else mret (Some (errorf ("cannot fetch Kueue '" +:+ kueueFlavorName +:+ "': " +:+ etext e)))
  | Ok cur =>
      if bool_decide (rf_Labels cur !! "app" = Some kueueAppLabel) && bool_decide (default "" (rf_Labels cur !! "owner") = owner)
      then mret None
      else
        u ← Update (OResourceFlavor (mkResourceFlavor (rf_Name cur) (<["app" := kueueAppLabel]> (<["owner" := owner]> (rf_Labels cur)))));
        mret match u with
             | Err e => Some (errorf ("unable to update labels for Kueue ResourceFlavor '" +:+ kueueFlavorName +:+ "': " +:+ etext e))
             | Ok _ => None
             end
  end.

Definition createLocalQueue (owner clusterQueueName : string) (lq : LocalQueueSpec) : LocalQueue :=
  mkLocalQueue (lq_Name lq) (lq_Namespace lq) (Some (kueueLabels owner)) clusterQueueName JNull.

(** The labels of an existing queue with the operator's added; a nil map cannot be written to. *)
Definition addLabels (cur : option labels) (new : labels) : res labels :=
  match cur with Some l => Ok (new ∪ l) | None => Err nilMapPanic end.

Definition modifyLocalQueue (owner clusterQueueName : string) (lq : LocalQueueSpec) : COp (option GoErr) :=
  g ← GetLocalQueue (lq_Namespace lq) (lq_Name lq);
  let new := createLocalQueue owner clusterQueueName lq in
  match g with
  | Err e =>
      if isNotFound e then (c ← Create (OLocalQueue new); mret (unlessExists c))
      else mret (Some (errorf ("cannot fetch Kueue LocalQueue '" +:+ lq_Name lq +:+ "': " +:+ etext e)))
  | Ok cur =>
      if bool_decide (klq_ClusterQueue cur = klq_ClusterQueue new ∧ klq_rest cur = klq_rest new)
         && bool_decide (klq_Labels cur = klq_Labels new)
      then mret None
      else
        match addLabels (klq_Labels cur) (kueueLabels owner) with
        | Err e => mret (Some e)
        | Ok l =>
            u ← Update (OLocalQueue (mkLocalQueue (klq_Name cur) (klq_Namespace cur) (Some l) (klq_ClusterQueue new) (klq_rest new)));
            mret (unlessExists u)
        end
  end.

Fixpoint modifyLocalQueues (owner clusterQueueName : string) (l : list LocalQueueSpec) : COp (option GoErr) :=
  match l with
  | [] => mret None
  | lq :: l' =>
      r ← modifyLocalQueue owner clusterQueueName lq;
      match r with Some e => mret (Some e) | None => modifyLocalQueues owner clusterQueueName l' end
  end.

(** The spec fields the operator leaves at their zero value, with the empty namespace selector. *)
Definition clusterQueueRest : json := JObj [("namespaceSelector", JObj [])].

Definition createClusterQueue (owner : string) (resources : clusterResourceMap) (cq : ClusterQueueSpec) : COp ClusterQueue :=
  l ← rangeMap (map_to_list resources);
  mret (mkClusterQueue (cq_Name cq) (Some (kueueLabels owner)) (l.*1) kueueFlavorName l clusterQueueRest).

Definition sameQueueSpec (a b : ClusterQueue) : bool :=
  bool_decide (kcq_CoveredResources a = kcq_CoveredResources b ∧ kcq_Flavor a = kcq_Flavor b ∧ kcq_Quotas a = kcq_Quotas b ∧
               kcq_rest a = kcq_rest b).

Definition modifyOneClusterQueue (owner : string) (resources : clusterResourceMap) (cq : ClusterQueueSpec) : COp (option GoErr) :=
  g ← GetClusterQueue (cq_Name cq);
  match g with
  | Err e =>
      if isNotFound e then
        new ← createClusterQueue owner resources cq;
        c ← Create (OClusterQueue new);
        mret (unlessExists c)
      else mret (Some (errorf ("cannot fetch Kueue '" +:+ cq_Name cq +:+ "': " +:+ etext e)))
  | Ok cur =>
      new ← createClusterQueue owner resources cq;
      if sameQueueSpec cur new && bool_decide (kcq_Labels cur = kcq_Labels new) then mret None
      else
        match addLabels (kcq_Labels cur) (kueueLabels owner) with
        | Err e => mret (Some e)
        | Ok l =>
            u ← Update (OClusterQueue (mkClusterQueue (kcq_Name cur) (Some l) (kcq_CoveredResources new) (kcq_Flavor new)
                                         (kcq_Quotas new) (kcq_rest new)));
            mret (unlessExists u)
        end
  end.

Fixpoint modifyQueues (owner : string) (l : list (ClusterQueueSpec * clusterResourceMap)) : COp (option GoErr) :=
  match l with
  | [] => mret None
  | (cq, resources) :: l' =>
      r ← modifyOneClusterQueue owner resources cq;
      match r with
      | Some e => mret (Some e)
      | None =>
          q ← modifyLocalQueues owner (cq_Name cq) (cq_LocalQueues cq);
          match q with Some e => mret (Some e) | None => modifyQueues owner l' end
      end
  end.

(** Deletes the listed objects that are not expected; the error text names the object. *)
Fixpoint deleteStale (what : Ref → string) (l : list Ref) : COp (option GoErr) :=
  match l with
  | [] => mret None
  | o :: l' =>
      d ← Delete o;
      match d with
      | Err e => if isNotFound e then deleteStale what l' else mret (Some (errorf (what o +:+ etext e)))
      | Ok _ => deleteStale what l'
      end
  end.

Definition expectedClusterQueues (k : option KueueQueueSpec) : list string :=
  match k with Some k => cq_Name <$> kq_EqualResources k | None => [] end.
Definition expectedLocalQueues (k : option KueueQueueSpec) : list (string * string) :=
  match k with
  | Some k => mbind (λ cq, (λ lq, (lq_Name lq, lq_Namespace lq)) <$> cq_LocalQueues cq) (kq_EqualResources k)
  | None => []
  end.

Definition cleanupStaleKueueQueues (owner : string) (k : option KueueQueueSpec) : COp (option GoErr) :=
  c ← ListClusterQueues (kueueLabels owner);
  match c with
  | Err e => mret (Some (errorf ("failed to list Kueue ClusterQueues for cleanup: " +:+ etext e)))
  | Ok cqs =>
      d ← deleteStale (λ o, "unable to delete stale Kueue ClusterQueue '" +:+ ref_Name o +:+ "': ")
            (mkRef KClusterQueue "" <$> filter (λ n, n ∉ expectedClusterQueues k) cqs);
      match d with
      | Some e => mret (Some e)
      | None =>
          q ← ListLocalQueues (kueueLabels owner);
          match q with
          | Err e => mret (Some (errorf ("failed to list Kueue LocalQueues for cleanup: " +:+ etext e)))
          | Ok lqs =>
              deleteStale (λ o, "unable to delete stale Kueue LocalQueue '" +:+ ref_Namespace o +:+ "/" +:+ ref_Name o +:+ "': ")
                ((λ nn : string * string, mkRef KLocalQueue nn.2 nn.1) <$> filter (λ nn, nn ∉ expectedLocalQueues k) lqs)
          end
      end
  end.

Definition modifyClusterQueue (owner : string) (resources : clusterResourceMap) (k : KueueQueueSpec) : COp (option GoErr) :=
  if (length (kq_EqualResources k) =? 0)%nat then cleanupStaleKueueQueues owner (Some k)
  else
    d ← divideResources resources (length (kq_EqualResources k));
    match d with
    | Err e => mret (Some e)
    | Ok shares =>
        m ← modifyQueues owner (zip (kq_EqualResources k) shares);
        match m with
        | Some e => mret (Some e)
        | None => cleanupStaleKueueQueues owner (Some k)
        end
    end.

Definition createKueueQueues (owner : string) (resources : clusterResourceMap) (k : KueueQueueSpec) : COp (option GoErr) :=
  f ← modifyResourceFlavor owner;
  match f with
  | Some e => mret (Some e)
  | None => modifyClusterQueue owner resources k
  end.

Definition removeKueueObjects (crName : string) : COp (option GoErr) :=
  if negb (checkIfCRDsExists kueueClusterQueueCrd) then mret None
  else
    _ ← DeleteAllOf KResourceFlavor (kueueLabels crName);
    cleanupStaleKueueQueues crName None.

Definition reconcileKueueObjects (cp : ClusterPolicy) : COp (option GoErr) :=
  let s := cp_Spec cp in
  if negb (forallb checkIfCRDsExists [kueueResourceFlavorCrd; kueueClusterQueueCrd; kueueLocalQueueCrd]) then mret None
  else if negb (cps_EnableKueue s) then removeKueueObjects (cp_Name cp)
  else
    match cps_Kueue s with
    | None => cleanupStaleKueueQueues (cp_Name cp) None
    | Some k =>
        if (length (kq_EqualResources k) =? 0)%nat then cleanupStaleKueueQueues (cp_Name cp) (Some k)
        else
          n ← getClusterNodes;
          match n with
          | Err e => mret (Some e)
          | Ok clusterNodes =>
              r ← (if bool_decide (cps_ResourceRegistration s = "dp") then
                     (x ← getDevicePluginResources clusterNodes; mret (Ok (Some x)))
                   else if bool_decide (cps_ResourceRegistration s = "dra") then getDraResources clusterNodes
                   else mret (Ok None));
              match r with
              | Err e => mret (Some e)
              | Ok None => mret None
              | Ok (Some resources) =>
                  if bool_decide (resources = ∅) then mret None else createKueueQueues (cp_Name cp) resources k
              end
          end
    end.

(** ** The sub-controller *)

Definition MiscReconcile : COp SubResult :=
  m ← getMem;
  match m with
  | Some cp =>
      if bool_decide (is_Some (cp_DeletionTimestamp cp)) then
        a ← removeNfdRules;
        b ← removePrometheusComponents;
        c ← removeKueueObjects (ReqName opts);
        mret (noResult, match c with Some e => Some e | None => match b with Some e => Some e | None => a end end)
      else
        a ← reconcilePrometheusComponents cp;
        match a with
        | Some e => mret (noResult, Some e)
        | None =>
            b ← reconcileNfdRules cp;
            match b with
            | Some e => mret (noResult, Some e)
            | None => c ← reconcileKueueObjects cp; mret (noResult, c)
            end
        end
  | None =>
      a ← removeNfdRules;
      b ← removePrometheusComponents;
      c ← removeKueueObjects (ReqName opts);
      mret (noResult, match c with Some e => Some e | None => match b with Some e => Some e | None => a end end)
  end.
End Misc.
