(* ===== verification/PolicyController.v ===== *)
(** * ClusterPolicy: the reconciler

    [internal/controller/clusterpolicy/clusterpolicy_controller.go]: one pass over a ClusterPolicy, through the
    five sub-controllers, with the finalizer and the deferred status write. *)

From S2P Require Import Prelude GoStrings KubeTypes ApiTypes Common PolicyTypes PolicyObjects Client Drain OpenShift.
From S2P Require Import PolicyClient PolicyDaemonSets PolicyXpum PolicyDeploy PolicyKmm PolicyMisc.

Definition clusterPolicyFinalizer : string := "gpu.intel.com/clusterpolicy-protection".
Definition maxKeptErrors : nat := 10.

(** [for len(l) > n { l = l[1:] }] *)
Definition keepLast (n : nat) (l : list string) : list string := drop (length l - n) l.

Definition recordError (err : GoErr) (st : ClusterPolicyStatus) : ClusterPolicyStatus :=
  set_Errors (keepLast maxKeptErrors (cpst_Errors st) ++ [etext err]) st.

(** The options with the request's name and the ready label of its kernel module. *)
Definition optsFor (o : ControllerOpts) (name : string) : ControllerOpts :=
  mkControllerOpts name (Namespace o) (SecretName o) (RequeueDelay o) (DRAEnable o) (OpenShift o) (KMMEnable o)
    (ModuleLoaderServiceAccountName o)
    (if KMMEnable o then "kmm.node.kubernetes.io/" +:+ Namespace o +:+ "." +:+ kmmModuleName name +:+ ".ready"
     else KMMModuleReadyLabel o).

Definition withoutReadyLabel (o : ControllerOpts) : ControllerOpts :=
  mkControllerOpts (ReqName o) (Namespace o) (SecretName o) (RequeueDelay o) (DRAEnable o) (OpenShift o) (KMMEnable o)
    (ModuleLoaderServiceAccountName o) "".

Section Controller.
Context `{!Env, !PolicyEnv, !YamlCodec} (Opts : ControllerOpts).

Definition retrieveCRDNameList : COp (res (list string)) := ListCRDs.

Definition subControllers (opts : ControllerOpts) (crdNames : list string) : list (COp SubResult) :=
  [DpReconcile opts; XpumReconcile opts; DraReconcile opts; MiscReconcile opts crdNames; KmmReconcile (withoutReadyLabel opts)].

(** How the deletion loop ends: all went through, or it returned. *)
Fixpoint runForDeletion (l : list (COp SubResult)) : COp (option SubResult) :=
  match l with
  | [] => mret None
  | sub :: l' =>
      r ← sub;
      match r.2 with
      | None => runForDeletion l'
      | Some e => mret (Some (if isRequeue e then (r.1, None) else (noResult, Some e)))
      end
  end.

(** The delegation loop: errors are recorded and do not stop it, a requeue request or a panic does.  [retErr]
    is the last error. *)
Fixpoint runAll (retErr : option GoErr) (l : list (COp SubResult)) : COp SubResult :=
  match l with
  | [] => mret (noResult, retErr)
  | sub :: l' =>
      r ← sub;
      match r.2 with
      | None => runAll retErr l'
      | Some e =>
          if isPanic e then mret (noResult, Some e)
          else if isRequeue e then mret (r.1, None)
          else (_ ← onStatus (recordError e); runAll (Some e) l')
      end
  end.

(** The deferred status write; [orig] is [None] when there was no policy, or the write is suppressed. *)
Definition deferredStatus (orig : option ClusterPolicyStatus) : COp unit :=
  m ← getMem;
  match orig, m with
  | Some o, Some cp =>
      if bool_decide (o = cp_Status cp) then mret tt
      else
        u ← UpdatePolicyStatus cp;
        match u with Ok cp' => putMem (Some cp') | Err _ => mret tt end
  | _, _ => mret tt
  end.

(** The finalizer of a live policy; an error ends the pass. *)
Definition ensureFinalizer : COp (option GoErr) :=
  m ← getMem;
  match m with
  | Some cp =>
      if bool_decide (cp_DeletionTimestamp cp = None) && negb (bool_decide (clusterPolicyFinalizer ∈ cp_Finalizers cp)) then
        _ ← putMem (Some (set_cp_Finalizers (cp_Finalizers cp ++ [clusterPolicyFinalizer]) cp));
        u ← UpdatePolicy (set_cp_Finalizers (cp_Finalizers cp ++ [clusterPolicyFinalizer]) cp);
        match u with
        | Err e => mret (Some e)
        | Ok cp' => _ ← putMem (Some cp'); mret None
        end
      else mret None
  | None => mret None
  end.

(** The end of a deletion: the finalizer goes, and with it the deferred write. *)
Definition finishDeletion : COp SubResult :=
  m ← getMem;
  match m with
  | Some cp =>
      let cp' := set_cp_Finalizers (filter (λ f, f ≠ clusterPolicyFinalizer) (cp_Finalizers cp)) cp in
      _ ← putMem (Some cp');
      u ← UpdatePolicy cp';
      match u with
      | Err e => mret (noResult, if isNotFound e then None else Some e)
      | Ok cp'' => _ ← putMem (Some cp''); mret (noResult, None)
      end
  | None => mret (noResult, None)
  end.

(** The body between the read and the deferred write: what is returned, and whether the status write still
    stands. *)
Definition policyBody (name : string) : COp (SubResult * bool) :=
  c ← retrieveCRDNameList;
  match c with
  | Err e => mret ((noResult, Some e), true)
  | Ok crdNames =>
      let subs := subControllers (optsFor Opts name) crdNames in
      f ← ensureFinalizer;
      match f with
      | Some e => mret ((noResult, Some e), true)
      | None =>
          m ← getMem;
          match m with
          | Some cp =>
              if bool_decide (is_Some (cp_DeletionTimestamp cp)) then
                r ← runForDeletion subs;
                match r with
                | Some x => mret (x, true)
                | None => x ← finishDeletion; mret (x, false)
                end
              else (x ← runAll None subs; mret (x, true))
          | None => x ← runAll None subs; mret (x, true)
          end
      end
  end.

Definition PolicyReconcile (name : string) : COp SubResult :=
  g ← GetPolicy name;
  match g with
  | Err e =>
      if isNotFound e then
        _ ← putMem None;
        r ← policyBody name;
        mret r.1
      else mret (noResult, Some e)
  | Ok cp =>
      _ ← putMem (Some (set_cp_Status (set_Errors [] (cp_Status cp)) cp));
      r ← policyBody name;
      _ ← deferredStatus (if (r.2 : bool) then Some (cp_Status cp) else None);
      mret r.1
  end.

(** ** Watches *)

Definition draPodToClusterPolicy : COp (list string) :=
  r ← ListAllPolicies;
  mret match r with Err _ => [] | Ok l => cp_Name <$> l end.

Definition isDRAPod (l : labels) : bool := bool_decide (l !! "app" = Some draValue).

(** The status of the first Ready condition of a pod. *)
Fixpoint isPodReady (conditions : list (string * string)) : bool :=
  match conditions with
  | [] => false
  | (t, s) :: l => if bool_decide (t = "Ready") then bool_decide (s = ConditionTrue) else isPodReady l
  end.

Inductive PodEvent :=
| PodCreated (l : labels)
| PodUpdated (newLabels : labels) (old new : list (string * string))
| PodDeleted (l : labels)
| PodGeneric.

Definition draPodReadinessPredicate (e : PodEvent) : bool :=
  match e with
  | PodCreated l | PodDeleted l => isDRAPod l
  | PodUpdated l old new => isDRAPod l && negb (eqb (isPodReady old) (isPodReady new))
  | PodGeneric => false
  end.
End Controller.
