(* ===== verification/PolicyScenario.v ===== *)
(** * ClusterPolicy: a concrete API server

    Answers for the requests of the ClusterPolicy controllers from a fixed content, on which the theorems are
    tried: reads show the content, writes succeed. *)

From S2P Require Import Prelude GoStrings KubeTypes ApiTypes Common PolicyTypes PolicyObjects Client Drain Cluster.
From S2P Require Import PolicyClient PolicyDaemonSets PolicyXpum PolicyDeploy.

Record PolicyCluster := mkPolicyCluster {
  pc_policy : option ClusterPolicy;
  pc_crds : list string;
  pc_daemonSets : list DaemonSet;
  pc_module : option KmmModule;
  pc_nodes : list KueueNode;
  pc_slices : list KueueSlice;
  pc_clusterQueues : list ClusterQueue;
}.

Definition found {A} (what : string) (o : option A) : res A := match o with Some a => Ok a | None => Err (notFound what) end.

Definition policyEnv (c : PolicyCluster) : PolicyEnv :=
  {| penv_getPolicy _ n := found n (pc_policy c);
     penv_updatePolicy _ p := Ok p;
     penv_updatePolicyStatus _ p := Ok p;
     penv_listPolicies _ := Ok (option_list (pc_policy c));
     penv_listCRDs _ := Ok (pc_crds c);
     penv_getCRDScope _ n := found n (if bool_decide (n ∈ pc_crds c) then Some "Cluster" else None);
     penv_getDaemonSet _ ns n := found n (head (filter (λ d, ds_Name d = n) (pc_daemonSets c)));
     penv_getModule _ ns n := found n (pc_module c);
     penv_createModule _ m := Ok m;
     penv_patchModule _ m := Ok m;
     penv_getConfigMap _ ns n := found n None;
     penv_getDeviceClass _ n := found n None;
     penv_getNodeFeatureRule _ ns n := found n None;
     penv_getResourceFlavor _ n := found n None;
     penv_getClusterQueue _ n := found n (head (filter (λ q, kcq_Name q = n) (pc_clusterQueues c)));
     penv_getLocalQueue _ ns n := found n None;
     penv_listServiceMonitors _ ns l := Ok [];
     penv_listServices _ ns l := Ok [];
     penv_listClusterQueues _ l := Ok (kcq_Name <$> pc_clusterQueues c);
     penv_listLocalQueues _ l := Ok [];
     penv_listNodes _ := Ok (pc_nodes c);
     penv_listSlices _ := Ok (pc_slices c);
     penv_setControllerReference _ o r := Ok tt;
     penv_create _ o := Ok tt;
     penv_update _ o := Ok tt;
     penv_patch _ o := Ok tt;
     penv_delete _ o := Ok tt;
     penv_deleteAllOf _ k l := Ok tt;
     penv_overflowValue q := (q / 1000000000)%Z |}.

Definition emptyStatus : ClusterPolicyStatus := mkClusterPolicyStatus "" "" "" "" [].

(** A policy in one of the two registration modes, with monitoring, logs and OTLP export on or off. *)
Definition samplePolicy (mode : string) (full : bool) : ClusterPolicy :=
  mkClusterPolicy "policy" None ["gpu.intel.com/clusterpolicy-protection"]
    (mkClusterPolicySpec mode full false false false None None
       (mkDynamicResourceAllocationSpec "dra:1" 0 full false None)
       (mkDevicePluginSpec "plugin:1" "levelzero:1" [] [] "" 0 None)
       (mkXpuManagerSpec "xpum:1" 0 "" (if full then "xe_monitoring" else "") None "" full full
          (if full then
             Some (mkOTLPSpec None (Some (mkOTLPExporterSpec "https://gw:4317"
               [mkOTLPHeader "Authorization" (mkKeySelector "otlp" "token")]
               (Some (mkOTLPTLSSpec (Some (mkKeySelector "roots" "pem")) (Some "client") "" false)))))
           else None))
       (Some "pull-secret") ∅ [] 0 None (mkCDISpec "/etc/cdi" "/var/run/cdi"))
    emptyStatus.

Definition sampleOpts : ControllerOpts := mkControllerOpts "policy" "gpu-operator" "" (15 * Second) true false false "" "".
