(* ===== verification/PolicyDeployFacts.v ===== *)
(** * ClusterPolicy: what the deployed DaemonSets look like *)

From S2P Require Import Prelude GoStrings Sha256 KubeTypes ApiTypes Common PolicyTypes PolicyObjects Client Drain.
From S2P Require Import OpenShift Cluster PolicyClient PolicyDaemonSets PolicyXpum PolicyDeploy PolicyScenario.

(** ** Editing a policy leaves no residue

    A DaemonSet in the cluster was created from its manifest and patched for one policy after another; the API
    server changes its status in between. *)

Definition withStatus (ready desired : Z) (ds : DaemonSet) : DaemonSet :=
  mkDaemonSet (ds_Name ds) (ds_Namespace ds) (ds_Labels ds) (ds_Annotations ds) (ds_Spec ds) ready desired.

Inductive managed {C} (update : C → DaemonSet → DaemonSet) (manifest : DaemonSet) (ok : C → Prop) : DaemonSet → Prop :=
| managed_created c : ok c → managed update manifest ok (update c manifest)
| managed_patched c ds : ok c → managed update manifest ok ds → managed update manifest ok (update c ds)
| managed_status ready desired ds :
    managed update manifest ok ds → managed update manifest ok (withStatus ready desired ds).

(** One update forgets all earlier ones. *)
Class Forgetful {C} (update : C → DaemonSet → DaemonSet) (manifest : DaemonSet) (ok : C → Prop) : Prop := {
  forget_update : ∀ c c', ok c → update c' (update c manifest) = update c' manifest;
  forget_status : ∀ c ready desired ds, update c (withStatus ready desired ds) = withStatus ready desired (update c ds);
}.

Section Managed.
Context {C} (update : C → DaemonSet → DaemonSet) (manifest : DaemonSet) (ok : C → Prop) `{!Forgetful update manifest ok}.

Lemma managed_shape ds :
  managed update manifest ok ds → ∃ c ready desired, ok c ∧ ds = withStatus ready desired (update c manifest).
Proof.
  induction 1 as [c Hc|c ds Hc _ (c0 & r & d & Hc0 & ->)|r d ds _ (c0 & r0 & d0 & Hc0 & ->)].
  - exists c, (ds_NumberReady (update c manifest)), (ds_DesiredNumberScheduled (update c manifest)).
    split; [done|]. by destruct (update c manifest).
  - exists c, r, d. split; [done|]. by rewrite forget_status, forget_update.
  - by exists c0, r, d.
Qed.

Lemma managed_converges ds c :
  managed update manifest ok ds →
  update c ds = withStatus (ds_NumberReady ds) (ds_DesiredNumberScheduled ds) (update c manifest).
Proof.
  intros Hm. destruct (managed_shape ds Hm) as (c0 & r & d & Hc0 & ->). by rewrite forget_status, forget_update.
Qed.
End Managed.

(** *** Device plugin *)

Lemma DaemonSet_ext n ns l l' a sp sp' r d : l = l' → sp = sp' → mkDaemonSet n ns l a sp r d = mkDaemonSet n ns l' a sp' r d.
Proof. by intros -> ->. Qed.

Section Forget.
Context (opts : ControllerOpts).

#[global] Instance dp_forgetful : Forgetful (updateDpDaemonSet opts) DevicePluginDaemonset (λ _, True).
Proof.
  split; [|done]. intros c c' _. unfold updateDpDaemonSet.
  unfold onSpec, setMeta. cbn [ds_Name ds_Namespace ds_Labels ds_Annotations ds_Spec ds_NumberReady ds_DesiredNumberScheduled].
  apply DaemonSet_ext; [apply insert_insert_eq|].
  destruct (cps_ResourceMonitoring (cp_Spec c)), (cps_ResourceMonitoring (cp_Spec c')), (OpenShift opts); reflexivity.
Qed.

#[global] Instance dra_forgetful : Forgetful (updateDraDaemonSet opts) DynamicResourceAllocationDaemonset (λ _, True).
Proof.
  split; [|done]. intros c c' _. unfold updateDraDaemonSet.
  unfold onSpec, setMeta. cbn [ds_Name ds_Namespace ds_Labels ds_Annotations ds_Spec ds_NumberReady ds_DesiredNumberScheduled].
  apply DaemonSet_ext; [apply insert_insert_eq|].
  destruct (dra_PodHealthCheck (cps_DynamicResourceAllocationSpec (cp_Spec c))),
    (dra_PodHealthCheck (cps_DynamicResourceAllocationSpec (cp_Spec c'))), (OpenShift opts); reflexivity.
Qed.

(** *** XPU manager *)

(** What the XPU manager's DaemonSet is made from: the policy, the claim template, the config map and its hash. *)
Record XpumInput := mkXpumInput { xi_cp : ClusterPolicy; xi_claim : string; xi_config : string; xi_hash : string }.

Definition updateXpum (x : XpumInput) : DaemonSet → DaemonSet :=
  updateXpumDaemonSet opts (xi_cp x) (xi_claim x) (xi_config x) (xi_hash x).

(** The values the API server lets through for [monitoringResource]. *)
Definition monitoringValues : list string := ["i915_monitoring"; "xe_monitoring"; "monitoring"; ""].
Definition xpumInputOK (x : XpumInput) : Prop := xpu_MonitoringResource (cps_XpuManagerSpec (cp_Spec (xi_cp x))) ∈ monitoringValues.

Definition optionalVolume (name : string) (o : option VolumeSource) : list Volume :=
  match o with Some s => [mkVolume name s] | None => [] end.
Definition optionalMount (name path : string) (ro : bool) (o : option VolumeSource) : list VolumeMount :=
  match o with Some _ => [mkVolumeMount name path ro] | None => [] end.

Definition xpumExporter (cp : ClusterPolicy) : option OTLPExporterSpec := snd <$> otlpExporter (cps_XpuManagerSpec (cp_Spec cp)).
Definition crashSource (cp : ClusterPolicy) : option VolumeSource :=
  if xpu_CrashLog (cps_XpuManagerSpec (cp_Spec cp)) then Some (VSHostPath crashlogHostDir (Some "DirectoryOrCreate")) else None.
Definition traceSource (cp : ClusterPolicy) : option VolumeSource :=
  if xpu_InfoLogs (cps_XpuManagerSpec (cp_Spec cp)) then Some (VSHostPath tracefsHostDir (Some "Directory")) else None.

(** The pod specification written out: the volumes and mounts of the four options in a fixed order, the resources
    without those of earlier policies. *)
Definition xpumVolumes (x : XpumInput) : list Volume :=
  [mkVolume "config" (configSource (xi_config x)); mkVolume "rundir" (VSHostPath "/run/xpumd" (Some "DirectoryOrCreate"))]
  ++ optionalVolume crashlogVolume (crashSource (xi_cp x)) ++ optionalVolume tracefsVolume (traceSource (xi_cp x))
  ++ optionalVolume otlpCAVolume (xpumExporter (xi_cp x) ≫= caSource)
  ++ optionalVolume otlpClientCertVolume (xpumExporter (xi_cp x) ≫= clientCertSource).
Definition xpumMounts (x : XpumInput) : list VolumeMount :=
  [mkVolumeMount "config" otelConfigMountDir true; mkVolumeMount "rundir" "/run/xpumd" false]
  ++ optionalMount crashlogVolume crashlogHostDir true (crashSource (xi_cp x))
  ++ optionalMount tracefsVolume tracefsHostDir false (traceSource (xi_cp x))
  ++ optionalMount otlpCAVolume otlpCAMountDir true (xpumExporter (xi_cp x) ≫= caSource)
  ++ optionalMount otlpClientCertVolume otlpClientCertMountDir true (xpumExporter (xi_cp x) ≫= clientCertSource).

Definition baseLimits : gmap string string := list_to_map [("cpu", "100m"); ("memory", "512Mi")].
Definition baseRequests : gmap string string := list_to_map [("cpu", "10m"); ("memory", "128Mi")].
Definition withMonitoring (x : XpumInput) (m : gmap string string) : gmap string string :=
  if bool_decide (xi_claim x = "") then
    <[monResourcePrefix +:+ "/" +:+
      (if bool_decide (xpu_MonitoringResource (cps_XpuManagerSpec (cp_Spec (xi_cp x))) = "") then "monitoring"
       else xpu_MonitoringResource (cps_XpuManagerSpec (cp_Spec (xi_cp x)))) := "1"]> m
  else m.

Definition xpumSecurity : json :=
  JObj [("readOnlyRootFilesystem", JBool true); ("allowPrivilegeEscalation", JBool false); ("runAsUser", JStr "0");
        ("capabilities", JObj [("drop", JList [JStr "ALL"]); ("add", JList [JStr "SYS_ADMIN"])])].

Definition xpumContainer (x : XpumInput) : DContainer :=
  mkDContainer "xpumd" (xpu_Image (cps_XpuManagerSpec (cp_Spec (xi_cp x)))) ["--config=/etc/xpumd/config.yaml"]
    (default [] (otlpEnv <$> xpumExporter (xi_cp x))) [("http", 8080%Z)] None None
    (Some (withMonitoring x baseLimits)) (Some (withMonitoring x baseRequests))
    (if bool_decide (xi_claim x = "") then [] else [monClaim]) (xpumMounts x)
    (Some (mkSecurityContext (if OpenShift opts then Some "spc_t" else None) xpumSecurity)).

Definition xpumSpec (x : XpumInput) : DPodSpec :=
  mkDPodSpec (if OpenShift opts then os_saName (BuildOpenShiftNames (cp_Name (xi_cp x)) xpumResourcePart) else "")
    (generateNodeSelector (xi_cp x) opts) (generateTolerations (xi_cp x))
    (generateAffinity (xpu_Affinity (cps_XpuManagerSpec (cp_Spec (xi_cp x))))) (pullSecrets opts (xi_cp x)) (xpumVolumes x)
    [xpumContainer x] (if bool_decide (xi_claim x = "") then [] else [(monClaim, Some (xi_claim x))]).

Lemma env_dropped e : filter (λ v, hasPrefix (env_Name v) otlpHeaderEnvPrefix = false) (default [] (otlpEnv <$> e)) = [].
Proof.
  destruct e as [e|]; [|done]. simpl. unfold otlpEnv. generalize 0 as k.
  assert (∀ k (l : list OTLPHeader), filter (λ v, hasPrefix (env_Name v) otlpHeaderEnvPrefix = false)
    (imap (λ i h, mkEnvVar (otlpHeaderEnvName (k + i)) (EnvSecret (oh_ValueFrom h))) l) = []) as Hall.
  { intros k l. revert k. induction l as [|h l IH]; intros k; [done|]. simpl. rewrite filter_cons_False.
    - specialize (IH (S k)). erewrite imap_ext; [exact IH|]. intros i x _. unfold compose. do 2 f_equal. lia.
    - discriminate. }
  intros _. apply (Hall 0).
Qed.

Lemma monitoring_key x : xpumInputOK x →
  isMonitoring (monResourcePrefix +:+ "/" +:+
    (if bool_decide (xpu_MonitoringResource (cps_XpuManagerSpec (cp_Spec (xi_cp x))) = "") then "monitoring"
     else xpu_MonitoringResource (cps_XpuManagerSpec (cp_Spec (xi_cp x))))) = true.
Proof.
  unfold xpumInputOK, monitoringValues. generalize (xpu_MonitoringResource (cps_XpuManagerSpec (cp_Spec (xi_cp x)))). intros m Hm.
  repeat (apply elem_of_cons in Hm as [->|Hm]; [done|]). by apply not_elem_of_nil in Hm.
Qed.

Lemma monitoring_dropped x m : xpumInputOK x → removePrevMonitoring (withMonitoring x m) = removePrevMonitoring m.
Proof.
  intros Hx. unfold withMonitoring. case_bool_decide; [|done]. unfold removePrevMonitoring. apply map_filter_insert_not.
  intros y. cbn [fst]. by rewrite monitoring_key.
Qed.

Lemma DPodSpec_ext p q :
  dps_ServiceAccountName p = dps_ServiceAccountName q → dps_NodeSelector p = dps_NodeSelector q →
  dps_Tolerations p = dps_Tolerations q → dps_Affinity p = dps_Affinity q → dps_ImagePullSecrets p = dps_ImagePullSecrets q →
  dps_Volumes p = dps_Volumes q → dps_Containers p = dps_Containers q → dps_ResourceClaims p = dps_ResourceClaims q → p = q.
Proof. destruct p, q. simpl. by intros -> -> -> -> -> -> -> ->. Qed.

Lemma DContainer_ext c d :
  dc_Name c = dc_Name d → dc_Image c = dc_Image d → dc_Args c = dc_Args d → dc_Env c = dc_Env d → dc_Ports c = dc_Ports d →
  dc_StartupProbe c = dc_StartupProbe d → dc_LivenessProbe c = dc_LivenessProbe d → dc_Limits c = dc_Limits d →
  dc_Requests c = dc_Requests d → dc_Claims c = dc_Claims d → dc_VolumeMounts c = dc_VolumeMounts d →
  dc_SecurityContext c = dc_SecurityContext d → c = d.
Proof. destruct c, d. simpl. by intros -> -> -> -> -> -> -> -> -> -> -> ->. Qed.

Definition xpumSpecUpdate (x : XpumInput) (p : DPodSpec) : DPodSpec := ds_Spec (updateXpum x (mkDaemonSet "" "" ∅ ∅ p 0 0)).

(** Volumes and mounts: what an earlier policy left is replaced, in the same order. *)
Definition putVolume (name : string) (o : option VolumeSource) (l : list Volume) : list Volume :=
  filter (λ v, vol_Name v ≠ name) l ++ optionalVolume name o.
Definition putMount (name path : string) (ro : bool) (o : option VolumeSource) (l : list VolumeMount) : list VolumeMount :=
  filter (λ m, vm_Name m ≠ name) l ++ optionalMount name path ro o.
Definition putConfig (cm : string) (l : list Volume) : list Volume :=
  dps_Volumes (processXpumdConfigMapMount cm (mkDPodSpec "" ∅ [] None [] l [] [])).

Lemma volumes_replaced cm s a b c d a' b' c' d' :
  let rundir := mkVolume "rundir" (VSHostPath "/run/xpumd" (Some "DirectoryOrCreate")) in
  putVolume otlpClientCertVolume d' (putVolume otlpCAVolume c' (putVolume tracefsVolume b' (putVolume crashlogVolume a'
    (putConfig cm ([mkVolume "config" s; rundir] ++ optionalVolume crashlogVolume a ++ optionalVolume tracefsVolume b
      ++ optionalVolume otlpCAVolume c ++ optionalVolume otlpClientCertVolume d))))) =
  [mkVolume "config" (configSource cm); rundir] ++ optionalVolume crashlogVolume a' ++ optionalVolume tracefsVolume b'
    ++ optionalVolume otlpCAVolume c' ++ optionalVolume otlpClientCertVolume d'.
Proof. destruct a, b, c, d, a', b', c', d'; reflexivity. Qed.

Lemma mounts_replaced a b c d a' b' c' d' :
  let base := [mkVolumeMount "config" otelConfigMountDir true; mkVolumeMount "rundir" "/run/xpumd" false] in
  let opt a b c d := optionalMount crashlogVolume crashlogHostDir true a ++ optionalMount tracefsVolume tracefsHostDir false b
    ++ optionalMount otlpCAVolume otlpCAMountDir true c ++ optionalMount otlpClientCertVolume otlpClientCertMountDir true d in
  let config l := ((λ m, if bool_decide (vm_Name m = xpumdConfigVolume) then mkVolumeMount (vm_Name m) otelConfigMountDir true else m) <$> l)
    ++ (if existsb (λ m, bool_decide (vm_Name m = xpumdConfigVolume)) l then [] else [mkVolumeMount xpumdConfigVolume otelConfigMountDir true]) in
  putMount otlpClientCertVolume otlpClientCertMountDir true d' (putMount otlpCAVolume otlpCAMountDir true c'
    (putMount tracefsVolume tracefsHostDir false b' (putMount crashlogVolume crashlogHostDir true a'
      (config (base ++ opt a b c d))))) = base ++ opt a' b' c' d'.
Proof. destruct a, b, c, d, a', b', c', d'; reflexivity. Qed.

Lemma limits_replaced x y m :
  xpumInputOK y → removePrevMonitoring m = m →
  (if bool_decide (xi_claim x = "") then
     Some (<[monResourcePrefix +:+ "/" +:+
       (if bool_decide (xpu_MonitoringResource (cps_XpuManagerSpec (cp_Spec (xi_cp x))) = "") then "monitoring"
        else xpu_MonitoringResource (cps_XpuManagerSpec (cp_Spec (xi_cp x)))) := "1"]>
       (default ∅ (removePrevMonitoring <$> Some (withMonitoring y m))))
   else removePrevMonitoring <$> Some (withMonitoring y m)) = Some (withMonitoring x m).
Proof.
  intros Hy Hm. cbn [fmap option_fmap option_map default]. rewrite monitoring_dropped, Hm by done. unfold withMonitoring.
  by case_bool_decide.
Qed.

(** What the update does to the one container. *)
Definition xpumContUpdate (x : XpumInput) (c : DContainer) : DContainer :=
  let exp := xpumExporter (xi_cp x) in
  let xspec := cps_XpuManagerSpec (cp_Spec (xi_cp x)) in
  let c1 := xpumdResources xspec (xi_claim x) (setImage (xpu_Image xspec) c) in
  let c2 := onMounts (λ l,
      ((λ m, if bool_decide (vm_Name m = xpumdConfigVolume) then mkVolumeMount (vm_Name m) otelConfigMountDir true else m) <$> l)
      ++ (if existsb (λ m, bool_decide (vm_Name m = xpumdConfigVolume)) l then []
          else [mkVolumeMount xpumdConfigVolume otelConfigMountDir true])) c1 in
  let c3 := onMounts (putMount crashlogVolume crashlogHostDir true (crashSource (xi_cp x))) c2 in
  let c4 := onMounts (putMount tracefsVolume tracefsHostDir false (traceSource (xi_cp x))) c3 in
  let c5 := onMounts (putMount otlpCAVolume otlpCAMountDir true (exp ≫= caSource)) c4 in
  let c6 := onMounts (putMount otlpClientCertVolume otlpClientCertMountDir true (exp ≫= clientCertSource)) c5 in
  onEnv (λ l, filter (λ e, hasPrefix (env_Name e) otlpHeaderEnvPrefix = false) l ++ default [] (otlpEnv <$> exp)) c6.

Definition one (p : DPodSpec) (c : DContainer) : Prop := dps_Containers p = [c] ∧ dc_Name c = xpumdContainerName.

Lemma one_onXpumd f p c : (∀ d, dc_Name (f d) = dc_Name d) → one p c → one (onXpumd f p) (f c).
Proof.
  intros Hf [Hp Hc]. split; [|by rewrite Hf]. unfold onXpumd, onContainers. cbn [dps_Containers]. rewrite Hp. simpl.
  by rewrite bool_decide_true.
Qed.
Lemma one_onVolumes g p c : one p c → one (onVolumes g p) c.
Proof. done. Qed.

Lemma xpumdResources_name xs cl c : dc_Name (xpumdResources xs cl c) = dc_Name c.
Proof. unfold xpumdResources. by case_bool_decide. Qed.

Lemma process_one x p c : one p c → one (processXpum (xi_cp x) (xi_claim x) (xi_config x) p) (xpumContUpdate x c).
Proof.
  intros Hp. unfold processXpum, processXpumdOTLP, processXpumdLogMounts, setXpumdHostPathMount, setXpumdVolume,
    processXpumdConfigMapMount, processContainerResources, xpumContUpdate. fold (xpumExporter (xi_cp x)).
  repeat first [apply one_onXpumd; [by intros; first [done|apply xpumdResources_name]|]|apply one_onVolumes].
  destruct Hp as [Hp Hc]. split; [|done]. cbn [dps_Containers onContainers setResourceClaims]. by rewrite Hp.
Qed.

Lemma process_volumes x p :
  dps_Volumes (processXpum (xi_cp x) (xi_claim x) (xi_config x) p) =
  putVolume otlpClientCertVolume (xpumExporter (xi_cp x) ≫= clientCertSource)
    (putVolume otlpCAVolume (xpumExporter (xi_cp x) ≫= caSource) (putVolume tracefsVolume (traceSource (xi_cp x))
      (putVolume crashlogVolume (crashSource (xi_cp x)) (putConfig (xi_config x) (dps_Volumes p))))).
Proof. reflexivity. Qed.

Definition manifestContainer : DContainer :=
  mkDContainer "xpumd" "changed.io/by/the/operator:reconcile" ["--config=/etc/xpumd/config.yaml"] [] [("http", 8080%Z)]
    None None (Some baseLimits) (Some baseRequests) []
    [mkVolumeMount "config" "/etc/xpumd" true; mkVolumeMount "rundir" "/run/xpumd" false]
    (Some (mkSecurityContext None xpumSecurity)).

(** The containers an update may find: the manifest's, or that of an earlier policy. *)
Inductive xpumSeen : DContainer → Prop :=
| seen_manifest : xpumSeen manifestContainer
| seen_updated y : xpumInputOK y → xpumSeen (xpumContainer y).

Definition openShiftType (c : DContainer) : DContainer := if OpenShift opts then withSELinuxType "spc_t" c else c.

Lemma limits_manifest x m : removePrevMonitoring m = m →
  (if bool_decide (xi_claim x = "") then
     Some (<[monResourcePrefix +:+ "/" +:+
       (if bool_decide (xpu_MonitoringResource (cps_XpuManagerSpec (cp_Spec (xi_cp x))) = "") then "monitoring"
        else xpu_MonitoringResource (cps_XpuManagerSpec (cp_Spec (xi_cp x)))) := "1"]>
       (default ∅ (removePrevMonitoring <$> Some m)))
   else removePrevMonitoring <$> Some m) = Some (withMonitoring x m).
Proof. intros Hm. cbn [fmap option_fmap option_map default]. rewrite Hm. unfold withMonitoring. by case_bool_decide. Qed.

Lemma base_kept : removePrevMonitoring baseLimits = baseLimits ∧ removePrevMonitoring baseRequests = baseRequests.
Proof. split; vm_compute; reflexivity. Qed.

Lemma update_resources x c :
  dc_Limits (xpumContUpdate x c) = dc_Limits (xpumdResources (cps_XpuManagerSpec (cp_Spec (xi_cp x))) (xi_claim x) c) ∧
  dc_Requests (xpumContUpdate x c) = dc_Requests (xpumdResources (cps_XpuManagerSpec (cp_Spec (xi_cp x))) (xi_claim x) c) ∧
  dc_Claims (xpumContUpdate x c) = (if bool_decide (xi_claim x = "") then [] else [monClaim]).
Proof. split_and!; unfold xpumContUpdate, xpumdResources; by case_bool_decide. Qed.
Lemma seen_settled x c : xpumSeen c →
  dc_Limits (xpumContUpdate x c) = Some (withMonitoring x baseLimits) ∧
  dc_Requests (xpumContUpdate x c) = Some (withMonitoring x baseRequests) ∧
  dc_VolumeMounts (xpumContUpdate x c) = xpumMounts x ∧
  dc_Env (xpumContUpdate x c) = default [] (otlpEnv <$> xpumExporter (xi_cp x)).
Proof.
  destruct base_kept as [Hl Hr]. destruct (update_resources x c) as (-> & -> & _). intros Hc.
  split_and!.
  - destruct Hc as [|y Hy]; [rewrite <-(limits_manifest x _ Hl)|rewrite <-(limits_replaced x y _ Hy Hl)];
      unfold xpumdResources; by case_bool_decide.
  - destruct Hc as [|y Hy]; [rewrite <-(limits_manifest x _ Hr)|rewrite <-(limits_replaced x y _ Hy Hr)];
      unfold xpumdResources; by case_bool_decide.
  - unfold xpumContUpdate, xpumdResources. destruct Hc as [|y Hy].
    + case_bool_decide; apply (mounts_replaced None None None None).
    + case_bool_decide; apply mounts_replaced.
  - unfold xpumContUpdate, xpumdResources. destruct Hc as [|y Hy].
    + by case_bool_decide.
    + case_bool_decide; cbn [dc_Env onEnv onMounts setResources setImage xpumContainer]; by rewrite env_dropped.
Qed.

Lemma container_settled x c : xpumSeen c → openShiftType (xpumContUpdate x c) = xpumContainer x.
Proof.
  intros Hc. destruct (seen_settled x c Hc) as (Hl & Hr & Hm & He). destruct (update_resources x c) as (_ & _ & Hcl).
  assert (dc_Name (xpumContUpdate x c) = "xpumd" ∧ dc_Args (xpumContUpdate x c) = ["--config=/etc/xpumd/config.yaml"] ∧
    dc_Ports (xpumContUpdate x c) = [("http", 8080%Z)] ∧ dc_Image (xpumContUpdate x c) = xpu_Image (cps_XpuManagerSpec (cp_Spec (xi_cp x))) ∧
    dc_StartupProbe (xpumContUpdate x c) = None ∧ dc_LivenessProbe (xpumContUpdate x c) = None) as (Hn & Ha & Hp & Hi & Hs & Hv).
  { unfold xpumContUpdate, xpumdResources. case_bool_decide; by destruct Hc. }
  assert (∃ t, dc_SecurityContext (xpumContUpdate x c) = Some (mkSecurityContext t xpumSecurity) ∧ (OpenShift opts = false → t = None))
    as (t & Ht & Ht0).
  { destruct Hc as [|y Hy]; (eexists; split; [unfold xpumContUpdate, xpumdResources; case_bool_decide; reflexivity|]).
    - done. - by intros ->. }
  generalize dependent (xpumContUpdate x c). intros u. intros. unfold openShiftType.
  destruct (OpenShift opts) eqn:Ho; apply DContainer_ext; cbn; rewrite ?Ho; try done.
  - by rewrite Ht.
  - rewrite Ht. by rewrite Ht0.
Qed.

Lemma finish_fields cp p :
  dps_NodeSelector (finishXpum opts cp p) = generateNodeSelector cp opts ∧
  dps_Tolerations (finishXpum opts cp p) = generateTolerations cp ∧
  dps_Affinity (finishXpum opts cp p) = generateAffinity (xpu_Affinity (cps_XpuManagerSpec (cp_Spec cp))) ∧
  dps_ImagePullSecrets (finishXpum opts cp p) = pullSecrets opts cp ∧
  dps_Volumes (finishXpum opts cp p) = dps_Volumes p ∧
  dps_ResourceClaims (finishXpum opts cp p) = dps_ResourceClaims p ∧
  dps_ServiceAccountName (finishXpum opts cp p) =
    (if OpenShift opts then os_saName (BuildOpenShiftNames (cp_Name cp) xpumResourcePart) else dps_ServiceAccountName p) ∧
  ∀ c, dps_Containers p = [c] → dps_Containers (finishXpum opts cp p) = [openShiftType c].
Proof.
  unfold finishXpum, openShiftType. destruct (OpenShift opts); split_and!; try done.
  intros c Hc. unfold onFirst, onContainers. cbn [dps_Containers setServiceAccount setPullSecrets setPlacement]. by rewrite Hc.
Qed.

Lemma spec_settled x p c s a b o o' :
  dps_Containers p = [c] → xpumSeen c → dps_ServiceAccountName p = (if OpenShift opts then dps_ServiceAccountName p else "") →
  dps_Volumes p = [mkVolume "config" s; mkVolume "rundir" (VSHostPath "/run/xpumd" (Some "DirectoryOrCreate"))]
    ++ optionalVolume crashlogVolume a ++ optionalVolume tracefsVolume b
    ++ optionalVolume otlpCAVolume o ++ optionalVolume otlpClientCertVolume o' →
  finishXpum opts (xi_cp x) (processXpum (xi_cp x) (xi_claim x) (xi_config x) p) = xpumSpec x.
Proof.
  intros Hc Hs Hsa Hv.
  assert (one p c) as Hone. { split; [done|]. by destruct Hs. }
  destruct (process_one x p c Hone) as [Hc1 _]. pose proof (process_volumes x p) as Hv1.
  assert (dps_ServiceAccountName (processXpum (xi_cp x) (xi_claim x) (xi_config x) p) = dps_ServiceAccountName p) as Hsa1 by done.
  assert (dps_ResourceClaims (processXpum (xi_cp x) (xi_claim x) (xi_config x) p) =
    (if bool_decide (xi_claim x = "") then [] else [(monClaim, Some (xi_claim x))])) as Hrc by done.
  destruct (finish_fields (xi_cp x) (processXpum (xi_cp x) (xi_claim x) (xi_config x) p)) as (Hns & Htol & Haff & Hps & Hvol & Hcl & Hacc & Hcont).
  specialize (Hcont _ Hc1). rewrite container_settled in Hcont by done. rewrite Hv1, Hv, volumes_replaced in Hvol.
  rewrite Hsa1 in Hacc. rewrite Hrc in Hcl. clear Hv1 Hsa1 Hrc Hc1.
  generalize dependent (processXpum (xi_cp x) (xi_claim x) (xi_config x) p). intros q. intros. apply DPodSpec_ext; try done.
  rewrite Hacc. unfold xpumSpec. cbn [dps_ServiceAccountName]. destruct (OpenShift opts); [done|]. by rewrite Hsa.
Qed.

Lemma xpum_fresh x :
  finishXpum opts (xi_cp x) (processXpum (xi_cp x) (xi_claim x) (xi_config x) (ds_Spec XpuManagerDaemonset)) = xpumSpec x.
Proof.
  eapply (spec_settled x _ manifestContainer _ None None None None); [done|constructor| |reflexivity].
  by destruct (OpenShift opts).
Qed.

#[global] Instance xpum_forgetful : Forgetful updateXpum XpuManagerDaemonset xpumInputOK.
Proof.
  split; [|done]. intros y x Hy. unfold updateXpum, updateXpumDaemonSet, onSpec, setAnnotations, setMeta.
  cbn [ds_Name ds_Namespace ds_Labels ds_Annotations ds_Spec ds_NumberReady ds_DesiredNumberScheduled]. apply DaemonSet_ext; [done|].
  rewrite !xpum_fresh. eapply (spec_settled x (xpumSpec y) (xpumContainer y)); [done|by constructor| |reflexivity].
  unfold xpumSpec. cbn [dps_ServiceAccountName]. by destruct (OpenShift opts).
Qed.
End Forget.

Lemma managed_xpum_spec opts ds x :
  managed (updateXpum opts) XpuManagerDaemonset xpumInputOK ds → ds_Spec (updateXpum opts x ds) = xpumSpec opts x.
Proof. intros Hm. rewrite (managed_converges (updateXpum opts) _ _ ds x Hm). apply xpum_fresh. Qed.

(** *** What a pass sends *)

(** With [ds] in the cluster, the pass sends the freshly built DaemonSet (the status stays the API server's), and
    nothing when [ds] is that already. *)
Definition sendsFresh `{!PolicyEnv} (built : DaemonSet) (f : DaemonSet → DaemonSet) (ds : DaemonSet) : Prop :=
  ∀ w, penv_getDaemonSet (log w) (ds_Namespace built) (ds_Name built) = Ok ds →
    let fresh := withStatus (ds_NumberReady ds) (ds_DesiredNumberScheduled ds) built in
    let read := EvPolicy (PvGetDaemonSet (ds_Namespace built) (ds_Name built) (Ok ds)) :: log w in
    wp (createOrPatchDaemonSet built f) (λ r w',
      if decide (ds = fresh) then r = None ∧ log w' = read
      else ∃ a, r = errOf a ∧ log w' = EvPolicy (PvPatch (ODaemonSet fresh) a) :: read) w.

Lemma managed_sendsFresh `{!PolicyEnv} {C} (update : C → DaemonSet → DaemonSet) manifest ok `{!Forgetful update manifest ok} ds c :
  managed update manifest ok ds → sendsFresh (update c manifest) (update c) ds.
Proof.
  intros Hm w Hget. cbn zeta. unfold createOrPatchDaemonSet, GetDaemonSet, asks. wp_step. wp_step. cbn beta. rewrite Hget.
  rewrite (managed_converges update manifest ok ds c Hm). destruct (decide _) as [Heq|Hne].
  - rewrite bool_decide_true by done. wp_step. done.
  - rewrite bool_decide_false by congruence. unfold Patch, asks. wp_step. wp_step. wp_step. cbn. eauto.
Qed.

(** C13: no policy leaves a residue in the DaemonSets.  Take a DaemonSet of the device plugin, the DRA driver or the
    XPU manager that was created from its manifest and patched for any policies in turn, its status changing in
    between.  A pass for a policy then sends exactly the DaemonSet that would be built from scratch for that policy
    (arguments, volumes, mounts, environment, resources, placement, metadata), and sends nothing when the cluster
    has it already.  For the XPU manager the earlier policies have one of the monitoring resources the API server
    admits; policy, claim template, config map and hash may all have changed. *)
Theorem policy_edits_leave_no_residue `{!PolicyEnv} opts ds :
  (∀ cp, managed (updateDpDaemonSet opts) DevicePluginDaemonset (λ _, True) ds →
     sendsFresh (buildDpDaemonSet opts cp) (updateDpDaemonSet opts cp) ds) ∧
  (∀ cp, managed (updateDraDaemonSet opts) DynamicResourceAllocationDaemonset (λ _, True) ds →
     sendsFresh (buildDraDaemonset opts cp) (updateDraDaemonSet opts cp) ds) ∧
  (∀ cp claim cm hash, managed (updateXpum opts) XpuManagerDaemonset xpumInputOK ds →
     sendsFresh (buildXpumDaemonSet opts cp claim cm hash) (updateXpumDaemonSet opts cp claim cm hash) ds).
Proof.
  split_and!.
  - intros cp. apply (managed_sendsFresh (updateDpDaemonSet opts) _ _ ds cp).
  - intros cp. apply (managed_sendsFresh (updateDraDaemonSet opts) _ _ ds cp).
  - intros cp claim cm hash. apply (managed_sendsFresh (updateXpum opts) _ _ ds (mkXpumInput cp claim cm hash)).
Qed.

(** An XPU manager deployed for a full policy, patched for a bare one and seen with two pods ready. *)
Definition editedXpum : DaemonSet :=
  withStatus 2 2 (updateXpum sampleOpts (mkXpumInput (samplePolicy "dp" false) "" "cfg" "h2")
    (updateXpum sampleOpts (mkXpumInput (samplePolicy "dra" true) "claim" "cfg" "h1") XpuManagerDaemonset)).

Lemma policy_edits_leave_no_residue_witness :
  let c := mkPolicyCluster None [] [editedXpum] None [] [] [] in
  let w := mkWorld (None : option ClusterPolicy) [] in
  (@createOrPatchDaemonSet (policyEnv c)
     (buildXpumDaemonSet sampleOpts (samplePolicy "dp" false) "" "cfg" "h2")
     (updateXpumDaemonSet sampleOpts (samplePolicy "dp" false) "" "cfg" "h2") w).1 = None.
Proof.
  intros c w.
  destruct (@policy_edits_leave_no_residue (policyEnv c) sampleOpts editedXpum) as (_ & _ & Hx).
  specialize (Hx (samplePolicy "dp" false) "" "cfg" "h2").
  assert (managed (updateXpum sampleOpts) XpuManagerDaemonset xpumInputOK editedXpum) as Hm.
  { apply managed_status, managed_patched; [|apply managed_created]; unfold xpumInputOK, monitoringValues; vm_compute; set_solver. }
  specialize (Hx Hm w). assert (@penv_getDaemonSet (policyEnv c) [] "gpu-operator" "policy-xpu-manager" = Ok editedXpum) as Hg by (vm_compute; reflexivity).
  specialize (Hx Hg). unfold wp in Hx. destruct (decide _) as [_|Hn]; [exact (proj1 Hx)|].
  exfalso. apply Hn. vm_compute. reflexivity.
Defined.
