(* ===== verification/PolicyExport.v ===== *)
(** * ClusterPolicy: the collector's OTLP export

    The configuration of the collector names environment variables and files; the DaemonSet provides them.  The
    two are built by different functions from the same policy. *)

From S2P Require Import Prelude GoStrings Sha256 KubeTypes ApiTypes Common PolicyTypes PolicyObjects Client Drain.
From S2P Require Import OpenShift Cluster PolicyClient PolicyDaemonSets PolicyXpum PolicyDeploy PolicyScenario.
From S2P Require Import PolicyDeployFacts.

(** In [p]'s collector, [path] shows the key [key] of the config map or Secret [obj]. *)
Definition fileFrom (p : DPodSpec) (path obj key : string) : Prop :=
  ∃ c v m file items mode, c ∈ dps_Containers p ∧ dc_Name c = xpumdContainerName ∧ v ∈ dps_Volumes p ∧
    m ∈ dc_VolumeMounts c ∧ vm_Name m = vol_Name v ∧ path = vm_MountPath m +:+ "/" +:+ file ∧ (key, file) ∈ items ∧
    (vol_Source v = VSConfigMap obj items mode ∨ vol_Source v = VSSecret obj items mode).

(** In [p]'s collector, [var] is set, once, from [sel]. *)
Definition envFrom (p : DPodSpec) (var : string) (sel : KeySelector) : Prop :=
  ∃ c, c ∈ dps_Containers p ∧ dc_Name c = xpumdContainerName ∧ mkEnvVar var (EnvSecret sel) ∈ dc_Env c ∧
    ∀ e, e ∈ dc_Env c → env_Name e = var → e = mkEnvVar var (EnvSecret sel).

Record wired (p : DPodSpec) (spec : OTLPExporterSpec) (e : OTLPExporter) : Prop := mkWired {
  w_endpoint : xo_Endpoint e = oe_Endpoint spec;
  w_headers : ∀ k v, xo_Headers e !! k = Some v →
    ∃ var sel, v = "${env:" +:+ var +:+ "}" ∧ mkOTLPHeader k sel ∈ oe_Headers spec ∧ envFrom p var sel;
  w_allHeaders : ∀ h, h ∈ oe_Headers spec → is_Some (xo_Headers e !! oh_Name h);
  w_ca : ∀ t, xo_TLS e = Some t → xt_CAFile t ≠ "" →
    ∃ ca, (oe_TLS spec ≫= ot_CA) = Some ca ∧ fileFrom p (xt_CAFile t) (ks_Name ca) (ks_Key ca);
  w_cert : ∀ t, xo_TLS e = Some t → xt_CertFile t ≠ "" ∨ xt_KeyFile t ≠ "" →
    ∃ n, (oe_TLS spec ≫= ot_ClientCertSecret) = Some n ∧
      fileFrom p (xt_CertFile t) n TLSCertKey ∧ fileFrom p (xt_KeyFile t) n TLSPrivateKeyKey;
  w_tls : hasPrefix (oe_Endpoint spec) "http://" = false →
    ((∃ ca, (oe_TLS spec ≫= ot_CA) = Some ca) → ∃ t, xo_TLS e = Some t ∧ xt_CAFile t ≠ "") ∧
    ((∃ n, (oe_TLS spec ≫= ot_ClientCertSecret) = Some n) → ∃ t, xo_TLS e = Some t ∧ xt_CertFile t ≠ "" ∧ xt_KeyFile t ≠ "");
}.

Lemma otlpHeaderEnvName_inj i j : otlpHeaderEnvName i = otlpHeaderEnvName j → i = j.
Proof.
  unfold otlpHeaderEnvName, itoa. intros Heq%(inj (String.append _)). apply (inj pretty) in Heq. by apply (inj Z.of_nat).
Qed.

Lemma otlpEnv_lookup spec e :
  e ∈ otlpEnv spec ↔ ∃ i h, oe_Headers spec !! i = Some h ∧ e = mkEnvVar (otlpHeaderEnvName i) (EnvSecret (oh_ValueFrom h)).
Proof. unfold otlpEnv. rewrite list_elem_of_lookup. setoid_rewrite list_lookup_imap_Some. naive_solver. Qed.

Section Wired.
Context (opts : ControllerOpts) (x : XpumInput) (spec : OTLPExporterSpec) (Hexp : xpumExporter (xi_cp x) = Some spec).

Lemma header_env i h : oe_Headers spec !! i = Some h → envFrom (xpumSpec opts x) (otlpHeaderEnvName i) (oh_ValueFrom h).
Proof.
  intros Hi. exists (xpumContainer opts x). split; [by apply list_elem_of_singleton|]. split; [done|].
  cbn [dc_Env xpumContainer]. rewrite Hexp. cbn [fmap option_fmap option_map default]. split.
  - apply otlpEnv_lookup. eauto.
  - intros e (j & h' & Hj & ->)%otlpEnv_lookup. cbn [env_Name]. intros ->%otlpHeaderEnvName_inj. by simplify_eq.
Qed.

Lemma collector_file vol path s items mode obj key file :
  (s = VSConfigMap obj items mode ∨ s = VSSecret obj items mode) → (key, file) ∈ items →
  mkVolume vol s ∈ xpumVolumes x → mkVolumeMount vol path true ∈ xpumMounts x →
  fileFrom (xpumSpec opts x) (path +:+ "/" +:+ file) obj key.
Proof.
  intros Hs Hkey Hv Hm. exists (xpumContainer opts x), (mkVolume vol s), (mkVolumeMount vol path true), file, items, mode.
  split_and!; try done. by apply list_elem_of_singleton.
Qed.

Lemma ca_file ca : (oe_TLS spec ≫= ot_CA) = Some ca →
  fileFrom (xpumSpec opts x) (otlpCAMountDir +:+ "/" +:+ otlpCAFile) (ks_Name ca) (ks_Key ca).
Proof.
  intros Hca. assert (xpumExporter (xi_cp x) ≫= caSource = Some (VSConfigMap (ks_Name ca) [(ks_Key ca, otlpCAFile)] (Some 292%Z))) as Hs.
  { rewrite Hexp. unfold caSource. simpl. destruct (oe_TLS spec) as [t|]; [|done]. simpl in *. by rewrite Hca. }
  eapply collector_file; [by left|by apply list_elem_of_singleton| |].
  - unfold xpumVolumes. rewrite Hs. do 3 (apply elem_of_app; right). apply elem_of_app; left. by apply list_elem_of_singleton.
  - unfold xpumMounts. rewrite Hs. do 3 (apply elem_of_app; right). apply elem_of_app; left. by apply list_elem_of_singleton.
Qed.

Lemma cert_file n file : (oe_TLS spec ≫= ot_ClientCertSecret) = Some n → file = TLSCertKey ∨ file = TLSPrivateKeyKey →
  fileFrom (xpumSpec opts x) (otlpClientCertMountDir +:+ "/" +:+ file) n file.
Proof.
  intros Hn Hfile.
  assert (xpumExporter (xi_cp x) ≫= clientCertSource =
    Some (VSSecret n [(TLSCertKey, TLSCertKey); (TLSPrivateKeyKey, TLSPrivateKeyKey)] (Some 256%Z))) as Hs.
  { rewrite Hexp. unfold clientCertSource. simpl. destruct (oe_TLS spec) as [t|]; [|done]. simpl in *. by rewrite Hn. }
  eapply (collector_file _ _ _ [(TLSCertKey, TLSCertKey); (TLSPrivateKeyKey, TLSPrivateKeyKey)]);
    [by right|destruct Hfile as [->| ->]; set_solver| |].
  - unfold xpumVolumes. rewrite Hs. do 4 (apply elem_of_app; right). by apply list_elem_of_singleton.
  - unfold xpumMounts. rewrite Hs. do 4 (apply elem_of_app; right). by apply list_elem_of_singleton.
Qed.

Lemma headers_wired k v : xo_Headers (buildOTLPExporterConfig spec) !! k = Some v →
  ∃ var sel, v = "${env:" +:+ var +:+ "}" ∧ mkOTLPHeader k sel ∈ oe_Headers spec ∧ envFrom (xpumSpec opts x) var sel.
Proof.
  cbn [xo_Headers buildOTLPExporterConfig]. intros Hin%elem_of_list_to_map_2. rewrite elem_of_reverse, list_elem_of_lookup in Hin.
  destruct Hin as [i (h & Hi & [= -> ->])%list_lookup_imap_Some]. exists (otlpHeaderEnvName i), (oh_ValueFrom h).
  split_and!; [done| |by apply header_env]. destruct h. by apply list_elem_of_lookup_2 in Hi.
Qed.

Lemma headers_complete h : h ∈ oe_Headers spec → is_Some (xo_Headers (buildOTLPExporterConfig spec) !! oh_Name h).
Proof.
  intros [i Hi]%list_elem_of_lookup. cbn [xo_Headers buildOTLPExporterConfig].
  destruct (_ !! oh_Name h) eqn:Hno; [done|]. apply not_elem_of_list_to_map in Hno. destruct Hno. apply list_elem_of_fmap.
  eexists (_, _). split; [reflexivity|]. apply elem_of_reverse, list_elem_of_lookup. exists i. apply list_lookup_imap_Some. eauto.
Qed.

Lemma exporter_wired : wired (xpumSpec opts x) spec (buildOTLPExporterConfig spec).
Proof.
  assert (∀ a b : string, otlpCAMountDir +:+ a ≠ "" ∧ otlpClientCertMountDir +:+ b ≠ "") as Hne by done.
  split; [done|apply headers_wired|apply headers_complete| | |]; cbn [xo_TLS buildOTLPExporterConfig].
  all: destruct (hasPrefix _ _); [try (by intros t [= <-]; simpl; naive_solver); done|].
  all: destruct (oe_TLS spec) as [t|] eqn:Ht; [|try done; intros; split; naive_solver].
  all: pose proof (ca_file) as Hca; pose proof cert_file as Hcert; rewrite Ht in Hca, Hcert; simpl in Hca, Hcert; simpl.
  - intros t'. case_bool_decide; [done|]. intros [= <-]. simpl. destruct (ot_CA t) as [ca|]; simpl; [|done].
    intros _. exists ca. eauto.
  - intros t'. case_bool_decide; [done|]. intros [= <-]. simpl. destruct (ot_ClientCertSecret t) as [n|]; simpl; [|naive_solver].
    intros _. exists n. split_and!; eauto.
  - intros _. split; intros [y Hy]; rewrite Hy; (rewrite bool_decide_false; [|by intros [=]]); eexists; (split; [done|]); done.
Qed.
End Wired.

Lemma addOnce_in x l : x ∈ addOnce x l.
Proof. unfold addOnce. case_bool_decide; set_solver. Qed.

Lemma exporter_choice cp name spec : otlpExporter (cps_XpuManagerSpec (cp_Spec cp)) = Some (name, spec) →
  let cfg := otelConfigFor cp XpuManagerOTelConfig in
  (oc_OTLPHTTP cfg, oc_OTLPGRPC cfg) =
    (if bool_decide (name = otlpHTTPExporter) then (Some (buildOTLPExporterConfig spec), None)
     else (None, Some (buildOTLPExporterConfig spec))) ∧
  name ∈ pl_Exporters (oc_Metrics cfg) ∧ (∀ p, oc_Logs cfg = Some p → name ∈ pl_Exporters p).
Proof.
  intros Ho cfg.
  assert (name = otlpHTTPExporter ∨ name = otlpGRPCExporter) as Hname.
  { unfold otlpExporter in Ho. repeat case_match; naive_solver. }
  subst cfg. unfold otelConfigFor. cbn [oc_OTLPHTTP oc_OTLPGRPC oc_Metrics oc_Logs]. rewrite Ho. split_and!.
  - by destruct Hname as [->| ->].
  - apply addOnce_in.
  - intros p (q & _ & ->)%fmap_Some. apply addOnce_in.
Qed.

(** C28: what the collector's configuration refers to is there.  When a policy asks for OTLP export, the generated
    configuration has exactly the exporter asked for, used by the metrics and the logs pipeline.  Every header of the
    policy is in it; its value is an environment variable that the DaemonSet, whatever policies it was patched for
    before, sets once, from the key of the Secret the policy gives for that header.  A CA file, certificate and key
    are named only when the policy has them, and then lie in volumes mounted from the policy's config map and
    Secret; for an endpoint that is not plain http they are named whenever the policy has them. *)
Theorem otlp_export_wired opts cp claim cm hash ds name spec :
  managed (updateXpum opts) XpuManagerDaemonset xpumInputOK ds →
  otlpExporter (cps_XpuManagerSpec (cp_Spec cp)) = Some (name, spec) →
  let cfg := otelConfigFor cp XpuManagerOTelConfig in
  ∃ e, (name = otlpHTTPExporter ∧ oc_OTLPHTTP cfg = Some e ∧ oc_OTLPGRPC cfg = None ∨
        name = otlpGRPCExporter ∧ oc_OTLPHTTP cfg = None ∧ oc_OTLPGRPC cfg = Some e) ∧
    name ∈ pl_Exporters (oc_Metrics cfg) ∧ (∀ p, oc_Logs cfg = Some p → name ∈ pl_Exporters p) ∧
    wired (ds_Spec (updateXpumDaemonSet opts cp claim cm hash ds)) spec e.
Proof.
  intros Hm Ho cfg. exists (buildOTLPExporterConfig spec). destruct (exporter_choice cp name spec Ho) as (Hc & Hmet & Hlogs).
  split_and!; [|done|done|].
  - fold cfg in Hc. case_bool_decide as Hn; injection Hc as Hh Hg; [by left|right]. split_and!; [|done..].
    unfold otlpExporter in Ho. repeat case_match; naive_solver.
  - change (updateXpumDaemonSet opts cp claim cm hash) with (updateXpum opts (mkXpumInput cp claim cm hash)).
    rewrite managed_xpum_spec by done. apply exporter_wired.
    unfold xpumExporter. cbn [xi_cp]. by rewrite Ho.
Qed.

Lemma otlp_export_wired_witness :
  ∃ e, oc_OTLPGRPC (otelConfigFor (samplePolicy "dra" true) XpuManagerOTelConfig) = Some e ∧
    xo_Headers e !! "Authorization" = Some "${env:OTLP_HEADER_0}" ∧
    wired (ds_Spec (updateXpumDaemonSet sampleOpts (samplePolicy "dra" true) "claim" "cfg" "h" editedXpum))
      (mkOTLPExporterSpec "https://gw:4317" [mkOTLPHeader "Authorization" (mkKeySelector "otlp" "token")]
         (Some (mkOTLPTLSSpec (Some (mkKeySelector "roots" "pem")) (Some "client") "" false))) e.
Proof.
  destruct (otlp_export_wired sampleOpts (samplePolicy "dra" true) "claim" "cfg" "h" editedXpum otlpGRPCExporter
    (mkOTLPExporterSpec "https://gw:4317" [mkOTLPHeader "Authorization" (mkKeySelector "otlp" "token")]
       (Some (mkOTLPTLSSpec (Some (mkKeySelector "roots" "pem")) (Some "client") "" false))))
    as (e & [[Hn _]|(_ & _ & He)] & _ & _ & Hw).
  - apply managed_status, managed_patched; [|apply managed_created]; unfold xpumInputOK, monitoringValues; vm_compute; set_solver.
  - reflexivity.
  - discriminate Hn.
  - exists e. split; [exact He|]. split; [|exact Hw]. injection He as <-. vm_compute. reflexivity.
Defined.
