(* ===== verification/PolicyKueue.v ===== *)
(** * ClusterPolicy: Kueue queues get equal shares

    The division of the cluster's resources over the queues of a policy, and the counting of the resources. *)

From S2P Require Import Prelude GoStrings KubeTypes ApiTypes Common PolicyTypes PolicyObjects Client Drain Cluster.
From S2P Require Import OpenShift PolicyClient PolicyDaemonSets PolicyXpum PolicyDeploy PolicyMisc PolicyScenario.

Lemma wholeUnits_New v : wholeUnits (NewQuantity v) = v.
Proof.
  unfold wholeUnits, NewQuantity. rewrite Z.sgn_mul, Z.abs_mul. change (Z.abs 1000000000) with 1000000000%Z.
  rewrite Z.add_comm, Z.div_add by done. change (999999999 / 1000000000)%Z with 0%Z. pose proof (Z.abs_sgn v). simpl. lia.
Qed.

Section Division.
Context `{!Env, !PolicyEnv}.

Lemma quantityValue_fits q : fitsInt64 (wholeUnits q) → quantityValue q = wholeUnits q.
Proof. intros Hq. unfold quantityValue. by rewrite bool_decide_true. Qed.

Lemma quantityValue_New v : fitsInt64 v → quantityValue (NewQuantity v) = v.
Proof. intros Hv. rewrite quantityValue_fits; by rewrite wholeUnits_New. Qed.

Lemma quantityValue_int64 q : fitsInt64 (quantityValue q).
Proof.
  unfold quantityValue. case_bool_decide; [done|]. unfold fitsInt64, wrap64, int64_min, int64_max.
  pose proof (Z.mod_pos_bound (penv_overflowValue q + 2 ^ 63) (2 ^ 64) ltac:(done)). lia.
Qed.

(** Queue [i]'s part of [v] units over [n] queues. *)
Definition share (n i v : Z) : Z := (Z.quot v n + (if (i <? Z.rem v n)%Z then 1 else 0))%Z.

Definition sharesOf (n i : Z) (resources : clusterResourceMap) : clusterResourceMap :=
  omap (λ q, if (q =? 0)%Z then None else Some (NewQuantity (share n i (quantityValue q)))) resources.

Lemma sharesOf_lookup n i resources kind :
  sharesOf n i resources !! kind =
  match resources !! kind with
  | Some q => if (q =? 0)%Z then None else Some (NewQuantity (share n i (quantityValue q)))
  | None => None
  end.
Proof. unfold sharesOf. rewrite lookup_omap. unfold Quantity in *. by destruct (resources !! kind). Qed.

Lemma divideShare_spec n i kind q :
  match divideShare n i kind q with
  | inl s => s = (if (q =? 0)%Z then None else Some (NewQuantity (share n i (quantityValue q)))) ∧
             (q ≠ 0%Z → (1 ≤ share n i (quantityValue q))%Z)
  | inr _ => q ≠ 0%Z ∧ (share n i (quantityValue q) < 1)%Z
  end.
Proof.
  unfold divideShare. destruct (Z.eqb_spec q 0); [done|]. cbn zeta. fold (share n i (quantityValue q)).
  destruct (Z.ltb_spec (share n i (quantityValue q)) 1); split; try done; lia.
Qed.

Lemma divideQueue_spec n i l :
  NoDup l.*1 →
  match divideQueue n i l with
  | inl m => m = sharesOf n i (list_to_map l) ∧ ∀ kind q, (kind, q) ∈ l → q ≠ 0%Z → (1 ≤ share n i (quantityValue q))%Z
  | inr _ => ∃ kind q, (kind, q) ∈ l ∧ q ≠ 0%Z ∧ (share n i (quantityValue q) < 1)%Z
  end.
Proof.
  induction l as [|[kind q] l IH]; simpl; intros Hnd.
  - split; [by unfold sharesOf; rewrite omap_empty|set_solver].
  - inversion_clear Hnd as [|? ? Hk Hnd']. specialize (IH Hnd'). pose proof (divideShare_spec n i kind q) as Hs.
    destruct (divideShare n i kind q) as [s|e]; [|by exists kind, q; set_solver].
    destruct Hs as [-> Hs]. destruct (divideQueue n i l) as [m|e'].
    + destruct IH as [-> IH]. split; [|set_solver]. unfold sharesOf.
      destruct (q =? 0)%Z eqn:Hq.
      * rewrite omap_insert_None by (by rewrite Hq). rewrite delete_id; [done|].
        by rewrite lookup_omap, not_elem_of_list_to_map_1.
      * by erewrite omap_insert_Some by (by rewrite Hq).
    + destruct IH as (k & q' & Hin & Hrest). exists k, q'. set_solver.
Qed.

(** *** Arithmetic of the shares *)

Lemma share_small n i v : (0 < n)%Z → (share n i v < 1)%Z → (v < n)%Z.
Proof.
  unfold share. intros Hn Hs. destruct (Z.lt_ge_cases v n) as [|Hv]; [done|exfalso].
  pose proof (Z.quot_le_mono n v n Hn Hv). rewrite Z.quot_same in * by lia. destruct (_ <? _)%Z; lia.
Qed.

Lemma share_near n i j v : (share n i v <= share n j v + 1)%Z.
Proof. unfold share. destruct (_ <? _)%Z, (_ <? _)%Z; lia. Qed.

Definition zsum (l : list Z) : Z := foldr Z.add 0%Z l.
Lemma zsum_app l k : zsum (l ++ k) = (zsum l + zsum k)%Z.
Proof. induction l; simpl; lia. Qed.

(** The first [r] of [m] queues get one more. *)
Lemma share_prefix n v m : (0 <= Z.rem v n)%Z →
  zsum ((λ i, share n (Z.of_nat i) v) <$> seq 0 m) = (Z.of_nat m * Z.quot v n + Z.min (Z.of_nat m) (Z.rem v n))%Z.
Proof.
  intros Hr. induction m as [|m IH]; [simpl; lia|]. rewrite seq_S, fmap_app, zsum_app, IH. simpl. unfold share.
  destruct (Z.ltb_spec (Z.of_nat m) (Z.rem v n)); lia.
Qed.

Lemma share_total n v : (0 < n) → (0 <= v)%Z → zsum ((λ i, share (Z.of_nat n) (Z.of_nat i) v) <$> seq 0 n) = v.
Proof.
  intros Hn Hv. assert (0 < Z.of_nat n)%Z as Hn' by lia. pose proof (Z.rem_bound_pos v (Z.of_nat n) Hv Hn').
  rewrite share_prefix by lia. pose proof (Z.quot_rem' v (Z.of_nat n)). lia.
Qed.

Lemma share_positive n v : (0 < n)%Z → (1 <= share n 0 v)%Z → (0 <= v)%Z.
Proof.
  unfold share. intros Hn Hs. destruct (Z.lt_ge_cases v 0) as [Hv|]; [exfalso|done].
  pose proof (Z.quot_le_mono v 0 n Hn (Z.lt_le_incl _ _ Hv)). rewrite Z.quot_0_l in * by lia.
  pose proof (Z.rem_nonpos v n ltac:(lia) (Z.lt_le_incl _ _ Hv)). destruct (Z.ltb_spec 0 (Z.rem v n)); lia.
Qed.

Lemma share_fits n i v : (1 ≤ n)%Z → (0 ≤ i < n)%Z → fitsInt64 v → (0 ≤ v)%Z → fitsInt64 (share n i v).
Proof.
  unfold share, fitsInt64. intros Hn Hi Hv Hpos. pose proof (Z.quot_rem' v n). pose proof (Z.rem_bound_pos v n Hpos ltac:(lia)).
  assert (0 ≤ Z.quot v n)%Z by (apply Z.quot_pos; lia). unfold int64_min, int64_max in *.
  destruct (Z.ltb_spec i (Z.rem v n)); nia.
Qed.

Lemma permuted_map (resources : clusterResourceMap) (k : list (string * Quantity)) :
  k ≡ₚ map_to_list resources → NoDup k.*1 ∧ list_to_map k = resources ∧ ∀ kind q, (kind, q) ∈ k ↔ resources !! kind = Some q.
Proof.
  intros Hp. assert (NoDup k.*1) as Hnd by (rewrite Hp; apply NoDup_fst_map_to_list). split_and!; [done| |].
  - rewrite <-(list_to_map_to_list resources). by apply list_to_map_proper.
  - intros kind q. by rewrite Hp, elem_of_map_to_list.
Qed.

Lemma divideResources_spec resources n w :
  wp (divideResources resources n) (λ r w', match r with
    | Ok shares => shares = (λ i, sharesOf (Z.of_nat n) (Z.of_nat i) resources) <$> seq 0 n ∧
        ∀ i kind q, i < n → resources !! kind = Some q → q ≠ 0%Z → (1 ≤ share (Z.of_nat n) (Z.of_nat i) (quantityValue q))%Z
    | Err _ => ∃ i kind q, resources !! kind = Some q ∧ q ≠ 0%Z ∧ (share (Z.of_nat n) (Z.of_nat i) (quantityValue q) < 1)%Z
    end) w.
Proof.
  unfold divideResources. apply wp_bind.
  eapply wp_mono; [apply (wp_foldUntil _
    (λ (dn : list nat) acc _, acc = (λ i, sharesOf (Z.of_nat n) (Z.of_nat i) resources) <$> dn ∧
       ∀ i kind q, i ∈ dn → resources !! kind = Some q → q ≠ 0%Z → (1 ≤ share (Z.of_nat n) (Z.of_nat i) (quantityValue q))%Z)
    (λ _ _, ∃ i kind q, resources !! kind = Some q ∧ q ≠ 0%Z ∧ (share (Z.of_nat n) (Z.of_nat i) (quantityValue q) < 1)%Z))|].
  - split; [done|set_solver].
  - intros pre i post acc w' _ [-> Hpre]. apply wp_bind, wp_rangeMap. intros l Hl. apply wp_ret.
    destruct (permuted_map resources l Hl) as (Hnd & Hmap & Hin).
    pose proof (divideQueue_spec (Z.of_nat n) (Z.of_nat i) l Hnd) as Hq.
    destruct (divideQueue _ _ l) as [m|e].
    + destruct Hq as [-> Hq]. rewrite Hmap, fmap_app. split; [done|]. intros j kind q [Hj| ->%list_elem_of_singleton]%elem_of_app.
      * by apply Hpre.
      * intros Hk. by eapply Hq, Hin.
    + destruct Hq as (kind & q & Hkq & Hrest). exists i, kind, q. by apply Hin in Hkq.
  - cbn beta. intros [acc|e] w'; intros Ho; apply wp_ret; [|done]. destruct Ho as [-> Ho]. split; [done|].
    intros i kind q Hi. apply Ho, elem_of_seq. lia.
Qed.

(** The units of a kind in one queue. *)
Definition units (kind : string) (m : clusterResourceMap) : Z := quantityValue (default 0%Z (m !! kind)).

Lemma units_share n i resources kind q : resources !! kind = Some q → q ≠ 0%Z → fitsInt64 (share n i (quantityValue q)) →
  units kind (sharesOf n i resources) = share n i (quantityValue q).
Proof.
  intros Hk Hq Hfit. unfold units. rewrite sharesOf_lookup, Hk. rewrite (proj2 (Z.eqb_neq q 0)) by done. simpl.
  by apply quantityValue_New.
Qed.

(** C29: the cluster's resources are divided over the queues of a policy without loss and as equally as whole units
    allow: each queue has exactly the kinds the cluster has some of, at least one unit of each, no two queues
    differ by more than one unit, and the units of all queues add up to those of the cluster.  The division
    fails only when some kind has fewer units than there are queues.  The units of a kind are the [int64] that
    [Quantity.Value] gives: the amount rounded away from zero to whole units where that fits; what the library
    gives beyond is left open (for two nodes of the largest [int64] it is negative, and the division fails). *)
Theorem kueue_shares_equal resources n w :
  (0 < n) →
  wp (divideResources resources n) (λ r _, match r with
    | Ok shares =>
        length shares = n ∧
        ∀ kind, match resources !! kind with
                | Some q =>
                    if (q =? 0)%Z then ∀ m, m ∈ shares → m !! kind = None
                    else zsum (units kind <$> shares) = quantityValue q ∧
                         (fitsInt64 (wholeUnits q) → quantityValue q = wholeUnits q) ∧
                         (∀ m, m ∈ shares → is_Some (m !! kind) ∧ (1 ≤ units kind m)%Z) ∧
                         (∀ m m', m ∈ shares → m' ∈ shares → (units kind m ≤ units kind m' + 1)%Z)
                | None => ∀ m, m ∈ shares → m !! kind = None
                end
    | Err _ => ∃ kind q, resources !! kind = Some q ∧ q ≠ 0%Z ∧ (quantityValue q < Z.of_nat n)%Z ∧
                (fitsInt64 (wholeUnits q) → quantityValue q = wholeUnits q)
    end) w.
Proof.
  intros Hn. eapply wp_mono; [apply divideResources_spec|]. cbn beta. intros [shares|e] _.
  - intros [-> Hone]. split; [by rewrite length_fmap, length_seq|]. intros kind.
    destruct (resources !! kind) as [q|] eqn:Hk.
    + destruct (Z.eqb_spec q 0) as [->|Hq].
      * intros m (i & -> & _)%list_elem_of_fmap. by rewrite sharesOf_lookup, Hk.
      * assert (0 ≤ quantityValue q)%Z as Hpos.
        { apply (share_positive (Z.of_nat n)); [lia|]. by apply (Hone 0 kind q). }
        assert (∀ i, i < n → units kind (sharesOf (Z.of_nat n) (Z.of_nat i) resources) = share (Z.of_nat n) (Z.of_nat i) (quantityValue q)) as Hu
          by (intros i Hi; apply units_share; [done..|]; apply share_fits; [lia..|apply quantityValue_int64|done]).
        split_and!.
        -- rewrite <-list_fmap_compose. erewrite list_fmap_ext; [by apply share_total|].
           intros k i [-> Hi]%lookup_seq. by apply Hu.
        -- apply quantityValue_fits.
        -- intros m (i & -> & [_ Hi]%elem_of_seq)%list_elem_of_fmap. rewrite Hu by lia. split; [|by apply (Hone i kind q)].
           rewrite sharesOf_lookup, Hk. by rewrite (proj2 (Z.eqb_neq q 0)).
        -- intros m m' (i & -> & [_ Hi]%elem_of_seq)%list_elem_of_fmap (j & -> & [_ Hj]%elem_of_seq)%list_elem_of_fmap.
           rewrite !Hu by lia. apply share_near.
    + intros m (i & -> & _)%list_elem_of_fmap. by rewrite sharesOf_lookup, Hk.
  - intros (i & kind & q & Hk & Hq & Hs). exists kind, q. split_and!; [done..| |apply quantityValue_fits].
    eapply share_small; [|done]. lia.
Qed.
End Division.

Abbreviation divided resources n :=
  (@divideResources (clusterEnv emptyCluster) (policyEnv (mkPolicyCluster None [] [] None [] [] [])) resources n (mkWorld None [])).1.

Lemma kueue_shares_equal_witness :
  ∃ shares, divided {[ "cpu" := NewQuantity 7 ]} 3 = Ok shares ∧
    length shares = 3 ∧ zsum (@units (policyEnv (mkPolicyCluster None [] [] None [] [] [])) "cpu" <$> shares) = 7%Z.
Proof.
  assert (0 < 3) as Hn by lia.
  pose proof (@kueue_shares_equal (clusterEnv emptyCluster) (policyEnv (mkPolicyCluster None [] [] None [] [] []))
                {[ "cpu" := NewQuantity 7 ]} 3 (mkWorld None []) Hn) as Hs.
  unfold wp in Hs. destruct (divided _ _) as [shares|e] eqn:Hr in Hs.
  - exists shares. destruct Hs as [Hl Hs]. split; [exact Hr|]. split; [exact Hl|]. specialize (Hs "cpu").
    rewrite lookup_singleton_eq in Hs. exact (proj1 Hs).
  - exfalso. revert Hr. vm_compute. discriminate.
Defined.

(** Two nodes of the largest [int64] together have [-2] units, and that cannot be divided. *)
Example overflow_fails :
  divided (addToResource (addToResource ∅ "memory" (NewQuantity int64_max)) "memory" (NewQuantity int64_max)) 1
  = Err (errorf "unable to create 1 queues using -2 'memory' reources").
Proof. vm_compute. reflexivity. Qed.

(** ** How the resources are counted

    Runs that show what the counting does with slices. *)

Module Counting.
Definition nodes : list KueueNode := [mkKueueNode "n1" (list_to_map [("cpu", NewQuantity 8); ("memory", NewQuantity 64)])].
Definition slice (driver : string) (node : option string) : KueueSlice := mkKueueSlice driver node [true].
Definition cluster (slices : list KueueSlice) (queues : list ClusterQueue) : PolicyCluster :=
  mkPolicyCluster None [] [] None nodes slices queues.
Definition count (slices : list KueueSlice) : res (option clusterResourceMap) :=
  (@getDraResources (policyEnv (cluster slices [])) (nodeMap nodes) (mkWorld None [])).1.

Definition kinds (cpu mem gpu : Z) : clusterResourceMap :=
  list_to_map [("cpu", NewQuantity cpu); ("memory", NewQuantity mem); (draResourceName, NewQuantity gpu)].

(** One slice: the node's processors, its memory and its GPU. *)
Example one_slice : count [slice gpuResourceName (Some "n1")] = Ok (Some (kinds 8 64 1)).
Proof. vm_compute. reflexivity. Qed.

(** A driver may publish several slices for a node; the node's processors and memory then count as often. *)
Example two_slices : count [slice gpuResourceName (Some "n1"); slice gpuResourceName (Some "n1")] = Ok (Some (kinds 16 128 2)).
Proof. vm_compute. reflexivity. Qed.

(** A slice of any driver that is not bound to one node makes the counting panic. *)
Example slice_without_node : count [slice gpuResourceName (Some "n1"); slice "nic.example.com" None] = Err nilPointerPanic.
Proof. vm_compute. reflexivity. Qed.

(** A queue that has the right quotas in another order is written again. *)
Definition queue (l : list (string * Quantity)) : ClusterQueue :=
  mkClusterQueue "gpus" (Some (kueueLabels "policy")) (l.*1) kueueFlavorName l clusterQueueRest.
Definition writes (stored : ClusterQueue) : list Ev :=
  log (@modifyOneClusterQueue (clusterEnv emptyCluster) (policyEnv (cluster [] [stored])) "policy" (kinds 8 64 1)
         (mkClusterQueueSpec "gpus" []) (mkWorld None [])).2.

Example same_order : writes (queue (map_to_list (kinds 8 64 1))) =
  [EvPolicy (PvGetClusterQueue "gpus" (Ok (queue (map_to_list (kinds 8 64 1)))))].
Proof. vm_compute. reflexivity. Qed.

Example other_order : ∃ q, head (writes (queue (reverse (map_to_list (kinds 8 64 1))))) = Some (EvPolicy (PvUpdate (OClusterQueue q) (Ok tt))) ∧
  kcq_Quotas q = map_to_list (kinds 8 64 1).
Proof. eexists. split; vm_compute; reflexivity. Qed.

(** A queue without labels cannot be taken over. *)
Definition unlabelled : ClusterQueue := mkClusterQueue "gpus" None [] kueueFlavorName [] clusterQueueRest.
Example queue_without_labels :
  (@modifyOneClusterQueue (clusterEnv emptyCluster) (policyEnv (cluster [] [unlabelled])) "policy" (kinds 8 64 1)
     (mkClusterQueueSpec "gpus" []) (mkWorld None [])).1 = Some nilMapPanic.
Proof. vm_compute. reflexivity. Qed.
End Counting.
