(* ===== verification/PolicySafety.v ===== *)
(** * ClusterPolicy: what a pass may do

    The footprint of a pass of the ClusterPolicy reconciler: which DaemonSets it writes, what must have been seen
    before a driver is taken away, and what must be gone before the finalizer is. *)

From S2P Require Import Prelude GoStrings Sha256 KubeTypes ApiTypes Common PolicyTypes PolicyObjects Client Drain.
From S2P Require Import Cluster OpenShift PolicyClient PolicyDaemonSets PolicyXpum PolicyDeploy PolicyKmm PolicyMisc.
From S2P Require Import PolicyController PolicyScenario.

(** Everything of a policy but its status. *)
Definition policyKey (cp : ClusterPolicy) : string * option Z * list string * ClusterPolicySpec :=
  (cp_Name cp, cp_DeletionTimestamp cp, cp_Finalizers cp, cp_Spec cp).
Abbreviation PKey := (string * option Z * list string * ClusterPolicySpec)%type.

(** No claim of the listing holds a GPU. *)
Definition noGpuClaims (B h : list Ev) : Prop :=
  ∃ claims, seen B h (EvListClaims (Ok claims)) ∧ ∀ c, c ∈ claims → allocatedTo GPUDeviceClass c = false.

Lemma noGpuClaims_mono B h h' : h `suffix_of` h' → noGpuClaims B h → noGpuClaims B h'.
Proof. intros Hh (claims & Hs & Hc). exists claims. split; [|done]. by eapply seen_mono. Qed.

Lemma seen_weaken {E} (B B' h : list E) e : B' `suffix_of` B → seen B h e → seen B' h e.
Proof. intros [k ->] (new & -> & He). exists (new ++ k). split; [by rewrite app_assoc|]. apply elem_of_app. by left. Qed.

Section Footprint.
Context (opts : ControllerOpts) (B : list Ev) (K : option PKey).

(** What the drivers of running workloads are made of. *)
Definition driverRef (r : Ref) : Prop :=
  ref_Kind r = KDeviceClass ∨ r = mkRef KDaemonSet (Namespace opts) (draDaemonSetName (ReqName opts)) ∨
  ref_Kind r = KModule ∧ DRAEnable opts = true.

(** The DaemonSets a policy asks for. *)
Definition policyWants (cp : ClusterPolicy) (d : DaemonSet) : Prop :=
  cps_ResourceRegistration (cp_Spec cp) = resourceModeDP ∧ (∃ x, d = updateDpDaemonSet opts cp x) ∨
  cps_ResourceRegistration (cp_Spec cp) = resourceModeDRA ∧ DRAEnable opts = true ∧ (∃ x, d = updateDraDaemonSet opts cp x) ∨
  cps_ResourceMonitoring (cp_Spec cp) = true ∧ (∃ claim cm hash x, d = updateXpumDaemonSet opts cp claim cm hash x).

Definition mayDeploy (d : DaemonSet) : Prop :=
  ∃ cp, Some (policyKey cp) = K ∧ cp_DeletionTimestamp cp = None ∧ policyWants cp d.

Definition subEv (h : list Ev) (e : Ev) : Prop :=
  match e with
  | EvPolicy (PvCreate (ODaemonSet d) _) | EvPolicy (PvPatch (ODaemonSet d) _) => mayDeploy d
  | EvPolicy (PvDelete r _) => driverRef r → noGpuClaims B h
  | EvPolicy (PvUpdatePolicy _ _) | EvPolicy (PvUpdatePolicyStatus _ _) => False
  | EvPolicy (PvUpdate (ODaemonSet _) _) => False
  | _ => True
  end.

Definition inPass (w : World Ev (option ClusterPolicy)) : Prop := policyKey <$> mem w = K ∧ B `suffix_of` log w.
Definition subPass (w w' : World Ev (option ClusterPolicy)) : Prop := inPass w → inPass w' ∧ loggedIn subEv w w'.

#[global] Instance subPass_preorder : PreOrder subPass.
Proof.
  split.
  - intros w Hw. split; [done|reflexivity].
  - intros w1 w2 w3 H12 H23 Hw. destruct (H12 Hw) as [Hw2 H2]. destruct (H23 Hw2) as [Hw3 H3]. split; [done|]. by etrans.
Qed.

Lemma subPass_one w e : (B `suffix_of` log w → subEv (log w) e) → subPass w (mkWorld (mem w) (e :: log w)).
Proof.
  intros He [Hm HB]. split; [|by apply loggedIn_one, He]. split; [done|]. by apply suffix_cons_r.
Qed.

Section Rules.
Context `{!Env, !PolicyEnv}.

Lemma sub_exchange {A} (f : list Ev → A) ev : (∀ h a, subEv h (ev a)) → keeps subPass (exchange f ev).
Proof. intros He w. apply subPass_one. intros _. apply He. Qed.

Lemma sub_asks {A} (f : list Ev → A) ev : (∀ h a, subEv h (EvPolicy (ev a))) → keeps subPass (asks f ev).
Proof. intros He. by apply sub_exchange. Qed.

Lemma sub_onStatus f : keeps subPass (onStatus f).
Proof.
  intros w [Hm HB]. unfold onStatus, modMem. cbn [snd]. split; [|by exists []]. split; [|done]. cbn [mem]. rewrite <-Hm.
  by destruct (mem w) as [[]|].
Qed.

Lemma sub_getMem {A} (f : option ClusterPolicy → COp A) :
  (∀ m, policyKey <$> m = K → keeps subPass (f m)) → keeps subPass (getMem ≫= f).
Proof. intros Hf w Hw. exact (Hf (mem w) (proj1 Hw) w Hw). Qed.

Lemma sub_lower {A} (m : COp A) : keeps sameMem m → keeps (logged isOpenShift) m → keeps subPass m.
Proof.
  intros Hm Hl w [Hk HB]. assert (loggedIn subEv w (m w).2) as Hlog.
  { eapply logged_loggedIn; [|apply Hl]. intros h e. by destruct e. }
  split; [|done]. split; [by rewrite Hm|]. etrans; [exact HB|]. by eapply loggedIn_grows.
Qed.

Lemma sub_addError s : keeps subPass (addError s).
Proof. apply sub_onStatus. Qed.
End Rules.
End Footprint.

(** Decomposes [keeps (subPass _ _ _) m]; what is left are the events with a condition. *)
Ltac sub_step :=
  match goal with
  | |- keeps (subPass _ _ _) (mbind _ getMem) => apply sub_getMem; intros ? ?
  | |- keeps (subPass _ _ _) (onStatus _) => apply sub_onStatus
  | |- keeps (subPass _ _ _) (addError _) => apply sub_addError
  | |- keeps (subPass _ _ _) (rangeMap _) => apply keeps_rangeMap; apply _
  | |- keeps _ _ => keeps_step
  | |- keeps (subPass _ _ _) _ => first [apply sub_asks|apply sub_exchange]; intros ? ?; cbn [subEv]; try done
  end.
Ltac sub_auto := repeat (intros; cbn beta; sub_step).

Section Passes.
Context `{!Env, !PolicyEnv, !YamlCodec} (opts : ControllerOpts) (B : list Ev) (K : option PKey).
Abbreviation stays m := (keeps (subPass opts B K) m).

Lemma sub_openShift crName part scc what : stays (ensureOpenShift opts crName part scc what).
Proof. apply sub_lower; unfold ensureOpenShift; keeps_auto. Qed.
Lemma sub_draOpenShift crName : stays (draOpenShift opts crName).
Proof. apply sub_lower; unfold draOpenShift; keeps_auto. Qed.
Lemma sub_cleanupOpenShift crName part : stays (cleanupOpenShift opts crName part).
Proof. apply sub_lower; unfold cleanupOpenShift; keeps_auto. Qed.
#[local] Hint Resolve sub_openShift sub_draOpenShift sub_cleanupOpenShift : keeps.

(** A deletion that takes no driver away. *)
Lemma sub_delete r : ¬ driverRef opts r → stays (Delete r).
Proof. intros Hr. apply sub_asks. intros h a. cbn [subEv]. by intros ?%Hr. Qed.

Lemma sub_removeDaemonSet part name f : name ≠ draDaemonSetName (ReqName opts) → stays (removeDaemonSet opts part name f).
Proof.
  intros Hn. assert (stays (Delete (mkRef KDaemonSet (Namespace opts) name))).
  { apply sub_delete. intros [Hk|[[= Hname]|[Hk _]]]; done. }
  unfold removeDaemonSet. sub_auto.
Qed.

Lemma sub_updateStatus name f : stays (updateDaemonSetStatus opts name f).
Proof. unfold updateDaemonSetStatus. sub_auto. Qed.

Lemma sub_createOrPatch ds f : (∀ d, mayDeploy opts K (f d)) → stays (createOrPatchDaemonSet ds f).
Proof.
  intros Hf. assert (∀ d, stays (Create (ODaemonSet (f d))) ∧ stays (Patch (ODaemonSet (f d)))) as Hcp.
  { intros d. split; apply sub_asks; intros h a; apply Hf. }
  unfold createOrPatchDaemonSet. sub_auto; apply Hcp.
Qed.
#[local] Hint Resolve sub_updateStatus : keeps.

Lemma dp_not_dra name : dpDaemonSetName name ≠ draDaemonSetName name.
Proof. unfold dpDaemonSetName, draDaemonSetName. by intros Heq%(inj (String.append name)). Qed.
Lemma xpum_not_dra name : xpumDaemonSetName name ≠ draDaemonSetName name.
Proof. unfold xpumDaemonSetName, draDaemonSetName. by intros Heq%(inj (String.append name)). Qed.

Lemma deployable cp d : Some (policyKey cp) = K → isClusterPolicyBeingDeleted (Some cp) = false → policyWants opts cp d → mayDeploy opts K d.
Proof. intros HK Hd Hw. exists cp. split_and!; [done| |done]. unfold isClusterPolicyBeingDeleted in Hd. by destruct (cp_DeletionTimestamp cp). Qed.

Lemma sub_Dp : stays (DpReconcile opts).
Proof.
  assert (stays (removeDaemonSet opts dpResourcePart (dpDaemonSetName (ReqName opts)) (set_DevicePluginStatus notAvailableStatus)))
    by apply sub_removeDaemonSet, dp_not_dra.
  unfold DpReconcile. apply sub_getMem. intros [cp|] Hk; [|done]. destruct (shouldRemoveDevicePlugin (Some cp)) eqn:Hs; [done|].
  apply orb_false_iff in Hs as [Hd Hm]. apply negb_false_iff, bool_decide_eq_true in Hm.
  assert (∀ d, mayDeploy opts K (updateDpDaemonSet opts cp d)) as Hw.
  { intros d. apply (deployable cp); [done..|]. left. eauto. }
  sub_auto. by apply sub_createOrPatch.
Qed.

Lemma sub_createMissing l : (∀ d, ODaemonSet d ∉ l) → stays (createMissing l).
Proof.
  induction l as [|o l IH]; intros Hl; simpl; [sub_auto|].
  assert (stays (Create o)). { apply sub_asks. intros h a. destruct o; try done. exfalso. eapply Hl. by left. }
  assert (stays (createMissing l)). { apply IH. intros d Hd. apply (Hl d). by right. }
  sub_auto.
Qed.

Lemma sub_deleteRefs l : (∀ r, r ∈ l → stays (Delete r)) → stays (deleteRefs l).
Proof.
  induction l as [|o l IH]; intros Hl; simpl; [sub_auto|].
  assert (stays (Delete o)) by (apply Hl; by left). assert (stays (deleteRefs l)) by (apply IH; intros r Hr; apply Hl; by right).
  sub_auto.
Qed.

(** *** Taking drivers away *)

(** The check of the claims, and what follows when none holds a GPU. *)
Lemma sub_claimsChecked {A} (f : bool → COp A) :
  stays (f true) → (∀ w, noGpuClaims B (log w) → subPass opts B K w (f false w).2) →
  stays (anyAllocatedResourceClaims GPUDeviceClass ≫= f).
Proof.
  intros Ht Hf w Hw. unfold anyAllocatedResourceClaims, ListClaims.
  set (r := env_listClaims (log w)). set (w1 := mkWorld (mem w) (EvListClaims r :: log w)).
  assert (subPass opts B K w w1) as Hone by (by apply subPass_one). destruct (Hone Hw) as [Hw1 Hl1].
  set (b := match r with Err _ => true | Ok claims => existsb (allocatedTo GPUDeviceClass) claims end).
  assert (inPass B K (f b w1).2 ∧ loggedIn (subEv opts B K) w1 (f b w1).2) as [Hw2 Hl2].
  { destruct b eqn:Hb; [by apply Ht|]. apply Hf; [|done]. unfold b in Hb. destruct r as [claims|e] eqn:Hr; [|done].
    exists claims. split; [apply seen_now, Hw|]. intros c Hc. destruct (allocatedTo GPUDeviceClass c) eqn:Ha; [|done].
    rewrite <-not_true_iff_false in Hb. destruct Hb. apply existsb_exists. exists c. by rewrite <-list_elem_of_In. }
  split; [exact Hw2|]. etrans; [exact Hl1|exact Hl2].
Qed.

(** Inside the guard every deletion is allowed. *)
Lemma guarded_deletions {A} (m : COp A) w :
  keeps sameMem m → keeps (logged (λ e, ∃ r a, e = EvPolicy (PvDelete r a))) m → noGpuClaims B (log w) → subPass opts B K w (m w).2.
Proof.
  intros Hm Hl Hc [Hk HB]. assert (loggedIn (subEv opts B K) w (m w).2) as Hlog.
  { eapply loggedIn_from; [|eapply (logged_loggedIn _ (λ _ e, ∃ r a, e = EvPolicy (PvDelete r a))); [|apply Hl]; auto].
    intros h e Hh (r & a & ->) _. by eapply noGpuClaims_mono. }
  split; [|done]. split; [by rewrite Hm|]. etrans; [exact HB|]. by eapply loggedIn_grows.
Qed.

Lemma guarded_bind {A C} (m : COp A) (f : A → COp C) w :
  keeps sameMem m → keeps (logged (λ e, ∃ r a, e = EvPolicy (PvDelete r a))) m → noGpuClaims B (log w) →
  (∀ a, stays (f a)) → subPass opts B K w ((m ≫= f) w).2.
Proof. intros Hm Hl Hc Hf. etrans; [by apply (guarded_deletions m)|apply Hf]. Qed.

Lemma deleteRefs_lowers l :
  keeps sameMem (deleteRefs l) ∧ keeps (logged (λ e, ∃ r a, e = EvPolicy (PvDelete r a))) (deleteRefs l).
Proof.
  induction l as [|o l [IHm IHl]]; simpl; (split; [keeps_auto|]); [keeps_auto|]. unfold Delete, asks. keeps_auto.
Qed.

Lemma sub_removeDra : stays (removeDra opts).
Proof.
  destruct (deleteRefs_lowers (draObjects opts (ReqName opts))) as [Hm Hl].
  unfold removeDra. apply sub_claimsChecked; [sub_auto|]. intros w Hc.
  apply (guarded_bind (deleteAll opts (ReqName opts))); [done..|]. sub_auto.
Qed.

Lemma draComponents_plain cp d : ODaemonSet d ∉ draComponents opts cp.
Proof. unfold draComponents. set_solver. Qed.

Lemma sub_Dra : stays (DraReconcile opts).
Proof.
  pose proof sub_removeDra as Hrem. assert (∀ c, stays (ensureDeviceClass c)) as Hcls by (intros c; unfold ensureDeviceClass; sub_auto).
  unfold DraReconcile. apply sub_getMem. intros m Hk. destruct (DRAEnable opts) eqn:Hdra; [|cbn [negb]; sub_auto]. cbn [negb].
  destruct m as [cp|]; [|done]. destruct (shouldRemoveDRA (Some cp)) eqn:Hs; [done|].
  apply orb_false_iff in Hs as [Hd Hm]. apply negb_false_iff, bool_decide_eq_true in Hm.
  assert (∀ d, mayDeploy opts K (updateDraDaemonSet opts cp d)) as Hw.
  { intros d. apply (deployable cp); [done..|]. right; left. eauto. }
  assert (stays (createDependencyComponentsIfMissing opts cp)) by apply sub_createMissing, draComponents_plain.
  unfold ensureDrmDeviceClass, ensureVfioDeviceClass. sub_auto. by apply sub_createOrPatch.
Qed.

Lemma sub_Xpum : stays (XpumReconcile opts).
Proof.
  assert (stays (removeDaemonSet opts xpumResourcePart (xpumDaemonSetName (ReqName opts)) (set_XPUManagerStatus notAvailableStatus)))
    by apply sub_removeDaemonSet, xpum_not_dra.
  unfold XpumReconcile. apply sub_getMem. intros [cp|] Hk; [|done]. destruct (shouldRemoveXpumd (Some cp)) eqn:Hs; [done|].
  apply orb_false_iff in Hs as [Hd Hm]. apply negb_false_iff in Hm.
  assert (∀ claim cm hash d, mayDeploy opts K (updateXpumDaemonSet opts cp claim cm hash d)) as Hw.
  { intros claim cm hash d. apply (deployable cp); [done..|]. right; right. eauto 10. }
  unfold createMonitoringResourceClaim, generateXpumdConfigEntries, createOrUpdateOTelConfigMap, fetchConfigHashFromConfigMap.
  sub_auto. by apply sub_createOrPatch.
Qed.

(** *** The kernel module *)

Lemma module_deletable ns n : DRAEnable opts = false → stays (Delete (mkRef KModule ns n)).
Proof. intros Hdra. apply sub_delete. intros [Hk|[Hk|[_ Hk]]]; [done..|]. congruence. Qed.

(** The deletion of a Module behind the check of the claims. *)
Lemma sub_moduleGuard {A} (busy : COp A) ns n (f : res unit → COp A) (pending : option (COp A)) :
  stays busy → (∀ a, stays (f a)) → (∀ p, pending = Some p → stays p) →
  stays ((if DRAEnable opts then anyAllocatedResourceClaims GPUDeviceClass else mret false) ≫= λ b : bool,
           if b then busy else match pending with Some p => p | None => Delete (mkRef KModule ns n) ≫= f end).
Proof.
  intros Hb Hf Hp. destruct (DRAEnable opts) eqn:Hdra.
  - apply sub_claimsChecked; [done|]. intros w Hc. destruct pending as [p|]; [by apply Hp|].
    apply (guarded_bind (Delete (mkRef KModule ns n))); [|apply keeps_exchange_logged; eauto|done..]. done.
  - apply keeps_bind; [apply _|sub_auto|]. intros [|]; [done|]. destruct pending as [p|]; [by apply Hp|].
    apply keeps_bind; [apply _|by apply module_deletable|done].
Qed.

Section ModuleOpts.
Context (opts' : ControllerOpts) (Hopts : DRAEnable opts' = DRAEnable opts).

Lemma sub_recreate km name : stays (recreateOnVersionToggle opts' km name).
Proof.
  unfold recreateOnVersionToggle. rewrite Hopts. apply keeps_bind; [apply _|sub_auto|]. intros [md|e]; [|sub_auto].
  destruct (sameEmptiness _ _); [sub_auto|]. case_bool_decide; [sub_auto|].
  eapply (sub_moduleGuard _ (mod_Namespace md) (mod_Name md) _ None); [sub_auto|sub_auto|done].
Qed.

Lemma sub_deleteModule name : stays (deleteModuleIfExists opts' name).
Proof.
  unfold deleteModuleIfExists. rewrite Hopts. apply keeps_bind; [apply _|sub_auto|]. intros [md|e]; [|sub_auto].
  case_bool_decide as Hpend.
  - eapply (sub_moduleGuard _ "" "" (λ _, mret (noResult, None)) (Some _)); [sub_auto|sub_auto|]. intros p [= <-]. sub_auto.
  - eapply (sub_moduleGuard _ (mod_Namespace md) (mod_Name md) _ None); [sub_auto|sub_auto|done].
Qed.

Lemma sub_Kmm : stays (KmmReconcile opts').
Proof.
  pose proof sub_recreate as Hrec. pose proof sub_deleteModule as Hdel.
  unfold KmmReconcile, createOrPatchModule, setModuleDesiredState, updateKmmStatus. sub_auto.
Qed.
End ModuleOpts.

(** *** The rest *)

(** Kinds whose deletion takes no driver away. *)
Definition harmless (r : Ref) : Prop :=
  match ref_Kind r with KDaemonSet | KDeviceClass | KModule => False | _ => True end.

Lemma sub_harmless r : harmless r → stays (Delete r).
Proof. unfold harmless. intros Hr. apply sub_delete. intros [Hk|[->|[Hk _]]]; by rewrite ?Hk in Hr. Qed.

Lemma sub_deleteEach l : (∀ r, r ∈ l → harmless r) → stays (deleteEach l).
Proof.
  induction l as [|r l IH]; intros Hl; simpl; [sub_auto|]. assert (stays (Delete r)) by (apply sub_harmless, Hl; by left).
  assert (stays (deleteEach l)) by (apply IH; intros x Hx; apply Hl; by right). sub_auto.
Qed.

Lemma sub_deleteStale what l : (∀ r, r ∈ l → harmless r) → stays (deleteStale what l).
Proof.
  induction l as [|r l IH]; intros Hl; simpl; [sub_auto|]. assert (stays (Delete r)) by (apply sub_harmless, Hl; by left).
  assert (stays (deleteStale what l)) by (apply IH; intros x Hx; apply Hl; by right). sub_auto.
Qed.

Lemma sub_cleanupStale owner k : stays (cleanupStaleKueueQueues owner k).
Proof.
  unfold cleanupStaleKueueQueues. sub_auto; apply sub_deleteStale; intros r; rewrite list_elem_of_fmap; by intros (x & -> & _).
Qed.
#[local] Hint Resolve sub_cleanupStale : keeps.

Context (crds : list string).

Lemma sub_prometheus cp : stays (reconcilePrometheusComponents opts crds cp).
Proof.
  assert (∀ ns ms ss, stays (deleteEach ((mkRef KServiceMonitor ns <$> ms) ++ (mkRef KService ns <$> ss)))) as Hdel.
  { intros ns ms ss. apply sub_deleteEach. intros r. rewrite elem_of_app, !list_elem_of_fmap. by intros [(x & -> & _)|(x & -> & _)]. }
  assert (∀ a b c d e f g, stays (createMissing [OServiceMonitor a b c d; OService e f g])) as Hcr.
  { intros. apply sub_createMissing. set_solver. }
  unfold reconcilePrometheusComponents. sub_auto.
Qed.

Lemma sub_removePrometheus : stays (removePrometheusComponents opts crds).
Proof.
  unfold removePrometheusComponents. sub_auto. apply sub_deleteRefs. intros r Hr. apply sub_harmless.
  repeat (apply elem_of_cons in Hr as [->|Hr]; [done|]). by apply not_elem_of_nil in Hr.
Qed.

Lemma sub_deleteNfd scope : stays (deleteNfdRule opts scope).
Proof. unfold deleteNfdRule. assert (stays (Delete (mkRef KNodeFeatureRule (nfrNamespace opts scope) nfdRuleName))) by by apply sub_harmless. sub_auto. Qed.
#[local] Hint Resolve sub_deleteNfd : keeps.

Lemma sub_nfd cp : stays (reconcileNfdRules opts cp).
Proof. unfold reconcileNfdRules, getNFDCRDScope. sub_auto. Qed.
Lemma sub_removeNfd : stays (removeNfdRules opts).
Proof. unfold removeNfdRules, getNFDCRDScope. sub_auto. Qed.

Lemma sub_modifyLocalQueues owner name l : stays (modifyLocalQueues owner name l).
Proof. induction l as [|lq l IH]; simpl; [sub_auto|]. unfold modifyLocalQueue. sub_auto. Qed.
#[local] Hint Resolve sub_modifyLocalQueues : keeps.

Lemma sub_modifyQueues owner l : stays (modifyQueues owner l).
Proof. induction l as [|[cq rs] l IH]; simpl; [sub_auto|]. unfold modifyOneClusterQueue, createClusterQueue. sub_auto. Qed.
#[local] Hint Resolve sub_modifyQueues : keeps.

Lemma sub_kueue cp : stays (reconcileKueueObjects crds cp).
Proof.
  unfold reconcileKueueObjects, removeKueueObjects, getClusterNodes, getDevicePluginResources, getDraResources, createKueueQueues,
    modifyResourceFlavor, modifyClusterQueue, divideResources. sub_auto.
Qed.
Lemma sub_removeKueue n : stays (removeKueueObjects crds n).
Proof. unfold removeKueueObjects. sub_auto. Qed.
#[local] Hint Resolve sub_prometheus sub_removePrometheus sub_nfd sub_removeNfd sub_kueue sub_removeKueue : keeps.

Lemma sub_Misc : stays (MiscReconcile opts crds).
Proof. unfold MiscReconcile. sub_auto. Qed.
End Passes.

(** ** What a deletion removes *)

(** The object was deleted, or found gone. *)
Definition goneRef (B h : list Ev) (r : Ref) : Prop :=
  ∃ a, seen B h (EvPolicy (PvDelete r a)) ∧ ∀ e, a = Err e → isNotFound e = true.

Lemma goneRef_mono B h h' r : h `suffix_of` h' → goneRef B h r → goneRef B h' r.
Proof. intros Hh (a & Hs & Ha). exists a. split; [|done]. by eapply seen_mono. Qed.

(** The node feature rule, the Prometheus objects and the Kueue queues, as far as their kinds are installed. *)
Definition miscRemoved (opts : ControllerOpts) (crds : list string) (B h : list Ev) : Prop :=
  ((∃ e, seen B h (EvPolicy (PvGetCRDScope nfdRuleCrd (Err e))) ∧ isNotFound e = true) ∨
   (∃ scope, seen B h (EvPolicy (PvGetCRDScope nfdRuleCrd (Ok scope))) ∧
      goneRef B h (mkRef KNodeFeatureRule (nfrNamespace opts scope) nfdRuleName))) ∧
  (serviceMonitorCrd ∈ crds →
    goneRef B h (mkRef KServiceMonitor (Namespace opts) "intel-xpumanager") ∧
    goneRef B h (mkRef KService (Namespace opts) "intel-xpumanager")) ∧
  (kueueClusterQueueCrd ∈ crds → ∃ cqs lqs,
    seen B h (EvPolicy (PvListClusterQueues (kueueLabels (ReqName opts)) (Ok cqs))) ∧
    seen B h (EvPolicy (PvListLocalQueues (kueueLabels (ReqName opts)) (Ok lqs))) ∧
    (∀ n, n ∈ cqs → goneRef B h (mkRef KClusterQueue "" n)) ∧
    (∀ n ns, (n, ns) ∈ lqs → goneRef B h (mkRef KLocalQueue ns n))).

(** The policy's operands are gone from the cluster. *)
Record removed (opts : ControllerOpts) (crds : list string) (B h : list Ev) : Prop := mkRemoved {
  rm_dp : goneRef B h (mkRef KDaemonSet (Namespace opts) (dpDaemonSetName (ReqName opts)));
  rm_xpum : goneRef B h (mkRef KDaemonSet (Namespace opts) (xpumDaemonSetName (ReqName opts)));
  rm_dra : DRAEnable opts = true → noGpuClaims B h ∧ ∀ r, r ∈ draObjects opts (ReqName opts) → goneRef B h r;
  rm_misc : miscRemoved opts crds B h;
}.

Section Removal.
Context `{!Env, !PolicyEnv, !YamlCodec} (opts : ControllerOpts) (B : list Ev).

(** [Delete] with the usual treatment of its answer. *)
Lemma wp_delete r (Q : res unit → World Ev (option ClusterPolicy) → Prop) w :
  B `suffix_of` log w →
  (∀ a w', log w `suffix_of` log w' → mem w' = mem w → ((∀ e, a = Err e → isNotFound e = true) → goneRef B (log w') r) → Q a w') →
  wp (Delete r) Q w.
Proof.
  intros HB HQ. apply wp_exchange. apply HQ; [by apply suffix_cons_r|done|]. intros Ha. eexists. split; [|done].
  cbn [log]. by apply seen_now.
Qed.

(** A loop that deletes, and goes on unless the deletion fails. *)
Lemma loop_gone (loop : list Ref → COp (option GoErr)) (err : Ref → GoErr → GoErr) l w :
  loop [] = mret None →
  (∀ r l', loop (r :: l') = Delete r ≫= λ a,
     match a with Err e => if isNotFound e then loop l' else mret (Some (err r e)) | Ok _ => loop l' end) →
  B `suffix_of` log w →
  wp (loop l) (λ o w', log w `suffix_of` log w' ∧ (o = None → ∀ r, r ∈ l → goneRef B (log w') r)) w.
Proof.
  intros Hnil Hcons. revert w. induction l as [|r l IH]; intros w HB.
  - rewrite Hnil. apply wp_ret. split; [done|]. set_solver.
  - rewrite Hcons. apply wp_bind, wp_delete; [done|]. intros a w1 Hw1 _ Hgone.
    assert ((∀ e, a = Err e → isNotFound e = true) → wp (loop l) (λ o w', log w `suffix_of` log w' ∧
      (o = None → ∀ r0, r0 ∈ r :: l → goneRef B (log w') r0)) w1) as Hrest.
    { intros Ha. eapply wp_mono; [apply IH; by etrans|]. cbn beta. intros o w2 [Hw2 Ho]. split; [by etrans|].
      intros Hn r0 [->|Hr]%elem_of_cons; [|by apply Ho]. eapply goneRef_mono; [exact Hw2|]. auto. }
    destruct a as [u|e]; [by apply Hrest|]. destruct (isNotFound e) eqn:He; [|by apply wp_ret]. apply Hrest. by intros ? [= <-].
Qed.

Lemma deleteRefs_gone l w : B `suffix_of` log w →
  wp (deleteRefs l) (λ o w', log w `suffix_of` log w' ∧ (o = None → ∀ r, r ∈ l → goneRef B (log w') r)) w.
Proof. by apply (loop_gone deleteRefs (λ _ e, e)). Qed.

Lemma deleteStale_gone what l w : B `suffix_of` log w →
  wp (deleteStale what l) (λ o w', log w `suffix_of` log w' ∧ (o = None → ∀ r, r ∈ l → goneRef B (log w') r)) w.
Proof. by apply (loop_gone (deleteStale what) (λ o e, errorf (what o +:+ etext e))). Qed.

Lemma removeDaemonSet_gone part name f w : B `suffix_of` log w →
  wp (removeDaemonSet opts part name f)
    (λ r w', r.2 = None → goneRef B (log w') (mkRef KDaemonSet (Namespace opts) name)) w.
Proof.
  intros HB. unfold removeDaemonSet. apply wp_bind.
  assert (keeps grows (if OpenShift opts then cleanupOpenShift opts (ReqName opts) part else (mret tt : COp unit))) as Hg.
  { unfold cleanupOpenShift, DeleteOpenShiftSCCResources. keeps_auto. }
  eapply wp_mono; [apply (keeps_wp _ _ w Hg)|]. cbn beta. intros _ w1 Hw1. apply wp_bind, wp_delete; [by etrans|].
  intros a w2 Hw2 _ Hgone. destruct a as [u|e]; [|destruct (isNotFound e) eqn:He].
  - wp_steps. intros _. by apply Hgone.
  - wp_steps. intros _. apply Hgone. by intros ? [= <-].
  - by wp_steps.
Qed.

Lemma removeDra_gone w : B `suffix_of` log w →
  wp (removeDra opts) (λ r w', r.2 = None → noGpuClaims B (log w') ∧ ∀ x, x ∈ draObjects opts (ReqName opts) → goneRef B (log w') x) w.
Proof.
  intros HB. unfold removeDra, anyAllocatedResourceClaims, ListClaims. do 2 wp_step. wp_step. cbn beta. wp_step.
  destruct (env_listClaims (log w)) as [claims|e] eqn:Hl; [|by wp_steps].
  destruct (existsb _ claims) eqn:Hb; [by wp_steps|]. apply wp_bind. unfold deleteAll.
  eapply wp_mono; [apply deleteRefs_gone; by apply suffix_cons_r|]. cbn beta. cbn [log]. intros o w1 [Hw1 Ho].
  destruct o as [e|]; [by wp_steps|]. wp_steps. intros _. split; [|by apply Ho].
  eapply noGpuClaims_mono; [exact Hw1|]. exists claims. split; [by apply seen_now|]. intros c Hc.
  destruct (allocatedTo GPUDeviceClass c) eqn:Ha; [|done]. rewrite <-not_true_iff_false in Hb. destruct Hb.
  apply existsb_exists. exists c. by rewrite <-list_elem_of_In.
Qed.

Lemma removeNfd_gone w : B `suffix_of` log w →
  wp (removeNfdRules opts) (λ o w', log w `suffix_of` log w' ∧ (o = None →
    (∃ e, seen B (log w') (EvPolicy (PvGetCRDScope nfdRuleCrd (Err e))) ∧ isNotFound e = true) ∨
    (∃ scope, seen B (log w') (EvPolicy (PvGetCRDScope nfdRuleCrd (Ok scope))) ∧
       goneRef B (log w') (mkRef KNodeFeatureRule (nfrNamespace opts scope) nfdRuleName)))) w.
Proof.
  intros HB. unfold removeNfdRules, getNFDCRDScope, GetCRDScope, asks. do 3 wp_step. cbn beta. wp_step.
  destruct (penv_getCRDScope (log w) nfdRuleCrd) as [scope|e] eqn:Hs.
  - unfold deleteNfdRule. apply wp_bind, wp_delete; [by apply suffix_cons_r|]. cbn [log]. intros a w1 Hw1 _ Hgone. wp_step.
    split; [etrans; [|exact Hw1]; by apply suffix_cons_r|]. intros Ho. right. exists scope. split.
    + eapply seen_mono; [exact Hw1|]. by apply seen_now.
    + apply Hgone. intros e ->. by destruct (isNotFound e).
  - wp_step. split; [by apply suffix_cons_r|]. unfold wrapErr, isNotFound. cbn [ekind]. fold (isNotFound e).
    destruct (isNotFound e) eqn:He; [|done]. intros _. left. exists e. split; [by apply seen_now|done].
Qed.

Context (crds : list string).

Lemma removePrometheus_gone w : B `suffix_of` log w →
  wp (removePrometheusComponents opts crds) (λ o w', log w `suffix_of` log w' ∧ (o = None → serviceMonitorCrd ∈ crds →
    goneRef B (log w') (mkRef KServiceMonitor (Namespace opts) "intel-xpumanager") ∧
    goneRef B (log w') (mkRef KService (Namespace opts) "intel-xpumanager"))) w.
Proof.
  intros HB. unfold removePrometheusComponents, checkIfCRDsExists. case_bool_decide as Hc; cbn [negb]; [|by wp_step].
  eapply wp_mono; [by apply deleteRefs_gone|]. cbn beta. intros o w' [Hw Ho]. split; [done|]. intros Hn _.
  specialize (Ho Hn). split; apply Ho; set_solver.
Qed.

Lemma removeKueue_gone n w : B `suffix_of` log w →
  wp (removeKueueObjects crds n) (λ o w', log w `suffix_of` log w' ∧ (o = None → kueueClusterQueueCrd ∈ crds → ∃ cqs lqs,
    seen B (log w') (EvPolicy (PvListClusterQueues (kueueLabels n) (Ok cqs))) ∧
    seen B (log w') (EvPolicy (PvListLocalQueues (kueueLabels n) (Ok lqs))) ∧
    (∀ x, x ∈ cqs → goneRef B (log w') (mkRef KClusterQueue "" x)) ∧
    (∀ x ns, (x, ns) ∈ lqs → goneRef B (log w') (mkRef KLocalQueue ns x)))) w.
Proof.
  intros HB. unfold removeKueueObjects, checkIfCRDsExists. case_bool_decide as Hc; cbn [negb]; [|by wp_step].
  unfold cleanupStaleKueueQueues, DeleteAllOf, ListClusterQueues, ListLocalQueues, asks. do 2 wp_step. do 2 wp_step. cbn beta. cbn [log].
  assert (∀ h e, B `suffix_of` h → B `suffix_of` e :: h) as Hc1 by (intros; by apply suffix_cons_r).
  destruct (penv_listClusterQueues _ _) as [cqs|e] eqn:Hcq; [|wp_step; split; [by do 2 apply suffix_cons_r|done]].
  apply wp_bind. eapply wp_mono; [apply deleteStale_gone; by apply Hc1, Hc1|]. cbn beta. cbn [log]. intros d w1 [Hw1 Hd].
  assert (log w `suffix_of` log w1) as Hw by (etrans; [|exact Hw1]; by do 2 apply suffix_cons_r).
  destruct d as [e|]; [by wp_step|]. do 2 wp_step. cbn beta. cbn [log].
  destruct (penv_listLocalQueues _ _) as [lqs|e] eqn:Hlq; [|wp_step; split; [by apply suffix_cons_r|done]].
  eapply wp_mono; [apply deleteStale_gone; apply Hc1; by etrans|]. cbn beta. cbn [log]. intros d w2 [Hw2 Hd2].
  assert (log w1 `suffix_of` log w2) as Hw12 by (etrans; [|exact Hw2]; by apply suffix_cons_r).
  split; [by etrans|]. intros -> _. exists cqs, lqs. specialize (Hd eq_refl). specialize (Hd2 eq_refl). split_and!.
  - eapply seen_mono; [exact Hw12|]. eapply seen_mono; [exact Hw1|]. apply seen_now. auto.
  - eapply seen_mono; [exact Hw2|]. apply seen_now. by etrans.
  - intros x Hx. eapply goneRef_mono; [exact Hw12|]. apply Hd, list_elem_of_fmap. exists x. split; [done|].
    apply list_elem_of_filter. split; [|done]. simpl. apply not_elem_of_nil.
  - intros x ns Hx. apply Hd2, list_elem_of_fmap. exists (x, ns). split; [done|].
    apply list_elem_of_filter. split; [|done]. simpl. apply not_elem_of_nil.
Qed.

Abbreviation deletes w := (∃ cp, mem w = Some cp ∧ is_Some (cp_DeletionTimestamp cp)).

Lemma deleting_removed (w : World Ev (option ClusterPolicy)) cp :
  mem w = Some cp → is_Some (cp_DeletionTimestamp cp) →
  shouldRemoveDevicePlugin (mem w) = true ∧ shouldRemoveXpumd (mem w) = true ∧ shouldRemoveDRA (mem w) = true.
Proof.
  intros -> Hd. unfold shouldRemoveDevicePlugin, shouldRemoveXpumd, shouldRemoveDRA, isClusterPolicyBeingDeleted.
  by rewrite bool_decide_true.
Qed.

Lemma Dp_removes w : deletes w → B `suffix_of` log w →
  wp (DpReconcile opts) (λ r w', r.2 = None → goneRef B (log w') (mkRef KDaemonSet (Namespace opts) (dpDaemonSetName (ReqName opts)))) w.
Proof.
  intros (cp & Hm & Hd) HB. destruct (deleting_removed w cp Hm Hd) as (Hs & _ & _). unfold DpReconcile. wp_step. wp_step. cbn beta.
  rewrite Hs, Hm. by apply removeDaemonSet_gone.
Qed.

Lemma Xpum_removes w : deletes w → B `suffix_of` log w →
  wp (XpumReconcile opts) (λ r w', r.2 = None → goneRef B (log w') (mkRef KDaemonSet (Namespace opts) (xpumDaemonSetName (ReqName opts)))) w.
Proof.
  intros (cp & Hm & Hd) HB. destruct (deleting_removed w cp Hm Hd) as (_ & Hs & _). unfold XpumReconcile. wp_step. wp_step. cbn beta zeta.
  rewrite Hs, Hm. by apply removeDaemonSet_gone.
Qed.

Lemma Dra_removes w : deletes w → B `suffix_of` log w →
  wp (DraReconcile opts) (λ r w', r.2 = None → DRAEnable opts = true →
    noGpuClaims B (log w') ∧ ∀ x, x ∈ draObjects opts (ReqName opts) → goneRef B (log w') x) w.
Proof.
  intros (cp & Hm & Hd) HB. destruct (deleting_removed w cp Hm Hd) as (_ & _ & Hs). unfold DraReconcile. wp_step. wp_step. cbn beta.
  rewrite Hs, Hm. destruct (DRAEnable opts) eqn:Hdra; cbn [negb].
  - eapply wp_mono; [by apply removeDra_gone|]. cbn beta. auto.
  - case_bool_decide; by wp_steps.
Qed.

Lemma miscRemoved_mono h h' : h `suffix_of` h' → miscRemoved opts crds B h → miscRemoved opts crds B h'.
Proof.
  intros Hh. assert (∀ r, goneRef B h r → goneRef B h' r) as Hg by (intros r; by apply goneRef_mono).
  assert (∀ e, seen B h e → seen B h' e) as Hs by (intros e; by apply seen_mono).
  intros (Hn & Hp & Hk). split_and!.
  - destruct Hn as [(e & ? & ?)|(scope & ? & ?)]; [left|right]; eauto.
  - intros Hc. destruct (Hp Hc). eauto.
  - intros Hc. destruct (Hk Hc) as (cqs & lqs & ? & ? & ? & ?). exists cqs, lqs. eauto 10.
Qed.

Lemma Misc_removes w : deletes w → B `suffix_of` log w → wp (MiscReconcile opts crds) (λ r w', r.2 = None → miscRemoved opts crds B (log w')) w.
Proof.
  intros (cp & Hm & Hd) HB. unfold MiscReconcile. wp_step. wp_step. cbn beta. rewrite Hm, bool_decide_true by done.
  apply wp_bind. eapply wp_mono; [by apply removeNfd_gone|]. cbn beta. intros a w1 [Hw1 Ha].
  apply wp_bind. eapply wp_mono; [apply removePrometheus_gone; by etrans|]. cbn beta. intros b w2 [Hw2 Hb].
  apply wp_bind. eapply wp_mono; [apply removeKueue_gone; etrans; [|exact Hw2]; by etrans|]. cbn beta. intros c w3 [Hw3 Hc].
  wp_step. cbn [snd]. destruct c; [done|]. destruct b; [done|]. intros ->. specialize (Ha eq_refl). specialize (Hb eq_refl). split_and!.
  - destruct Ha as [(e & Hs & He)|(scope & Hs & Hg)]; [left; exists e|right; exists scope].
    + split; [|done]. eapply seen_mono; [|exact Hs]. by etrans.
    + split; [eapply seen_mono; [|exact Hs]; by etrans|]. eapply goneRef_mono; [|exact Hg]. by etrans.
  - intros Hcrd. destruct (Hb Hcrd). split; by eapply goneRef_mono.
  - by apply Hc.
Qed.
End Removal.

(** ** The whole pass *)

Section Pass.
Context `{!Env, !PolicyEnv, !YamlCodec} (Opts : ControllerOpts) (name : string) (B : list Ev).
Abbreviation opts := (optsFor Opts name).

(** The API server has shown the policy, whatever its status. *)
Definition shown (h : list Ev) (K : option PKey) : Prop :=
  ∃ cp, K = Some (policyKey cp) ∧
    (seen B h (EvPolicy (PvGetPolicy name (Ok cp))) ∨ ∃ q, seen B h (EvPolicy (PvUpdatePolicy q (Ok cp)))).

Definition passEv (h : list Ev) (e : Ev) : Prop :=
  match e with
  | EvPolicy (PvCreate (ODaemonSet d) _) | EvPolicy (PvPatch (ODaemonSet d) _) => ∃ K, shown h K ∧ mayDeploy opts K d
  | EvPolicy (PvUpdate (ODaemonSet _) _) => False
  | EvPolicy (PvDelete r _) => driverRef opts r → noGpuClaims B h
  | EvPolicy (PvUpdatePolicy cp _) =>
      clusterPolicyFinalizer ∉ cp_Finalizers cp →
      ∃ K crds, shown h K ∧ (∃ c, K = Some (policyKey c) ∧ is_Some (cp_DeletionTimestamp c)) ∧
        seen B h (EvPolicy (PvListCRDs (Ok crds))) ∧ removed opts crds B h
  | _ => True
  end.

Lemma shown_mono h h' K : h `suffix_of` h' → shown h K → shown h' K.
Proof.
  intros Hh (cp & -> & Hs). exists cp. split; [done|]. destruct Hs as [Hs|[q Hs]]; [left|right; exists q]; by eapply seen_mono.
Qed.

(** Sub-controllers run for a policy that has been shown, or for one that is gone. *)
Lemma subPass_pass K (w w' : World Ev (option ClusterPolicy)) : (K = None ∨ shown (log w) K) → loggedIn (subEv opts B K) w w' → loggedIn passEv w w'.
Proof.
  intros HK. apply loggedIn_from. intros h e Hh.
  assert (∀ d, mayDeploy opts K d → ∃ K', shown h K' ∧ mayDeploy opts K' d) as Hdep.
  { intros d Hd. exists K. split; [|done]. destruct HK as [->|HK]; [by destruct Hd as (? & [=] & _)|]. by eapply shown_mono. }
  destruct e; try done. destruct e; try done; destruct o; try done; apply Hdep.
Qed.

Definition running (m : COp SubResult) : Prop := ∀ K, keeps (subPass opts B K) m.

Lemma subControllers_running crds : Forall running (subControllers opts crds).
Proof.
  unfold subControllers. rewrite !Forall_cons, Forall_nil.
  split_and!; [intros K; apply sub_Dp|intros K; apply sub_Xpum|intros K; apply sub_Dra|intros K; apply sub_Misc| |done].
  intros K. by apply sub_Kmm.
Qed.

Lemma runAll_sub K err l : Forall running l → keeps (subPass opts B K) (runAll err l).
Proof.
  revert err. induction l as [|m l IH]; intros err Hl; simpl; [sub_auto|]. apply Forall_cons in Hl as [Hm Hl].
  specialize (Hm K). assert (∀ e, keeps (subPass opts B K) (runAll e l)) by (intros; by apply IH). sub_auto.
Qed.

Lemma runForDeletion_sub K l : Forall running l → keeps (subPass opts B K) (runForDeletion l).
Proof.
  induction l as [|m l IH]; intros Hl; simpl; [sub_auto|]. apply Forall_cons in Hl as [Hm Hl].
  specialize (Hm K). assert (keeps (subPass opts B K) (runForDeletion l)) by (by apply IH). sub_auto.
Qed.

Lemma deletion_step K m l (P Q : list Ev → Prop) w :
  inPass B K w → running m → wp m (λ r w', r.2 = None → P (log w')) w →
  (∀ w1, inPass B K w1 → log w `suffix_of` log w1 → P (log w1) → wp (runForDeletion l) (λ o w', o = None → Q (log w')) w1) →
  wp (runForDeletion (m :: l)) (λ o w', o = None → Q (log w')) w.
Proof.
  intros Hw Hm HP Hl. simpl. apply wp_bind. eapply wp_mono; [apply wp_and; [exact HP|apply (keeps_wp _ _ w (Hm K))]|].
  cbn beta. intros [res err] w1 [HP1 Hs]. cbn [fst snd] in *. destruct (Hs Hw) as [Hw1 Hlog]. destruct err as [e|]; [by wp_steps|].
  apply Hl; [done|by eapply loggedIn_grows|by apply HP1].
Qed.

Lemma runForDeletion_removes crds K c w :
  inPass B K w → K = Some (policyKey c) → is_Some (cp_DeletionTimestamp c) →
  wp (runForDeletion (subControllers opts crds)) (λ o w', o = None → removed opts crds B (log w')) w.
Proof.
  intros Hw HK Hd. pose proof (subControllers_running crds) as Hrun. unfold subControllers in *.
  apply Forall_cons in Hrun as [R1 Hrun]. apply Forall_cons in Hrun as [R2 Hrun]. apply Forall_cons in Hrun as [R3 Hrun].
  apply Forall_cons in Hrun as [R4 Hrun]. apply Forall_cons in Hrun as [R5 _].
  assert (∀ w, inPass B K w → (∃ cp, mem w = Some cp ∧ is_Some (cp_DeletionTimestamp cp)) ∧ B `suffix_of` log w) as Hdel.
  { intros w1 [Hk HB]. split; [|done]. rewrite HK in Hk. apply fmap_Some in Hk as (cp & -> & Hkey). exists cp. split; [done|].
    injection Hkey as _ <- _ _. done. }
  eapply (deletion_step K _ _ (λ h, goneRef B h (mkRef KDaemonSet (Namespace opts) (dpDaemonSetName (ReqName opts)))));
    [done..|by apply Dp_removes; apply Hdel|]. intros w1 Hw1 _ P1.
  eapply (deletion_step K _ _ (λ h, goneRef B h (mkRef KDaemonSet (Namespace opts) (xpumDaemonSetName (ReqName opts)))));
    [done..|by apply Xpum_removes; apply Hdel|]. intros w2 Hw2 L2 P2.
  eapply (deletion_step K _ _ (λ h, DRAEnable opts = true → noGpuClaims B h ∧ ∀ x, x ∈ draObjects opts (ReqName opts) → goneRef B h x));
    [done..|by apply Dra_removes; apply Hdel|]. intros w3 Hw3 L3 P3.
  eapply (deletion_step K _ _ (miscRemoved opts crds B));
    [done..|by apply Misc_removes; apply Hdel|]. intros w4 Hw4 L4 P4.
  eapply (deletion_step K _ _ (λ _, True)); [done..| |].
  { unfold wp. done. }
  intros w5 Hw5 L5 _. apply wp_ret. intros _.
  assert (log w3 `suffix_of` log w5) as L35 by (by etrans). assert (log w2 `suffix_of` log w5) as L25 by (by etrans).
  assert (log w1 `suffix_of` log w5) as L15 by (by etrans). split.
  - by apply (goneRef_mono _ _ _ _ L15).
  - by apply (goneRef_mono _ _ _ _ L25).
  - intros Hdra. destruct (P3 Hdra) as [Hc Hg]. split; [by apply (noGpuClaims_mono _ _ _ L35)|].
    intros r Hr. apply (goneRef_mono _ _ _ _ L35). by apply Hg.
  - by apply (miscRemoved_mono _ _ _ _ _ L5).
Qed.

(** The policy in memory is one the API server has shown, up to its status. *)
Definition current (w : World Ev (option ClusterPolicy)) : Prop :=
  B `suffix_of` log w ∧ (mem w = None ∨ shown (log w) (policyKey <$> mem w)).

Lemma shown_now K h e cp :
  K = Some (policyKey cp) → B `suffix_of` h →
  (e = PvGetPolicy name (Ok cp) ∨ ∃ q, e = PvUpdatePolicy q (Ok cp)) → shown (EvPolicy e :: h) K.
Proof.
  intros -> HB He. exists cp. split; [done|]. destruct He as [->|[q ->]]; [left|right; exists q]; by apply seen_now.
Qed.

Lemma ensureFinalizer_pass w : current w →
  wp ensureFinalizer (λ o w', loggedIn passEv w w' ∧ (o = None → current w')) w.
Proof.
  intros [HB Hw]. unfold ensureFinalizer. wp_step. wp_step. cbn beta. destruct (mem w) as [cp|] eqn:Hm.
  - destruct (_ && _); [|wp_step; split; [reflexivity|by split; rewrite ?Hm]]. unfold UpdatePolicy, asks. do 4 wp_step. cbn beta.
    set (cp1 := set_cp_Finalizers _ cp). cbn [log mem]. set (e := EvPolicy _).
    assert (∀ s, loggedIn passEv w (mkWorld s (e :: log w))) as Hlog.
    { intros s. apply loggedIn_one. unfold e. cbn [passEv]. intros []. unfold cp1. cbn [cp_Finalizers set_cp_Finalizers]. set_solver. }
    destruct (penv_updatePolicy (log w) cp1) as [cp'|err] eqn:Hu; wp_steps; (split; [apply Hlog|]); [|done].
    intros _. split; [by apply suffix_cons_r|]. right. cbn [mem log]. eapply (shown_now _ _ _ cp'); [done..|]. right. by exists cp1.
  - wp_step. split; [reflexivity|]. by split; [|left].
Qed.

Lemma finishDeletion_pass crds w c :
  current w → policyKey <$> mem w = Some (policyKey c) → is_Some (cp_DeletionTimestamp c) →
  seen B (log w) (EvPolicy (PvListCRDs (Ok crds))) → removed opts crds B (log w) →
  wp finishDeletion (λ _ w', loggedIn passEv w w') w.
Proof.
  intros [HB Hw] Hk Hd Hcrd Hrem. unfold finishDeletion. wp_step. wp_step. cbn beta. destruct (mem w) as [cp|] eqn:Hm; [|done].
  unfold UpdatePolicy, asks. do 4 wp_step. cbn beta. set (cp1 := set_cp_Finalizers _ cp). cbn [log mem]. set (e := EvPolicy _).
  assert (∀ s, loggedIn passEv w (mkWorld s (e :: log w))) as Hlog.
  { intros s. apply loggedIn_one. unfold e. cbn [passEv]. intros _. exists (policyKey <$> Some cp), crds.
    split; [by destruct Hw|]. split; [by exists c|]. done. }
  destruct (penv_updatePolicy (log w) cp1) as [cp'|err]; wp_steps; apply Hlog.
Qed.

Lemma policyBody_pass w : current w → wp (policyBody Opts name) (λ _ w', loggedIn passEv w w') w.
Proof.
  intros [HB Hcur]. unfold policyBody, retrieveCRDNameList, ListCRDs, asks. do 2 wp_step. cbn beta.
  set (w0 := mkWorld _ _).
  assert (loggedIn passEv w w0) as Hl0 by by apply loggedIn_one.
  assert (current w0) as Hc0.
  { split; [by apply suffix_cons_r|]. cbn [mem w0]. destruct Hcur as [Hn|Hs]; [by left|right].
    eapply shown_mono; [|exact Hs]. cbn [log w0]. by apply suffix_cons_r. }
  destruct (penv_listCRDs (log w)) as [crds|e] eqn:Hcrd; [|by wp_step].
  assert (seen B (log w0) (EvPolicy (PvListCRDs (Ok crds)))) as Hseen by (unfold w0; cbn [log]; rewrite ?Hcrd; by apply seen_now).
  apply wp_bind. eapply wp_mono; [by apply ensureFinalizer_pass|]. cbn beta. intros f w1 [Hl1 Hc1].
  destruct f as [e|]; [wp_step; by etrans|]. specialize (Hc1 eq_refl). destruct Hc1 as [HB1 Hc1].
  set (K := policyKey <$> mem w1). assert (inPass B K w1) as Hin by done.
  assert (K = None ∨ shown (log w1) K) as HK. { destruct Hc1 as [Hn|]; [left; unfold K; by rewrite Hn|by right]. }
  assert (∀ w2, loggedIn (subEv opts B K) w1 w2 → loggedIn passEv w w2) as Hdone.
  { intros w2 H2. etrans; [exact Hl0|]. etrans; [exact Hl1|]. by eapply subPass_pass. }
  pose proof (subControllers_running crds) as Hrun.
  wp_step. wp_step. cbn beta. destruct (mem w1) as [cp|] eqn:Hm.
  2:{ apply wp_bind. eapply wp_mono; [apply (keeps_wp (subPass opts B K)), runAll_sub, Hrun|]. cbn beta. intros x w2 H2. wp_step. by apply Hdone, H2. }
  case_bool_decide as Hd.
  2:{ apply wp_bind. eapply wp_mono; [apply (keeps_wp (subPass opts B K)), runAll_sub, Hrun|]. cbn beta. intros x w2 H2. wp_step. by apply Hdone, H2. }
  apply wp_bind. eapply wp_mono; [apply wp_and|].
  { by apply (runForDeletion_removes crds K cp). }
  { apply (keeps_wp (subPass opts B K)), runForDeletion_sub, Hrun. }
  cbn beta. intros o w2 [Hrem H2]. destruct (H2 Hin) as [[Hk2 HB2] Hl2]. destruct o as [x|]; [wp_step; by apply Hdone|].
  assert (log w1 `suffix_of` log w2) as L12 by by eapply loggedIn_grows.
  apply wp_bind. eapply wp_mono; [apply (finishDeletion_pass crds w2 cp); [|done|done| |by apply Hrem]|].
  - split; [done|]. right. rewrite Hk2. destruct HK as [HK|HK]; [done|]. by eapply shown_mono.
  - eapply seen_mono; [|exact Hseen]. etrans; [|exact L12]. by eapply loggedIn_grows.
  - cbn beta. intros x w3 Hl3. wp_step. etrans; [|exact Hl3]. by apply Hdone.
Qed.
End Pass.

Section Claims.
Context `{!Env, !PolicyEnv, !YamlCodec} (Opts : ControllerOpts) (name : string).

Lemma PolicyReconcile_pass w : wp (PolicyReconcile Opts name) (λ _ w', loggedIn (passEv Opts name (log w)) w w') w.
Proof.
  unfold PolicyReconcile, GetPolicy, asks. do 2 wp_step. cbn beta. set (ev := EvPolicy _).
  assert (loggedIn (passEv Opts name (log w)) w (mkWorld (mem w) (ev :: log w))) as Hl by by apply loggedIn_one.
  destruct (penv_getPolicy (log w) name) as [cp|e] eqn:Hg.
  - do 2 wp_step. cbn [log]. apply wp_bind. set (cp0 := set_cp_Status _ cp).
    assert (current name (log w) (mkWorld (Some cp0) (ev :: log w))) as Hc.
    { split; [by apply suffix_cons_r|]. right. cbn [mem log]. by apply (shown_now _ _ _ _ _ cp); [| |left]. }
    eapply wp_mono; [apply (policyBody_pass Opts name (log w) _ Hc)|]. cbn beta. intros r w1 Hl1.
    assert (loggedIn (passEv Opts name (log w)) w w1) as Hw1 by (etrans; [exact Hl|exact Hl1]).
    apply wp_bind. unfold deferredStatus. wp_step. wp_step. cbn beta.
    destruct (if r.2 then _ else _) as [o|]; [|wp_step; by wp_step]. destruct (mem w1) as [cp1|]; [|wp_step; by wp_step].
    case_bool_decide; [wp_step; by wp_step|]. unfold UpdatePolicyStatus, asks. do 2 wp_step. cbn beta.
    assert (∀ s, loggedIn (passEv Opts name (log w)) w (mkWorld s (EvPolicy (PvUpdatePolicyStatus cp1
      (penv_updatePolicyStatus (log w1) cp1)) :: log w1))) as Hs.
    { intros s. etrans; [exact Hw1|]. by apply loggedIn_one. }
    destruct (penv_updatePolicyStatus (log w1) cp1); wp_steps; apply Hs.
  - destruct (isNotFound e); [|by wp_step]. do 2 wp_step. cbn [log]. apply wp_bind.
    eapply wp_mono; [apply (policyBody_pass Opts name (log w))|].
    + split; [by apply suffix_cons_r|by left].
    + cbn beta. intros r w1 Hl1. wp_step. etrans; [exact Hl|exact Hl1].
Qed.

(** C11: a driver is not taken away under a running workload.  A pass deletes a device class, the DRA driver's
    DaemonSet or, where DRA is available, a kernel module only after it has listed the resource claims in that
    pass and found none allocated on the operator's GPU driver; a failed listing counts as allocated. *)
Theorem drivers_kept_while_in_use w :
  wp (PolicyReconcile Opts name) (λ _ w', ∀ h r a, made w w' h (EvPolicy (PvDelete r a)) →
    ref_Kind r = KDeviceClass ∨ r = mkRef KDaemonSet (Namespace Opts) (draDaemonSetName name) ∨
      ref_Kind r = KModule ∧ DRAEnable Opts = true →
    ∃ claims, seen (log w) h (EvListClaims (Ok claims)) ∧ ∀ c, c ∈ claims → allocatedTo GPUDeviceClass c = false) w.
Proof.
  eapply wp_mono; [apply PolicyReconcile_pass|]. cbn beta. intros _ w' Hl h r a Hm Hr.
  exact (loggedIn_made _ _ _ _ _ Hl Hm Hr).
Qed.

(** C20: a DaemonSet is created or changed only for a policy that the API server has shown in that pass, that is not
    being deleted, and that asks for it: the device plugin's in mode dp, the DRA driver's in mode dra where the
    cluster has DRA, the XPU manager's when monitoring is on.  What is written is the update for that policy and
    the request's options of some DaemonSet, and nothing else writes DaemonSets. *)
Theorem daemonsets_follow_policy w :
  wp (PolicyReconcile Opts name) (λ _ w', ∀ h d a,
    made w w' h (EvPolicy (PvCreate (ODaemonSet d) a)) ∨ made w w' h (EvPolicy (PvPatch (ODaemonSet d) a)) ∨
      made w w' h (EvPolicy (PvUpdate (ODaemonSet d) a)) →
    ∃ cp cp', (seen (log w) h (EvPolicy (PvGetPolicy name (Ok cp'))) ∨
               ∃ q, seen (log w) h (EvPolicy (PvUpdatePolicy q (Ok cp')))) ∧
      policyKey cp = policyKey cp' ∧ cp_DeletionTimestamp cp = None ∧ policyWants (optsFor Opts name) cp d) w.
Proof.
  eapply wp_mono; [apply PolicyReconcile_pass|]. cbn beta. intros _ w' Hl h d a Hm.
  assert (∃ K, shown name (log w) h K ∧ mayDeploy (optsFor Opts name) K d) as (K & (cp' & -> & Hs) & cp & Hk%(inj Some) & Hd & Hw).
  { destruct Hm as [Hm|[Hm|Hm]]; by apply (loggedIn_made _ _ _ _ _ Hl) in Hm. }
  by exists cp, cp'.
Qed.

(** C12: the policy's finalizer is removed only from a policy that the API server has shown as being deleted, and only
    when in that pass the operands were deleted or found gone: the DaemonSets of the device plugin and of the XPU
    manager, and, where the cluster has DRA, every object of the DRA driver, after no claim was found on it; the
    node feature rule, the Prometheus objects and every Kueue queue of the policy, as far as the cluster knows
    their kinds. *)
Theorem policy_finalizer_guard w :
  wp (PolicyReconcile Opts name) (λ _ w', ∀ h cp a, made w w' h (EvPolicy (PvUpdatePolicy cp a)) →
    clusterPolicyFinalizer ∉ cp_Finalizers cp →
    ∃ c crds, (seen (log w) h (EvPolicy (PvGetPolicy name (Ok c))) ∨ ∃ q, seen (log w) h (EvPolicy (PvUpdatePolicy q (Ok c)))) ∧
      is_Some (cp_DeletionTimestamp c) ∧ seen (log w) h (EvPolicy (PvListCRDs (Ok crds))) ∧
      removed (optsFor Opts name) crds (log w) h) w.
Proof.
  eapply wp_mono; [apply PolicyReconcile_pass|]. cbn beta. intros _ w' Hl h cp a Hm Hf.
  destruct (loggedIn_made _ _ _ _ _ Hl Hm Hf) as (K & crds & (c & -> & Hs) & (c' & Hk%(inj Some) & Hd) & Hcrd & Hrem).
  exists c, crds. split_and!; try done. injection Hk as _ -> _ _. done.
Qed.
End Claims.
