(* ===== verification/PolicyRuns.v ===== *)
(** * ClusterPolicy: passes on a concrete cluster

    Runs of whole passes: that the theorems on passes speak about something, and what a pass does with a kernel
    module when its policy goes. *)

From S2P Require Import Prelude GoStrings KubeTypes ApiTypes Common PolicyTypes PolicyObjects Client Drain Cluster.
From S2P Require Import OpenShift PolicyClient PolicyDaemonSets PolicyXpum PolicyDeploy PolicyKmm PolicyMisc.
From S2P Require Import PolicyController PolicyScenario.

Module Runs.
#[export] Instance yaml : YamlCodec := {| yamlMarshal _ := Ok "config"; yamlUnmarshal _ := None |}.

Definition claim (driver : string) : ResourceClaim :=
  mkResourceClaim "apps" "train" [] (Some [mkAllocResult driver "n1" "gpu0" None]) [].
Definition cluster (claims : list ResourceClaim) : Cluster := mkCluster 0 [] [] [] [] [] claims [] [] [].

Definition opts (kmm dra : bool) : ControllerOpts := mkControllerOpts "" "gpu-operator" "" (15 * Second) dra false kmm "" "".

Definition run (o : ControllerOpts) (claims : list ResourceClaim) (c : PolicyCluster) : SubResult * list Ev :=
  let r := @PolicyReconcile (clusterEnv (cluster claims)) (policyEnv c) yaml o "policy" (mkWorld None []) in
  (r.1, reverse (log r.2)).

(** The writes of a run, in their order. *)
Definition isWrite (e : Ev) : bool :=
  match e with
  | EvPolicy (PvUpdatePolicy _ _) | EvPolicy (PvCreateModule _ _) | EvPolicy (PvPatchModule _ _) | EvPolicy (PvCreate _ _)
  | EvPolicy (PvPatch _ _) | EvPolicy (PvDelete _ _) => true
  | _ => false
  end.

Inductive Write :=
| WPolicy (finalizers : list string)
| WModule (name : string)
| WCreate (what : string)
| WDelete (r : Ref)
| WOther.

Definition writeOf (e : Ev) : Write :=
  match e with
  | EvPolicy (PvUpdatePolicy cp _) => WPolicy (cp_Finalizers cp)
  | EvPolicy (PvCreateModule m _) | EvPolicy (PvPatchModule m _) => WModule (mod_Name m)
  | EvPolicy (PvCreate (ODaemonSet d) _) => WCreate (ds_Name d)
  | EvPolicy (PvDelete r _) => WDelete r
  | _ => WOther
  end.

Definition writes (r : SubResult * list Ev) : list Write := writeOf <$> filter (λ e, isWrite e = true) r.2.

Definition withSpec (cp : ClusterPolicy) (deleted : bool) (km : option KernelModuleSpec) : ClusterPolicy :=
  let s := cp_Spec cp in
  mkClusterPolicy (cp_Name cp) (if deleted then Some 0%Z else None) (cp_Finalizers cp)
    (mkClusterPolicySpec (cps_ResourceRegistration s) (cps_ResourceMonitoring s) (cps_UseNFDLabeling s)
       (cps_PrometheusIntegration s) (cps_EnableKueue s) (cps_Kueue s) (cps_HealthinessSpec s)
       (cps_DynamicResourceAllocationSpec s) (cps_DevicePluginSpec s) (cps_XpuManagerSpec s) (cps_PullSecret s)
       (cps_NodeSelector s) (cps_Tolerations s) (cps_LogLevel s) km (cps_CDI s)) (cp_Status cp).

Definition xe : KernelModuleSpec :=
  mkKernelModuleSpec "xe" "" [mkKernelMappingSpec "^.*$" "registry/kmod" None [] None] ["xe"] "" None.
Definition module (deleting : bool) : KmmModule :=
  mkKmmModule "policy-gpu" "gpu-operator" (if deleting then Some 0%Z else None) (Some "policy") ∅ [] None None 1 1.

Definition place (cp : ClusterPolicy) (m : option KmmModule) : PolicyCluster := mkPolicyCluster (Some cp) [] [] m [] [] [].
Definition ref (n : string) : Ref := mkRef KDaemonSet "gpu-operator" n.

(** Mode dp without monitoring: the device plugin comes, the XPU manager and the DRA driver go. *)
Example deploy_dp : let r := run (opts false true) [] (place (samplePolicy "dp" false) None) in
  WCreate "policy-device-plugin" ∈ writes r ∧ WDelete (ref "policy-xpu-manager") ∈ writes r ∧ WDelete (ref "policy-gpu-dra") ∈ writes r.
Proof. vm_compute. set_solver. Qed.

(** A claim on a GPU keeps the DRA driver; the pass asks to be run again. *)
Example claim_keeps_dra : let r := run (opts false true) [claim GPUDeviceClass] (place (samplePolicy "dp" false) None) in
  WDelete (ref "policy-gpu-dra") ∉ writes r ∧ r.1 = (mkResult (15 * Second), None).
Proof. vm_compute. split; [set_solver|done]. Qed.

(** A deleted policy without a kernel module: everything goes, then the finalizer. *)
Example deletion_finishes :
  last (writes (run (opts false true) [] (place (withSpec (samplePolicy "dra" true) true None) None))) = Some (WPolicy []).
Proof. vm_compute. reflexivity. Qed.

(** A deleted policy with a kernel module: the Module is not deleted but patched once more, and the finalizer is
    removed; the garbage collector takes the Module later. *)
Example deletion_patches_module :
  let r := run (opts true true) [] (place (withSpec (samplePolicy "dp" false) true (Some xe)) (Some (module false))) in
  WModule "policy-gpu" ∈ writes r ∧ last (writes r) = Some (WPolicy []) ∧ WDelete (mkRef KModule "gpu-operator" "policy-gpu") ∉ writes r.
Proof. vm_compute. split_and!; [set_solver|done|set_solver]. Qed.

(** A Module that still waits for its deletion does not hold the finalizer either. *)
Example deletion_forgets_module :
  let r := run (opts true true) [] (place (withSpec (samplePolicy "dp" false) true None) (Some (module true))) in
  last (writes r) = Some (WPolicy []).
Proof. vm_compute. reflexivity. Qed.

(** The kernel module controller's wish to be run again after a version change is dropped. *)
Example recreation_not_requeued :
  let km := mkKernelModuleSpec "xe" "2" (km_KernelMappings xe) ["xe"] "" None in
  (run (opts true true) [] (place (withSpec (samplePolicy "dp" false) false (Some km)) (Some (module false)))).1 = (noResult, None).
Proof. vm_compute. reflexivity. Qed.
End Runs.
