(* ===== verification/PolicyWebhook.v ===== *)
(** * ClusterPolicy: the admission webhook

    [api/v1alpha1/clusterpolicy_webhook.go]: defaulting and validation of a ClusterPolicy.  All errors are
    collected; each is a constructor per [fmt.Errorf] of the source with its arguments.  The parsers of image
    references, URLs and regular expressions, the Kubernetes name checks and the Unicode tables are
    parameters. *)

From Stdlib Require Import Ascii NArith.
From S2P Require Import Prelude GoStrings Regex KubeTypes Common PolicyTypes RecoveryWebhook.

Definition DefaultDPImage : string :=
  "docker.io/intel/intel-gpu-plugin:0.37.0@sha256:7001200071db10587fc31184eedda4f5cf291efba737adf85a8c80539f7fa5e1".
Definition DefaultDRAImage : string :=
  "ghcr.io/intel/intel-gpu-resource-driver:v0.12.1@sha256:1479956240397c7207c3d38c0d296bd591cd66f26d432452f9a2d75336843776".
Definition DefaultXPUImage : string :=
  "ghcr.io/intel/xpumanager/xpumd:v2.3.0@sha256:539009b75c64159ca2202f52b94ae736ab3883c3497d30d65bd3d179357e1859".

(** ** Parameters *)

(** What the validator reads of a parsed [url.URL]. *)
Record URL := mkURL { url_Scheme : string; url_Host : string; url_hasUser : bool }.

Class PolicyChecks := {
  (** [reference.ParseNormalizedNamed]: the error, if any. *)
  parseNormalizedNamed : string → option GoErr;
  (** [validation.IsDNS1123Subdomain], [IsDNS1123Label] and [IsConfigMapKey]: the problems found. *)
  subdomainProblems : string → list string;
  labelProblems : string → list string;
  isConfigMapKey : string → list string;
  (** [regexp.Compile]: the error, if any. *)
  regexpCompile : string → option GoErr;
  (** [url.Parse] *)
  urlParse : string → res URL;
  (** [strings.ToLower] of a text that is not all ASCII. *)
  unicodeToLower : string → string;
}.

(** ** Strings *)

Definition isASCII (s : string) : bool := forallb (λ c, N_of_ascii c <? 128)%N (s2l s).

Definition lowerASCII (c : ascii) : ascii :=
  if inRange "A" "Z" c then ascii_of_N (N_of_ascii c + 32) else c.

(** [unicode.IsControl] *)
Definition isControl (r : N) : bool := ((r <=? 31) || ((127 <=? r) && (r <=? 159)))%N.

(** [path.IsAbs] *)
Definition isAbs (p : string) : bool := hasPrefix p "/".

(** ** Errors and warnings *)

Inductive PolicyError :=
| AllowAndDeny
| BadAllowID (id : string)
| BadDenyID (id : string)
| BadImage (field value : string) (e : GoErr)
| BadPullSecret (name : string) (msgs : list string)
| BadConfigMapOverride (name : string) (msgs : list string)
| BadObjectName (field name : string) (msgs : list string)
| BadObjectKey (field key : string) (msgs : list string)
| OTLPBoth
| OTLPNone
| GRPCKeyChars (field name : string)
| GRPCKeyPrefix (field name : string)
| GRPCKeyBinary (field name : string)
| EndpointURL (prefix endpoint : string) (e : GoErr)
| EndpointScheme (prefix endpoint : string)
| EndpointHost (prefix endpoint : string)
| EndpointUser (prefix : string)
| HeaderNameEmpty (field : string)
| HeaderDuplicate (field name : string)
| TLSPlainText (prefix : string)
| TLSCAInsecure (prefix : string)
| TLSServerName (prefix name : string) (msgs : list string)
| BadClusterQueue (i : nat) (name : string) (msgs : list string)
| DuplicateClusterQueue (name : string)
| BadLocalQueue (i j : nat) (name : string) (msgs : list string)
| BadQueueNamespace (i j : nat) (ns : string) (msgs : list string)
| DuplicateLocalQueue (i : nat) (key : string)
| MappingRegexpRequired (prefix : string)
| MappingRegexp (prefix : string) (e : GoErr)
| ImageUntagged (field image : string)
| MappingNoSource (prefix : string)
| DockerfileRequired (prefix : string)
| OrderTooShort
| OrderFirst (moduleName : string)
| OrderDuplicate (i : nat) (entry : string)
| CDINotAbsolute (field : string)
| CDIDotDot (field : string)
| CDIControl (field : string).

Inductive PolicyWarning :=
| TransportHeader (field name : string)
| PlainTextHeaders (prefix : string)
| InsecureSkipVerifySet (prefix : string)
| LevelzeroIgnored.

(** ** Defaulting *)

Definition orDefault (d s : string) : string := if bool_decide (s = "") then d else s.

Definition defaultDP (d : DevicePluginSpec) : DevicePluginSpec :=
  mkDevicePluginSpec (orDefault DefaultDPImage (dp_PluginImage d)) (dp_LevelzeroImage d) (dp_AllowIDs d) (dp_DenyIDs d)
    (dp_ByPathMode d) (dp_LogLevel d) (dp_Affinity d).

Definition defaultDRA (d : DynamicResourceAllocationSpec) : DynamicResourceAllocationSpec :=
  mkDynamicResourceAllocationSpec (orDefault DefaultDRAImage (dra_Image d)) (dra_LogLevel d) (dra_PodHealthCheck d)
    (dra_ManageBinding d) (dra_Affinity d).

Definition defaultXPU (x : XpuManagerSpec) : XpuManagerSpec :=
  mkXpuManagerSpec (orDefault DefaultXPUImage (xpu_Image x)) (xpu_LogLevel x) (xpu_ConfigMapOverride x)
    (orDefault "monitoring" (xpu_MonitoringResource x)) (xpu_Affinity x) (xpu_RestartOnDeviceRecovery x) (xpu_InfoLogs x)
    (xpu_CrashLog x) (xpu_OTLP x).

Definition defaultKM (k : KernelModuleSpec) : KernelModuleSpec :=
  mkKernelModuleSpec (orDefault "xe" (km_ModuleName k)) (km_Version k) (km_KernelMappings k) (km_ModulesLoadingOrder k)
    (km_FirmwarePath k) (km_RegistryTLS k).

Definition defaultSpec (s : ClusterPolicySpec) : ClusterPolicySpec :=
  mkClusterPolicySpec (cps_ResourceRegistration s) (cps_ResourceMonitoring s) (cps_UseNFDLabeling s)
    (cps_PrometheusIntegration s) (cps_EnableKueue s) (cps_Kueue s) (cps_HealthinessSpec s)
    (defaultDRA (cps_DynamicResourceAllocationSpec s)) (defaultDP (cps_DevicePluginSpec s))
    (defaultXPU (cps_XpuManagerSpec s)) (cps_PullSecret s) (cps_NodeSelector s) (cps_Tolerations s) (cps_LogLevel s)
    (defaultKM <$> cps_KernelModule s) (cps_CDI s).

Definition PolicyDefault (cp : ClusterPolicy) : ClusterPolicy :=
  mkClusterPolicy (cp_Name cp) (cp_DeletionTimestamp cp) (cp_Finalizers cp) (defaultSpec (cp_Spec cp)) (cp_Status cp).

(** ** Template variables of kernel module images *)

Definition varStart (c : ascii) : bool := inRange "A" "Z" c || inRange "a" "z" c || Ascii.eqb c "_".
Definition varRest (c : ascii) : bool := varStart c || inRange "0" "9" c.

(** The rest after the first closing brace. *)
Fixpoint afterBrace (l : list ascii) : option (list ascii) :=
  match l with
  | [] => None
  | c :: l' => if Ascii.eqb c "}" then Some l' else afterBrace l'
  end.

(** The text after the placeholder that starts with the [$] before [l], if one does: the braced form comes
    first in the expression, and the two exclude each other by their second character. *)
Definition placeholder (l : list ascii) : option (list ascii) :=
  match l with
  | c :: l' =>
      if Ascii.eqb c "{" then afterBrace l'
      else if varStart c then Some (dropWhile varRest l')
      else None
  | [] => None
  end.

(** Each round takes at least one character, so the length is fuel enough. *)
Fixpoint substituteL (fuel : nat) (l : list ascii) : list ascii :=
  match fuel, l with
  | 0, _ | _, [] => []
  | S fuel', c :: l' =>
      if Ascii.eqb c "$" then
        match placeholder l' with
        | Some rest => "0"%char :: substituteL fuel' rest
        | None => c :: substituteL fuel' l'
        end
      else c :: substituteL fuel' l'
  end.

Definition substituteKMMTemplateVars (image : string) : string := l2s (substituteL (slen image) (s2l image)).

Section Webhook.
Context `{!PolicyChecks}.

Definition toLower (s : string) : string :=
  if isASCII s then l2s (lowerASCII <$> s2l s) else unicodeToLower s.

(** An error when a Kubernetes check reports problems. *)
Definition problem (msgs : list string) (f : list string → PolicyError) : list PolicyError :=
  match msgs with [] => [] | _ => [f msgs] end.

Definition cond {A} (b : bool) (e : A) : list A := if b then [e] else [].

(** ** Simple fields *)

Definition checkCDIPath (name value : string) : list PolicyError :=
  if bool_decide (value = "") then []
  else
    cond (negb (isAbs value)) (CDINotAbsolute name)
    ++ cond (bool_decide (".." ∈ split "/"%char value)) (CDIDotDot name)
    ++ cond (existsb isControl (runes value)) (CDIControl name).

Definition validateCDIPaths (spec : ClusterPolicySpec) : list PolicyError :=
  checkCDIPath "cdi.staticHostPath" (cdi_StaticHostPath (cps_CDI spec))
  ++ checkCDIPath "cdi.dynamicHostPath" (cdi_DynamicHostPath (cps_CDI spec)).

Definition validateDPSpec (dp : DevicePluginSpec) : list PolicyError :=
  cond ((0 <? length (dp_AllowIDs dp))%nat && (0 <? length (dp_DenyIDs dp))%nat) AllowAndDeny
  ++ mbind (λ id, cond (negb (matchString pciIDPattern id)) (BadAllowID id)) (dp_AllowIDs dp)
  ++ mbind (λ id, cond (negb (matchString pciIDPattern id)) (BadDenyID id)) (dp_DenyIDs dp).

Definition validateImageFields (spec : ClusterPolicySpec) : list PolicyError :=
  mbind (λ f : string * string,
    if bool_decide (f.2 = "") then []
    else match parseNormalizedNamed f.2 with Some e => [BadImage f.1 f.2 e] | None => [] end)
    [("dra.image", dra_Image (cps_DynamicResourceAllocationSpec spec));
     ("dp.plugin", dp_PluginImage (cps_DevicePluginSpec spec));
     ("dp.levelzero", dp_LevelzeroImage (cps_DevicePluginSpec spec));
     ("xpu.image", xpu_Image (cps_XpuManagerSpec spec))].

Definition validatePullSecret (spec : ClusterPolicySpec) : list PolicyError :=
  match cps_PullSecret spec with
  | None => []
  | Some name => problem (subdomainProblems name) (BadPullSecret name)
  end.

Definition validateConfigMapOverride (spec : ClusterPolicySpec) : list PolicyError :=
  let name := xpu_ConfigMapOverride (cps_XpuManagerSpec spec) in
  if bool_decide (name = "") then []
  else problem (subdomainProblems name) (BadConfigMapOverride name).

Definition validateObjectName (field name : string) : list PolicyError :=
  problem (subdomainProblems name) (BadObjectName field name).

Definition validateObjectKey (field key : string) : list PolicyError :=
  problem (isConfigMapKey key) (BadObjectKey field key).

(** ** OTLP export *)

Definition metadataChar (c : ascii) : bool :=
  inRange "0" "9" c || inRange "a" "z" c || Ascii.eqb c "_" || Ascii.eqb c "." || Ascii.eqb c "-".
Definition grpcMetadataKeyPattern : regex := RCat (RChar metadataChar) (RStar (RChar metadataChar)).

Definition grpcTransportHeaders : list string :=
  ["content-type"; "te"; "user-agent"; "host"; "connection"; "keep-alive"; "proxy-connection"; "transfer-encoding";
   "upgrade"].

Definition validateGRPCMetadataKey (field name : string) : list PolicyError * list PolicyWarning :=
  let lower := toLower name in
  if negb (matchString grpcMetadataKeyPattern lower) then ([GRPCKeyChars field name], [])
  else if hasPrefix lower "grpc-" then ([GRPCKeyPrefix field name], [])
  else if hasSuffix lower "-bin" then ([GRPCKeyBinary field name], [])
  else if bool_decide (lower ∈ grpcTransportHeaders) then ([], [TransportHeader field name])
  else ([], []).

Definition both {A B} (x y : list A * list B) : list A * list B := (x.1 ++ y.1, x.2 ++ y.2).

Definition checkEndpoint (prefix endpoint : string) : list PolicyError :=
  match urlParse endpoint with
  | Err e => [EndpointURL prefix endpoint e]
  | Ok u =>
      if negb (bool_decide (url_Scheme u = "http")) && negb (bool_decide (url_Scheme u = "https"))
      then [EndpointScheme prefix endpoint]
      else if bool_decide (url_Host u = "") then [EndpointHost prefix endpoint]
      else if url_hasUser u then [EndpointUser prefix]
      else []
  end.

Definition isPlainText (endpoint : string) : bool :=
  match urlParse endpoint with Err _ => false | Ok u => bool_decide (url_Scheme u = "http") end.

(** The loop over the headers, from index [i] with the lowered names [seen] so far. *)
Fixpoint checkHeaders (prefix : string) (grpc : bool) (i : nat) (seen : gset string) (l : list OTLPHeader) :
    list PolicyError * list PolicyWarning :=
  match l with
  | [] => ([], [])
  | h :: l' =>
      let field := prefix +:+ ".headers[" +:+ itoa (Z.of_nat i) +:+ "]" in
      let lower := toLower (oh_Name h) in
      let named :=
        if bool_decide (oh_Name h = "") then ([HeaderNameEmpty field], seen)
        else if bool_decide (lower ∈ seen) then ([HeaderDuplicate field (oh_Name h)], seen)
        else ([], {[lower]} ∪ seen) in
      both (named.1, [])
        (both (if grpc && negb (bool_decide (oh_Name h = "")) then validateGRPCMetadataKey (field +:+ ".name") (oh_Name h)
               else ([], []))
           (both (validateObjectName (field +:+ ".valueFrom.name") (ks_Name (oh_ValueFrom h))
                  ++ validateObjectKey (field +:+ ".valueFrom.key") (ks_Key (oh_ValueFrom h)), [])
              (checkHeaders prefix grpc (S i) named.2 l')))
  end.

Definition checkTLS (prefix : string) (plainText : bool) (tls : OTLPTLSSpec) : list PolicyError * list PolicyWarning :=
  (cond plainText (TLSPlainText prefix)
   ++ match ot_CA tls with
      | None => []
      | Some ca =>
          cond (ot_InsecureSkipVerify tls) (TLSCAInsecure prefix)
          ++ validateObjectName (prefix +:+ ".tls.ca.name") (ks_Name ca)
          ++ validateObjectKey (prefix +:+ ".tls.ca.key") (ks_Key ca)
      end
   ++ match ot_ClientCertSecret tls with
      | None => []
      | Some name => validateObjectName (prefix +:+ ".tls.clientCertSecret.name") name
      end
   ++ (if bool_decide (ot_ServerName tls = "") then []
       else problem (subdomainProblems (ot_ServerName tls)) (TLSServerName prefix (ot_ServerName tls))),
   cond (ot_InsecureSkipVerify tls) (InsecureSkipVerifySet prefix)).

Definition validateOTLPExporterSpec (prefix : string) (exp : OTLPExporterSpec) (grpc : bool) :
    list PolicyError * list PolicyWarning :=
  let plainText := isPlainText (oe_Endpoint exp) in
  both (checkEndpoint prefix (oe_Endpoint exp), [])
    (both (checkHeaders prefix grpc 0 ∅ (oe_Headers exp))
       (both ([], cond (plainText && (0 <? length (oe_Headers exp))%nat) (PlainTextHeaders prefix))
          match oe_TLS exp with
          | None => ([], [])
          | Some tls => checkTLS prefix plainText tls
          end)).

Definition validateOTLPSpec (otlp : option OTLPSpec) : list PolicyError * list PolicyWarning :=
  match otlp with
  | None => ([], [])
  | Some o =>
      match otlp_HTTP o, otlp_GRPC o with
      | Some _, Some _ => ([OTLPBoth], [])
      | Some e, None => validateOTLPExporterSpec "xpu.otlp.http" e false
      | None, Some e => validateOTLPExporterSpec "xpu.otlp.grpc" e true
      | None, None => ([OTLPNone], [])
      end
  end.

(** ** Kueue queues *)

Fixpoint checkLocalQueues (cqIdx lqIdx : nat) (seenLQKeys : gset string) (l : list LocalQueueSpec) : list PolicyError :=
  match l with
  | [] => []
  | lq :: l' =>
      let key := lq_Namespace lq +:+ "/" +:+ lq_Name lq in
      problem (subdomainProblems (lq_Name lq)) (BadLocalQueue cqIdx lqIdx (lq_Name lq))
      ++ problem (labelProblems (lq_Namespace lq)) (BadQueueNamespace cqIdx lqIdx (lq_Namespace lq))
      ++ cond (bool_decide (key ∈ seenLQKeys)) (DuplicateLocalQueue cqIdx key)
      ++ checkLocalQueues cqIdx (S lqIdx) ({[key]} ∪ seenLQKeys) l'
  end.

Fixpoint checkClusterQueues (cqIdx : nat) (seenCQNames : gset string) (l : list ClusterQueueSpec) : list PolicyError :=
  match l with
  | [] => []
  | cq :: l' =>
      problem (subdomainProblems (cq_Name cq)) (BadClusterQueue cqIdx (cq_Name cq))
      ++ cond (bool_decide (cq_Name cq ∈ seenCQNames)) (DuplicateClusterQueue (cq_Name cq))
      ++ checkLocalQueues cqIdx 0 ∅ (cq_LocalQueues cq)
      ++ checkClusterQueues (S cqIdx) ({[cq_Name cq]} ∪ seenCQNames) l'
  end.

Definition validateKueueSpec (spec : ClusterPolicySpec) : list PolicyError :=
  match cps_Kueue spec with
  | None => []
  | Some k => checkClusterQueues 0 ∅ (kq_EqualResources k)
  end.

(** ** Kernel modules *)

Definition validateImageTagOrDigest (field image : string) : list PolicyError :=
  let resolved := substituteKMMTemplateVars image in
  match parseNormalizedNamed resolved with
  | Some e => [BadImage field image e]
  | None => cond (negb (contains resolved ":") && negb (contains resolved "@")) (ImageUntagged field image)
  end.

Definition validateKernelMapping (prefix : string) (m : KernelMappingSpec) : list PolicyError :=
  (if bool_decide (kms_Regexp m = "") then [MappingRegexpRequired prefix]
   else match regexpCompile (kms_Regexp m) with Some e => [MappingRegexp prefix e] | None => [] end)
  ++ (if bool_decide (kms_ContainerImage m = "") then []
      else validateImageTagOrDigest (prefix +:+ ".containerImage") (kms_ContainerImage m))
  ++ cond (bool_decide (kms_ContainerImage m = "") && bool_decide (kms_Build m = None)) (MappingNoSource prefix)
  ++ match kms_Build m with
     | None => []
     | Some b => cond (bool_decide (kb_DockerfileConfigMap b = "")) (DockerfileRequired prefix)
     end.

(** The first entry that occurs again, with its index. *)
Fixpoint firstDuplicate (i : nat) (seen : gset string) (l : list string) : option (nat * string) :=
  match l with
  | [] => None
  | e :: l' => if bool_decide (e ∈ seen) then Some (i, e) else firstDuplicate (S i) ({[e]} ∪ seen) l'
  end.

Definition validateModulesLoadingOrder (moduleName : string) (order : list string) : list PolicyError :=
  cond (length order <? 2)%nat OrderTooShort
  ++ match order with
     | first :: _ =>
         cond (negb (bool_decide (moduleName = "")) && negb (bool_decide (first = moduleName))) (OrderFirst moduleName)
     | [] => []
     end
  ++ match firstDuplicate 0 ∅ order with Some (i, e) => [OrderDuplicate i e] | None => [] end.

Definition validateKernelModuleSpec (spec : ClusterPolicySpec) : list PolicyError :=
  match cps_KernelModule spec with
  | None => []
  | Some km =>
      mjoin (imap (λ i m, validateKernelMapping ("kernelModule.kernelMappings[" +:+ itoa (Z.of_nat i) +:+ "]") m)
               (km_KernelMappings km))
      ++ (if (0 <? length (km_ModulesLoadingOrder km))%nat
          then validateModulesLoadingOrder (km_ModuleName km) (km_ModulesLoadingOrder km)
          else [])
  end.

(** ** The whole spec *)

Definition warnForSpecProblems (spec : ClusterPolicySpec) : list PolicyWarning :=
  cond (bool_decide (cps_ResourceRegistration spec = "dp")
        && negb (bool_decide (dp_LevelzeroImage (cps_DevicePluginSpec spec) = ""))) LevelzeroIgnored.

(** [errors.Join] of no errors is nil. *)
Definition validateClusterPolicySpec (spec : ClusterPolicySpec) : list PolicyWarning * list PolicyError :=
  let otlp := validateOTLPSpec (xpu_OTLP (cps_XpuManagerSpec spec)) in
  (otlp.2 ++ warnForSpecProblems spec,
   validateDPSpec (cps_DevicePluginSpec spec) ++ validateImageFields spec ++ validatePullSecret spec
   ++ validateConfigMapOverride spec ++ validateKueueSpec spec ++ validateKernelModuleSpec spec
   ++ validateCDIPaths spec ++ otlp.1).

Definition PolicyValidateCreate (cp : ClusterPolicy) : list PolicyWarning * list PolicyError :=
  validateClusterPolicySpec (cp_Spec cp).

Definition PolicyValidateUpdate (oldCP cp : ClusterPolicy) : list PolicyWarning * list PolicyError :=
  if bool_decide (cp_DeletionTimestamp cp = None) then validateClusterPolicySpec (cp_Spec cp) else ([], []).

Definition PolicyValidateDelete (cp : ClusterPolicy) : list PolicyWarning * list PolicyError := ([], []).
End Webhook.
