(* ===== verification/PolicyWebhookFacts.v ===== *)
(** * ClusterPolicy: what the webhook accepts *)

From Stdlib Require Import Ascii NArith.
From S2P Require Import Prelude GoStrings Regex KubeTypes Common Cluster PolicyTypes RecoveryWebhook PolicyWebhook.

(** ** Template variables *)

Lemma afterBrace_spec l rest : afterBrace l = Some rest ↔ ∃ k, l = k ++ "}"%char :: rest ∧ "}"%char ∉ k.
Proof.
  revert rest. induction l as [|c l IH]; intros rest; simpl.
  { split; [done|]. by intros ([|? ?] & ? & _). }
  destruct (Ascii.eqb_spec c "}") as [->|Hc].
  - split; [intros [= <-]; exists []; split; [done|apply not_elem_of_nil]|]. intros ([|x k] & Hk & Hn).
    + by injection Hk as ->.
    + injection Hk as <- _. set_solver.
  - rewrite IH. split.
    + intros (k & -> & Hk). exists (c :: k). split; [done|set_solver].
    + intros ([|x k] & Hk & Hn); [by injection Hk|]. injection Hk as <- ->. exists k. split; [done|set_solver].
Qed.

Lemma afterBrace_length l rest : afterBrace l = Some rest → length rest < length l.
Proof. intros (k & -> & _)%afterBrace_spec. rewrite length_app. simpl. lia. Qed.

Lemma placeholder_length l rest : placeholder l = Some rest → length rest < length l.
Proof.
  destruct l as [|c l]; [done|]. simpl. destruct (Ascii.eqb c "{").
  - intros H%afterBrace_length. lia.
  - destruct (varStart c); [|done]. intros [= <-]. pose proof (dropWhile_length varRest l). lia.
Qed.

(** More fuel than characters changes nothing. *)
Lemma substituteL_fuel n l : length l ≤ n → substituteL n l = substituteL (length l) l.
Proof.
  remember (length l) as k eqn:Hk. revert n l Hk. induction k as [k IH] using lt_wf_ind. intros n l -> Hn.
  destruct l as [|c l]; [by destruct n|]. destruct n as [|n]; [simpl in Hn; lia|]. simpl in *.
  assert (∀ r, length r ≤ length l → substituteL n r = substituteL (length l) r) as Hr.
  { intros r Hle. rewrite (IH (length r)) by lia. symmetry. apply IH; lia. }
  destruct (Ascii.eqb c "$"); [|by rewrite Hr]. destruct (placeholder l) as [rest|] eqn:Hp; [|by rewrite Hr].
  rewrite Hr; [done|]. apply placeholder_length in Hp. lia.
Qed.

Lemma substituteL_ne n c l : Ascii.eqb c "$" = false → substituteL (S n) (c :: l) = c :: substituteL n l.
Proof. intros Hc. simpl. by rewrite Hc. Qed.

(** What a substitution leaves before its first closing brace has no closing brace either, and the first
    character it writes is [0] or the first it read. *)
Lemma substitute_head l c r : substituteL (length l) l = c :: r → c = "0"%char ∨ head l = Some c.
Proof.
  destruct l as [|x l]; [done|]. simpl. destruct (Ascii.eqb x "$"); [|intros [= <- _]; by right].
  destruct (placeholder l); intros [= <- _]; [by left|by right].
Qed.

Lemma substitute_brace l : "}"%char ∈ substituteL (length l) l → "}"%char ∈ l.
Proof.
  remember (length l) as k eqn:Hk. revert l Hk. induction k as [k IH] using lt_wf_ind. intros [|c l] ->; [done|]. simpl.
  assert (∀ r, length r ≤ length l → "}"%char ∈ substituteL (length l) r → "}"%char ∈ r) as Hr.
  { intros r Hle. rewrite substituteL_fuel by done. apply (IH (length r)); simpl; [lia|done]. }
  destruct (Ascii.eqb_spec c "$") as [->|Hc].
  - destruct (placeholder l) as [rest|] eqn:Hp.
    + intros [?|Hin]%elem_of_cons; [done|]. apply Hr in Hin; [|apply placeholder_length in Hp; lia]. right.
      destruct l as [|x l]; [done|]. simpl in Hp. destruct (Ascii.eqb x "{").
      * apply afterBrace_spec in Hp as (k & -> & _). set_solver.
      * destruct (varStart x); [|done]. injection Hp as <-. right.
        destruct (dropWhile_suffix varRest l) as (k & -> & _). set_solver.
    + intros [?|Hin]%elem_of_cons; [done|]. right. by apply Hr.
  - intros [->|Hin]%elem_of_cons; [left|right; by apply Hr].
Qed.

(** No placeholder is left: after a [$] that was kept there is none to be found in the result. *)
Lemma substitute_kept l : placeholder l = None → placeholder (substituteL (length l) l) = None.
Proof.
  destruct l as [|x l]; [done|]. intros Hp. assert (Hp' := Hp). simpl in Hp'.
  destruct (Ascii.eqb_spec x "{") as [->|Hx].
  - rewrite (substituteL_ne (length l)) by done. simpl. destruct (afterBrace (substituteL _ _)) as [rest|] eqn:Ha; [|done].
    exfalso. apply afterBrace_spec in Ha as (k & Hk & _).
    assert ("}"%char ∈ l) as Hin by (apply substitute_brace; rewrite Hk; set_solver).
    clear -Hp' Hin. induction l as [|c l IH]; [by apply not_elem_of_nil in Hin|]. simpl in Hp'.
    destruct (Ascii.eqb_spec c "}"); [done|]. apply IH; [done|set_solver].
  - destruct (varStart x) eqn:Hv; [done|]. destruct (substituteL (length (x :: l)) (x :: l)) as [|c r] eqn:Hs; [done|].
    simpl. destruct (substitute_head _ _ _ Hs) as [->|Hh]; [done|]. injection Hh as <-.
    by destruct (Ascii.eqb_spec x "{"); [|rewrite Hv].
Qed.

Lemma substituteL_idem l : substituteL (length (substituteL (length l) l)) (substituteL (length l) l) = substituteL (length l) l.
Proof.
  remember (length l) as k eqn:Hk. revert l Hk. induction k as [k IH] using lt_wf_ind. intros [|c l] ->; [done|]. simpl.
  assert (∀ r, length r ≤ length l → substituteL (length (substituteL (length l) r)) (substituteL (length l) r) =
    substituteL (length l) r) as Hr.
  { intros r Hle. rewrite (substituteL_fuel (length l)) by done. apply (IH (length r)); simpl; [lia|done]. }
  destruct (Ascii.eqb_spec c "$") as [->|Hc].
  - destruct (placeholder l) as [rest|] eqn:Hp; simpl.
    + rewrite Hr; [done|]. apply placeholder_length in Hp. lia.
    + rewrite substitute_kept by done. by rewrite Hr.
  - simpl. destruct (Ascii.eqb_spec c "$"); [done|]. by rewrite Hr.
Qed.

Lemma substitute_idem image :
  substituteKMMTemplateVars (substituteKMMTemplateVars image) = substituteKMMTemplateVars image.
Proof.
  unfold substituteKMMTemplateVars. rewrite slen_l2s, s2l_l2s, slen_s2l. by rewrite substituteL_idem.
Qed.

(** ** Collected errors *)

Lemma cond_nil {A} b (e : A) : cond b e = [] ↔ b = false.
Proof. by destruct b. Qed.

Lemma bind_nil {A B} (f : A → list B) l : mbind f l = [] ↔ Forall (λ x, f x = []) l.
Proof. induction l as [|x l IH]; simpl; [done|]. by rewrite app_nil, Forall_cons, IH. Qed.

Lemma problems_nil msgs f : problem msgs f = [] ↔ msgs = [].
Proof. by destruct msgs. Qed.

Lemma both_nil {A B} (x y : list A * list B) : (both x y).1 = [] ↔ x.1 = [] ∧ y.1 = [].
Proof. apply app_nil. Qed.

Lemma imap_join_nil {A B} (f : nat → A → list B) l :
  mjoin (imap f l) = [] ↔ ∀ i x, l !! i = Some x → f i x = [].
Proof.
  revert f. induction l as [|x l IH]; intros f; [done|]. simpl. rewrite app_nil, IH. split.
  - intros [H0 Hr] [|i] y Hy; [by injection Hy as <-|by apply Hr].
  - intros H. split; [by apply (H 0)|]. intros i y Hy. by apply (H (S i)).
Qed.

(** ** The admission rules, declaratively *)

Section Rules.
Context `{!PolicyChecks}.

Definition imageOK (image : string) : Prop := parseNormalizedNamed image = None.
Definition nameOK (name : string) : Prop := subdomainProblems name = [].
Definition keyOK (s : KeySelector) : Prop := nameOK (ks_Name s) ∧ isConfigMapKey (ks_Key s) = [].
Definition unsetOr (P : string → Prop) (s : string) : Prop := s = "" ∨ P s.

(** A host path: absolute, never upwards, one line. *)
Definition hostPathOK (p : string) : Prop :=
  hasPrefix p "/" = true ∧ ".." ∉ split "/"%char p ∧ Forall (λ r, isControl r = false) (runes p).

(** A name gRPC takes as metadata key: its alphabet, nothing reserved. *)
Definition metadataKeyOK (name : string) : Prop :=
  matchString grpcMetadataKeyPattern (toLower name) = true ∧
  hasPrefix (toLower name) "grpc-" = false ∧ hasSuffix (toLower name) "-bin" = false.

Record exporterOK (grpc : bool) (e : OTLPExporterSpec) : Prop := mkExporterOK {
  eok_url : ∃ u, urlParse (oe_Endpoint e) = Ok u ∧ (url_Scheme u = "http" ∨ url_Scheme u = "https") ∧
      url_Host u ≠ "" ∧ url_hasUser u = false ∧ (url_Scheme u = "http" → oe_TLS e = None);
  eok_names : Forall (λ h, oh_Name h ≠ "") (oe_Headers e);
  eok_distinct : NoDup (toLower ∘ oh_Name <$> oe_Headers e);
  eok_grpc : grpc = true → Forall (λ h, metadataKeyOK (oh_Name h)) (oe_Headers e);
  eok_values : Forall (λ h, keyOK (oh_ValueFrom h)) (oe_Headers e);
  eok_tls : ∀ t, oe_TLS e = Some t →
      (∀ ca, ot_CA t = Some ca → ot_InsecureSkipVerify t = false ∧ keyOK ca) ∧
      (∀ s, ot_ClientCertSecret t = Some s → nameOK s) ∧ unsetOr nameOK (ot_ServerName t);
}.

Definition otlpOK (o : OTLPSpec) : Prop :=
  (∃ e, otlp_HTTP o = Some e ∧ otlp_GRPC o = None ∧ exporterOK false e) ∨
  (∃ e, otlp_GRPC o = Some e ∧ otlp_HTTP o = None ∧ exporterOK true e).

Definition localQueueKey (q : LocalQueueSpec) : string := lq_Namespace q +:+ "/" +:+ lq_Name q.

Definition queueOK (c : ClusterQueueSpec) : Prop :=
  nameOK (cq_Name c) ∧
  Forall (λ q, nameOK (lq_Name q) ∧ labelProblems (lq_Namespace q) = []) (cq_LocalQueues c) ∧
  NoDup (localQueueKey <$> cq_LocalQueues c).

Definition mappingOK (m : KernelMappingSpec) : Prop :=
  kms_Regexp m ≠ "" ∧ regexpCompile (kms_Regexp m) = None ∧
  unsetOr (λ i, imageOK (substituteKMMTemplateVars i) ∧
    (contains (substituteKMMTemplateVars i) ":" = true ∨ contains (substituteKMMTemplateVars i) "@" = true))
    (kms_ContainerImage m) ∧
  (kms_ContainerImage m ≠ "" ∨ is_Some (kms_Build m)) ∧
  ∀ b, kms_Build m = Some b → kb_DockerfileConfigMap b ≠ "".

(** The loading order, where one is given: several modules, each once, the module itself first. *)
Definition orderOK (moduleName : string) (order : list string) : Prop :=
  order = [] ∨ 2 ≤ length order ∧ NoDup order ∧ (moduleName = "" ∨ head order = Some moduleName).

Record policyOK (s : ClusterPolicySpec) : Prop := mkPolicyOK {
  pok_lists : dp_AllowIDs (cps_DevicePluginSpec s) = [] ∨ dp_DenyIDs (cps_DevicePluginSpec s) = [];
  pok_ids : Forall (λ id, matchString pciIDPattern id = true)
      (dp_AllowIDs (cps_DevicePluginSpec s) ++ dp_DenyIDs (cps_DevicePluginSpec s));
  pok_images : Forall (unsetOr imageOK)
      [dra_Image (cps_DynamicResourceAllocationSpec s); dp_PluginImage (cps_DevicePluginSpec s);
       dp_LevelzeroImage (cps_DevicePluginSpec s); xpu_Image (cps_XpuManagerSpec s)];
  pok_secret : ∀ n, cps_PullSecret s = Some n → nameOK n;
  pok_config : unsetOr nameOK (xpu_ConfigMapOverride (cps_XpuManagerSpec s));
  pok_queues : ∀ k, cps_Kueue s = Some k →
      Forall queueOK (kq_EqualResources k) ∧ NoDup (cq_Name <$> kq_EqualResources k);
  pok_module : ∀ km, cps_KernelModule s = Some km →
      Forall mappingOK (km_KernelMappings km) ∧ orderOK (km_ModuleName km) (km_ModulesLoadingOrder km);
  pok_cdi : unsetOr hostPathOK (cdi_StaticHostPath (cps_CDI s)) ∧ unsetOr hostPathOK (cdi_DynamicHostPath (cps_CDI s));
  pok_otlp : ∀ o, xpu_OTLP (cps_XpuManagerSpec s) = Some o → otlpOK o;
}.

(** ** Each check is its rule *)

Lemma unsetOr_if (P : string → Prop) s (l : list PolicyError) :
  (l = [] ↔ P s) → ((if bool_decide (s = "") then [] else l) = [] ↔ unsetOr P s).
Proof. intros Hl. unfold unsetOr. case_bool_decide; [naive_solver|]. rewrite Hl. naive_solver. Qed.

Lemma checkCDIPath_rule f v : checkCDIPath f v = [] ↔ unsetOr hostPathOK v.
Proof.
  apply unsetOr_if. unfold hostPathOK, isAbs. rewrite !app_nil, !cond_nil, negb_false_iff, bool_decide_eq_false.
  assert (existsb isControl (runes v) = false ↔ Forall (λ r, isControl r = false) (runes v)) as ->; [|naive_solver].
  induction (runes v) as [|r l IH]; simpl; [done|]. by rewrite orb_false_iff, IH, Forall_cons.
Qed.

Lemma validateCDIPaths_rule s :
  validateCDIPaths s = [] ↔
  unsetOr hostPathOK (cdi_StaticHostPath (cps_CDI s)) ∧ unsetOr hostPathOK (cdi_DynamicHostPath (cps_CDI s)).
Proof. unfold validateCDIPaths. by rewrite app_nil, !checkCDIPath_rule. Qed.

Lemma validateDPSpec_rule d :
  validateDPSpec d = [] ↔ (dp_AllowIDs d = [] ∨ dp_DenyIDs d = []) ∧
    Forall (λ id, matchString pciIDPattern id = true) (dp_AllowIDs d ++ dp_DenyIDs d).
Proof.
  unfold validateDPSpec. rewrite !app_nil, cond_nil, !bind_nil, Forall_app.
  assert (∀ l (f : string → PolicyError), Forall (λ id, cond (negb (matchString pciIDPattern id)) (f id) = []) l ↔
    Forall (λ id, matchString pciIDPattern id = true) l) as Hf.
  { intros l f. apply Forall_proper; [|done]. intros id. by rewrite cond_nil, negb_false_iff. }
  rewrite !Hf. destruct (dp_AllowIDs d), (dp_DenyIDs d); simpl; naive_solver.
Qed.

Lemma validateImageFields_rule s :
  validateImageFields s = [] ↔ Forall (unsetOr imageOK)
    [dra_Image (cps_DynamicResourceAllocationSpec s); dp_PluginImage (cps_DevicePluginSpec s);
     dp_LevelzeroImage (cps_DevicePluginSpec s); xpu_Image (cps_XpuManagerSpec s)].
Proof.
  unfold validateImageFields. rewrite bind_nil.
  assert (∀ f v, (if bool_decide (v = "") then [] else
    match parseNormalizedNamed v with Some e => [BadImage f v e] | None => [] end) = [] ↔ unsetOr imageOK v) as Hi.
  { intros f v. apply unsetOr_if. unfold imageOK. by destruct (parseNormalizedNamed v). }
  rewrite !Forall_cons, !Forall_nil. cbn [fst snd]. by rewrite !Hi.
Qed.

Lemma validateObject_rule f g s :
  validateObjectName f (ks_Name s) = [] ∧ validateObjectKey g (ks_Key s) = [] ↔ keyOK s.
Proof. unfold validateObjectName, validateObjectKey, keyOK, nameOK. by rewrite !problems_nil. Qed.

Lemma NoDup_seen {A} `{Countable A} (x : A) (l : list A) (seen : gset A) :
  x ∉ seen ∧ NoDup l ∧ Forall (λ y, y ∉ {[x]} ∪ seen) l ↔ NoDup (x :: l) ∧ Forall (λ y, y ∉ seen) (x :: l).
Proof.
  rewrite NoDup_cons, Forall_cons, !Forall_forall. split.
  - intros (Hx & Hnd & Hl). split_and!; [|done|done|]; [intros Hin; specialize (Hl x Hin); set_solver|].
    intros y Hy. specialize (Hl y Hy). set_solver.
  - intros [[Hx Hnd] [Hxs Hl]]. split_and!; [done|done|]. intros y Hy. specialize (Hl y Hy).
    destruct (decide (y = x)) as [->|]; [done|set_solver].
Qed.

Lemma checkLocalQueues_rule i j seen l :
  checkLocalQueues i j seen l = [] ↔
  Forall (λ q, nameOK (lq_Name q) ∧ labelProblems (lq_Namespace q) = []) l ∧
  NoDup (localQueueKey <$> l) ∧ Forall (λ k, k ∉ seen) (localQueueKey <$> l).
Proof.
  revert j seen. induction l as [|q l IH]; intros j seen; [simpl; naive_solver (eauto using NoDup_nil_2)|].
  cbn [checkLocalQueues]. rewrite fmap_cons. rewrite <- NoDup_seen, !app_nil, !problems_nil, cond_nil, bool_decide_eq_false, IH, Forall_cons.
  unfold nameOK. fold (localQueueKey q). naive_solver.
Qed.

Lemma checkClusterQueues_rule i seen l :
  checkClusterQueues i seen l = [] ↔
  Forall queueOK l ∧ NoDup (cq_Name <$> l) ∧ Forall (λ n, n ∉ seen) (cq_Name <$> l).
Proof.
  revert i seen. induction l as [|c l IH]; intros i seen; [simpl; naive_solver (eauto using NoDup_nil_2)|].
  cbn [checkClusterQueues]. rewrite fmap_cons.
  rewrite <- NoDup_seen, !app_nil, !problems_nil, cond_nil, bool_decide_eq_false, IH, checkLocalQueues_rule, Forall_cons.
  unfold queueOK, nameOK. assert (Forall (λ k, k ∉ (∅ : gset string)) (localQueueKey <$> cq_LocalQueues c)) as He
    by (apply Forall_forall; set_solver). naive_solver.
Qed.

Lemma validateKueueSpec_rule s :
  validateKueueSpec s = [] ↔
  ∀ k, cps_Kueue s = Some k → Forall queueOK (kq_EqualResources k) ∧ NoDup (cq_Name <$> kq_EqualResources k).
Proof.
  unfold validateKueueSpec. destruct (cps_Kueue s) as [k|]; [|done]. rewrite checkClusterQueues_rule. split.
  - intros (? & ? & _) ? [= <-]. done.
  - intros Hk. destruct (Hk k eq_refl) as [? ?]. split_and!; [done|done|]. apply Forall_forall. set_solver.
Qed.

Lemma checkEndpoint_rule f e :
  checkEndpoint f e = [] ↔ ∃ u, urlParse e = Ok u ∧ (url_Scheme u = "http" ∨ url_Scheme u = "https") ∧
    url_Host u ≠ "" ∧ url_hasUser u = false.
Proof.
  unfold checkEndpoint. destruct (urlParse e) as [u|]; [|naive_solver].
  destruct (bool_decide_reflect (url_Scheme u = "http")), (bool_decide_reflect (url_Scheme u = "https")),
    (bool_decide_reflect (url_Host u = "")), (url_hasUser u) eqn:?; simpl;
    (split; [intros; try discriminate; exists u; split_and!; auto|intros (? & [= <-] & [?|?] & ? & ?); congruence]).
Qed.

Lemma validateGRPCMetadataKey_rule f n : (validateGRPCMetadataKey f n).1 = [] ↔ metadataKeyOK n.
Proof.
  unfold validateGRPCMetadataKey, metadataKeyOK. set (l := toLower n).
  destruct (matchString _ l), (hasPrefix l _), (hasSuffix l _), (bool_decide (l ∈ grpcTransportHeaders)); simpl; naive_solver.
Qed.

Lemma checkHeaders_rule f grpc i seen l :
  (checkHeaders f grpc i seen l).1 = [] ↔
  Forall (λ h, oh_Name h ≠ "") l ∧ (NoDup (toLower ∘ oh_Name <$> l) ∧ Forall (λ n, n ∉ seen) (toLower ∘ oh_Name <$> l)) ∧
  (grpc = true → Forall (λ h, metadataKeyOK (oh_Name h)) l) ∧ Forall (λ h, keyOK (oh_ValueFrom h)) l.
Proof.
  revert i seen. induction l as [|h l IH]; intros i seen; [simpl; naive_solver (eauto using NoDup_nil_2)|].
  cbn [checkHeaders]. rewrite fmap_cons. rewrite <- NoDup_seen, !both_nil, IH, !Forall_cons. cbn [fst]. rewrite app_nil, validateObject_rule.
  change ((toLower ∘ oh_Name) h) with (toLower (oh_Name h)).
  destruct (bool_decide_reflect (oh_Name h = "")) as [He|He]; [cbn [fst]; naive_solver|].
  destruct (bool_decide_reflect (toLower (oh_Name h) ∈ seen)) as [Hs|Hs]; [cbn [fst]; naive_solver|]. cbn [fst snd].
  destruct grpc; cbn [andb negb]; [rewrite validateGRPCMetadataKey_rule|cbn [fst]]; naive_solver.
Qed.

Lemma checkTLS_rule f plain t :
  (checkTLS f plain t).1 = [] ↔ plain = false ∧
    (∀ ca, ot_CA t = Some ca → ot_InsecureSkipVerify t = false ∧ keyOK ca) ∧
    (∀ s, ot_ClientCertSecret t = Some s → nameOK s) ∧ unsetOr nameOK (ot_ServerName t).
Proof.
  unfold checkTLS. cbn [fst]. rewrite !app_nil, cond_nil.
  rewrite (unsetOr_if nameOK) by apply problems_nil.
  assert (∀ s, validateObjectName (f +:+ ".tls.clientCertSecret.name") s = [] ↔ nameOK s) as Hn by (intros; apply problems_nil).
  destruct (ot_CA t) as [ca|]; [rewrite !app_nil, cond_nil, validateObject_rule|];
    (destruct (ot_ClientCertSecret t) as [s|]; [rewrite Hn|]); naive_solver.
Qed.

Lemma validateOTLPExporterSpec_rule f e grpc : (validateOTLPExporterSpec f e grpc).1 = [] ↔ exporterOK grpc e.
Proof.
  unfold validateOTLPExporterSpec. rewrite !both_nil, checkHeaders_rule. cbn [fst]. rewrite checkEndpoint_rule. split.
  - intros ((u & Hu & Hs & Hh & Hp) & (Hn & [Hd _] & Hg & Hv) & _ & Ht). unfold isPlainText in Ht. rewrite Hu in Ht.
    split; try done.
    + exists u. split_and!; try done. intros Hhttp. destruct (oe_TLS e); [|done]. apply checkTLS_rule in Ht as [Ht _].
      by rewrite bool_decide_true in Ht.
    + intros t Ht'. rewrite Ht' in Ht. by apply checkTLS_rule in Ht as [_ Ht].
  - intros [(u & Hu & Hs & Hh & Hp & Hpl) Hn Hd Hg Hv Ht]. split_and!; try done; [by exists u| |].
    + apply Forall_forall. set_solver.
    + destruct (oe_TLS e) as [t|]; [|done]. apply checkTLS_rule. split; [|by apply Ht]. unfold isPlainText. rewrite Hu.
      apply bool_decide_eq_false. intros Hhttp. by specialize (Hpl Hhttp).
Qed.

Lemma validateOTLPSpec_rule o : (validateOTLPSpec o).1 = [] ↔ ∀ x, o = Some x → otlpOK x.
Proof.
  destruct o as [x|]; [|done]. unfold validateOTLPSpec, otlpOK.
  split; [intros Hr ? [= <-]; revert Hr|intros Hr; specialize (Hr x eq_refl); revert Hr];
    destruct (otlp_HTTP x) as [e|] eqn:He, (otlp_GRPC x) as [g|] eqn:Hg; rewrite ?validateOTLPExporterSpec_rule; try done.
  - intros Hx. left. by exists e.
  - intros Hx. right. by exists g.
  - by intros [(? & _ & ? & _)|(? & _ & ? & _)].
  - by intros [(? & [= <-] & _ & ?)|(? & ? & _)].
  - by intros [(? & ? & _)|(? & [= <-] & _ & ?)].
  - by intros [(? & ? & _)|(? & ? & _)].
Qed.

Lemma validateKernelMapping_rule f m : validateKernelMapping f m = [] ↔ mappingOK m.
Proof.
  unfold validateKernelMapping, mappingOK. rewrite !app_nil, cond_nil.
  rewrite (unsetOr_if (λ i, imageOK (substituteKMMTemplateVars i) ∧
    (contains (substituteKMMTemplateVars i) ":" = true ∨ contains (substituteKMMTemplateVars i) "@" = true))).
  2:{ unfold validateImageTagOrDigest, imageOK. set (i := substituteKMMTemplateVars _). destruct (parseNormalizedNamed i); [naive_solver|].
      rewrite cond_nil. destruct (contains i ":"), (contains i "@"); naive_solver. }
  assert ((if bool_decide (kms_Regexp m = "") then [MappingRegexpRequired f]
   else match regexpCompile (kms_Regexp m) with Some e => [MappingRegexp f e] | None => [] end) = [] ↔
   kms_Regexp m ≠ "" ∧ regexpCompile (kms_Regexp m) = None) as ->.
  { case_bool_decide; [naive_solver|]. destruct (regexpCompile _); naive_solver. }
  assert (bool_decide (kms_ContainerImage m = "") && bool_decide (kms_Build m = None) = false ↔
    kms_ContainerImage m ≠ "" ∨ is_Some (kms_Build m)) as ->.
  { rewrite andb_false_iff, !bool_decide_eq_false. by rewrite not_eq_None_Some. }
  destruct (kms_Build m) as [b|]; [rewrite cond_nil, bool_decide_eq_false|]; naive_solver.
Qed.

Lemma firstDuplicate_rule i seen l : firstDuplicate i seen l = None ↔ NoDup l ∧ Forall (λ x, x ∉ seen) l.
Proof.
  revert i seen. induction l as [|x l IH]; intros i seen; [simpl; naive_solver (eauto using NoDup_nil_2)|].
  cbn [firstDuplicate]. rewrite <- NoDup_seen. case_bool_decide; [naive_solver|]. rewrite IH. naive_solver.
Qed.

Lemma validateModulesLoadingOrder_rule mn order :
  (if (0 <? length order)%nat then validateModulesLoadingOrder mn order else []) = [] ↔ orderOK mn order.
Proof.
  unfold orderOK. destruct order as [|x l]; [naive_solver|]. cbn [length Nat.ltb Nat.leb]. unfold validateModulesLoadingOrder.
  rewrite !app_nil, !cond_nil, Nat.ltb_ge, andb_false_iff, !negb_false_iff, !bool_decide_eq_true.
  assert (match firstDuplicate 0 ∅ (x :: l) with Some (i, e) => [OrderDuplicate i e] | None => [] end = [] ↔ NoDup (x :: l)) as ->.
  { pose proof (firstDuplicate_rule 0 ∅ (x :: l)) as Hr. assert (Forall (λ y, y ∉ (∅ : gset string)) (x :: l)) as He
      by (apply Forall_forall; set_solver).
    destruct (firstDuplicate 0 ∅ (x :: l)) as [[i y]|]; naive_solver. }
  simpl. naive_solver.
Qed.

Lemma validateKernelModuleSpec_rule s :
  validateKernelModuleSpec s = [] ↔ ∀ km, cps_KernelModule s = Some km →
    Forall mappingOK (km_KernelMappings km) ∧ orderOK (km_ModuleName km) (km_ModulesLoadingOrder km).
Proof.
  unfold validateKernelModuleSpec. destruct (cps_KernelModule s) as [km|]; [|done].
  rewrite app_nil, imap_join_nil, validateModulesLoadingOrder_rule.
  setoid_rewrite validateKernelMapping_rule. rewrite <- (Forall_lookup mappingOK). split; [by intros Hk ? [= <-]|auto].
Qed.

(** The checks, group by group. *)
Lemma PolicyValidateCreate_rule cp : (PolicyValidateCreate cp).2 = [] ↔ policyOK (cp_Spec cp).
Proof.
  unfold PolicyValidateCreate, validateClusterPolicySpec. cbn [snd]. set (s := cp_Spec cp).
  rewrite !app_nil, validateDPSpec_rule, validateImageFields_rule, validateKueueSpec_rule, validateKernelModuleSpec_rule,
    validateCDIPaths_rule, validateOTLPSpec_rule.
  assert (validatePullSecret s = [] ↔ ∀ n, cps_PullSecret s = Some n → nameOK n) as ->.
  { unfold validatePullSecret, nameOK. destruct (cps_PullSecret s); [rewrite problems_nil|]; naive_solver. }
  assert (validateConfigMapOverride s = [] ↔ unsetOr nameOK (xpu_ConfigMapOverride (cps_XpuManagerSpec s))) as ->
    by apply unsetOr_if, problems_nil.
  split; [|by intros []]. intros ([? ?] & ? & ? & ? & ? & ? & ? & ?). by constructor.
Qed.

(** C14: the webhook accepts a new policy exactly when it follows the rules: the thirty or so checks, spread over
    loops with early exits and sets of what was seen, come down to the declarative conditions of [policyOK]
    and to nothing else.  (An update is checked the same way, unless the policy is being deleted: then it is
    let through unchecked.) *)
Theorem policy_accepts_exactly cp : (PolicyValidateCreate cp).2 = [] ↔ policyOK (cp_Spec cp).
Proof. apply PolicyValidateCreate_rule. Qed.

(** ** What the controllers can rely on *)

Lemma orDefault_ne d s : d ≠ "" → orDefault d s ≠ "".
Proof. unfold orDefault. by case_bool_decide. Qed.

Lemma orDefault_idem d s : orDefault d (orDefault d s) = orDefault d s.
Proof. unfold orDefault. by repeat case_bool_decide. Qed.

Lemma PolicyDefault_idem cp : PolicyDefault (PolicyDefault cp) = PolicyDefault cp.
Proof.
  unfold PolicyDefault, defaultSpec, defaultDP, defaultDRA, defaultXPU. simpl. do 2 f_equal; rewrite ?orDefault_idem; try done.
  destruct (cps_KernelModule (cp_Spec cp)) as [km|]; [|done]. simpl. unfold defaultKM. simpl. by rewrite orDefault_idem.
Qed.

Lemma unsetOr_default (P : string → Prop) d s : P d → unsetOr P s → P (if bool_decide (s = "") then d else s).
Proof. unfold unsetOr. case_bool_decide; naive_solver. Qed.

(** What a stored policy guarantees the controllers that deploy it: after defaulting and validation the
    three images they use are set and parse, the CDI directories they mount, defaults filled in, are absolute
    paths without upward components or control characters, and a kernel module has a name, which comes first
    in its loading order. *)
Theorem admitted_policy_effective cp :
  (PolicyValidateCreate (PolicyDefault cp)).2 = [] →
  let s := cp_Spec (PolicyDefault cp) in
  Forall (λ i, i ≠ "" ∧ imageOK i)
    [dra_Image (cps_DynamicResourceAllocationSpec s); dp_PluginImage (cps_DevicePluginSpec s); xpu_Image (cps_XpuManagerSpec s)] ∧
  hostPathOK (cdi_StaticHostPath (WithDefaults (cps_CDI s))) ∧ hostPathOK (cdi_DynamicHostPath (WithDefaults (cps_CDI s))) ∧
  ∀ km, cps_KernelModule s = Some km → km_ModuleName km ≠ "" ∧
    (km_ModulesLoadingOrder km = [] ∨ head (km_ModulesLoadingOrder km) = Some (km_ModuleName km)).
Proof.
  intros Hv s. apply PolicyValidateCreate_rule in Hv as [_ _ Himg _ _ _ Hkm [Hc1 Hc2] _]. fold s in Himg, Hkm, Hc1, Hc2.
  assert (∀ d i, d ≠ "" → unsetOr imageOK (orDefault d i) → orDefault d i ≠ "" ∧ imageOK (orDefault d i)) as Hi.
  { intros d i Hd [Hu|Hu]; [by apply orDefault_ne in Hu|]. split; [by apply orDefault_ne|done]. }
  rewrite !Forall_cons in Himg. destruct Himg as (Hi1 & Hi2 & _ & Hi3 & _). split_and!.
  - repeat apply Forall_cons_2; [by apply Hi..|constructor].
  - apply (unsetOr_default hostPathOK); [|done]. apply (bool_decide_unpack _). vm_compute. done.
  - apply (unsetOr_default hostPathOK); [|done]. apply (bool_decide_unpack _). vm_compute. done.
  - intros km Hk. destruct (Hkm km Hk) as [_ Ho].
    assert (km_ModuleName km ≠ "") as Hn.
    { simpl in Hk. apply fmap_Some in Hk as (k0 & _ & ->). by apply orDefault_ne. }
    split; [done|]. destruct Ho as [->|(_ & _ & [?|?])]; [by left|done|by right].
Qed.

(** A policy that is being deleted is never held back: the removal of its finalizer is accepted, whatever the
    rules have become since it was stored. *)
Lemma deletion_admitted oldCP cp t : cp_DeletionTimestamp cp = Some t → (PolicyValidateUpdate oldCP cp).2 = [].
Proof. intros Ht. unfold PolicyValidateUpdate. by rewrite Ht. Qed.
End Rules.

(** ** An accepted policy *)

#[local] Instance demoChecks : PolicyChecks :=
  {| parseNormalizedNamed s := if bool_decide (s = "") then Some (errorf "empty") else None;
     subdomainProblems s := if dnsSubdomain s then [] else ["not a subdomain"];
     labelProblems s := if dnsLabel s then [] else ["not a label"];
     isConfigMapKey s := if bool_decide (s = "") then ["empty"] else [];
     regexpCompile _ := None; urlParse s := if hasPrefix s "https://" then Ok (mkURL "https" "gw" false) else Err (errorf "bad");
     unicodeToLower s := s |}.

Definition demoPolicy : ClusterPolicy :=
  mkClusterPolicy "policy" None []
    (mkClusterPolicySpec "dra" true false false true
       (Some (mkKueueQueueSpec [mkClusterQueueSpec "gpus" [mkLocalQueueSpec "team" "ns1"; mkLocalQueueSpec "team" "ns2"]]))
       None (mkDynamicResourceAllocationSpec "" 0 false false None)
       (mkDevicePluginSpec "" "" ["0xe20b"] [] "" 0 None)
       (mkXpuManagerSpec "" 0 "" "" None "" false false
          (Some (mkOTLPSpec None
             (Some (mkOTLPExporterSpec "https://gw:4317" [mkOTLPHeader "Authorization" (mkKeySelector "otlp" "token")] None)))))
       (Some "pull-secret") ∅ [] 0
       (Some (mkKernelModuleSpec "" "1"
          [mkKernelMappingSpec "^.*$" "registry/kmod:${KERNEL_FULL_VERSION}" None [] None] ["xe"; "drm_gpuvm"] "" None))
       (mkCDISpec "/srv/cdi" ""))
    (mkClusterPolicyStatus "" "" "" "" []).

Lemma admitted_policy_effective_witness :
  hostPathOK "/srv/cdi" ∧ head ["xe"; "drm_gpuvm"] = Some "xe".
Proof.
  destruct (admitted_policy_effective demoPolicy) as (_ & Hc & _ & _); [vm_compute; reflexivity|].
  split; [exact Hc|reflexivity].
Defined.
