(* ===== verification/XpumRefresh.v ===== *)
(** * XPU manager: refreshing the devices of its pods

    [internal/controller/clusterpolicy/xpum_device_refresh.go].  The reconciler keeps three maps in memory,
    by node; a pass handles one node.  The mutex around the maps is not modelled: the controller runs one
    worker, so that passes do not overlap.  Log lines are left out. *)

From Stdlib Require Import Ascii.
From S2P Require Import Prelude GoStrings KubeTypes Common PolicyTypes RecoveryNaming.

(** ** Constants *)

Definition xpumDevicesAnnotation : string := "gpu.intel.com/xpum-devices".
Definition deviceAttrDriver : string := "driver".
Definition xpumdMonitorableDriverXe : string := "xe".
Definition xpumdMonitorableDriverI915 : string := "i915".
Definition xpumRestartCooldown : Z := 120 * Second.
Definition maxConcurrentXpumRestarts : nat := 3.
Definition maxXpumRestartAttempts : nat := 3.
Definition restartReasonRecovered : string := "recovered-device".
Definition restartReasonRebind : string := "rebind".

(** ** What the slices say *)

Record deviceState := mkDeviceState { ds_recovering : bool; ds_monitorable : bool }.

Definition usable (s : deviceState) : bool := ds_monitorable s && negb (ds_recovering s).

Definition deviceNeedsRecovery (dev : Device) : bool :=
  existsb (λ key, negb (bool_decide (RecoveryForDeviceTaint key = DeviceRecoveryNone))) (dev_taints dev).

(** [strings.ToLower(s) == t] for an ASCII [t]. *)
Definition lowerIs (s t : string) : bool := bool_decide ((lowerRune <$> runes s) = runes t).

Definition xpumdMonitorableDriver (dev : Device) : bool :=
  match dev_attributes dev !! deviceAttrDriver with
  | Some (Some v) => lowerIs v xpumdMonitorableDriverXe || lowerIs v xpumdMonitorableDriverI915
  | _ => true
  end.

Definition addDevice (states : gmap string deviceState) (dev : Device) : gmap string deviceState :=
  let s := mkDeviceState (deviceNeedsRecovery dev) (xpumdMonitorableDriver dev) in
  <[dev_name dev :=
      match states !! dev_name dev with
      | Some prev => mkDeviceState (ds_recovering s || ds_recovering prev) (ds_monitorable s && ds_monitorable prev)
      | None => s
      end]> states.

Definition statesOf (slices : list ResourceSlice) : gmap string deviceState :=
  foldl (λ states slice,
    if bool_decide (rs_driver slice = GPUDeviceClass) then foldl addDevice states (rs_devices slice) else states)
    ∅ slices.

(** ** The record on a pod *)

Definition parseDeviceRecord (value : string) : gset string :=
  list_to_set (filter (λ e, e ≠ "") (split ","%char value)).

Definition formatDeviceRecord (names : list string) : string := join "," (sortStrings names).

(** The names of a map whose state satisfies [p], sorted. *)
Definition missingDevices (states : gmap string deviceState) (held : gset string) : list string :=
  sortStrings (filter (λ name, name ∉ held)
    ((filter (λ e, usable e.2 = true) (map_to_list states)).*1)).

Definition publishedUnusable (states : gmap string deviceState) (name : string) : bool :=
  match states !! name with Some s => negb (usable s) | None => false end.
Definition publishedUsable (states : gmap string deviceState) (name : string) : bool :=
  match states !! name with Some s => usable s | None => false end.

(** ** The outside world of this controller *)

Inductive REv :=
| RvNow (t : Z)
| RvListPolicies (r : res (list ClusterPolicy))
| RvListSlicesOnNode (node : string) (r : res (list ResourceSlice))
| RvListPods (ns key value : string) (r : res (list Pod))
| RvGetClaim (ns name : string) (r : res ResourceClaim)
| RvPatchAnnotation (ns pod key value : string) (r : res unit)
| RvDeletePod (ns pod : string) (r : res unit).

Class RefreshEnv := {
  renv_now : list REv → Z;
  renv_listPolicies : list REv → res (list ClusterPolicy);
  renv_listSlicesOnNode : list REv → string → res (list ResourceSlice);
  renv_listPods : list REv → string → string → string → res (list Pod);
  renv_getClaim : list REv → string → string → res ResourceClaim;
  renv_patchAnnotation : list REv → string → string → string → string → res unit;
  renv_deletePod : list REv → string → string → res unit;
}.

(** [lastRestart], [restartAttempts] and [lostDevices] *)
Record refreshState := mkRefreshState {
  lastRestart : gmap string Z;
  restartAttempts : gmap string nat;
  lostDevices : gmap string (gset string);
}.

Definition set_lostDevices (l : gmap string (gset string)) (s : refreshState) : refreshState :=
  mkRefreshState (lastRestart s) (restartAttempts s) l.

Abbreviation ROp := (M REv refreshState).

Inductive restartOutcome := restartDone | restartDeferred | restartAbandoned.

#[global] Instance restartOutcome_eq_dec : EqDecision restartOutcome.
Proof. solve_decision. Defined.

Section Refresh.
Context `{!RefreshEnv} (opts : ControllerOpts).

Definition RNow : ROp Z := exchange renv_now RvNow.
Definition ListPolicies : ROp _ := exchange renv_listPolicies RvListPolicies.
Definition ListSlicesOnNode n : ROp _ := exchange (λ h, renv_listSlicesOnNode h n) (RvListSlicesOnNode n).
Definition RListPods ns k v : ROp _ := exchange (λ h, renv_listPods h ns k v) (RvListPods ns k v).
Definition RGetClaim ns n : ROp _ := exchange (λ h, renv_getClaim h ns n) (RvGetClaim ns n).
Definition PatchAnnotation ns p k v : ROp _ :=
  exchange (λ h, renv_patchAnnotation h ns p k v) (RvPatchAnnotation ns p k v).
Definition DeletePod ns p : ROp _ := exchange (λ h, renv_deletePod h ns p) (RvDeletePod ns p).

(** ** The three maps *)

Definition forgetNode (node : string) : ROp unit :=
  modMem (λ s, mkRefreshState (delete node (lastRestart s)) (delete node (restartAttempts s))
                 (delete node (lostDevices s))).

Definition resetAttempts (node : string) : ROp unit :=
  modMem (λ s, mkRefreshState (lastRestart s) (delete node (restartAttempts s)) (lostDevices s)).

Definition trackRebinds (node : string) (held : gset string) (states : gmap string deviceState) :
    ROp (list string) :=
  s ← getMem;
  let lost := default ∅ (lostDevices s !! node) in
  let unusable := filter (λ name, publishedUnusable states name = true) held in
  _ ← (if bool_decide (unusable = ∅) then mret tt
       else modMem (set_lostDevices (<[node := unusable ∪ lost]> (lostDevices s))));
  mret (sortStrings (filter (λ name, publishedUsable states name = true ∧ name ∈ lost) (elements held))).

Definition clearRebinds (node : string) (names : list string) : ROp unit :=
  modMem (λ s,
    match lostDevices s !! node with
    | None => s
    | Some lost =>
        let lost' := lost ∖ list_to_set names in
        set_lostDevices (if bool_decide (lost' = ∅) then delete node (lostDevices s)
                         else <[node := lost']> (lostDevices s)) s
    end).

(** ** Reading the cluster *)

Definition restartMode : ROp (res string) :=
  l ← ListPolicies;
  mret match l with
       | Err e => Err (wrapErr "failed to list ClusterPolicies: " e)
       | Ok items =>
           match head (filter (λ cp, cp_DeletionTimestamp cp = None) items) with
           | None => Ok XpumRestartDisabled
           | Some cp =>
               if negb (cps_ResourceMonitoring (cp_Spec cp)) then Ok XpumRestartDisabled
               else if negb (DRAEnable opts)
                       || negb (bool_decide (cps_ResourceRegistration (cp_Spec cp) = resourceModeDRA))
               then Ok XpumRestartDisabled
               else
                 let mode := xpu_RestartOnDeviceRecovery (cps_XpuManagerSpec (cp_Spec cp)) in
                 if bool_decide (mode ∈ [XpumRestartOnRecoveredDevice; XpumRestartAlways; XpumRestartDisabled])
                 then Ok mode else Ok XpumRestartOnRecoveredDevice
           end
       end.

Definition deviceStates (node : string) : ROp (res (gmap string deviceState)) :=
  l ← ListSlicesOnNode node;
  mret match l with
       | Err e => Err (wrapErr ("failed to list ResourceSlices for node " +:+ node +:+ ": ") e)
       | Ok slices => Ok (statesOf slices)
       end.

Definition listXpumPods : ROp (res (list Pod)) :=
  l ← RListPods (Namespace opts) xpuLabel xpuValue;
  mret match l with
       | Err e => Err (wrapErr "failed to list xpum pods: " e)
       | Ok pods => Ok pods
       end.

Definition xpumPodsOnNode (node : string) : ROp (res (list Pod)) :=
  l ← listXpumPods;
  mret match l with
       | Err e => Err e
       | Ok pods => Ok (filter (λ pod, pod_nodeName pod = node ∧ pod_deletionTimestamp pod = None) pods)
       end.

Definition notRunning (pod : Pod) : bool :=
  negb (bool_decide (pod_phase pod = PodRunning)) || negb (bool_decide (pod_deletionTimestamp pod = None)).

Definition restartingXpumPods : ROp (res nat) :=
  l ← listXpumPods;
  mret match l with
       | Err e => Err e
       | Ok pods => Ok (length (filter (λ pod, notRunning pod = true) pods))
       end.

(** [names] and [found] of [allocatedDeviceNames] *)
Definition addAllocated (acc : gset string * bool) (claim : ResourceClaim) : gset string * bool :=
  match rc_allocation claim with
  | None => acc
  | Some results =>
      (list_to_set (ar_device <$> filter (λ a, ar_driver a = GPUDeviceClass) results) ∪ acc.1, true)
  end.

Definition allocatedDeviceNames (pod : Pod) : ROp (res (gset string * bool)) :=
  o ← foldUntil (λ acc status,
        match status with
        | None => mret (inl acc)
        | Some name =>
            c ← RGetClaim (pod_namespace pod) name;
            mret match c with
                 | Err e => inr (wrapErr ("failed to get ResourceClaim " +:+ pod_namespace pod +:+ "/" +:+ name +:+ ": ") e)
                 | Ok claim => inl (addAllocated acc claim)
                 end
        end) (∅, false) (pod_claimStatuses pod);
  mret match o with inr e => Err e | inl acc => Ok acc end.

(** ** Adopting and restarting a pod *)

Definition patchDeviceRecord (pod : Pod) (value : string) : ROp (option GoErr) :=
  p ← PatchAnnotation (pod_namespace pod) (pod_name pod) xpumDevicesAnnotation value;
  mret match p with
       | Err e => Some (wrapErr ("failed to record devices on xpum pod " +:+ pod_namespace pod +:+ "/"
                                 +:+ pod_name pod +:+ ": ") e)
       | Ok _ => None
       end.

(** The devices of the claim that the pod was given: those not published, or published and usable. *)
Definition heldOf (states : gmap string deviceState) (allocated : gset string) : list string :=
  filter (λ name, publishedUnusable states name = false) (elements allocated).

Definition adoptPod (pod : Pod) (states : gmap string deviceState) : ROp (res bool) :=
  a ← allocatedDeviceNames pod;
  match a with
  | Err e => mret (Err e)
  | Ok (allocated, ready) =>
      if negb ready then mret (Ok true)
      else
        p ← patchDeviceRecord pod (formatDeviceRecord (heldOf states allocated));
        mret match p with Some e => Err e | None => Ok false end
  end.

Definition restartPod (pod : Pod) (node reason : string) : ROp (res restartOutcome) :=
  s ← getMem;
  let attempts := default 0 (restartAttempts s !! node) in
  let last := lastRestart s !! node in
  if (maxXpumRestartAttempts <=? attempts)%nat then mret (Ok restartAbandoned)
  else
    now ← RNow;
    if match last with Some t => (timeSince now t <? xpumRestartCooldown)%Z | None => false end
    then mret (Ok restartDeferred)
    else
      n ← restartingXpumPods;
      match n with
      | Err e => mret (Err e)
      | Ok restarting =>
          if (maxConcurrentXpumRestarts <=? restarting)%nat then mret (Ok restartDeferred)
          else
            d ← DeletePod (pod_namespace pod) (pod_name pod);
            match d with
            | Err e => mret (Err (wrapErr ("failed to delete xpum pod " +:+ pod_namespace pod +:+ "/"
                                           +:+ pod_name pod +:+ ": ") e))
            | Ok _ =>
                now' ← RNow;
                _ ← modMem (λ s, mkRefreshState (<[node := now']> (lastRestart s))
                                   (<[node := S attempts]> (restartAttempts s)) (lostDevices s));
                mret (Ok restartDone)
            end
      end.

Definition refreshPod (pod : Pod) (node : string) (states : gmap string deviceState) (mode : string) :
    ROp (res bool) :=
  if negb (bool_decide (pod_phase pod = PodRunning)) then mret (Ok false)
  else
    match pod_annotations pod !! xpumDevicesAnnotation with
    | None => adoptPod pod states
    | Some record =>
        let held := parseDeviceRecord record in
        let missing := missingDevices states held in
        rebound ← trackRebinds node held states;
        reason ← (if negb (bool_decide (missing = [])) then mret restartReasonRecovered
                  else if negb (bool_decide (rebound = [])) && bool_decide (mode = XpumRestartAlways)
                  then mret restartReasonRebind
                  else if negb (bool_decide (rebound = []))
                  then _ ← clearRebinds node rebound; mret ""
                  else mret "");
        if bool_decide (reason = "") then _ ← resetAttempts node; mret (Ok false)
        else
          o ← restartPod pod node reason;
          match o with
          | Err e => mret (Err e)
          | Ok outcome =>
              _ ← (if bool_decide (reason = restartReasonRebind) && negb (bool_decide (outcome = restartDeferred))
                   then clearRebinds node rebound else mret tt);
              mret (Ok (bool_decide (outcome = restartDeferred)))
          end
    end.

Definition RefreshReconcile (node : string) : ROp (Result * option GoErr) :=
  m ← restartMode;
  match m with
  | Err e => mret (noResult, Some e)
  | Ok mode =>
      if bool_decide (mode = XpumRestartDisabled) then _ ← forgetNode node; mret (noResult, None)
      else
        d ← deviceStates node;
        match d with
        | Err e => mret (noResult, Some e)
        | Ok states =>
            if bool_decide (states = ∅) then _ ← forgetNode node; mret (noResult, None)
            else
              p ← xpumPodsOnNode node;
              match p with
              | Err e => mret (noResult, Some e)
              | Ok pods =>
                  o ← foldUntil (λ requeue pod,
                        q ← refreshPod pod node states mode;
                        mret match q with Err e => inr e | Ok again => inl (requeue || again) end) false pods;
                  mret match o with
                       | inr e => (noResult, Some e)
                       | inl requeue => (if (requeue : bool) then mkResult (RequeueDelay opts) else noResult, None)
                       end
              end
        end
  end.

(** ** The watches *)

Definition indexResourceSliceByNodeName (slice : ResourceSlice) : list string :=
  match rs_nodeName slice with
  | Some n => if bool_decide (n = "") then [] else [n]
  | None => []
  end.

Definition resourceSliceToNode (slice : ResourceSlice) : list string :=
  match rs_nodeName slice with
  | Some n => if bool_decide (rs_driver slice = GPUDeviceClass) then [n] else []
  | None => []
  end.

Definition xpumPodToNode (pod : Pod) : list string :=
  if negb (bool_decide (pod_namespace pod = Namespace opts))
     || negb (bool_decide (pod_labels pod !! xpuLabel = Some xpuValue))
     || bool_decide (pod_nodeName pod = "")
  then [] else [pod_nodeName pod].
End Refresh.
