(* ===== verification/XpumRefreshFacts.v ===== *)
(** * XPU manager refresh: the device record, when a pod is restarted, and how often *)

From Stdlib Require Import Ascii.
From S2P Require Import Prelude GoStrings KubeTypes Common PolicyTypes RecoveryNaming XpumRefresh.

Lemma elem_of_missing states held d :
  d ∈ missingDevices states held ↔ publishedUsable states d = true ∧ d ∉ held.
Proof.
  unfold missingDevices, publishedUsable. rewrite elem_of_sortStrings, list_elem_of_filter, list_elem_of_fmap.
  split.
  - intros (Hn & [n s] & -> & [Hu Hin]%list_elem_of_filter). apply elem_of_map_to_list in Hin. simpl in *. by rewrite Hin.
  - intros [Hu Hn]. split; [done|]. destruct (states !! d) as [s|] eqn:Hs; [|done]. exists (d, s). split; [done|].
    apply list_elem_of_filter. split; [done|]. by apply elem_of_map_to_list.
Qed.

Lemma usable_not_unusable states d : publishedUsable states d = true → publishedUnusable states d = false.
Proof. unfold publishedUsable, publishedUnusable. destruct (states !! d); [|done]. by intros ->. Qed.

(** ** The record *)

Lemma record_parts names :
  Forall (λ n, ","%char ∉ s2l n) names → names ≠ [] → split ","%char (formatDeviceRecord names) = sortStrings names.
Proof.
  intros HF Hne. unfold formatDeviceRecord. change "," with (l2s [","%char]). apply split_join.
  - intros Hnil. destruct Hne. apply Permutation_nil. by rewrite <- Hnil, sortStrings_perm.
  - by rewrite sortStrings_perm.
Qed.

Lemma parse_format names :
  Forall (λ n, n ≠ "" ∧ ","%char ∉ s2l n) names → parseDeviceRecord (formatDeviceRecord names) = list_to_set names.
Proof.
  intros HF. destruct (decide (names = [])) as [->|Hne]; [done|]. unfold parseDeviceRecord.
  rewrite record_parts; [|by eapply Forall_impl; [exact HF|intros ? []]|done].
  apply set_eq. intros d. rewrite !elem_of_list_to_set, list_elem_of_filter, elem_of_sortStrings.
  rewrite Forall_forall in HF. split; [by intros [_ ?]|]. intros Hd. split; [by apply HF|done].
Qed.

(** ** What a pass may do to pods *)

Section Discipline.
Context `{!RefreshEnv} (opts : ControllerOpts).

Abbreviation RW := (World REv refreshState).

(** The mode a listing of policies asks for, as [restartMode] resolves it. *)
Definition modeOf (items : list ClusterPolicy) : string :=
  match head (filter (λ cp, cp_DeletionTimestamp cp = None) items) with
  | None => XpumRestartDisabled
  | Some cp =>
      if cps_ResourceMonitoring (cp_Spec cp) && DRAEnable opts
         && bool_decide (cps_ResourceRegistration (cp_Spec cp) = resourceModeDRA)
      then let mode := xpu_RestartOnDeviceRecovery (cps_XpuManagerSpec (cp_Spec cp)) in
           if bool_decide (mode ∈ [XpumRestartOnRecoveredDevice; XpumRestartAlways; XpumRestartDisabled])
           then mode else XpumRestartOnRecoveredDevice
      else XpumRestartDisabled
  end.

(** [pod] is one the pass may handle: the API server listed it among the xpum pods, on the node, running and
    not terminating. *)
Definition livePod (B h : list REv) (node : string) (pod : Pod) : Prop :=
  ∃ pods, seen B h (RvListPods (Namespace opts) xpuLabel xpuValue (Ok pods)) ∧ pod ∈ pods ∧
    pod_nodeName pod = node ∧ pod_deletionTimestamp pod = None ∧ pod_phase pod = PodRunning.

(** The reason to restart a pod with record [record], where [lost] are the devices known to have been
    unusable. *)
Definition restartDue (mode : string) (states : gmap string deviceState) (lost : string → Prop) (record : string) : Prop :=
  (∃ d, publishedUsable states d = true ∧ d ∉ parseDeviceRecord record) ∨
  mode = XpumRestartAlways ∧ ∃ d, publishedUsable states d = true ∧ d ∈ parseDeviceRecord record ∧ lost d.

(** The last two exchanges before a deletion: the clock, and the count of pods that are not running. *)
Definition underCap (h : list REv) : Prop :=
  ∃ pods t h', h = RvListPods (Namespace opts) xpuLabel xpuValue (Ok pods) :: RvNow t :: h' ∧
    length (filter (λ pod, notRunning pod = true) pods) < maxConcurrentXpumRestarts.

Definition lostOn (w : RW) (node : string) : gset string := default ∅ (lostDevices (mem w) !! node).

(** The history shows device [d] of [node] as published but unusable, while an xpum pod of the node had it in
    its record: the two listings of one pass. *)
Definition seenUnusable (h : list REv) (node d : string) : Prop :=
  ∃ slices pods pod record h',
    RvListPods (Namespace opts) xpuLabel xpuValue (Ok pods) :: RvListSlicesOnNode node (Ok slices) :: h' `suffix_of` h ∧
    publishedUnusable (statesOf slices) d = true ∧ pod ∈ pods ∧ pod_nodeName pod = node ∧
    pod_annotations pod !! xpumDevicesAnnotation = Some record ∧ d ∈ parseDeviceRecord record.

(** What a pass for [node] that started with log [B] may do; [lost] are the devices a restart in mode Always
    may be due to. *)
Definition refreshEv (B : list REv) (lost : string → Prop) (node : string) (h : list REv) (e : REv) : Prop :=
  match e with
  | RvDeletePod ns p _ =>
      ∃ policies slices pod record,
        seen B h (RvListPolicies (Ok policies)) ∧ modeOf policies ≠ XpumRestartDisabled ∧
        seen B h (RvListSlicesOnNode node (Ok slices)) ∧
        livePod B h node pod ∧ pod_namespace pod = ns ∧ pod_name pod = p ∧
        pod_annotations pod !! xpumDevicesAnnotation = Some record ∧
        restartDue (modeOf policies) (statesOf slices) lost record ∧ underCap h
  | RvPatchAnnotation ns p k v _ =>
      ∃ slices pod allocated,
        seen B h (RvListSlicesOnNode node (Ok slices)) ∧
        livePod B h node pod ∧ pod_namespace pod = ns ∧ pod_name pod = p ∧
        pod_annotations pod !! xpumDevicesAnnotation = None ∧ k = xpumDevicesAnnotation ∧
        v = formatDeviceRecord (heldOf (statesOf slices) allocated) ∧
        ∀ d, d ∈ allocated → ∃ name claim results a,
          Some name ∈ pod_claimStatuses pod ∧ seen B h (RvGetClaim (pod_namespace pod) name (Ok claim)) ∧
          rc_allocation claim = Some results ∧ a ∈ results ∧ ar_driver a = GPUDeviceClass ∧ ar_device a = d
  | _ => True
  end.

(** The footprint in terms of the controller's memory at the start of the pass. *)
Abbreviation memoryEv start node := (refreshEv (log start) (λ d, d ∈ lostOn start node) node).

Lemma refreshEv_lost B (P Q : string → Prop) node h e : (∀ d, P d → Q d) → refreshEv B P node h e → refreshEv B Q node h e.
Proof.
  intros HPQ. destruct e; try done.
  intros (pol & sl & x & rec & H1 & H2 & H3 & H4 & H5 & H6 & H7 & Hdue & H8). exists pol, sl, x, rec. split_and!; try done.
  destruct Hdue as [?|[? (d & ? & ? & ?)]]; [by left|right; split; [done|]; exists d; auto].
Qed.

(** What the loop over the pods keeps. *)
Definition loopInv (start : RW) (node : string) (policies : list ClusterPolicy) (slices : list ResourceSlice)
    (pods : list Pod) (w : RW) : Prop :=
  loggedIn (memoryEv start node) start w ∧
  seen (log start) (log w) (RvListPolicies (Ok policies)) ∧ modeOf policies ≠ XpumRestartDisabled ∧
  seen (log start) (log w) (RvListSlicesOnNode node (Ok slices)) ∧
  seen (log start) (log w) (RvListPods (Namespace opts) xpuLabel xpuValue (Ok pods)) ∧
  ∀ d, publishedUsable (statesOf slices) d = true → d ∈ lostOn w node → d ∈ lostOn start node.

Section Loop.
Context (start : RW) (node : string) (policies : list ClusterPolicy) (slices : list ResourceSlice) (pods : list Pod).
Abbreviation Inv := (loopInv start node policies slices pods).
Abbreviation states := (statesOf slices).
Abbreviation mode := (modeOf policies).

Definition lostOK (s : refreshState) : Prop :=
  ∀ d, publishedUsable states d = true → d ∈ default ∅ (lostDevices s !! node) → d ∈ lostOn start node.

Lemma Inv_lostOK w : Inv w → lostOK (mem w).
Proof. by intros (_ & _ & _ & _ & _ & Hl). Qed.

Lemma Inv_mem s w : Inv w → lostOK s → Inv (mkWorld s (log w)).
Proof. intros (Hg & Hp & Hm & Hs & Hl & _) Hs'. split_and!; [|done..]. done. Qed.

Lemma Inv_ev e s w : Inv w → memoryEv start node (log w) e → lostOK s → Inv (mkWorld s (e :: log w)).
Proof.
  intros (Hg & Hp & Hm & Hs & Hl & _) He Hs'. assert (log w `suffix_of` e :: log w) as Hsuf by (by exists [e]).
  split_and!; try (by eapply seen_mono); [|done..]. etrans; [exact Hg|]. by apply loggedIn_one.
Qed.

Lemma Inv_seen_pods w pod :
  Inv w → pod ∈ pods → pod_nodeName pod = node → pod_deletionTimestamp pod = None → pod_phase pod = PodRunning →
  livePod (log start) (log w) node pod.
Proof. intros (_ & _ & _ & _ & Hl & _) ????. by exists pods. Qed.

(** What was seen stays seen. *)
Lemma livePod_mono h h' pod : h `suffix_of` h' → livePod (log start) h node pod → livePod (log start) h' node pod.
Proof. intros Hs (l & Hl & Hr). exists l. split; [by eapply seen_mono|done]. Qed.

(** ** Adoption *)

Definition fromClaims (pod : Pod) (h : list REv) (d : string) : Prop :=
  ∃ name claim results a,
    Some name ∈ pod_claimStatuses pod ∧ seen (log start) h (RvGetClaim (pod_namespace pod) name (Ok claim)) ∧
    rc_allocation claim = Some results ∧ a ∈ results ∧ ar_driver a = GPUDeviceClass ∧ ar_device a = d.

Lemma fromClaims_mono pod h h' d : h `suffix_of` h' → fromClaims pod h d → fromClaims pod h' d.
Proof.
  intros Hs (n & c & rs & a & Hn & Hc & Hr). exists n, c, rs, a. split_and!; [done|by eapply seen_mono|naive_solver..].
Qed.

Lemma Inv_suffix w : Inv w → log start `suffix_of` log w.
Proof. intros (Hg & _). by apply loggedIn_grows in Hg. Qed.

Lemma allocatedDeviceNames_spec pod w :
  Inv w →
  wp (allocatedDeviceNames pod)
    (λ r w', Inv w' ∧ log w `suffix_of` log w' ∧
       ∀ names ready, r = Ok (names, ready) → ∀ d, d ∈ names → fromClaims pod (log w') d) w.
Proof.
  intros HI. unfold allocatedDeviceNames. apply wp_bind. eapply wp_mono.
  - apply (wp_foldUntil_inv _ (λ acc w', Inv w' ∧ log w `suffix_of` log w' ∧ ∀ d, d ∈ acc.1 → fromClaims pod (log w') d)
             (λ _ w', Inv w' ∧ log w `suffix_of` log w')).
    + split_and!; [done|done|]. set_solver.
    + intros [n|] acc w' Hin (HI' & Hs & Hd); [|by apply wp_ret]. wp_steps.
      set (c := renv_getClaim (log w') (pod_namespace pod) n).
      assert (Inv (mkWorld (mem w') (RvGetClaim (pod_namespace pod) n c :: log w'))) as HI''
        by (apply Inv_ev; [done|done|by apply Inv_lostOK]).
      assert (log w' `suffix_of` RvGetClaim (pod_namespace pod) n c :: log w') as Hs' by (by eexists [_]).
      destruct c as [claim|e] eqn:Hc; [|split; [done|by etrans]]. split_and!; [done|by etrans|].
      intros d Hdin. unfold addAllocated in Hdin. destruct (rc_allocation claim) as [rs|] eqn:Hr.
      * cbn [fst] in Hdin. apply elem_of_union in Hdin as [Hdin|Hdin]; [|by eapply fromClaims_mono, Hd].
        apply elem_of_list_to_set, list_elem_of_fmap in Hdin as (a & -> & [Ha Hin']%list_elem_of_filter).
        exists n, claim, rs, a. split_and!; try done. apply seen_now. by apply Inv_suffix.
      * by eapply fromClaims_mono, Hd.
  - cbn beta. intros [[names ready]|e] w'; simpl; intros Hw; apply wp_ret.
    + destruct Hw as (? & ? & ?). split_and!; [done..|]. by intros ? ? [= <- <-].
    + destruct Hw. by split_and!.
Qed.

Lemma adoptPod_spec pod w :
  Inv w → pod ∈ pods → pod_nodeName pod = node → pod_deletionTimestamp pod = None → pod_phase pod = PodRunning →
  pod_annotations pod !! xpumDevicesAnnotation = None → wp (adoptPod pod states) (λ _, Inv) w.
Proof.
  intros HI Hin Hn Hd Hp Ha. unfold adoptPod. apply wp_bind. eapply wp_mono; [by apply allocatedDeviceNames_spec|].
  cbn beta. intros [[names ready]|e] w' (HI' & Hs & Hf); [|by apply wp_ret]. destruct ready; [|by apply wp_ret].
  unfold patchDeviceRecord. simpl negb. cbn iota. wp_steps. apply Inv_ev; [done| |by apply Inv_lostOK].
  pose proof HI' as (_ & _ & _ & Hsl & _). exists slices, pod, names. split_and!; try done.
  - by apply Inv_seen_pods.
  - intros d Hdn. by apply (Hf names true).
Qed.
(** ** Restarts *)

Lemma lostOK_shrink s l :
  lostOK s → (∀ d, d ∈ default ∅ (l !! node) → publishedUsable states d = true → d ∈ default ∅ (lostDevices s !! node)) →
  lostOK (set_lostDevices l s).
Proof. intros Hs Hl d Hu Hd. apply Hs; [done|]. by apply Hl. Qed.

(** [trackRebinds] remembers more devices only as long as they are unusable; what it returns was lost. *)
Lemma trackRebinds_spec held w :
  Inv w →
  wp (trackRebinds node held states)
    (λ rebound w', Inv w' ∧ log w' = log w ∧
       ∀ d, d ∈ rebound → publishedUsable states d = true ∧ d ∈ held ∧ d ∈ lostOn start node) w.
Proof.
  intros HI. pose proof (Inv_lostOK _ HI) as Hl. unfold trackRebinds. wp_steps.
  assert (∀ d, d ∈ sortStrings (filter (λ name, publishedUsable states name = true ∧ name ∈ default ∅ (lostDevices (mem w) !! node)) (elements held)) →
               publishedUsable states d = true ∧ d ∈ held ∧ d ∈ lostOn start node) as Hr.
  { intros d. rewrite elem_of_sortStrings, list_elem_of_filter, elem_of_elements. intros [[Hu Hd] Hh]. auto. }
  case_bool_decide; wp_steps; split_and!; try done. apply Inv_mem; [done|]. apply lostOK_shrink; [done|].
  intros d. rewrite lookup_insert_eq. simpl. intros [[Hn _]%elem_of_filter|Hd]%elem_of_union Hu; [|done].
  apply usable_not_unusable in Hu. congruence.
Qed.

Lemma clearRebinds_spec names w : Inv w → wp (clearRebinds node names) (λ _ w', Inv w' ∧ log w' = log w) w.
Proof.
  intros HI. unfold clearRebinds. wp_steps. split; [|done]. apply Inv_mem; [done|].
  pose proof (Inv_lostOK _ HI) as Hl. destruct (lostDevices (mem w) !! node) as [lost|] eqn:He; [|done].
  apply lostOK_shrink; [done|]. intros d Hd Hu. rewrite He. simpl. case_bool_decide.
  - rewrite lookup_delete_eq in Hd. simpl in Hd. set_solver.
  - rewrite lookup_insert_eq in Hd. simpl in Hd. set_solver.
Qed.

Lemma restartPod_spec pod reason w :
  Inv w →
  (∃ record, pod_annotations pod !! xpumDevicesAnnotation = Some record ∧
     restartDue mode states (λ d, d ∈ lostOn start node) record) →
  livePod (log start) (log w) node pod →
  wp (restartPod opts pod node reason) (λ _, Inv) w.
Proof.
  intros HI (record & Ha & Hdue) Hlive. pose proof (Inv_lostOK _ HI) as Hl. unfold restartPod. wp_steps.
  destruct (maxXpumRestartAttempts <=? _)%nat; [by wp_steps|]. wp_steps.
  assert (Inv (mkWorld (mem w) (RvNow (renv_now (log w)) :: log w))) as H1 by (by apply Inv_ev).
  destruct (match lastRestart (mem w) !! node with Some t => _ | None => _ end); [by wp_steps|].
  unfold restartingXpumPods, listXpumPods. wp_steps.
  match goal with |- context [RvListPods ?n ?k ?v ?r :: ?l] => set (h2 := RvListPods n k v r :: l) in *; set (r2 := r) in * end.
  assert (Inv (mkWorld (mem w) h2)) as H2 by (by apply (Inv_ev _ _ _ H1)).
  destruct r2 as [pods'|e] eqn:Hr; [|by wp_steps]. wp_steps.
  destruct (maxConcurrentXpumRestarts <=? _)%nat eqn:Hc; [by wp_steps|]. apply Nat.leb_gt in Hc. wp_steps.
  set (a := renv_deletePod h2 (pod_namespace pod) (pod_name pod)).
  assert (Inv (mkWorld (mem w) (RvDeletePod (pod_namespace pod) (pod_name pod) a :: h2))) as H3.
  { apply (Inv_ev _ _ _ H2); [|done]. pose proof H2 as (_ & Hpo & Hmo & Hsl & _).
    exists policies, slices, pod, record. split_and!; try done.
    - eapply livePod_mono; [|exact Hlive]. by eexists [_; _].
    - by exists pods', (renv_now (log w)), (log w). }
  destruct a as [?|e]; [|by wp_steps]. wp_steps. apply (Inv_ev _ _ _ H3); done.
Qed.
Lemma resetAttempts_spec w : Inv w → wp (resetAttempts node) (λ _, Inv) w.
Proof. intros HI. unfold resetAttempts. wp_steps. apply Inv_mem; [done|]. by apply Inv_lostOK. Qed.

Lemma refreshPod_spec pod w :
  Inv w → pod ∈ pods → pod_nodeName pod = node → pod_deletionTimestamp pod = None →
  wp (refreshPod opts pod node states mode) (λ _, Inv) w.
Proof.
  intros HI Hin Hn Hd. unfold refreshPod. case_bool_decide as Hp; [|by wp_steps]. simpl negb. cbn iota.
  destruct (pod_annotations pod !! xpumDevicesAnnotation) as [record|] eqn:Ha; [|by apply adoptPod_spec].
  cbv zeta. apply wp_bind. eapply wp_mono; [by apply trackRebinds_spec|]. cbn beta. intros rebound w' (HI' & Hl & Hr).
  assert (livePod (log start) (log w') node pod) as Hlive by (by apply Inv_seen_pods).
  apply wp_bind.
  apply (wp_mono _ (λ reason w'', Inv w'' ∧ log w'' = log w' ∧ (reason ≠ "" →
           restartDue mode states (λ d, d ∈ lostOn start node) record))).
  - case_bool_decide as Hm; simpl negb; cbn iota.
    + case_bool_decide as Hb; cbn [negb andb]; [by wp_steps|]. case_bool_decide as Hmode.
      * wp_steps. split_and!; [done..|]. intros _. right. split; [done|].
        destruct rebound as [|d l]; [done|]. exists d. apply (Hr d). left.
      * apply wp_bind. eapply wp_mono; [by apply clearRebinds_spec|]. cbn beta. intros _ w'' [? ?]. by wp_steps.
    + wp_steps. split_and!; [done..|]. intros _. left.
      destruct (missingDevices states (parseDeviceRecord record)) as [|d l] eqn:He; [done|]. exists d.
      apply elem_of_missing. rewrite He. left.
  - cbn beta. intros reason w'' (HI'' & Hl'' & Hdue). case_bool_decide as Hreason.
    + apply wp_bind. eapply wp_mono; [by apply resetAttempts_spec|]. done.
    + apply wp_bind. eapply wp_mono.
      * apply restartPod_spec; [done|exists record; split; [done|by apply Hdue]|by rewrite Hl''].
      * cbn beta. intros [o|e] w3 HI3; [|by wp_steps]. apply wp_bind.
        apply (wp_mono _ (λ _, Inv)); [|by intros _ w4 ?; wp_steps].
        destruct (_ && _); [|by wp_steps]. eapply wp_mono; [by apply clearRebinds_spec|]. by intros _ w4 [? _].
Qed.
End Loop.

Lemma restartMode_eq items :
  match head (filter (λ cp, cp_DeletionTimestamp cp = None) items) with
  | None => Ok XpumRestartDisabled
  | Some cp =>
      if negb (cps_ResourceMonitoring (cp_Spec cp)) then Ok XpumRestartDisabled
      else if negb (DRAEnable opts)
              || negb (bool_decide (cps_ResourceRegistration (cp_Spec cp) = resourceModeDRA))
      then Ok XpumRestartDisabled
      else
        let mode := xpu_RestartOnDeviceRecovery (cps_XpuManagerSpec (cp_Spec cp)) in
        if bool_decide (mode ∈ [XpumRestartOnRecoveredDevice; XpumRestartAlways; XpumRestartDisabled])
        then Ok mode else Ok XpumRestartOnRecoveredDevice
  end = Ok (modeOf items).
Proof.
  unfold modeOf. destruct (head _) as [cp|]; [|done]. destruct (cps_ResourceMonitoring _); [|done].
  destruct (DRAEnable opts); [|done]. case_bool_decide; [|done]. simpl. by case_bool_decide.
Qed.

Lemma loggedIn_step start node (w : RW) e s :
  loggedIn (memoryEv start node) start w → memoryEv start node (log w) e →
  loggedIn (memoryEv start node) start (mkWorld s (e :: log w)).
Proof. intros Hw He. etrans; [exact Hw|]. by apply loggedIn_one. Qed.

Lemma RefreshReconcile_logged node w :
  wp (RefreshReconcile opts node) (λ _ w', loggedIn (memoryEv w node) w w') w.
Proof.
  unfold RefreshReconcile, restartMode. wp_steps.
  set (h1 := RvListPolicies (renv_listPolicies (log w)) :: log w).
  assert (loggedIn (memoryEv w node) w (mkWorld (mem w) h1)) as H1 by (by apply loggedIn_one).
  destruct (renv_listPolicies (log w)) as [items|e] eqn:Hp; [|by wp_steps]. rewrite restartMode_eq.
  case_bool_decide as Hmode; [by unfold forgetNode; wp_steps|].
  unfold deviceStates. wp_steps. set (h2 := RvListSlicesOnNode node (renv_listSlicesOnNode h1 node) :: h1).
  assert (loggedIn (memoryEv w node) w (mkWorld (mem w) h2)) as H2 by (by apply (loggedIn_step _ _ _ _ _ H1)).
  destruct (renv_listSlicesOnNode h1 node) as [slices|e] eqn:Hs; [|by wp_steps].
  case_bool_decide; [by unfold forgetNode; wp_steps|].
  unfold xpumPodsOnNode, listXpumPods. wp_steps.
  set (h3 := RvListPods (Namespace opts) xpuLabel xpuValue (renv_listPods h2 (Namespace opts) xpuLabel xpuValue) :: h2).
  assert (loggedIn (memoryEv w node) w (mkWorld (mem w) h3)) as H3 by (by apply (loggedIn_step _ _ _ _ _ H2)).
  destruct (renv_listPods h2 _ _ _) as [pods|e] eqn:Hl; [|by wp_steps].
  apply wp_bind. apply (wp_mono _ (λ _ w', loopInv w node items slices pods w')).
  - eapply wp_mono; [apply (wp_foldUntil_inv _ (λ _, loopInv w node items slices pods) (λ _, loopInv w node items slices pods))|by intros []].
    + split_and!; try done.
      all: exists [RvListPods (Namespace opts) xpuLabel xpuValue (Ok pods); RvListSlicesOnNode node (Ok slices); RvListPolicies (Ok items)].
      all: split; [done|set_solver].
    + intros pod b w' [[Hn Hd] Hin]%list_elem_of_filter HI. apply wp_bind. eapply wp_mono; [by eapply refreshPod_spec|].
      cbn beta. intros [again|e] w'' HI'; by wp_steps.
  - intros o w' (Hg & _). by wp_steps.
Qed.
End Discipline.

(** ** What the controller remembers *)

Section Memory.
Context `{!RefreshEnv} (opts : ControllerOpts).
Abbreviation RW := (World REv refreshState).

(** Steps after which only devices that were remembered before, or satisfy [N], are remembered. *)
Definition lostOnly (N : string → string → Prop) (w w' : RW) : Prop :=
  log w `suffix_of` log w' ∧ ∀ n d, d ∈ lostOn w' n → d ∈ lostOn w n ∨ N n d.

#[local] Instance lostOnly_preorder N : PreOrder (lostOnly N).
Proof.
  split; [intros w; split; [done|by left]|]. intros w1 w2 w3 [H1 H2] [H3 H4]. split; [by etrans|].
  intros n d Hd. destruct (H4 n d Hd); auto.
Qed.

Lemma keeps_exchange_lost N {A} (f : list REv → A) mk : keeps (lostOnly N) (exchange f mk).
Proof. intros w. split; [by eexists [_]|by left]. Qed.

Lemma keeps_modMem_lost N f :
  (∀ s n d, d ∈ default ∅ (lostDevices (f s) !! n) → d ∈ default ∅ (lostDevices s !! n)) → keeps (lostOnly N) (modMem f).
Proof. intros Hf w. split; [done|]. intros n d Hd. left. by apply Hf. Qed.

#[local] Hint Extern 2 (keeps (lostOnly _) (exchange _ _)) => apply keeps_exchange_lost : keeps.
#[local] Hint Extern 2 (keeps (lostOnly _) (modMem _)) => apply keeps_modMem_lost; done : keeps.
#[local] Hint Extern 3 (keeps (lostOnly _) _) => apply keeps_exchange_lost : keeps.

Lemma elem_of_lost_delete (m : gmap string (gset string)) node n d :
  d ∈ default ∅ (delete node m !! n) → d ∈ default ∅ (m !! n).
Proof.
  destruct (decide (n = node)) as [->|Hn]; [rewrite lookup_delete_eq; set_solver|by rewrite lookup_delete_ne].
Qed.

Lemma forgetNode_lost N node : keeps (lostOnly N) (forgetNode node).
Proof. apply keeps_modMem_lost. intros s n d. apply elem_of_lost_delete. Qed.

Lemma clearRebinds_lost N node names : keeps (lostOnly N) (clearRebinds node names).
Proof.
  apply keeps_modMem_lost. intros s n d. destruct (lostDevices s !! node) as [lost|] eqn:He; [|done]. cbn.
  case_bool_decide; [apply elem_of_lost_delete|]. destruct (decide (n = node)) as [->|Hn].
  - rewrite lookup_insert_eq, He. simpl. set_solver.
  - by rewrite lookup_insert_ne.
Qed.

(** [trackRebinds] adds the devices of the record that are published and unusable. *)
Lemma trackRebinds_lost N node held states :
  (∀ d, d ∈ held → publishedUnusable states d = true → N node d) → keeps (lostOnly N) (trackRebinds node held states).
Proof.
  intros HN w. change (wp (trackRebinds node held states) (λ _ w', lostOnly N w w') w). unfold trackRebinds. wp_steps.
  case_bool_decide; wp_steps; (split; [done|]); [by left|]. intros n d. unfold lostOn. cbn.
  destruct (decide (n = node)) as [->|Hn]; [|rewrite lookup_insert_ne by done; by left].
  rewrite lookup_insert_eq. simpl. intros [[Hu Hh]%elem_of_filter|Hd]%elem_of_union; [right; by apply HN|by left].
Qed.

#[local] Hint Resolve forgetNode_lost clearRebinds_lost : keeps.

Lemma refreshPod_lost N pod node states mode :
  (∀ record d, pod_annotations pod !! xpumDevicesAnnotation = Some record → d ∈ parseDeviceRecord record →
     publishedUnusable states d = true → N node d) →
  keeps (lostOnly N) (refreshPod opts pod node states mode).
Proof.
  intros HN. unfold refreshPod. destruct (negb _); [keeps_auto|].
  destruct (pod_annotations pod !! xpumDevicesAnnotation) as [record|].
  - apply keeps_bind; [apply _|apply trackRebinds_lost; intros d Hd Hu; by apply (HN record)|]. intros rebound.
    unfold restartPod, restartingXpumPods, listXpumPods, resetAttempts. keeps_auto.
  - unfold adoptPod, allocatedDeviceNames, patchDeviceRecord. keeps_auto.
Qed.

(** Every remembered device was seen unusable. *)
Definition remembers (w : RW) : Prop := ∀ n d, d ∈ lostOn w n → seenUnusable opts (log w) n d.

Lemma seenUnusable_mono h h' n d : h `suffix_of` h' → seenUnusable opts h n d → seenUnusable opts h' n d.
Proof.
  intros Hs (sl & pods & pod & rec & k & Hk & Hrest). exists sl, pods, pod, rec, k. split; [by etrans|done].
Qed.

Lemma lostOnly_remembers N w w' :
  lostOnly N w w' → (∀ n d, N n d → seenUnusable opts (log w') n d) → remembers w → remembers w'.
Proof.
  intros [Hs Hl] HN Hr n d Hd. destruct (Hl n d Hd) as [Hd'|?]; [|by apply HN].
  eapply seenUnusable_mono; [exact Hs|]. by apply Hr.
Qed.

Lemma remembers_read (w : RW) e : remembers w → remembers (mkWorld (mem w) (e :: log w)).
Proof. intros Hr n d Hd. eapply seenUnusable_mono; [by eexists [_]|]. by apply Hr. Qed.

Lemma RefreshReconcile_remembers node w : remembers w → wp (RefreshReconcile opts node) (λ _, remembers) w.
Proof.
  intros Hw. assert (∀ w1, remembers w1 → wp (forgetNode node) (λ _, remembers) w1) as Hforget.
  { intros w1 Hw1. eapply wp_mono; [apply keeps_wp, (forgetNode_lost (λ _ _, False))|]. intros u w2 Hl.
    by apply (lostOnly_remembers (λ _ _, False) w1). }
  unfold RefreshReconcile, restartMode. wp_steps. set (w1 := mkWorld (mem w) _).
  assert (remembers w1) as Hw1 by by apply remembers_read.
  destruct (renv_listPolicies (log w)) as [items|e]; [|by wp_steps]. rewrite restartMode_eq.
  case_bool_decide; [apply wp_bind; eapply wp_mono; [by apply Hforget|done]|].
  unfold deviceStates. wp_steps. match goal with |- wp _ _ ?x => set (w2 := x) end.
  assert (remembers w2) as Hw2 by by apply (remembers_read w1).
  destruct (renv_listSlicesOnNode _ node) as [slices|e]; [|by wp_steps].
  case_bool_decide; [apply wp_bind; eapply wp_mono; [by apply Hforget|done]|].
  unfold xpumPodsOnNode, listXpumPods. wp_steps. match goal with |- wp _ _ ?x => set (w3 := x) end.
  assert (remembers w3) as Hw3 by by apply (remembers_read w2).
  destruct (renv_listPods _ _ _ _) as [pods|e]; [|by wp_steps].
  apply wp_bind. apply (wp_mono _ (λ _, remembers)); [|intros o w' Hw'; by wp_steps].
  set (N := λ n d, n = node ∧ seenUnusable opts (log w3) node d).
  apply (wp_mono _ (λ _ w', lostOnly N w3 w')).
  - apply keeps_wp, keeps_foldUntil; [apply _|]. intros b pod Hpod. apply list_elem_of_filter in Hpod as [[Hn Hd] Hin].
    apply keeps_bind; [apply _| |intros q; apply keeps_ret; apply _]. apply refreshPod_lost.
    intros record d Ha Hr Hu. split; [done|]. by exists slices, pods, pod, record, (log w1).
  - intros o w' Hl. eapply lostOnly_remembers; [exact Hl| |done]. intros n d [-> Hs].
    eapply seenUnusable_mono; [apply Hl|done].
Qed.

(** ** Runs of the controller *)

Definition refresh (node : string) (w : RW) : RW := (RefreshReconcile opts node w).2.
Definition refreshes (nodes : list string) (w : RW) : RW := foldl (λ w n, refresh n w) w nodes.

(** The maps as [SetupWithManager] makes them. *)
Definition freshState : refreshState := mkRefreshState ∅ ∅ ∅.

Lemma refreshes_remember nodes w : remembers w → remembers (refreshes nodes w).
Proof.
  revert w. induction nodes as [|n nodes IH]; intros w Hw; [done|]. simpl. apply IH.
  exact (RefreshReconcile_remembers n w Hw).
Qed.

Lemma fresh_remembers h : remembers (mkWorld freshState h).
Proof. intros n d. unfold lostOn. simpl. rewrite lookup_empty. simpl. set_solver. Qed.
End Memory.

(** ** The restart budget of a node *)

Section Budget.
Context `{!RefreshEnv} (opts : ControllerOpts).
Abbreviation RW := (World REv refreshState).

Definition attemptsOn (n : string) (w : RW) : nat := default 0 (restartAttempts (mem w) !! n).
Definition lastOn (n : string) (w : RW) : option Z := lastRestart (mem w) !! n.

Definition isRestart (e : REv) : bool := match e with RvDeletePod _ _ (Ok _) => true | _ => false end.
Definition restarts (new : list REv) : nat := length (filter (λ e, isRestart e = true) new).

(** *** A node in order *)

(** The pod runs with a record that has every usable GPU, none of which (in mode Always) had been [lost]. *)
Definition podInOrder (mode : string) (states : gmap string deviceState) (lost : gset string) (pod : Pod) : bool :=
  bool_decide (pod_phase pod = PodRunning) &&
  match pod_annotations pod !! xpumDevicesAnnotation with
  | None => false
  | Some record =>
      bool_decide (map_Forall (λ d s, usable s = true →
        d ∈ parseDeviceRecord record ∧ (mode = XpumRestartAlways → d ∉ lost)) states)
  end.

(** What the exchanges of a pass for [node], the last one first, say about it: nothing is to be done on it
    (restarts are disabled, or it has no GPUs), or its xpum pod is in order. *)
Definition nodeInOrder (node : string) (lost : gset string) (new : list REv) : bool :=
  match reverse new with
  | RvListPolicies (Ok policies) :: rest =>
      bool_decide (modeOf opts policies = XpumRestartDisabled) ||
      match rest with
      | RvListSlicesOnNode _ (Ok slices) :: rest =>
          bool_decide (statesOf slices = ∅) ||
          match rest with
          | RvListPods _ _ _ (Ok pods) :: _ =>
              match filter (λ pod, pod_nodeName pod = node ∧ pod_deletionTimestamp pod = None) pods with
              | [pod] => podInOrder (modeOf opts policies) (statesOf slices) lost pod
              | _ => false
              end
          | _ => false
          end
      | _ => false
      end
  | _ => false
  end.

(** *** What a pass does *)

(** The guard of [node] after a pass.  A node in order gets its budget back.  Otherwise the pass deletes no pod
    and leaves the guard alone; or it deletes one, within the budget and after the cooldown, counts it and stores
    the time it reads next. *)
Inductive guardMove (inOrder : bool) (node : string) (w w' : RW) (new : list REv) : Prop :=
| GuardKept : inOrder = false → restarts new = 0 → attemptsOn node w' = attemptsOn node w →
    lastOn node w' = lastOn node w → guardMove inOrder node w w' new
| GuardReset : inOrder = true → restarts new = 0 → attemptsOn node w' = 0 →
    lastOn node w' = lastOn node w ∨ lastOn node w' = None → guardMove inOrder node w w' new
| GuardSpent ns p pods now now' pre : inOrder = false →
    new = RvNow now' :: RvDeletePod ns p (Ok tt) :: RvListPods (Namespace opts) xpuLabel xpuValue (Ok pods) :: RvNow now :: pre →
    restarts pre = 0 → attemptsOn node w < maxXpumRestartAttempts → attemptsOn node w' = S (attemptsOn node w) →
    (∀ t, lastOn node w = Some t → (xpumRestartCooldown ≤ timeSince now t)%Z) → lastOn node w' = Some now' →
    guardMove inOrder node w w' new.

Definition effect (inOrder : bool) (node : string) (w w' : RW) : Prop :=
  (∀ n, n ≠ node → attemptsOn n w' = attemptsOn n w ∧ lastOn n w' = lastOn n w) ∧
  ∃ new, log w' = new ++ log w ∧ guardMove inOrder node w w' new.

(** The guards of other nodes stay; that of [node] moves as what the pass has read calls for. *)
Definition passEffect (node : string) (w w' : RW) : Prop :=
  (∀ n, n ≠ node → attemptsOn n w' = attemptsOn n w ∧ lastOn n w' = lastOn n w) ∧
  ∃ new, log w' = new ++ log w ∧ guardMove (nodeInOrder node (lostOn w node) new) node w w' new.

(** Steps that leave the guards alone and delete nothing. *)
Definition quiet (w w' : RW) : Prop :=
  lastRestart (mem w') = lastRestart (mem w) ∧ restartAttempts (mem w') = restartAttempts (mem w) ∧
  logged (λ e, isRestart e = false) w w'.

#[local] Instance quiet_preorder : PreOrder quiet.
Proof.
  split; [intros w; split_and!; done|]. intros w1 w2 w3 (?&?&?) (?&?&?). split_and!; [congruence..|by etrans].
Qed.

Lemma restarts_app l k : restarts (l ++ k) = restarts l + restarts k.
Proof. unfold restarts. by rewrite filter_app, length_app. Qed.

Lemma restarts_none l : Forall (λ e, isRestart e = false) l → restarts l = 0.
Proof.
  induction 1 as [|e l He _ IH]; [done|]. unfold restarts in *. rewrite filter_cons_False; [done|]. by rewrite He.
Qed.

(** Forgetting lost devices at the end. *)
Lemma silent_effect_r b node w w1 w2 :
  effect b node w w1 → log w2 = log w1 → lastRestart (mem w2) = lastRestart (mem w1) →
  restartAttempts (mem w2) = restartAttempts (mem w1) → effect b node w w2.
Proof.
  intros (Ho & new & Hnew & Hm) Hlog Hl Ha. unfold effect, attemptsOn, lastOn in *. rewrite Hl, Ha, Hlog.
  split; [done|]. exists new. split; [done|].
  destruct Hm as [? ? ? ?|? ? ? ?|ns p pods now now' pre ? ? ? ? ? ? ?];
    [apply GuardKept|apply GuardReset|eapply (GuardSpent _ _ _ _ _ ns p pods now now' pre)];
    unfold attemptsOn, lastOn in *; rewrite ?Hl, ?Ha; done.
Qed.

Lemma quiet_effect_l b node w w1 w2 : quiet w w1 → effect b node w1 w2 → effect b node w w2.
Proof.
  intros (Hl & Ha & n1 & Hn1 & HF) (Ho & new & Hnew & Hm). unfold effect, attemptsOn, lastOn in *. rewrite Hl, Ha in Ho.
  split; [done|]. exists (new ++ n1). split; [by rewrite Hnew, Hn1, app_assoc|].
  pose proof (restarts_none _ HF) as Hz.
  destruct Hm as [? ? ? ?|? ? ? ?|ns p pods now now' pre ? -> ? ? ? ? ?];
    [apply GuardKept|apply GuardReset|apply (GuardSpent _ _ _ _ _ ns p pods now now' (pre ++ n1))];
    unfold attemptsOn, lastOn in *; rewrite <- ?Hl, <- ?Ha, ?restarts_app, ?Hz, ?Nat.add_0_r; done.
Qed.

Lemma quiet_effect node w w' : quiet w w' → effect false node w w'.
Proof.
  intros (Hl & Ha & new & Hnew & HF). unfold effect, attemptsOn, lastOn. rewrite Hl, Ha. split; [done|]. exists new. split; [done|].
  apply GuardKept; unfold attemptsOn, lastOn; rewrite ?Hl, ?Ha; try done. by apply restarts_none.
Qed.
Lemma keeps_exchange_quiet {A} (f : list REv → A) mk : (∀ a, isRestart (mk a) = false) → keeps quiet (exchange f mk).
Proof. intros Hmk w. split_and!; [done..|]. eexists [_]. split; [done|]. by apply Forall_singleton. Qed.

Lemma keeps_modMem_quiet f :
  (∀ s, lastRestart (f s) = lastRestart s ∧ restartAttempts (f s) = restartAttempts s) → keeps quiet (modMem f).
Proof. intros Hf w. destruct (Hf (mem w)). split_and!; [done..|]. by exists []. Qed.

#[local] Hint Extern 2 (keeps quiet (exchange _ _)) => apply keeps_exchange_quiet; intros ?; done : keeps.
#[local] Hint Extern 2 (keeps quiet _) => apply keeps_exchange_quiet; intros ?; done : keeps.

Lemma adoptPod_quiet pod states : keeps quiet (adoptPod pod states).
Proof. unfold adoptPod, allocatedDeviceNames, patchDeviceRecord. keeps_auto. Qed.

(** What [trackRebinds] returns: the devices of the record that had been lost and are usable again. *)
Lemma trackRebinds_value node held states w :
  wp (trackRebinds node held states) (λ rebound w', quiet w w' ∧
    ∀ d, d ∈ rebound ↔ publishedUsable states d = true ∧ d ∈ held ∧ d ∈ lostOn w node) w.
Proof.
  unfold trackRebinds. wp_steps.
  assert (∀ d, d ∈ sortStrings (filter (λ name, publishedUsable states name = true ∧ name ∈ default ∅ (lostDevices (mem w) !! node)) (elements held)) ↔
               publishedUsable states d = true ∧ d ∈ held ∧ d ∈ lostOn w node) as Hr.
  { intros d. rewrite elem_of_sortStrings, list_elem_of_filter, elem_of_elements. unfold lostOn. tauto. }
  case_bool_decide; wp_steps; (split; [|done]); [reflexivity|]. split_and!; [done..|]. by exists [].
Qed.

Lemma clearRebinds_silent node names (w : RW) :
  wp (clearRebinds node names) (λ _ w', log w' = log w ∧ lastRestart (mem w') = lastRestart (mem w) ∧
    restartAttempts (mem w') = restartAttempts (mem w)) w.
Proof. unfold clearRebinds. wp_steps. by destruct (lostDevices (mem w) !! node). Qed.

Lemma clearRebinds_quiet node names : keeps quiet (clearRebinds node names).
Proof. unfold clearRebinds. apply keeps_modMem_quiet. intros s. by destruct (lostDevices s !! node). Qed.

#[local] Hint Resolve adoptPod_quiet clearRebinds_quiet : keeps.

(** Only the guard of [node] is written. *)
Lemma guard_update b node w s new :
  (∀ n, n ≠ node → lastRestart s !! n = lastRestart (mem w) !! n ∧ restartAttempts s !! n = restartAttempts (mem w) !! n) →
  guardMove b node w (mkWorld s (new ++ log w)) new → effect b node w (mkWorld s (new ++ log w)).
Proof.
  intros Ho Hm. split; [|by exists new]. intros n Hn. destruct (Ho n Hn) as [Hl Ha]. unfold attemptsOn, lastOn. simpl.
  by rewrite Hl, Ha.
Qed.

Lemma forgetNode_effect node w : wp (forgetNode node) (λ _, effect true node w) w.
Proof.
  unfold forgetNode. wp_steps. apply (guard_update true node w _ []).
  - intros n Hn. simpl. by rewrite !lookup_delete_ne.
  - apply GuardReset; unfold attemptsOn, lastOn; simpl; rewrite ?lookup_delete_eq; auto.
Qed.

Lemma resetAttempts_effect node w : wp (resetAttempts node) (λ _, effect true node w) w.
Proof.
  unfold resetAttempts. wp_steps. apply (guard_update true node w _ []).
  - intros n Hn. simpl. by rewrite !lookup_delete_ne.
  - apply GuardReset; unfold attemptsOn, lastOn; simpl; rewrite ?lookup_delete_eq; auto.
Qed.

Lemma restartPod_effect pod node reason w :
  wp (restartPod opts pod node reason) (λ _, effect false node w) w.
Proof.
  unfold restartPod. wp_steps. destruct (Nat.leb_spec maxXpumRestartAttempts (attemptsOn node w)) as [Hge|Hlt]; unfold attemptsOn in *.
  { rewrite (proj2 (Nat.leb_le _ _) Hge). wp_steps. by apply quiet_effect. }
  rewrite (proj2 (Nat.leb_gt _ _) Hlt). wp_steps. set (now := renv_now (log w)).
  assert (∀ l, Forall (λ e, isRestart e = false) l → effect false node w (mkWorld (mem w) (l ++ log w))) as Hq.
  { intros l HF. apply quiet_effect. split_and!; [done..|]. by exists l. }
  destruct (match lastRestart (mem w) !! node with Some t => _ | None => _ end) eqn:Hcool.
  { wp_steps. apply (Hq [_]). by repeat constructor. }
  assert (∀ t, lastOn node w = Some t → (xpumRestartCooldown ≤ timeSince now t)%Z) as Hcd.
  { unfold lastOn. intros t Ht. rewrite Ht in Hcool. by apply Z.ltb_ge in Hcool. }
  unfold restartingXpumPods, listXpumPods. wp_steps. destruct (renv_listPods _ _ _ _) as [pods|e].
  2: { wp_steps. apply (Hq [_; _]). by repeat constructor. }
  wp_steps. destruct (maxConcurrentXpumRestarts <=? _)%nat; [wp_steps; apply (Hq [_; _]); by repeat constructor|].
  wp_steps. destruct (renv_deletePod _ _ _) as [[]|e].
  2: { wp_steps. apply (Hq [_; _; _]). by repeat constructor. }
  wp_steps.
  match goal with |- effect _ _ _ {| mem := ?s; log := ?a :: ?b :: ?c :: ?d :: log w |} =>
    apply (guard_update false node w s [a; b; c; d]) end.
  - intros n Hn. simpl. by rewrite !lookup_insert_ne.
  - eapply (GuardSpent _ _ _ _ _ _ _ _ now); [done|reflexivity|done|done| |done|].
    + unfold attemptsOn. simpl. by rewrite lookup_insert_eq.
    + unfold lastOn. simpl. by rewrite lookup_insert_eq.
Qed.

(** A running pod with a record is in order exactly if there is no reason to restart it. *)
Lemma podInOrder_iff mode states lost pod record (rebound : list string) :
  pod_phase pod = PodRunning → pod_annotations pod !! xpumDevicesAnnotation = Some record →
  (∀ d, d ∈ rebound ↔ publishedUsable states d = true ∧ d ∈ parseDeviceRecord record ∧ d ∈ lost) →
  podInOrder mode states lost pod = true ↔
  missingDevices states (parseDeviceRecord record) = [] ∧ (mode = XpumRestartAlways → rebound = []).
Proof.
  intros Hp Ha Hr. unfold podInOrder. rewrite (bool_decide_true _ Hp), Ha. cbn [andb]. rewrite bool_decide_eq_true.
  assert (∀ d, publishedUsable states d = true ↔ ∃ s, states !! d = Some s ∧ usable s = true) as Hus.
  { intros d. unfold publishedUsable. destruct (states !! d); naive_solver. }
  split.
  - intros HF. split; [|intros Hm]; apply elem_of_nil_inv; intros d Hd.
    + apply elem_of_missing in Hd as [(s & Hs & Hu)%Hus Hn]. by destruct (HF d s Hs Hu).
    + apply Hr in Hd as ((s & Hs & Hu)%Hus & _ & Hlost). destruct (HF d s Hs Hu) as [_ Hno]. by apply Hno.
  - intros [Hmiss Hreb] d s Hs Hu. assert (publishedUsable states d = true) as Hpu by (apply Hus; eauto).
    destruct (decide (d ∈ parseDeviceRecord record)) as [Hd|Hd].
    + split; [done|]. intros Hm Hlost. specialize (Hreb Hm). assert (d ∈ rebound) as Hin by by apply Hr.
      rewrite Hreb in Hin. by apply not_elem_of_nil in Hin.
    + exfalso. assert (d ∈ missingDevices states (parseDeviceRecord record)) as Hin by by apply elem_of_missing.
      rewrite Hmiss in Hin. by apply not_elem_of_nil in Hin.
Qed.

Lemma refreshPod_effect pod node states mode w :
  wp (refreshPod opts pod node states mode) (λ _, effect (podInOrder mode states (lostOn w node) pod) node w) w.
Proof.
  unfold refreshPod. destruct (decide (pod_phase pod = PodRunning)) as [Hp|Hp].
  2: { unfold podInOrder. rewrite !(bool_decide_false _ Hp). cbn [negb andb]. wp_steps. by apply quiet_effect. }
  rewrite (bool_decide_true _ Hp). cbn [negb].
  destruct (pod_annotations pod !! xpumDevicesAnnotation) as [record|] eqn:Ha.
  2: { unfold podInOrder. rewrite (bool_decide_true _ Hp), Ha. apply quiet_effect, adoptPod_quiet. }
  cbv zeta. apply wp_bind. eapply wp_mono; [apply trackRebinds_value|]. cbn beta. intros rebound w1 [Hq1 Hr].
  pose proof (podInOrder_iff mode states (lostOn w node) pod record rebound Hp Ha Hr) as Hiff.
  set (b := podInOrder mode states (lostOn w node) pod) in *.
  apply wp_bind. apply (wp_mono _ (λ reason w2, quiet w w2 ∧
    (reason = "" ↔ missingDevices states (parseDeviceRecord record) = [] ∧ (mode = XpumRestartAlways → rebound = [])))).
  { case_bool_decide as Hm; cbn [negb]; [|wp_steps; split; [done|]; split; [done|by intros [? _]]].
    case_bool_decide as Hb; cbn [negb andb]; [wp_steps; by split|].
    case_bool_decide as Hmode; cbn [negb andb]; [wp_steps; split; [done|]; split; [done|intros [_ Hc]; by destruct Hb; apply Hc]|].
    apply wp_bind. eapply wp_mono; [apply keeps_wp, clearRebinds_quiet|]. intros u w2 Hc2. wp_steps. split; [by etrans|]. by split. }
  intros reason w2 [H2 Hreason]. rewrite <- Hiff in Hreason. apply (wp_mono _ (λ _ w', effect b node w2 w')); [|intros ? w' ?; by eapply quiet_effect_l].
  case_bool_decide as Hempty.
  { apply wp_bind. rewrite (proj1 Hreason Hempty). eapply wp_mono; [apply resetAttempts_effect|]. done. }
  assert (b = false) as -> by (destruct b; [by destruct Hempty; apply Hreason|done]).
  apply wp_bind. eapply wp_mono; [apply restartPod_effect|]. cbn beta. intros [o|e] w3 Hw3; [|by wp_steps].
  apply wp_bind. destruct (_ && _); [|by wp_steps]. eapply wp_mono; [apply clearRebinds_silent|].
  cbn beta. intros _ w4 (? & ? & ?). wp_steps. by eapply silent_effect_r.
Qed.

(** The DaemonSet keeps at most one xpum pod that is not terminating on a node. *)
Class OnePodPerNode : Prop := one_pod : ∀ h pods node,
  renv_listPods h (Namespace opts) xpuLabel xpuValue = Ok pods →
  length (filter (λ pod, pod_nodeName pod = node ∧ pod_deletionTimestamp pod = None) pods) ≤ 1.

(** From the effect after the reads of the pass to that of the pass. *)
Lemma effect_pass b node (w w' : RW) reads :
  Forall (λ e, isRestart e = false) reads → effect b node (mkWorld (mem w) (reads ++ log w)) w' →
  (∀ extra, nodeInOrder node (lostOn w node) (extra ++ reads) = b) → passEffect node w w'.
Proof.
  intros HF (Ho & extra & Hx & Hm) Hb. split; [done|]. exists (extra ++ reads). split; [rewrite Hx; cbn [log]; by rewrite app_assoc|].
  rewrite Hb. pose proof (restarts_none _ HF) as Hz.
  destruct Hm as [? ? ? ?|? ? ? ?|ns p pods now now' pre ? -> ? ? ? ? ?];
    [apply GuardKept|apply GuardReset|apply (GuardSpent _ _ _ _ _ ns p pods now now' (pre ++ reads))];
    rewrite ?restarts_app, ?Hz, ?Nat.add_0_r; done.
Qed.

Lemma RefreshReconcile_effect `{!OnePodPerNode} node w :
  wp (RefreshReconcile opts node) (λ _, passEffect node w) w.
Proof.
  assert (∀ reads, Forall (λ e, isRestart e = false) reads → nodeInOrder node (lostOn w node) reads = false →
    passEffect node w (mkWorld (mem w) (reads ++ log w))) as Hread.
  { intros reads HF Hb. split; [done|]. exists reads. split; [done|]. rewrite Hb. apply GuardKept; try done. by apply restarts_none. }
  unfold RefreshReconcile, restartMode. wp_steps.
  destruct (renv_listPolicies (log w)) as [items|e]; [|wp_steps; apply (Hread [_]); [by repeat constructor|done]].
  rewrite restartMode_eq. case_bool_decide as Hmode.
  { apply wp_bind. eapply wp_mono; [apply forgetNode_effect|]. intros u w' Heff. wp_steps.
    apply (effect_pass true node w w' [RvListPolicies (Ok items)]); [by repeat constructor|exact Heff|]. intros extra. unfold nodeInOrder.
    rewrite reverse_app. simpl. by rewrite bool_decide_true. }
  unfold deviceStates. wp_steps. destruct (renv_listSlicesOnNode _ node) as [slices|e].
  2:{ wp_steps. apply (Hread [_; _]); [by repeat constructor|]. unfold nodeInOrder. simpl. by rewrite bool_decide_false. }
  case_bool_decide as Hst.
  { apply wp_bind. eapply wp_mono; [apply forgetNode_effect|]. intros u w' Heff. wp_steps.
    apply (effect_pass true node w w' [RvListSlicesOnNode node (Ok slices); RvListPolicies (Ok items)]); [by repeat constructor|exact Heff|]. intros extra. unfold nodeInOrder.
    rewrite reverse_app. simpl. by rewrite bool_decide_false, bool_decide_true. }
  unfold xpumPodsOnNode, listXpumPods. wp_steps. destruct (renv_listPods _ _ _ _) as [pods|e] eqn:Hl.
  2:{ wp_steps. apply (Hread [_; _; _]); [by repeat constructor|]. unfold nodeInOrder. simpl. by rewrite !bool_decide_false. }
  pose proof (one_pod _ _ node Hl) as Hone. destruct (filter _ pods) as [|pod [|]] eqn:Hf; [| |simpl in Hone; lia].
  { wp_steps. apply (Hread [_; _; _]); [by repeat constructor|]. unfold nodeInOrder. simpl. by rewrite !bool_decide_false, Hf. }
  apply wp_bind. simpl. apply wp_bind, wp_bind. eapply wp_mono; [apply refreshPod_effect|]. cbn beta. intros q w' Heff.
  assert (passEffect node w w') as Hpass.
  { apply (effect_pass _ node w w' [RvListPods (Namespace opts) xpuLabel xpuValue (Ok pods); RvListSlicesOnNode node (Ok slices);
      RvListPolicies (Ok items)] ltac:(by repeat constructor) Heff). intros extra. unfold nodeInOrder.
    rewrite reverse_app. simpl. by rewrite !bool_decide_false, Hf by done. }
  destruct q as [again|e]; by wp_steps.
Qed.

(** *** Runs *)

(** The exchanges of the pass for [m]. *)
Definition passLog (m : string) (w : RW) : list REv :=
  take (length (log (refresh opts m w)) - length (log w)) (log (refresh opts m w)).

(** Over the passes for [nodes]: the pods deleted in passes for [n], and the passes for [n] that found it in
    order. *)
Fixpoint restartsFor (n : string) (nodes : list string) (w : RW) : nat :=
  match nodes with
  | [] => 0
  | m :: nodes' =>
      (if bool_decide (m = n) then restarts (passLog m w) else 0) + restartsFor n nodes' (refresh opts m w)
  end.
Fixpoint inOrderFor (n : string) (nodes : list string) (w : RW) : nat :=
  match nodes with
  | [] => 0
  | m :: nodes' =>
      (if bool_decide (m = n) && nodeInOrder n (lostOn w n) (passLog m w) then 1 else 0)
      + inOrderFor n nodes' (refresh opts m w)
  end.

Lemma guardMove_bound b node w w' new :
  guardMove b node w w' new → attemptsOn node w ≤ maxXpumRestartAttempts →
  attemptsOn node w' ≤ maxXpumRestartAttempts ∧
  attemptsOn node w + restarts new ≤ attemptsOn node w' + (if b then maxXpumRestartAttempts else 0).
Proof.
  intros [-> ? ? ? | -> ? ? ?|ns p pods now now' pre -> -> Hpre ? ? ? ?] Hle; unfold maxXpumRestartAttempts in *; try lia.
  change (restarts (RvNow now' :: _ :: _ :: RvNow now :: pre)) with (S (restarts pre)). lia.
Qed.

Lemma run_bound `{!OnePodPerNode} n nodes w :
  attemptsOn n w ≤ maxXpumRestartAttempts →
  attemptsOn n (refreshes opts nodes w) ≤ maxXpumRestartAttempts ∧
  attemptsOn n w + restartsFor n nodes w
    ≤ attemptsOn n (refreshes opts nodes w) + maxXpumRestartAttempts * inOrderFor n nodes w.
Proof.
  revert w. induction nodes as [|m nodes IH]; intros w Hle; simpl; [lia|].
  destruct (RefreshReconcile_effect m w) as (Ho & new & Hnew & Hm). fold (refresh opts m w) in *.
  assert (passLog m w = new) as ->.
  { unfold passLog. rewrite Hnew, length_app. rewrite take_app_length' by lia. done. }
  case_bool_decide as Hmn; [subst m|].
  - apply guardMove_bound in Hm as [Hle' Hb]; [|done]. destruct (IH _ Hle') as [H1 H2]. split; [done|].
    unfold maxXpumRestartAttempts in *. simpl. unfold refreshes in *. destruct (nodeInOrder _ _ _); lia.
  - destruct (Ho n) as [Ha _]; [done|]. rewrite <- Ha in Hle. destruct (IH _ Hle) as [H1 H2]. simpl. unfold refreshes, maxXpumRestartAttempts in *.
    rewrite <- Ha. lia.
Qed.
End Budget.

Section Claims.
Context `{!RefreshEnv} (opts : ControllerOpts).

(** Device names are DNS labels: not empty, and without a comma. *)
Definition plainNames (l : list string) : Prop := Forall (λ n, n ≠ "" ∧ ","%char ∉ s2l n) l.

(** The record on a pod is faithful. The devices read back from it are exactly those adoption wrote (the
    devices of the pod's claim that the slices did not call unusable), in whatever order they were collected;
    and a later pass that sees the same devices finds the pod in need of a restart exactly if a usable device
    of the node is not in the pod's claim, that is, the pod was never given it. *)
Lemma record_round_trip states (allocated : gset string) names :
  plainNames (elements allocated) → names ≡ₚ heldOf states allocated →
  parseDeviceRecord (formatDeviceRecord names)
    = filter (λ d, publishedUnusable states d = false) allocated ∧
  formatDeviceRecord names = formatDeviceRecord (heldOf states allocated) ∧
  (missingDevices states (parseDeviceRecord (formatDeviceRecord names)) ≠ []
     ↔ ∃ d, publishedUsable states d = true ∧ d ∉ allocated).
Proof.
  intros Hp Hperm.
  assert (parseDeviceRecord (formatDeviceRecord names) = filter (λ d, publishedUnusable states d = false) allocated) as He.
  { rewrite parse_format.
    - apply set_eq. intros d. rewrite elem_of_list_to_set, Hperm. unfold heldOf.
      by rewrite list_elem_of_filter, elem_of_filter, elem_of_elements.
    - rewrite Hperm. unfold heldOf. unfold plainNames in Hp. rewrite Forall_forall in Hp |- *.
      intros d [_ Hd]%list_elem_of_filter. by apply Hp. }
  split; [done|]. split.
  - unfold formatDeviceRecord. f_equal. by apply sortStrings_unique.
  - rewrite He. split.
    + intros Hne. destruct (missingDevices _ _) as [|d l] eqn:Hm; [done|].
      assert (d ∈ missingDevices states (filter (λ d, publishedUnusable states d = false) allocated)) as Hd
        by (rewrite Hm; left).
      apply elem_of_missing in Hd as [Hu Hn]. exists d. split; [done|]. intros Ha. apply Hn, elem_of_filter.
      split; [by apply usable_not_unusable|done].
    + intros (d & Hu & Hn) Hnil. assert (d ∈ missingDevices states (filter (λ d, publishedUnusable states d = false) allocated)) as Hd.
      { apply elem_of_missing. split; [done|]. by intros [_ ?]%elem_of_filter. }
      rewrite Hnil in Hd. by apply not_elem_of_nil in Hd.
Qed.

(** C32: a pass restarts an xpum pod only for cause, in any run of the controller since it was set up. Every pod
    it deletes was listed in that pass as a running xpum pod of the node, a live ClusterPolicy asks for monitoring
    over DRA and does not disable restarts, and the pod's record lacks a GPU the node's slices publish as usable,
    or (mode Always) holds one that is usable again after an earlier pass saw it published as unusable, while a
    pod of the node had it in its record (a GPU that merely vanished from the slices does not count); and fewer
    than three xpum pods of the cluster were down right before. The only other write is the record of a pod that
    has none, made of devices its claims were seen to allocate. *)
Theorem restart_for_cause nodes node w0 :
  mem w0 = freshState →
  let w := refreshes opts nodes w0 in
  wp (RefreshReconcile opts node)
    (λ _ w', ∀ h e, made w w' h e → refreshEv opts (log w) (seenUnusable opts (log w) node) node h e) w.
Proof.
  intros Hfresh w. assert (remembers opts w) as Hrem.
  { apply refreshes_remember. destruct w0 as [m h]. simpl in Hfresh. subst m. apply fresh_remembers. }
  eapply wp_mono; [apply RefreshReconcile_logged|]. cbn beta. intros _ w' Hlog h e Hm.
  eapply refreshEv_lost; [|exact (loggedIn_made _ _ _ _ _ Hlog Hm)]. intros d. apply Hrem.
Qed.

End Claims.

(** ** A worked example

    Node n1 with GPUs g0 and g1; the xpum pod was adopted while g1 was being recovered. *)

Module RefreshDemo.
Definition opts : ControllerOpts := mkControllerOpts "demo" "gpu-operator" "" (15 * Second) true false false "" "".

Definition policy : ClusterPolicy :=
  mkClusterPolicy "cp" None []
    (mkClusterPolicySpec resourceModeDRA true false false false None None
       (mkDynamicResourceAllocationSpec "" 0 false false None) (mkDevicePluginSpec "" "" [] [] "" 0 None)
       (mkXpuManagerSpec "" 0 "" "" None XpumRestartOnRecoveredDevice false false None)
       None ∅ [] 0 None (mkCDISpec "" ""))
    (mkClusterPolicyStatus "" "" "" "" []).

Definition gpu (name : string) (taints : list string) : Device :=
  mkDevice name {[ deviceAttrDriver := Some "XE" ]} taints.
Definition slice : ResourceSlice := mkResourceSlice "s" GPUDeviceClass (Some "n1") "n1" [gpu "g0" []; gpu "g1" []].

Definition xpumPod (record : labels) : Pod :=
  mkPod "gpu-operator" "xpumd-1" "u" "n1" {[ xpuLabel := xpuValue ]} record ["DaemonSet"] PodRunning None [] [] [Some "c"].

(** The pod keeps missing g1: every replacement comes without it. *)
Definition env : RefreshEnv := {|
  renv_now h := (Z.of_nat (length h) * 60 * Second)%Z;
  renv_listPolicies _ := Ok [policy];
  renv_listSlicesOnNode _ _ := Ok [slice];
  renv_listPods _ _ _ _ := Ok [xpumPod {[ xpumDevicesAnnotation := "g0" ]}];
  renv_getClaim _ _ _ := Err (mkErr NotFound "gone");
  renv_patchAnnotation _ _ _ _ _ := Ok tt;
  renv_deletePod _ _ _ := Ok tt;
|}.

#[local] Instance env_onePod : @OnePodPerNode env opts.
Proof.
  intros h pods node Hl. injection Hl as <-. rewrite filter_cons. destruct (decide _); simpl; lia.
Qed.

Definition start : World REv refreshState := mkWorld (mkRefreshState ∅ ∅ ∅) [].

Example three_restarts :
  @restartsFor env opts "n1" (replicate 6 "n1") start = 3 ∧ @inOrderFor env opts "n1" (replicate 6 "n1") start = 0.
Proof. vm_compute. done. Qed.

(** Mode Always, and g0, which the pod holds, is tainted for recovery in the first pass only: the second pass
    restarts the pod. *)
Definition alwaysPolicy : ClusterPolicy :=
  mkClusterPolicy "cp" None []
    (mkClusterPolicySpec resourceModeDRA true false false false None None
       (mkDynamicResourceAllocationSpec "" 0 false false None) (mkDevicePluginSpec "" "" [] [] "" 0 None)
       (mkXpuManagerSpec "" 0 "" "" None XpumRestartAlways false false None)
       None ∅ [] 0 None (mkCDISpec "" ""))
    (mkClusterPolicyStatus "" "" "" "" []).
Definition slicesAt (h : list REv) : list ResourceSlice :=
  [mkResourceSlice "s" GPUDeviceClass (Some "n1") "n1"
     [mkDevice "g0" {[ deviceAttrDriver := Some (if (length h <? 3)%nat then "vfio-pci" else "xe") ]} []]].
Definition rebindEnv : RefreshEnv := {|
  renv_now h := (Z.of_nat (length h) * 60 * Second)%Z;
  renv_listPolicies _ := Ok [alwaysPolicy];
  renv_listSlicesOnNode h _ := Ok (slicesAt h);
  renv_listPods _ _ _ _ := Ok [xpumPod {[ xpumDevicesAnnotation := "g0" ]}];
  renv_getClaim _ _ _ := Err (mkErr NotFound "gone");
  renv_patchAnnotation _ _ _ _ _ := Ok tt;
  renv_deletePod _ _ _ := Ok tt;
|}.

(** In mode Always too, a device that is gone from the slices in one pass and back in the next, without having
    been seen unusable, is no reason to restart. *)
Definition awayEnv : RefreshEnv := {|
  renv_now h := (Z.of_nat (length h) * 60 * Second)%Z;
  renv_listPolicies _ := Ok [alwaysPolicy];
  renv_listSlicesOnNode h _ :=
    Ok [mkResourceSlice "s" GPUDeviceClass (Some "n1") "n1" (gpu "g1" [] :: if (length h <? 3)%nat then [] else [gpu "g0" []])];
  renv_listPods _ _ _ _ := Ok [xpumPod {[ xpumDevicesAnnotation := "g0,g1" ]}];
  renv_getClaim _ _ _ := Err (mkErr NotFound "gone");
  renv_patchAnnotation _ _ _ _ _ := Ok tt;
  renv_deletePod _ _ _ := Ok tt;
|}.
Example vanished_device_no_restart :
  @restartsFor rebindEnv opts "n1" ["n1"; "n1"] start = 1 ∧ @restartsFor awayEnv opts "n1" ["n1"; "n1"; "n1"] start = 0.
Proof. vm_compute. done. Qed.

Definition rebound : World REv refreshState := @refreshes rebindEnv opts ["n1"] start.

Lemma rebound_restart : ∃ h, made rebound (@RefreshReconcile rebindEnv opts "n1" rebound).2 h
                              (RvDeletePod "gpu-operator" "xpumd-1" (Ok tt)).
Proof.
  assert (∃ k h, log (@RefreshReconcile rebindEnv opts "n1" rebound).2 = k ++ RvDeletePod "gpu-operator" "xpumd-1" (Ok tt) :: h ∧
                 log rebound `suffix_of` h) as (k & h & Hl & Hs).
  { eexists [_], _. split; [vm_compute; reflexivity|]. eexists [_; _; _; _; _]. vm_compute. reflexivity. }
  exists h. split; [by exists k|done].
Qed.
End RefreshDemo.

Lemma record_round_trip_witness :
  parseDeviceRecord (formatDeviceRecord ["g1"; "g0"])
    = filter (λ d, publishedUnusable (statesOf [RefreshDemo.slice]) d = false) {[ "g0"; "g1" ]}.
Proof.
  assert (plainNames (elements ({[ "g0"; "g1" ]} : gset string))) as Hp.
  { unfold plainNames. apply (bool_decide_unpack _). vm_compute. exact I. }
  assert (["g1"; "g0"] ≡ₚ heldOf (statesOf [RefreshDemo.slice]) {[ "g0"; "g1" ]}) as Hh.
  { replace (heldOf (statesOf [RefreshDemo.slice]) {[ "g0"; "g1" ]}) with ["g1"; "g0"] by (vm_compute; reflexivity).
    reflexivity. }
  exact (proj1 (@record_round_trip (statesOf [RefreshDemo.slice]) {[ "g0"; "g1" ]} ["g1"; "g0"] Hp Hh)).
Defined.

Lemma restart_for_cause_witness :
  ∃ h, made RefreshDemo.rebound (@RefreshReconcile RefreshDemo.rebindEnv RefreshDemo.opts "n1" RefreshDemo.rebound).2 h
         (RvDeletePod "gpu-operator" "xpumd-1" (Ok tt)) ∧
       refreshEv RefreshDemo.opts (log RefreshDemo.rebound)
         (seenUnusable RefreshDemo.opts (log RefreshDemo.rebound) "n1") "n1" h (RvDeletePod "gpu-operator" "xpumd-1" (Ok tt)).
Proof.
  destruct RefreshDemo.rebound_restart as [h Hm]. exists h. split; [exact Hm|].
  exact (@restart_for_cause RefreshDemo.rebindEnv RefreshDemo.opts ["n1"] "n1" RefreshDemo.start eq_refl h _ Hm).
Defined.

