(* ===== verification/PlanJson.v ===== *)
(** * The JSON form of a recovery plan

    The API server and its clients exchange a GPURecoveryPlan as JSON.  This file holds the objects a
    dynamic client sees and the two directions of the translation the struct tags and the CRD schema of
    [api/v1alpha1/gpurecoveryplan_types.go] prescribe: the encoding of approvals, events and the status,
    and the decoding of an approval with the schema's checks.  The rendering of a [metav1.Time] is a
    parameter. *)

From S2P Require Import Prelude GoStrings KubeTypes ApiTypes.

(** ** [map[string]interface{}]

    An object is given by its entries; a key is looked up at its first entry. *)

Abbreviation object := (list (string * json)).

Fixpoint mapGet (m : object) (k : string) : option json :=
  match m with
  | [] => None
  | (k', v) :: m' => if String.eqb k k' then Some v else mapGet m' k
  end.

(** [s, _ := m[k].(string)] and [b, _ := m[k].(bool)] *)
Definition strField (m : object) (k : string) : string :=
  match mapGet m k with Some (JStr s) => s | _ => "" end.
Definition boolField (m : object) (k : string) : bool :=
  match mapGet m k with Some (JBool b) => b | _ => false end.

Lemma mapGet_app m n k :
  mapGet (m ++ n) k = match mapGet m k with Some v => Some v | None => mapGet n k end.
Proof. induction m as [|[k' v] m IH]; simpl; [done|]. by destruct (String.eqb k k'). Qed.

(** ** Encoding

    A field tagged [omitempty] is left out when it holds its zero value. *)

Definition omitStr (k s : string) : object := if bool_decide (s = "") then [] else [(k, JStr s)].
Definition omitBool (k : string) (b : bool) : object := if b then [(k, JBool true)] else [].
Definition omitNum (k : string) (z : Z) : object := if bool_decide (z = 0%Z) then [] else [(k, JNum z)].
Definition omitList {A} (k : string) (f : A → json) (l : list A) : object :=
  match l with [] => [] | _ => [(k, JList (f <$> l))] end.
Definition omitOpt {A} (k : string) (f : A → json) (o : option A) : object :=
  match o with None => [] | Some a => [(k, f a)] end.

Definition encodeLabels (l : labels) : json := JObj ((λ kv : string * string, (kv.1, JStr kv.2)) <$> map_to_list l).
Definition omitLabels (k : string) (l : labels) : object :=
  if bool_decide (l = ∅) then [] else [(k, encodeLabels l)].

Definition encodeSelector (s : ApprovalSelector) : json :=
  JObj (omitStr "recoveryType" (RecoveryType_string (sel_RecoveryType s)) ++
        omitStr "nodeName" (sel_NodeName s) ++ omitLabels "nodeSelector" (sel_NodeSelector s)).

Definition encodeOverride (o : RecoveryOverride) : json :=
  JObj [("recoveryType", JStr (RecoveryType_string (ov_RecoveryType o)))].

Definition encodeApproval (a : RecoveryApproval) : json :=
  JObj (omitStr "id" (ap_ID a) ++ omitStr "eventId" (ap_EventID a) ++
        omitOpt "selector" encodeSelector (ap_Selector a) ++ omitOpt "override" encodeOverride (ap_Override a) ++
        omitBool "persistent" (ap_Persistent a) ++ omitBool "consumed" (ap_Consumed a) ++
        omitStr "comment" (ap_Comment a)).

Definition RecoveryEventState_string (s : RecoveryEventState) : string :=
  match s with
  | RecoveryEventStateUnset => ""
  | RecoveryEventStateWaitingApproval => "waiting-approval"
  | RecoveryEventStateMissingFirmware => "missing-firmware"
  | RecoveryEventStateBlocked => "blocked"
  | RecoveryEventStateDraining => "draining"
  | RecoveryEventStateInProgress => "in-progress"
  | RecoveryEventStateSucceeded => "succeeded"
  | RecoveryEventStateFailed => "failed"
  end.

Definition PlanState_string (s : PlanState) : string :=
  match s with
  | PlanStateUnset => ""
  | PlanStateIdle => "idle"
  | PlanStateError => "error"
  | PlanStateActive => "active"
  end.

Definition encodeRecoveryType (rt : RecoveryTypeSpec) : json :=
  JObj (("type", JStr (RecoveryType_string (rt_Type rt))) ::
        omitStr "suggestedType" (RecoveryType_string (rt_SuggestedType rt))).

Section Events.
(** [metav1.Time.MarshalJSON], for a time in nanoseconds since the epoch. *)
Variable rfc3339 : Z → string.

Definition encodeTime (t : Z) : json := JStr (rfc3339 t).

Definition encodeEvent (e : RecoveryEvent) : json :=
  JObj ([("id", JStr (evt_ID e))] ++ omitStr "approvalId" (evt_ApprovalID e) ++
        omitOpt "approvalMatchedAt" encodeTime (evt_ApprovalMatchedAt e) ++
        [("nodeName", JStr (evt_NodeName e)); ("gpuBDF", JStr (evt_GPUBDF e))] ++
        omitStr "reason" (evt_Reason e) ++
        [("recoveryType", encodeRecoveryType (evt_RecoveryType e));
         ("state", JStr (RecoveryEventState_string (evt_State e)))] ++
        omitStr "stateMessage" (evt_StateMessage e) ++
        omitNum "imageVerifyGeneration" (evt_ImageVerifyGeneration e) ++
        omitOpt "drainStartedAt" encodeTime (evt_DrainStartedAt e) ++
        omitList "podsBlockingDrain" JStr (evt_PodsBlockingDrain e) ++
        omitList "claimsBlockingReset" JStr (evt_ClaimsBlockingReset e) ++
        omitStr "jobName" (evt_JobName e) ++ omitList "pastJobs" JStr (evt_PastJobs e) ++
        [("lastUpdated", match evt_LastUpdated e with None => JNull | Some t => encodeTime t end)]).

Definition encodeStatus (st : GPURecoveryPlanStatus) : json :=
  JObj (omitStr "state" (PlanState_string (st_State st)) ++ omitList "messages" JStr (st_Messages st) ++
        omitList "events" encodeEvent (st_Events st)).
End Events.

(** ** Decoding an approval

    [None] is a document the schema refuses: a value of another type, a recovery type outside the
    enumeration, an override without one.  A null counts as absent. *)

Definition recoveryTypeOf (s : string) : option RecoveryType :=
  if String.eqb s "sbr" then Some RecoveryTypeSBR
  else if String.eqb s "slot" then Some RecoveryTypeSlot
  else if String.eqb s "amc" then Some RecoveryTypeAMC
  else if String.eqb s "reflash" then Some RecoveryTypeReflash
  else None.

Definition optional {A} (zero : A) (f : json → option A) (m : object) (k : string) : option A :=
  match mapGet m k with
  | None | Some JNull => Some zero
  | Some v => f v
  end.

Definition asStr (v : json) : option string := match v with JStr s => Some s | _ => None end.
Definition asBool (v : json) : option bool := match v with JBool b => Some b | _ => None end.
Definition asType (v : json) : option RecoveryType := s ← asStr v; recoveryTypeOf s.
Definition asLabel (kv : string * json) : option (string * string) := v ← asStr kv.2; Some (kv.1, v).
Definition asLabels (v : json) : option labels :=
  match v with JObj m => l ← mapM asLabel m; Some (list_to_map l) | _ => None end.

Definition asSelector (v : json) : option ApprovalSelector :=
  match v with
  | JObj m =>
      rt ← optional RecoveryTypeUnset asType m "recoveryType";
      node ← optional "" asStr m "nodeName";
      sel ← optional ∅ asLabels m "nodeSelector";
      Some (mkApprovalSelector rt node sel)
  | _ => None
  end.

Definition asOverride (v : json) : option RecoveryOverride :=
  match v with
  | JObj m => rt ← mapGet m "recoveryType" ≫= asType; Some (mkRecoveryOverride rt)
  | _ => None
  end.

Definition decodeApproval (v : json) : option RecoveryApproval :=
  match v with
  | JObj m =>
      id ← optional "" asStr m "id";
      evt ← optional "" asStr m "eventId";
      sel ← optional None (λ v, Some <$> asSelector v) m "selector";
      ov ← optional None (λ v, Some <$> asOverride v) m "override";
      persistent ← optional false asBool m "persistent";
      consumed ← optional false asBool m "consumed";
      comment ← optional "" asStr m "comment";
      Some (mkRecoveryApproval id evt sel ov persistent consumed comment)
  | _ => None
  end.

(** ** Reading back what was encoded *)

Lemma mapGet_omitStr k s k' :
  mapGet (omitStr k s) k' = if String.eqb k' k then (if bool_decide (s = "") then None else Some (JStr s)) else None.
Proof. unfold omitStr. by destruct (bool_decide (s = "")), (String.eqb k' k) eqn:E; simpl; rewrite ?E. Qed.

Lemma mapGet_omitBool k b k' :
  mapGet (omitBool k b) k' = if String.eqb k' k then (if b then Some (JBool true) else None) else None.
Proof. unfold omitBool. by destruct b, (String.eqb k' k) eqn:E; simpl; rewrite ?E. Qed.

Lemma mapGet_omitNum k z k' :
  mapGet (omitNum k z) k' = if String.eqb k' k then (if bool_decide (z = 0%Z) then None else Some (JNum z)) else None.
Proof. unfold omitNum. by destruct (bool_decide (z = 0%Z)), (String.eqb k' k) eqn:E; simpl; rewrite ?E. Qed.

Lemma mapGet_omitList {A} k (f : A → json) l k' :
  mapGet (omitList k f l) k' =
  if String.eqb k' k then match l with [] => None | _ => Some (JList (f <$> l)) end else None.
Proof. by destruct l, (String.eqb k' k) eqn:E; simpl; rewrite ?E. Qed.

Lemma mapGet_omitOpt {A} k (f : A → json) o k' :
  mapGet (omitOpt k f o) k' = if String.eqb k' k then f <$> o else None.
Proof. by destruct o, (String.eqb k' k) eqn:E; simpl; rewrite ?E. Qed.

Lemma mapGet_omitLabels k l k' :
  mapGet (omitLabels k l) k' =
  if String.eqb k' k then (if bool_decide (l = ∅) then None else Some (encodeLabels l)) else None.
Proof. unfold omitLabels. by destruct (bool_decide (l = ∅)), (String.eqb k' k) eqn:E; simpl; rewrite ?E. Qed.

Create Rewrite HintDb mapGet.
#[export] Hint Rewrite mapGet_app mapGet_omitStr mapGet_omitBool mapGet_omitNum @mapGet_omitList @mapGet_omitOpt
  mapGet_omitLabels : mapGet.

(** Looks the named fields of an encoded record up. *)
Ltac fields := repeat (progress (autorewrite with mapGet; cbn [mapGet String.eqb Ascii.eqb Bool.eqb])).

Lemma asLabels_encode l : asLabels (encodeLabels l) = Some l.
Proof.
  unfold encodeLabels, asLabels.
  assert (mapM asLabel ((λ kv : string * string, (kv.1, JStr kv.2)) <$> map_to_list l) = Some (map_to_list l)) as ->.
  { induction (map_to_list l) as [|[k v] m IH]; [done|]. rewrite fmap_cons. cbn. by rewrite IH. }
  cbn. f_equal. apply list_to_map_to_list.
Qed.

Lemma recoveryTypeOf_string rt : rt ≠ RecoveryTypeUnset → recoveryTypeOf (RecoveryType_string rt) = Some rt.
Proof. by destruct rt. Qed.

Lemma recoveryTypeOf_inv s rt : recoveryTypeOf s = Some rt → s = RecoveryType_string rt ∧ rt ≠ RecoveryTypeUnset.
Proof.
  unfold recoveryTypeOf. intros H. by repeat case_match; simplify_eq; match goal with E : _ = true |- _ => apply String.eqb_eq in E; subst end.
Qed.

(** A field read back, given what its key was encoded to. *)
Lemma optional_str m k s :
  mapGet m k = (if bool_decide (s = "") then None else Some (JStr s)) → optional "" asStr m k = Some s.
Proof. unfold optional. intros ->. case_bool_decide; by subst. Qed.

Lemma optional_bool m k (b : bool) :
  mapGet m k = (if b then Some (JBool true) else None) → optional false asBool m k = Some b.
Proof. unfold optional. intros ->. by destruct b. Qed.

Lemma optional_type m k rt :
  mapGet m k = (if bool_decide (RecoveryType_string rt = "") then None else Some (JStr (RecoveryType_string rt))) →
  optional RecoveryTypeUnset asType m k = Some rt.
Proof. unfold optional. intros ->. by destruct rt. Qed.

Lemma optional_labels m k l :
  mapGet m k = (if bool_decide (l = ∅) then None else Some (encodeLabels l)) → optional ∅ asLabels m k = Some l.
Proof. unfold optional. intros ->. case_bool_decide as Hl; [by rewrite Hl|]. apply asLabels_encode. Qed.

Lemma optional_some {A} m k (enc : A → json) (f : json → option A) o :
  mapGet m k = enc <$> o → (∀ a, o = Some a → enc a ≠ JNull ∧ f (enc a) = Some a) →
  optional None (λ v, Some <$> f v) m k = Some o.
Proof.
  unfold optional. intros -> Hf. destruct o as [a|]; [|done]. destruct (Hf a) as [Hn Ha]; [done|].
  simpl. destruct (enc a); [done|by rewrite Ha..].
Qed.

Lemma asSelector_encode s : asSelector (encodeSelector s) = Some s.
Proof.
  destruct s as [rt node sel]. unfold asSelector, encodeSelector. cbn [sel_RecoveryType sel_NodeName sel_NodeSelector].
  rewrite (optional_type _ _ rt) by (fields; by destruct (bool_decide _)). cbn [mbind option_bind].
  rewrite (optional_str _ "nodeName" node) by (fields; by destruct (bool_decide _)). cbn [mbind option_bind].
  by rewrite (optional_labels _ _ sel) by (by fields).
Qed.

Lemma asOverride_encode o : ov_RecoveryType o ≠ RecoveryTypeUnset → asOverride (encodeOverride o) = Some o.
Proof. destruct o as [rt]. intros Hrt. simpl. cbn. by rewrite recoveryTypeOf_string. Qed.

(** An approval survives the trip through the API server. *)
Lemma decodeApproval_encode a :
  match ap_Override a with Some o => ov_RecoveryType o ≠ RecoveryTypeUnset | None => True end →
  decodeApproval (encodeApproval a) = Some a.
Proof.
  destruct a as [id evt sel ov per con com]. intros Hov. unfold decodeApproval, encodeApproval.
  cbn [ap_ID ap_EventID ap_Selector ap_Override ap_Persistent ap_Consumed ap_Comment] in Hov |- *.
  rewrite (optional_str _ "id" id) by (fields; by destruct (bool_decide _)). cbn [mbind option_bind].
  rewrite (optional_str _ "eventId" evt) by (fields; by destruct (bool_decide _)). cbn [mbind option_bind].
  rewrite (optional_some _ "selector" encodeSelector asSelector sel).
  2: by fields; destruct sel.
  2: { intros s _. split; [done|apply asSelector_encode]. }
  cbn [mbind option_bind]. rewrite (optional_some _ "override" encodeOverride asOverride ov).
  2: by fields; destruct ov.
  2: { intros o ->. split; [done|by apply asOverride_encode]. }
  cbn [mbind option_bind]. rewrite (optional_bool _ "persistent" per) by (by fields; destruct per). cbn [mbind option_bind].
  rewrite (optional_bool _ "consumed" con) by (by fields; destruct con). cbn [mbind option_bind].
  by rewrite (optional_str _ "comment" com) by (fields; by destruct (bool_decide _)).
Qed.
