(* ===== verification/DeepCopySnapshot.v ===== *)
(** * What the deep copy is for

    [Reconcile] keeps a copy of the plan it fetched, works on the plan in place, and at the end writes the difference
    between the two.  In [RecoveryController] that copy is a value.  Here the plan is an object in Go memory, and what
    the records of ApiTypes.v say of it is read off the memory; the copy is shown to read as the plan did when it was
    made, whatever became of the plan. *)

From S2P Require Import Prelude.
From S2P Require Import GoMemory.
From S2P Require Import GoCopy.
From S2P Require Import DeepCopyCode.
From S2P Require Import DeepCopyFacts.
From S2P Require Import DeepCopySample.
From S2P Require Import KubeTypes.
From S2P Require Import ApiTypes.
From S2P Require Import PlanJson.

(** ** Reading memory *)

Definition Rd (A : Type) : Type := memory → gval → option A.
#[export] Instance Rd_ret : MRet Rd := λ A x _ _, Some x.
#[export] Instance Rd_bind : MBind Rd := λ A B k rd h v, x ← rd h v; k x h v.

Definition rdStr : Rd string := λ _ v, match v with VStr s => Some s | _ => None end.
Definition rdInt : Rd Z := λ _ v, match v with VInt z => Some z | _ => None end.
Definition rdBool : Rd bool := λ _ v, match v with VBool b => Some b | _ => None end.
Definition rdTime : Rd Z := λ _ v, match v with VTime t => Some t | _ => None end.

(** A constant of a named string type. *)
Definition rdEnum {A} (str : A → string) (all : list A) : Rd A := λ _ v,
  match v with VStr s => List.find (λ a, String.eqb (str a) s) all | _ => None end.

Definition rdPtr {A} (rd : Rd A) : Rd (option A) := λ h v,
  match v with
  | VPtr None => Some None
  | VPtr (Some l) => x ← target h l; Some <$> rd h x
  | _ => None
  end.

Definition rdSlice {A} (rd : Rd A) : Rd (list A) := λ h v,
  match v with
  | VSlice None => Some []
  | VSlice (Some s) => xs ← window h s; mapM (rd h) xs
  | _ => None
  end.

Definition strOf (v : gval) : string := match v with VStr s => s | _ => "" end.
Definition rdLabels : Rd labels := λ h v,
  match v with
  | VMap None => Some ∅
  | VMap (Some l) => match entries h l with Some m => Some (fmap (M := gmap string) strOf m) | None => None end
  | _ => None
  end.

Definition rdField {A} (n : string) (rd : Rd A) : Rd A := λ h v,
  match v with VStruct xs => x ← fieldOf n xs; rd h x | _ => None end.

(** ** The records *)

Definition rdRecoveryType : Rd RecoveryType :=
  rdEnum RecoveryType_string [RecoveryTypeUnset; RecoveryTypeSBR; RecoveryTypeSlot; RecoveryTypeAMC; RecoveryTypeReflash].
Definition rdEventState : Rd RecoveryEventState :=
  rdEnum RecoveryEventState_string [RecoveryEventStateUnset; RecoveryEventStateWaitingApproval; RecoveryEventStateMissingFirmware;
    RecoveryEventStateBlocked; RecoveryEventStateDraining; RecoveryEventStateInProgress; RecoveryEventStateSucceeded;
    RecoveryEventStateFailed].
Definition rdPlanState : Rd PlanState := rdEnum PlanState_string [PlanStateUnset; PlanStateIdle; PlanStateError; PlanStateActive].

Definition rdTypeSpec : Rd RecoveryTypeSpec :=
  t ← rdField "Type" rdRecoveryType; s ← rdField "SuggestedType" rdRecoveryType; mret (mkRecoveryTypeSpec t s).

Definition rdEvent : Rd RecoveryEvent :=
  id ← rdField "ID" rdStr;
  apid ← rdField "ApprovalID" rdStr;
  matched ← rdField "ApprovalMatchedAt" (rdPtr rdTime);
  node ← rdField "NodeName" rdStr;
  bdf ← rdField "GPUBDF" rdStr;
  reason ← rdField "Reason" rdStr;
  rt ← rdField "RecoveryType" rdTypeSpec;
  state ← rdField "State" rdEventState;
  msg ← rdField "StateMessage" rdStr;
  gen ← rdField "ImageVerifyGeneration" rdInt;
  drain ← rdField "DrainStartedAt" (rdPtr rdTime);
  pods ← rdField "PodsBlockingDrain" (rdSlice rdStr);
  claims ← rdField "ClaimsBlockingReset" (rdSlice rdStr);
  job ← rdField "JobName" rdStr;
  past ← rdField "PastJobs" (rdSlice rdStr);
  upd ← rdField "LastUpdated" (rdPtr rdTime);
  mret (mkRecoveryEvent id apid matched node bdf reason rt state msg gen drain pods claims job past upd).

Definition rdStatus : Rd GPURecoveryPlanStatus :=
  state ← rdField "State" rdPlanState;
  msgs ← rdField "Messages" (rdSlice rdStr);
  evs ← rdField "Events" (rdSlice rdEvent);
  mret (mkGPURecoveryPlanStatus state msgs evs).

Definition rdSelector : Rd ApprovalSelector :=
  t ← rdField "RecoveryType" rdRecoveryType; n ← rdField "NodeName" rdStr; s ← rdField "NodeSelector" rdLabels;
  mret (mkApprovalSelector t n s).

Definition rdApproval : Rd RecoveryApproval :=
  id ← rdField "ID" rdStr;
  ev ← rdField "EventID" rdStr;
  sel ← rdField "Selector" (rdPtr rdSelector);
  ov ← rdField "Override" (rdPtr (t ← rdField "RecoveryType" rdRecoveryType; mret (mkRecoveryOverride t)));
  pers ← rdField "Persistent" rdBool;
  cons ← rdField "Consumed" rdBool;
  com ← rdField "Comment" rdStr;
  mret (mkRecoveryApproval id ev sel ov pers cons com).

(** What [persistPlan] compares: the status and the approvals of the plan a pointer refers to. *)
Definition rdCompared : Rd (GPURecoveryPlanStatus * list RecoveryApproval) :=
  st ← rdField "Status" rdStatus; aps ← rdField "Spec" (rdField "Approvals" (rdSlice rdApproval)); mret (st, aps).
Definition compared (h : memory) (l : nat) : option (GPURecoveryPlanStatus * list RecoveryApproval) :=
  x ← target h l; rdCompared h x.

(** ** Reading sees content only *)

Definition respects {A} (t : gtype) (rd : Rd A) : Prop := ∀ h v h' v', same t h v h' v' → rd h v = rd h' v'.

Lemma ret_respects {A} t (x : A) : respects t (mret x : Rd A).
Proof. done. Qed.
Lemma bind_respects {A B} t (rd : Rd A) (k : A → Rd B) : respects t rd → (∀ x, respects t (k x)) → respects t (rd ≫= k).
Proof. intros Hr Hk h v h' v' Hs. unfold mbind, Rd_bind. rewrite (Hr _ _ _ _ Hs). destruct (rd h' v'); [|done]. by apply Hk. Qed.

Lemma str_respects : respects TStr rdStr.
Proof. by intros h v h' v' (s & -> & ->). Qed.
Lemma int_respects : respects TInt rdInt.
Proof. by intros h v h' v' (s & -> & ->). Qed.
Lemma bool_respects : respects TBool rdBool.
Proof. by intros h v h' v' (s & -> & ->). Qed.
Lemma time_respects : respects TTime rdTime.
Proof. by intros h v h' v' (s & -> & ->). Qed.
Lemma enum_respects {A} (str : A → string) all : respects TStr (rdEnum str all).
Proof. by intros h v h' v' (s & -> & ->). Qed.

Lemma ptr_respects {A} t (rd : Rd A) : respects t rd → respects (TPtr t) (rdPtr rd).
Proof.
  intros Hr h v h' v'. destruct v as [| | | |[l|]| | |], v' as [| | | |[l'|]| | |]; try done.
  intros (x & y & Hx & Hy & Hs). cbn. rewrite Hx, Hy. cbn. by rewrite (Hr _ _ _ _ Hs).
Qed.

Lemma slice_respects {A} t (rd : Rd A) : respects t rd → respects (TSlice t) (rdSlice rd).
Proof.
  intros Hr h v h' v'. destruct v as [| | | | |[s|]| |], v' as [| | | | |[s'|]| |]; try done.
  intros (xs & ys & Hx & Hy & Hs). cbn. rewrite Hx, Hy. cbn. clear Hx Hy.
  induction Hs as [|x y xs ys Hxy Hs IH]; [done|]. cbn. by rewrite (Hr _ _ _ _ Hxy), IH.
Qed.

Lemma labels_respects : respects (TMap TStr) rdLabels.
Proof.
  intros h v h' v'. destruct v as [| | | | | |[l|]|], v' as [| | | | | |[l'|]|]; try done.
  intros (m & m' & Hx & Hy & Hs). cbn. rewrite Hx, Hy. cbn. f_equal. apply map_eq. intros k. rewrite !lookup_fmap.
  specialize (Hs k). destruct (m !! k), (m' !! k); try done. cbn. by destruct Hs as (s & -> & ->).
Qed.

Lemma field_respects {A} fs n t (rd : Rd A) :
  bool_decide (NoDup fs.*1) = true → typeOf n fs = Some t → respects t rd → respects (TStruct fs) (rdField n rd).
Proof.
  intros Hnd%bool_decide_eq_true [i Hi]%typeOf_lookup Hr h v h' v' (xs & ys & -> & -> & Hl & Hl' & Hs)%same_struct.
  destruct (Hs i n t Hi) as (x & y & Hx & Hy & Hxy). cbn.
  rewrite (fieldOf_lookup n xs i x), (fieldOf_lookup n ys i y); [cbn; by apply Hr| |done| |done].
  - erewrite names_of; [done..|]. intros j m u Hj. destruct (Hs j m u Hj) as (? & ? & ? & ? & _). eauto.
  - erewrite names_of; [done..|]. intros j m u Hj. destruct (Hs j m u Hj) as (? & ? & ? & ? & _). eauto.
Qed.

Create HintDb reading discriminated.
#[local] Hint Resolve ret_respects bind_respects str_respects int_respects bool_respects time_respects enum_respects ptr_respects
  slice_respects labels_respects : reading.
#[local] Hint Extern 1 (respects _ (rdField _ _)) => eapply field_respects; [reflexivity|reflexivity|] : reading.

Lemma typeSpec_respects : respects RecoveryTypeSpec_type rdTypeSpec.
Proof. unfold rdTypeSpec, rdRecoveryType. auto 10 with reading. Qed.
#[local] Hint Resolve typeSpec_respects : reading.
Lemma event_respects : respects RecoveryEvent_type rdEvent.
Proof. unfold rdEvent, rdEventState. auto 50 with reading. Qed.
#[local] Hint Resolve event_respects : reading.
Lemma status_respects : respects GPURecoveryPlanStatus_type rdStatus.
Proof. unfold rdStatus, rdPlanState. auto 20 with reading. Qed.
#[local] Hint Resolve status_respects : reading.
Lemma selector_respects : respects ApprovalSelector_type rdSelector.
Proof. unfold rdSelector, rdRecoveryType. auto 20 with reading. Qed.
#[local] Hint Resolve selector_respects : reading.
Lemma override_respects : respects RecoveryOverride_type (t ← rdField "RecoveryType" rdRecoveryType; mret (mkRecoveryOverride t)).
Proof. unfold rdRecoveryType. auto 20 with reading. Qed.
#[local] Hint Resolve override_respects : reading.
Lemma approval_respects : respects RecoveryApproval_type rdApproval.
Proof. unfold rdApproval. auto 50 with reading. Qed.
#[local] Hint Resolve approval_respects : reading.

Section snapshot.
Context `{!MapRange, !Kubernetes, !KubernetesCopies}.

Lemma compared_same h l h' l' : same (TPtr GPURecoveryPlan_type) h (VPtr (Some l)) h' (VPtr (Some l')) → compared h l = compared h' l'.
Proof.
  intros (x & y & Hx & Hy & Hs). unfold compared. rewrite Hx, Hy. cbn.
  assert (Hr : respects GPURecoveryPlan_type rdCompared).
  { unfold rdCompared. auto 20 with reading. }
  exact (Hr _ _ _ _ Hs).
Qed.

(** The copy [Reconcile] takes of the plan is a snapshot: whatever the pass writes afterwards to the memory the plan
    consists of, or allocates, the status and the approvals read from the copy are those the plan had when it was
    copied.  They are what [persistPlan] compares with the plan at the end of the pass, so that an edit made in place,
    an append into spare capacity included, is seen as a change. *)
Theorem orig_is_snapshot h l :
  typed (TPtr GPURecoveryPlan_type) h (VPtr (Some l)) →
  ∃ l' h', GPURecoveryPlan_DeepCopy (Some l) h = Some (Some l', h') ∧
    compared h' l = compared h l ∧
    ∀ h2, (∀ k, length h ≤ k < length h' → h2 !! k = h' !! k) → compared h2 l' = compared h l.
Proof.
  intros Hv. destruct (method_isolated _ _ _ _ (DeepCopy_method _ _ GPURecoveryPlan_copies) Hv) as (l' & h' & E & Hp & Hnew & Hold).
  exists l', h'. split_and!; [done|symmetry; by apply compared_same, Hold|].
  intros h2 Hh. symmetry. by apply compared_same, Hnew.
Qed.
End snapshot.

Lemma orig_is_snapshot_witness : ∃ l' h',
  @GPURecoveryPlan_DeepCopy sampleRange sampleKube (Some 0) sampleHeap = Some (Some l', h') ∧
  is_Some (compared sampleHeap 0) ∧
  compared (edited h') l' = compared sampleHeap 0 ∧ compared (edited h') 0 ≠ compared sampleHeap 0.
Proof.
  destruct (@orig_is_snapshot sampleRange sampleKube sampleKube_copies sampleHeap 0 sampleHeap_typed) as (l' & h' & E & _ & Hs).
  exists l', h'. split_and!; [done|by eexists| |].
  - apply Hs. intros k Hk. unfold edited. change (length sampleHeap) with 7 in Hk. by rewrite !list_lookup_insert_ne by lia.
  - vm_compute in E. injection E as <- <-. intros H. vm_compute in H. congruence.
Defined.

(** A copy by assignment would follow the edit, and the difference would be lost. *)
Example shallow_copy_follows :
  match newCopy (@GPURecoveryPlan_type sampleKube) assign 0 sampleHeap with
  | Some (l', h') => compared (edited h') l' = compared (edited h') 0 ∧ compared (edited h') l' ≠ compared sampleHeap 0
  | None => False
  end.
Proof. vm_compute. split; [reflexivity|congruence]. Qed.
