(* ===== verification/Kubectl.v ===== *)
(** * The kubectl plugin

    [cmd/kubectl-gpurecovery]: the commands that list a plan's events, messages and approvals and that
    edit its approvals.  The plugin works on the JSON of a plan through the dynamic client.

    The API server, the kubeconfig loader, the clock, the standard output, the YAML printer and the
    helpers of the API machinery for unstructured objects are parameters: a [Kubectl] answers every
    request as an arbitrary function of the exchanges so far, and [UnstructuredLaws] states what the
    helpers' documentation promises.  A command is its [RunE]; cobra's dispatch and argument counts are
    not modelled, and neither is the alignment done by the [tabwriter], whose input lines are. *)

From Stdlib Require Import Ascii NArith SpecFloat.
From S2P Require Import Prelude GoStrings KubeTypes ApiTypes Common PolicyTypes PolicyObjects Client PlanJson.

Inductive KEv :=
| KConfig (explicitPath currentContext : string) (r : res unit)
| KNewClient (r : res unit)
| KGet (name : string) (r : res object)
| KList (r : res (list object))
| KUpdate (plan : object) (r : res object)
| KNow (t : Z)
| KPrint (text : string)
| KWrite (text : string) (r : option GoErr)
| KTable (lines : list string) (r : option GoErr)
| KGenCompletion (shell : string) (r : option GoErr)
| KStderr (text : string).

Class Kubectl := {
  k_config : list KEv → string → string → res unit;
  k_newClient : list KEv → res unit;
  k_get : list KEv → string → res object;
  k_list : list KEv → res (list object);
  k_update : list KEv → object → res object;
  k_now : list KEv → Z;
  k_write : list KEv → string → option GoErr;
  (** [tabwriter.Writer.Flush] after these lines. *)
  k_flush : list KEv → list string → option GoErr;
  k_gen : list KEv → string → option GoErr;
  (** The attempts [retry.DefaultRetry] allows. *)
  k_retrySteps : nat;

  (** Package [unstructured]; a nil slice is [None]. *)
  NestedSlice : object → list string → option (list json);
  NestedString : object → list string → string;
  SetNestedSlice : object → list json → list string → res object;
  GetName : object → string;
  GetCreationTimestamp : object → Z;

  (** [yaml.Marshal] *)
  yamlMarshal : json → res string;
  (** [time.Parse(time.RFC3339, s)], in nanoseconds since the epoch. *)
  timeParse : string → option Z;
  (** The [%q] verb. *)
  goQuote : string → string;
}.

Abbreviation KOp := (M KEv unit).

(** ** [format.go] *)

Definition dash : string := "-".

Definition Minute : Z := (60 * Second)%Z.
Definition Hour : Z := (60 * Minute)%Z.

(** [float64(z)], and the conversion back, which drops the fraction. *)
Definition f64 (z : Z) : spec_float := binary_normalize 53 1024 z 0 false.
Definition f64toInt (x : spec_float) : Z :=
  match x with
  | S754_finite s m e => (let v := Z.shiftl (Zpos m) e in if s then - v else v)%Z
  | _ => 0%Z
  end.

(** [Duration.Seconds], [Minutes] and [Hours]: the whole units plus the rest as a fraction. *)
Definition inUnits (unit d : Z) : spec_float :=
  SFadd 53 1024 (f64 (Z.quot d unit)) (SFdiv 53 1024 (f64 (Z.rem d unit)) (f64 unit)).

Definition compactDuration (d0 : Z) : string :=
  let d := Z.max d0 0 in
  let seconds := f64toInt (inUnits Second d) in
  let minutes := f64toInt (inUnits Minute d) in
  let hours := f64toInt (inUnits Hour d) in
  if (d <? Minute)%Z then itoa seconds +:+ "s"
  else if (d <? Hour)%Z then itoa minutes +:+ "m"
  else if (d <? 24 * Hour)%Z then itoa hours +:+ "h" +:+ itoa (Z.rem minutes 60) +:+ "m"
  else itoa (Z.quot hours 24) +:+ "d" +:+ itoa (Z.rem hours 24) +:+ "h".

(** [time.Since]: the difference saturates at the ends of [time.Duration]. *)
Definition since (now t : Z) : Z := Z.max (- 2 ^ 63) (Z.min (2 ^ 63 - 1) (now - t)).

(** [string([]rune)] *)
Definition encodeRune (r : N) : list ascii :=
  ascii_of_N <$>
  (if r <? 128 then [r]
   else if r <? 2048 then [192 + r / 64; 128 + r mod 64]
   else if ((55296 <=? r) && (r <=? 57343)) || (1114111 <? r) then [239; 191; 189]
   else if r <? 65536 then [224 + r / 4096; 128 + (r / 64) mod 64; 128 + r mod 64]
   else [240 + r / 262144; 128 + (r / 4096) mod 64; 128 + (r / 64) mod 64; 128 + r mod 64])%N.
Definition stringOfRunes (l : list N) : string := l2s (l ≫= encodeRune).

Definition ellipsis : string := stringOfRunes [8230%N].

Definition truncate (s : string) (maxLen : Z) : string :=
  if (maxLen <=? 0)%Z then s
  else
    let r := runes s in
    if (Z.of_nat (length r) <=? maxLen)%Z then s
    else stringOfRunes (take (Z.to_nat (maxLen - 1)) r) +:+ ellipsis.

Definition orDash (s : string) : string := if bool_decide (s = "") then dash else s.
Definition joinOrDash (items : list string) : string :=
  match items with [] => dash | _ => join "," items end.

(** ** [apitypes.go] *)

Definition recoveryTypes : list string := ["sbr"; "slot"; "amc"; "reflash"].
Definition overridableRecoveryTypes : list string := ["sbr"; "slot"; "amc"].
Definition approvableEventStates : list string := ["waiting-approval"; "missing-firmware"; "failed"].

(** ** [output.go] *)

Inductive outputFormat := outputTable | outputWide | outputYAML.
#[global] Instance outputFormat_eq_dec : EqDecision outputFormat.
Proof. solve_decision. Defined.

Definition outputFormats : list string := ["wide"; "yaml"].

(** ** Flags *)

Record rootFlags := mkRootFlags { kubeconfig : string; kubeContext : string }.
Record approveFlags := mkApproveFlags { approveOverride : string; approveComment : string }.
Record confirmFlags := mkConfirmFlags {
  confirmPersistent : bool;
  confirmNodeName : string;
  confirmNodeSelector : labels;
  confirmOverride : string;
  confirmComment : string;
}.
(** The flags of a command line that gives none. *)
Definition defaultRootFlags : rootFlags := mkRootFlags "" "".
Definition defaultApproveFlags : approveFlags := mkApproveFlags "" "".
Definition defaultConfirmFlags : confirmFlags := mkConfirmFlags false "" ∅ "" "".

Record messagesFlags := mkMessagesFlags { messagesTail : Z; messagesEvent : string }.
Definition defaultMessagesFlags : messagesFlags := mkMessagesFlags 0 "".

Definition tab : string := String (ascii_of_N 9) "".
Definition newline : string := String (ascii_of_N 10) "".
Definition boolString (b : bool) : string := if b then "true" else "false".

Inductive ShellCompDirective := ShellCompDirectiveError | ShellCompDirectiveNoFileComp.

Definition stateMessageWidth : Z := 90.

Definition eventsHeader : list string := ["ID"; "STATE"; "TYPE"; "NODE"; "BDF"; "ATTEMPTS"; "UPDATED"; "MESSAGE"].
Definition eventsHeaderRule : list string := ["──"; "─────"; "────"; "────"; "───"; "────────"; "───────"; "───────"].
Definition eventsWideHeader : list string :=
  ["ID"; "STATE"; "TYPE"; "NODE"; "BDF"; "ATTEMPTS"; "UPDATED"; "APPROVAL"; "JOB"; "BLOCKED-BY"; "MESSAGE"].
Definition eventsWideHeaderRule : list string :=
  ["──"; "─────"; "────"; "────"; "───"; "────────"; "───────"; "────────"; "───"; "──────────"; "───────"].

Definition approvalsHeader : list string := ["ID"; "KIND"; "TARGET"; "OVERRIDE"; "PERSISTENT"; "CONSUMED"; "COMMENT"].
Definition approvalsHeaderRule : list string := ["──"; "────"; "──────"; "────────"; "──────────"; "────────"; "───────"].

Definition plansHeader : list string := ["NAME"; "DEVICE-ID"; "RESET"; "STATE"; "EVENTS"; "WAITING"; "APPROVALS"; "AGE"].
Definition plansHeaderRule : list string :=
  ["────"; "─────────"; "─────"; "─────"; "──────"; "───────"; "─────────"; "───"].

(** A line given to the [tabwriter]. *)
Definition tabLine (cells : list string) : string := join tab cells.

Section Plugin.
Context `{!Kubectl}.

(** ** [client.go] *)

Definition nestedSlice (obj : object) (fields : list string) : option (list json) := NestedSlice obj fields.
Definition nestedString (obj : object) (fields : list string) : string := NestedString obj fields.

(** The elements of a slice that may be nil. *)
Definition items (s : option (list json)) : list json := default [] s.

Definition getPlan (name : string) : KOp (res object) :=
  r ← exchange (λ h, k_get h name) (KGet name);
  mret match r with
       | Ok plan => Ok plan
       | Err e => Err (wrapErr ("get plan " +:+ goQuote name +:+ ": ") e)
       end.

Definition updatePlan (plan : object) : KOp (option GoErr) :=
  r ← exchange (λ h, k_update h plan) (KUpdate plan);
  mret match r with Ok _ => None | Err e => Some e end.

(** One attempt of [addApproval]. *)
Definition addApprovalOnce (planName : string) (approval : object) : KOp (option GoErr) :=
  p ← getPlan planName;
  match p with
  | Err e => mret (Some e)
  | Ok plan =>
      let approvals := items (nestedSlice plan ["spec"; "approvals"]) ++ [JObj approval] in
      match SetNestedSlice plan approvals ["spec"; "approvals"] with
      | Err e => mret (Some (wrapErr "setting approvals: " e))
      | Ok plan' => updatePlan plan'
      end
  end.

Definition addApproval (planName : string) (approval : object) : KOp (option GoErr) :=
  retryLoop k_retrySteps (addApprovalOnce planName approval).

(** The loop of [removeApprovalByID]: the entries kept, and whether one was dropped. *)
Fixpoint withoutApproval (approvalID : string) (approvals : list json) : list json * bool :=
  match approvals with
  | [] => ([], false)
  | raw :: rest =>
      let '(kept, found) := withoutApproval approvalID rest in
      match raw with
      | JObj ap => if bool_decide (strField ap "id" = approvalID) then (kept, true) else (raw :: kept, found)
      | _ => (raw :: kept, found)
      end
  end.

Definition removeApprovalOnce (planName approvalID : string) : KOp (option GoErr) :=
  p ← getPlan planName;
  match p with
  | Err e => mret (Some e)
  | Ok plan =>
      let '(kept, found) := withoutApproval approvalID (items (nestedSlice plan ["spec"; "approvals"])) in
      if negb found then
        mret (Some (errorf ("approval " +:+ goQuote approvalID +:+ " not found in plan " +:+ goQuote planName)))
      else
        match SetNestedSlice plan kept ["spec"; "approvals"] with
        | Err e => mret (Some (wrapErr "setting approvals: " e))
        | Ok plan' => updatePlan plan'
        end
  end.

Definition removeApprovalByID (planName approvalID : string) : KOp (option GoErr) :=
  retryLoop k_retrySteps (removeApprovalOnce planName approvalID).

(** ** [apitypes.go] and [output.go] *)

Definition validateOverride (override : string) : option GoErr :=
  if bool_decide (override = "") || bool_decide (override ∈ overridableRecoveryTypes) then None
  else if bool_decide (override = "reflash") then
    Some (errorf ("--override reflash is not supported: the operator decides which events " +:+
                  "need a firmware reflash and ignores an override to it"))
  else Some (errorf ("invalid --override " +:+ goQuote override +:+ ": must be one of " +:+
                     join ", " overridableRecoveryTypes)).

Definition completeStaticValues (values : list string) (toComplete : string) : list string * ShellCompDirective :=
  (filter (λ v, hasPrefix v toComplete = true) values, ShellCompDirectiveNoFileComp).

Definition parseOutputFormat (s : string) : outputFormat * option GoErr :=
  if bool_decide (s = "") then (outputTable, None)
  else if bool_decide (s = "wide") then (outputWide, None)
  else if bool_decide (s = "yaml") then (outputYAML, None)
  else (outputTable, Some (errorf ("unsupported output format " +:+ goQuote s +:+ ": must be one of " +:+
                                   join ", " outputFormats))).

Definition printYAML (v : json) : KOp (option GoErr) :=
  match yamlMarshal v with
  | Err e => mret (Some (wrapErr "marshalling YAML: " e))
  | Ok buf => exchange (λ h, k_write h buf) (KWrite buf)
  end.

(** ** Output *)

Definition print (text : string) : KOp unit := exchange (λ _, tt) (λ _, KPrint text).
Definition flush (lines : list string) : KOp (option GoErr) := exchange (λ h, k_flush h lines) (KTable lines).
Definition timeNow : KOp Z := exchange k_now KNow.

Definition formatTime (ts : string) : KOp string :=
  if bool_decide (ts = "") then mret dash
  else match timeParse ts with
       | None => mret ts
       | Some t => now ← timeNow; mret (compactDuration (since now t) +:+ " ago")
       end.

(** ** [root.go] *)

Section Client.
Variable flags : rootFlags.

Definition newDynamicClient : KOp (res unit) :=
  cfg ← exchange (λ h, k_config h (kubeconfig flags) (kubeContext flags))
          (KConfig (kubeconfig flags) (kubeContext flags));
  match cfg with
  | Err e => mret (Err (wrapErr "building kubeconfig: " e))
  | Ok _ => exchange k_newClient KNewClient
  end.

(** Runs [f] with a client; [onErr] is what the command returns without one. *)
Definition withClient {A} (onErr : GoErr → A) (f : KOp A) : KOp A :=
  cl ← newDynamicClient;
  match cl with Err e => mret (onErr e) | Ok _ => f end.

(** The same, and the plan [name] is fetched. *)
Definition withPlan {A} (onErr : GoErr → A) (name : string) (f : object → KOp A) : KOp A :=
  withClient onErr
    (p ← getPlan name;
     match p with Err e => mret (onErr e) | Ok plan => f plan end).

Definition completionError : GoErr → list string * ShellCompDirective := λ _, ([], ShellCompDirectiveError).

Definition completePlanNames (args : list string) (toComplete : string) : KOp (list string * ShellCompDirective) :=
  match args with
  | _ :: _ => mret ([], ShellCompDirectiveNoFileComp)
  | [] =>
      withClient completionError
        (l ← exchange k_list KList;
         mret match l with
              | Err e => completionError e
              | Ok plans => (filter (λ n, hasPrefix n toComplete = true) (GetName <$> plans), ShellCompDirectiveNoFileComp)
              end)
  end.

(** The [id]s among the entries that a predicate on the entry accepts and the prefix fits. *)
Definition idsOf (keep : object → bool) (toComplete : string) (l : list json) : list string :=
  l ≫= λ raw,
    match raw with
    | JObj m => if keep m && hasPrefix (strField m "id") toComplete then [strField m "id"] else []
    | _ => []
    end.

(** The event IDs a plan completes to; no [states] accepts every state. *)
Definition eventIDs (states : option (list string)) (toComplete : string) (plan : object) : list string :=
  idsOf (λ ev, match states with
               | Some l => bool_decide (strField ev "state" ∈ l)
               | None => true
               end) toComplete (items (nestedSlice plan ["status"; "events"])).

Definition completeEventIDsInPlan (planName toComplete : string) (states : option (list string)) :
    KOp (list string * ShellCompDirective) :=
  withPlan completionError planName (λ plan,
    mret (eventIDs states toComplete plan, ShellCompDirectiveNoFileComp)).

Definition completeEventIDs (args : list string) (toComplete : string) : KOp (list string * ShellCompDirective) :=
  match args with
  | [] => completePlanNames args toComplete
  | [plan] => completeEventIDsInPlan plan toComplete (Some approvableEventStates)
  | _ => mret ([], ShellCompDirectiveNoFileComp)
  end.

Definition completeEventIDsForFlag (args : list string) (toComplete : string) :
    KOp (list string * ShellCompDirective) :=
  match args with
  | [] => mret ([], ShellCompDirectiveNoFileComp)
  | plan :: _ => completeEventIDsInPlan plan toComplete None
  end.

Definition approvalIDs (toComplete : string) (plan : object) : list string :=
  idsOf (λ _, true) toComplete (items (nestedSlice plan ["spec"; "approvals"])).

Definition completeApprovalIDs (args : list string) (toComplete : string) : KOp (list string * ShellCompDirective) :=
  match args with
  | [] => completePlanNames args toComplete
  | [plan] => withPlan completionError plan (λ p, mret (approvalIDs toComplete p, ShellCompDirectiveNoFileComp))
  | _ => mret ([], ShellCompDirectiveNoFileComp)
  end.

Definition completeConfirm (args : list string) (toComplete : string) : KOp (list string * ShellCompDirective) :=
  match args with
  | [] => completePlanNames args toComplete
  | [_] => mret (completeStaticValues recoveryTypes toComplete)
  | _ => mret ([], ShellCompDirectiveNoFileComp)
  end.

Definition completionRun (shell : string) : KOp (option GoErr) :=
  if bool_decide (shell ∈ ["bash"; "zsh"; "fish"; "powershell"]) then
    exchange (λ h, k_gen h shell) (KGenCompletion shell)
  else mret (Some (errorf ("unsupported shell: " +:+ shell))).

(** ** [approve.go] *)

Definition overrideField (override : string) : object :=
  if bool_decide (override = "") then [] else [("override", JObj [("recoveryType", JStr override)])].

Definition approveEntry (f : approveFlags) (eventID : string) : object :=
  [("eventId", JStr eventID)] ++ overrideField (approveOverride f) ++ omitStr "comment" (approveComment f).

Definition approveRun (f : approveFlags) (planName eventID : string) : KOp (option GoErr) :=
  match validateOverride (approveOverride f) with
  | Some e => mret (Some e)
  | None =>
      withClient Some
        (r ← addApproval planName (approveEntry f eventID);
         match r with
         | Some e => mret (Some (wrapErr "approve event: " e))
         | None =>
             _ ← print ("Approved event " +:+ eventID +:+ " on plan " +:+ planName +:+
                        (if bool_decide (approveOverride f = "") then ""
                         else ", overriding the recovery type to " +:+ approveOverride f) +:+ "." +:+ newline);
             mret None
         end)
  end.

(** ** [approvals.go] *)

Definition selectorLabels (sel : object) : string :=
  match mapGet sel "nodeSelector" with
  | Some (JObj raw) =>
      join "," (sortStrings ((λ kv : string * json,
        kv.1 +:+ "=" +:+ match kv.2 with JStr s => s | _ => "" end) <$> raw))
  | _ => ""
  end.

(** The kind, the target and whether the approval is persistent. *)
Definition approvalSummary (ap : object) : string * string * bool :=
  let persistent := boolField ap "persistent" in
  let eventID := strField ap "eventId" in
  if bool_decide (eventID ≠ "") then ("singular", eventID, persistent)
  else
    match mapGet ap "selector" with
    | Some (JObj sel) =>
        let part name s := if bool_decide (s = "") then [] else [name +:+ s] in
        match part "type=" (strField sel "recoveryType") ++ part "node=" (strField sel "nodeName")
              ++ part "labels=" (selectorLabels sel) with
        | [] => ("selector", "(any)", persistent)
        | parts => ("selector", join " " parts, persistent)
        end
    | _ => ("unknown", dash, persistent)
    end.

Definition approvalRow (ap : object) : list string :=
  let '(kind, target, persistent) := approvalSummary ap in
  [nestedString ap ["id"]; kind; target; orDash (nestedString ap ["override"; "recoveryType"]);
   boolString persistent; boolString (boolField ap "consumed"); orDash (nestedString ap ["comment"])].

(** The entries of a list that are objects. *)
Definition objects (l : list json) : list object :=
  omap (λ raw, match raw with JObj m => Some m | _ => None end) l.

Definition approvalsRun (planName : string) : KOp (option GoErr) :=
  withPlan Some planName (λ plan,
    match items (nestedSlice plan ["spec"; "approvals"]) with
    | [] => _ ← print ("No approvals." +:+ newline); mret None
    | l => flush (tabLine <$> approvalsHeader :: approvalsHeaderRule :: (approvalRow <$> objects l))
    end).

(** ** [confirm.go] *)

Definition toUnstructuredMap (m : labels) : object :=
  (λ kv : string * string, (kv.1, JStr kv.2)) <$> map_to_list m.

Definition confirmSelector (f : confirmFlags) (recoveryType : string) : object :=
  [("recoveryType", JStr recoveryType)] ++ omitStr "nodeName" (confirmNodeName f) ++
  (if bool_decide (confirmNodeSelector f = ∅) then []
   else [("nodeSelector", JObj (toUnstructuredMap (confirmNodeSelector f)))]).

Definition confirmEntry (f : confirmFlags) (recoveryType : string) : object :=
  [("selector", JObj (confirmSelector f recoveryType))] ++ omitBool "persistent" (confirmPersistent f) ++
  overrideField (confirmOverride f) ++ omitStr "comment" (confirmComment f).

Definition approvalKind (persistent : bool) : string := if persistent then "persistent" else "one-shot".

Definition scopeSuffix (f : confirmFlags) : string :=
  if bool_decide (confirmNodeName f ≠ "") then " on node " +:+ confirmNodeName f
  else if bool_decide (confirmNodeSelector f ≠ ∅) then
    " on nodes matching " +:+ selectorLabels [("nodeSelector", JObj (toUnstructuredMap (confirmNodeSelector f)))]
  else "".

Definition overrideSuffix (override : string) : string :=
  if bool_decide (override = "") then "" else ", overriding the recovery type to " +:+ override.

(** The checks before anything is sent. *)
Definition confirmCheck (f : confirmFlags) (recoveryType : string) : option GoErr :=
  if negb (bool_decide (recoveryType ∈ recoveryTypes)) then
    Some (errorf ("invalid recovery type " +:+ goQuote recoveryType +:+ ": must be one of " +:+
                  join ", " recoveryTypes))
  else
    match validateOverride (confirmOverride f) with
    | Some e => Some e
    | None =>
        if bool_decide (confirmNodeName f ≠ "") && bool_decide (confirmNodeSelector f ≠ ∅)
        then Some (errorf "--node and --node-selector are mutually exclusive")
        else None
    end.

Definition confirmRun (f : confirmFlags) (planName recoveryType : string) : KOp (option GoErr) :=
  match confirmCheck f recoveryType with
  | Some e => mret (Some e)
  | None =>
      withClient Some
        (r ← addApproval planName (confirmEntry f recoveryType);
         match r with
         | Some e => mret (Some (wrapErr "confirm group: " e))
         | None =>
             _ ← print ("Added " +:+ approvalKind (confirmPersistent f) +:+ " " +:+ recoveryType +:+ " approval" +:+
                        scopeSuffix f +:+ " to plan " +:+ planName +:+ overrideSuffix (confirmOverride f) +:+ "." +:+
                        newline);
             mret None
         end)
  end.

(** ** [remove.go] *)

Definition removeRun (planName approvalID : string) : KOp (option GoErr) :=
  withClient Some
    (r ← removeApprovalByID planName approvalID;
     match r with
     | Some e => mret (Some (wrapErr "remove approval: " e))
     | None =>
         _ ← print ("Removed approval " +:+ approvalID +:+ " from plan " +:+ planName +:+ "." +:+ newline);
         mret None
     end).

(** ** [events.go] *)

Definition recoveryTypeSummary (ev : object) : string :=
  match mapGet ev "recoveryType" with
  | Some (JObj rt) =>
      let t := strField rt "type" in
      let suggested := strField rt "suggestedType" in
      if bool_decide (t = "") then dash
      else if bool_decide (suggested ≠ "") && bool_decide (suggested ≠ t) then t +:+ " (was " +:+ suggested +:+ ")"
      else t
  | _ => dash
  end.

Definition attemptCount (ev : object) : nat :=
  length (items (nestedSlice ev ["pastJobs"])) + (if bool_decide (nestedString ev ["jobName"] = "") then 0 else 1).

Definition blockers (ev : object) : list string :=
  ["podsBlockingDrain"; "claimsBlockingReset"] ≫= λ field,
    items (nestedSlice ev [field]) ≫= λ raw,
      match raw with JStr s => if bool_decide (s = "") then [] else [s] | _ => [] end.

(** The cells of an event's line, with the rendering of its age. *)
Definition eventRow (wide : bool) (updated : string) (ev : object) : list string :=
  let message := nestedString ev ["stateMessage"] in
  [nestedString ev ["id"]; nestedString ev ["state"]; recoveryTypeSummary ev; nestedString ev ["nodeName"];
   nestedString ev ["gpuBDF"]; itoa (Z.of_nat (attemptCount ev)); updated] ++
  (if wide
   then [orDash (nestedString ev ["approvalId"]); orDash (nestedString ev ["jobName"]); joinOrDash (blockers ev);
         orDash message]
   else [orDash (truncate message stateMessageWidth)]).

(** The loop that writes one line per event. *)
Fixpoint eventLines (wide : bool) (l : list object) : KOp (list string) :=
  match l with
  | [] => mret []
  | ev :: l' =>
      updated ← formatTime (nestedString ev ["lastUpdated"]);
      rest ← eventLines wide l';
      mret (tabLine (eventRow wide updated ev) :: rest)
  end.

Definition eventsRun (eventsOutput : string) (planName : string) : KOp (option GoErr) :=
  match parseOutputFormat eventsOutput with
  | (_, Some e) => mret (Some e)
  | (format, None) =>
      withPlan Some planName (λ plan,
        let events := nestedSlice plan ["status"; "events"] in
        if bool_decide (format = outputYAML) then printYAML (JList (items events))
        else
          match items events with
          | [] => _ ← print ("No events." +:+ newline); mret None
          | l =>
              let wide := bool_decide (format = outputWide) in
              lines ← eventLines wide (objects l);
              flush ((if wide then [tabLine eventsWideHeader; tabLine eventsWideHeaderRule]
                      else [tabLine eventsHeader; tabLine eventsHeaderRule]) ++ lines)
          end)
  end.

(** ** [messages.go] *)

Definition planMessages (plan : object) (eventID : string) (tail : Z) : list string :=
  let out := items (nestedSlice plan ["status"; "messages"]) ≫= λ item,
    match item with
    | JStr msg => if bool_decide (eventID ≠ "") && negb (contains msg eventID) then [] else [msg]
    | _ => []
    end in
  if (0 <? tail)%Z && (tail <? Z.of_nat (length out))%Z then drop (length out - Z.to_nat tail) out else out.

Definition messagesRun (f : messagesFlags) (planName : string) : KOp (option GoErr) :=
  if (messagesTail f <? 0)%Z then mret (Some (errorf "--tail must not be negative"))
  else
    withPlan Some planName (λ plan,
      match planMessages plan (messagesEvent f) (messagesTail f) with
      | [] =>
          _ ← print (if bool_decide (messagesEvent f ≠ "")
                     then "No messages mentioning " +:+ messagesEvent f +:+ "." +:+ newline
                     else "No messages." +:+ newline);
          mret None
      | messages => _ ← forEach (λ msg, print (msg +:+ newline)) messages; mret None
      end).

(** ** [plans.go] *)

Definition countWaitingEvents (events : list json) : nat :=
  length (filter (λ ev, strField ev "state" ∈ approvableEventStates) (objects events)).

Definition planRow (now : Z) (item : object) : list string :=
  let events := items (nestedSlice item ["status"; "events"]) in
  let approvals := items (nestedSlice item ["spec"; "approvals"]) in
  [GetName item; orDash (nestedString item ["spec"; "deviceId"]); orDash (nestedString item ["spec"; "defaultResetType"]);
   orDash (nestedString item ["status"; "state"]); itoa (Z.of_nat (length events));
   itoa (Z.of_nat (countWaitingEvents events)); itoa (Z.of_nat (length approvals));
   compactDuration (since now (GetCreationTimestamp item))].

Fixpoint planLines (l : list object) : KOp (list string) :=
  match l with
  | [] => mret []
  | item :: l' =>
      now ← timeNow;
      rest ← planLines l';
      mret (tabLine (planRow now item) :: rest)
  end.

Definition plansRun : KOp (option GoErr) :=
  withClient Some
    (r ← exchange k_list KList;
     match r with
     | Err e => mret (Some (wrapErr "listing GPURecoveryPlans: " e))
     | Ok [] => _ ← print ("No GPURecoveryPlans found." +:+ newline); mret None
     | Ok plans =>
         lines ← planLines plans;
         flush (tabLine plansHeader :: tabLine plansHeaderRule :: lines)
     end).
End Client.

(** ** [main.go]: the exit code after a command's error, if any. *)
Definition pluginMain (r : option GoErr) : KOp Z :=
  match r with
  | Some e => _ ← exchange (λ _, tt) (λ _, KStderr ("Error: " +:+ etext e +:+ newline)); mret 1%Z
  | None => mret 0%Z
  end.
End Plugin.
