(* ===== verification/KubectlFacts.v ===== *)
(** * The kubectl plugin: edits of the approvals

    What the plugin relies on of the API machinery and of the API server, and the theorem that its two
    edits of a plan are atomic: they refine an edit of the stored list of approvals. *)

From S2P Require Import Prelude GoStrings KubeTypes ApiTypes Common PolicyTypes PolicyObjects Client PlanJson Kubectl.

(** ** Assumptions *)

(** The value at a path of keys. *)
Fixpoint path (fs : list string) (v : json) : option json :=
  match fs with
  | [] => Some v
  | f :: fs' => match v with JObj m => mapGet m f ≫= path fs' | _ => None end
  end.

(** Neither path leads through the other. *)
Definition apart (fs gs : list string) : Prop := ¬ fs `prefix_of` gs ∧ ¬ gs `prefix_of` fs.

(** The documentation of package [unstructured]: a value of another type or a missing one reads as the zero
    value; a slice is set at its path and nowhere else. *)
Class UnstructuredLaws `{!Kubectl} : Prop := {
  NestedSlice_path m fs :
    NestedSlice m fs = match path fs (JObj m) with Some (JList l) => Some l | _ => None end;
  NestedString_path m fs :
    NestedString m fs = match path fs (JObj m) with Some (JStr s) => s | _ => "" end;
  SetNestedSlice_sets m l fs m' :
    SetNestedSlice m l fs = Ok m' → path fs (JObj m') = Some (JList l);
  SetNestedSlice_rest m l fs m' gs :
    SetNestedSlice m l fs = Ok m' → apart fs gs → path gs (JObj m') = path gs (JObj m);
}.

Definition planNameOf (p : object) : option json := path ["metadata"; "name"] (JObj p).
Definition resourceVersionOf (p : object) : option json := path ["metadata"; "resourceVersion"] (JObj p).

(** The API server's optimistic concurrency.  Between the exchanges of the plugin other clients write, so
    what is stored when a request is served is a function of the exchanges before it, and any function.  A
    read returns what is stored; a write is accepted only while the stored object has the version the
    written one names; two contents of one object never share a version. *)
Class VersionedServer `{!Kubectl} := {
  k_stored : list KEv → string → option object;
  k_get_stored h n p : k_get h n = Ok p → k_stored h n = Some p ∧ planNameOf p = Some (JStr n);
  k_update_current h n p p' :
    k_update h p = Ok p' → planNameOf p = Some (JStr n) →
    ∃ q, k_stored h n = Some q ∧ resourceVersionOf q = resourceVersionOf p;
  k_version_unique h h' n q q' :
    h `suffix_of` h' → k_stored h n = Some q → k_stored h' n = Some q' → resourceVersionOf q = resourceVersionOf q' → q = q';
}.

(** ** Specification *)

Inductive edit := AddApproval (a : object) | RemoveApproval (id : string).

Definition hasID (id : string) (raw : json) : bool :=
  match raw with JObj ap => bool_decide (strField ap "id" = id) | _ => false end.

(** What an edit makes of the list of approvals; [None] when it does not apply. *)
Definition editList (e : edit) (l : list json) : option (list json) :=
  match e with
  | AddApproval a => Some (l ++ [JObj a])
  | RemoveApproval id => if existsb (hasID id) l then Some (filter (λ raw, hasID id raw = false) l) else None
  end.

Definition approvalsOf (p : object) : list json :=
  match path ["spec"; "approvals"] (JObj p) with Some (JList l) => l | _ => [] end.

(** The plan [p'] is [p] with its approvals edited and nothing else changed. *)
Definition editedTo (e : edit) (p p' : object) : Prop :=
  ∃ l, editList e (approvalsOf p) = Some l ∧ path ["spec"; "approvals"] (JObj p') = Some (JList l) ∧
       ∀ gs, apart ["spec"; "approvals"] gs → path gs (JObj p') = path gs (JObj p).

Lemma withoutApproval_spec id l :
  withoutApproval id l = (filter (λ raw, hasID id raw = false) l, existsb (hasID id) l).
Proof.
  induction l as [|raw l IH]; [done|]. cbn [withoutApproval existsb]. rewrite IH, filter_cons.
  destruct raw as [| | | | |ap]; try done. cbn [hasID]. by case_bool_decide.
Qed.

(** ** Retries *)

(** The exchanges of a retried operation: attempts that met a conflict, then the one that ended it. *)
Inductive attempts {E} (A : list E → option GoErr → list E → Prop) : nat → list E → option GoErr → list E → Prop :=
| attempts_last n B r seg :
    A B r seg → (∀ e, r = Some e → isConflict e = true → n ≤ 1) → attempts A n B r seg
| attempts_again n B e seg r seg' :
    A B (Some e) seg → isConflict e = true → attempts A (S n) (seg ++ B) r seg' →
    attempts A (S (S n)) B r (seg' ++ seg).

Lemma retryLoop_attempts {E S} A n (fn : M E S (option GoErr)) w :
  (∀ w, wp fn (λ r w', ∃ seg, log w' = seg ++ log w ∧ A (log w) r seg) w) →
  wp (retryLoop n fn) (λ r w', ∃ seg, log w' = seg ++ log w ∧ attempts A n (log w) r seg) w.
Proof.
  intros Hfn. revert w. induction n as [|n IH]; intros w; cbn [retryLoop]; apply wp_bind;
    (eapply wp_mono; [apply Hfn|]); intros r w1 (seg & Hw1 & HA).
  { assert (∃ seg0, log w1 = seg0 ++ log w ∧ attempts A 0 (log w) r seg0) as Hres.
    { exists seg. split; [done|]. constructor; [done|]. intros; lia. }
    by destruct r; apply wp_ret. }
  destruct r as [e|]; [|apply wp_ret; exists seg; split; [done|]; by constructor].
  destruct n as [|n]; [apply wp_ret; exists seg; split; [done|]; constructor; [done|intros; lia]|].
  destruct (isConflict e) eqn:He.
  - eapply wp_mono; [apply IH|]. intros r w2 (seg' & Hw2 & Hatt). exists (seg' ++ seg).
    rewrite Hw2, Hw1, app_assoc. split; [done|]. rewrite Hw1 in Hatt. by econstructor.
  - apply wp_ret. exists seg. split; [done|]. constructor; [done|]. intros e' [= <-]. by rewrite He.
Qed.

(** ** The edits *)

Section Edits.
Context `{!Kubectl}.

Definition runEdit (e : edit) (planName : string) : KOp (option GoErr) :=
  match e with
  | AddApproval a => addApproval planName a
  | RemoveApproval id => removeApprovalByID planName id
  end.

(** The edit does not apply to the plan, or its approvals cannot be set. *)
Definition inapplicable (e : edit) (p : object) : Prop :=
  ∀ l, editList e (approvalsOf p) = Some l → ∃ err, SetNestedSlice p l ["spec"; "approvals"] = Err err.

(** One attempt: the plan is read; if the edit applies to it the edited plan is sent, and the result is the
    server's answer. *)
Definition attempt (e : edit) (n : string) (B : list KEv) (r : option GoErr) (seg : list KEv) : Prop :=
  (∃ err err', seg = [KGet n (Err err)] ∧ r = Some err') ∨
  (∃ p err, seg = [KGet n (Ok p)] ∧ r = Some err ∧ inapplicable e p) ∨
  (∃ p p' u, seg = [KUpdate p' u; KGet n (Ok p)] ∧ k_get B n = Ok p ∧ editedTo e p p' ∧
             k_update (KGet n (Ok p) :: B) p' = u ∧ match u with Ok _ => r = None | Err err => r = Some err end).

Context `{!UnstructuredLaws}.

Lemma items_approvals p : items (nestedSlice p ["spec"; "approvals"]) = approvalsOf p.
Proof. unfold nestedSlice, approvalsOf. rewrite NestedSlice_path. by destruct (path _ _) as [[]|]. Qed.

Lemma editedTo_set e p l p' :
  editList e (approvalsOf p) = Some l → SetNestedSlice p l ["spec"; "approvals"] = Ok p' → editedTo e p p'.
Proof.
  intros Hl Hs. exists l. split_and!; [done|by eapply SetNestedSlice_sets|]. intros gs Hgs.
  by eapply SetNestedSlice_rest.
Qed.

Lemma updatePlan_attempt e n p p' (w : World KEv unit) :
  k_get (log w) n = Ok p → editedTo e p p' →
  wp (updatePlan p') (λ r w', ∃ seg, log w' = seg ++ log w ∧ attempt e n (log w) r seg)
    (mkWorld tt (KGet n (Ok p) :: log w)).
Proof.
  intros Hget He. unfold updatePlan. apply wp_bind, wp_exchange, wp_ret. cbn [log].
  eexists [_; _]. split; [reflexivity|]. right; right. exists p, p', (k_update (KGet n (Ok p) :: log w) p').
  split_and!; [done..|]. by destruct (k_update _ _).
Qed.

Lemma addApprovalOnce_attempt n a w :
  wp (addApprovalOnce n a) (λ r w', ∃ seg, log w' = seg ++ log w ∧ attempt (AddApproval a) n (log w) r seg) w.
Proof.
  destruct w as [[] B]. unfold addApprovalOnce, getPlan. apply wp_bind, wp_bind, wp_exchange. cbn [log].
  destruct (k_get B n) as [p|err] eqn:Hget; apply wp_ret; cbn [mem log].
  2: { apply wp_ret. exists [KGet n (Err err)]. split; [done|]. left. eauto. }
  cbv zeta. rewrite items_approvals.
  destruct (SetNestedSlice p _ _) as [p'|err] eqn:Hset.
  2: { apply wp_ret. exists [KGet n (Ok p)]. split; [done|]. right; left. exists p. eexists. split_and!; [done..|].
       intros l [= <-]. eauto. }
  by apply (updatePlan_attempt _ _ p p' (mkWorld tt B)), (editedTo_set (AddApproval a) p _ p' eq_refl Hset).
Qed.

Lemma removeApprovalOnce_attempt n id w :
  wp (removeApprovalOnce n id) (λ r w', ∃ seg, log w' = seg ++ log w ∧ attempt (RemoveApproval id) n (log w) r seg) w.
Proof.
  destruct w as [[] B]. unfold removeApprovalOnce, getPlan. apply wp_bind, wp_bind, wp_exchange. cbn [log].
  destruct (k_get B n) as [p|err] eqn:Hget; apply wp_ret; cbn [mem log].
  2: { apply wp_ret. exists [KGet n (Err err)]. split; [done|]. left. eauto. }
  rewrite items_approvals, withoutApproval_spec. destruct (existsb _ _) eqn:Hex; cbn [negb].
  2: { apply wp_ret. exists [KGet n (Ok p)]. split; [done|]. right; left. exists p. eexists. split_and!; [done..|].
       intros l. simpl. by rewrite Hex. }
  assert (editList (RemoveApproval id) (approvalsOf p) = Some (filter (λ raw, hasID id raw = false) (approvalsOf p))) as He.
  { simpl. by rewrite Hex. }
  destruct (SetNestedSlice p _ _) as [p'|err] eqn:Hset.
  2: { apply wp_ret. exists [KGet n (Ok p)]. split; [done|]. right; left. exists p. eexists. split_and!; [done..|].
       intros l. rewrite He. intros [= <-]. eauto. }
  by apply (updatePlan_attempt _ _ p p' (mkWorld tt B)), (editedTo_set _ _ _ _ He Hset).
Qed.

Lemma runEdit_attempts e n w :
  wp (runEdit e n) (λ r w', ∃ seg, log w' = seg ++ log w ∧ attempts (attempt e n) k_retrySteps (log w) r seg) w.
Proof.
  destruct e; apply retryLoop_attempts; intros w'; [apply addApprovalOnce_attempt|apply removeApprovalOnce_attempt].
Qed.

(** ** Atomicity *)

Definition acceptedWrite (ev : KEv) : bool := match ev with KUpdate _ (Ok _) => true | _ => false end.
Definition planRead (ev : KEv) : bool := match ev with KGet _ _ => true | _ => false end.

(** Why the last attempt of an edit returned the error: the read failed, the plan read does not take the
    edit, or the server refused the write. *)
Definition failedFor (e : edit) (n : string) (err : GoErr) (seg : list KEv) : Prop :=
  match seg with
  | KGet n' (Err _) :: _ => n' = n
  | KGet n' (Ok p) :: _ => n' = n ∧ inapplicable e p
  | KUpdate _ (Err err') :: _ => err' = err
  | _ => False
  end.

(** The exchanges [seg] of an edit that follow the history [B]. *)
Definition editOutcome `{!VersionedServer} (e : edit) (n : string) (B : list KEv) (r : option GoErr) (seg : list KEv) : Prop :=
  match r with
  | None =>
      ∃ p p' s pre, seg = KUpdate p' (Ok s) :: pre ∧ k_stored (pre ++ B) n = Some p ∧ editedTo e p p' ∧
                    Forall (λ ev, acceptedWrite ev = false) pre
  | Some err =>
      Forall (λ ev, acceptedWrite ev = false) seg ∧ failedFor e n err seg
  end.

Context `{!VersionedServer}.

(** A write the server takes replaces the plan that was read. *)
Lemma accepted_replaces e n B p p' s :
  k_get B n = Ok p → editedTo e p p' → k_update (KGet n (Ok p) :: B) p' = Ok s →
  k_stored (KGet n (Ok p) :: B) n = Some p.
Proof.
  intros Hget (l & _ & _ & Hrest) Hup. apply k_get_stored in Hget as [Hst Hname].
  assert (∀ f, apart ["spec"; "approvals"] ["metadata"; f]) as Hap.
  { intros f. split; intros [k Hk]; by inversion Hk. }
  assert (planNameOf p' = Some (JStr n)) as Hname' by (unfold planNameOf; by rewrite Hrest).
  destruct (k_update_current _ _ _ _ Hup Hname') as (q & Hq & Hv).
  rewrite Hq. f_equal. symmetry. eapply k_version_unique; [|exact Hst|exact Hq|]; [by eexists [_]|].
  rewrite Hv. symmetry. by apply Hrest.
Qed.

Lemma attempt_outcome e n B r seg : attempt e n B r seg → editOutcome e n B r seg.
Proof.
  intros [(err & err' & -> & ->)|[(p & err & -> & -> & Hna)|(p & p' & u & -> & Hget & He & Hup & Hr)]].
  - split; [by repeat constructor|done].
  - split; [by repeat constructor|done].
  - destruct u as [s|err]; subst r; [|split; [by repeat constructor|done]].
    exists p, p', s, [KGet n (Ok p)]. split_and!; [done| |done|by repeat constructor]. by eapply accepted_replaces.
Qed.

Lemma attempt_reads e n B r seg : attempt e n B r seg → length (filter (λ ev, planRead ev = true) seg) = 1.
Proof. by intros [(? & ? & -> & _)|[(? & ? & -> & _)|(? & ? & ? & -> & _)]]. Qed.

Lemma attempts_outcome e n steps B r seg : attempts (attempt e n) steps B r seg → editOutcome e n B r seg.
Proof.
  induction 1 as [steps B r seg HA _|steps B err seg r seg' HA Hc _ IH]; [by apply attempt_outcome|].
  apply attempt_outcome in HA as [Hno _]. destruct r as [err'|].
  - destruct IH as [Hno' Hf]. split; [by apply Forall_app|]. by destruct seg'.
  - destruct IH as (p & p' & s & pre & -> & Hst & He & Hno'). exists p, p', s, (pre ++ seg).
    rewrite <- app_assoc. split_and!; [done..|]. by apply Forall_app.
Qed.

Lemma attempts_reads e n steps B r seg :
  attempts (attempt e n) steps B r seg →
  length (filter (λ ev, planRead ev = true) seg) ≤ steps `max` 1 ∧
  (∀ err, r = Some err → isConflict err = true → length (filter (λ ev, planRead ev = true) seg) = steps `max` 1).
Proof.
  induction 1 as [steps B r seg HA Hc|steps B err seg r seg' HA Hc _ [IH1 IH2]].
  - rewrite (attempt_reads _ _ _ _ _ HA). split; [lia|]. intros err -> Hk. specialize (Hc err eq_refl Hk). lia.
  - rewrite filter_app, length_app, (attempt_reads _ _ _ _ _ HA). split; [lia|]. intros err' -> Hk.
    rewrite (IH2 err' eq_refl Hk). lia.
Qed.

End Edits.
