(* ===== verification/KubectlScenario.v ===== *)
(** * The kubectl plugin: a worked scenario

    A server with one recovery plan that another client edits right after the plugin's first read, and a
    plain implementation of the helpers for unstructured objects.  They show that the assumptions about both
    can hold together, and the examples run whole commands against them. *)

From S2P Require Import Prelude GoStrings KubeTypes ApiTypes Common PolicyTypes PolicyObjects Client PlanJson Kubectl KubectlFacts.

(** ** Unstructured objects *)

Fixpoint mapSet (m : object) (k : string) (v : json) : object :=
  match m with
  | [] => [(k, v)]
  | (k', v') :: m' => if String.eqb k k' then (k, v) :: m' else (k', v') :: mapSet m' k v
  end.

Lemma mapGet_mapSet m k v k' : mapGet (mapSet m k v) k' = if String.eqb k' k then Some v else mapGet m k'.
Proof.
  induction m as [|[k0 v0] m IH]; simpl; [done|]. destruct (String.eqb_spec k k0) as [<-|Hk]; simpl.
  - by destruct (String.eqb_spec k' k).
  - rewrite IH. destruct (String.eqb_spec k' k0) as [->|]; [|done]. destruct (String.eqb_spec k0 k); [by subst|done].
Qed.

Fixpoint setSlice (m : object) (l : list json) (fs : list string) : res object :=
  match fs with
  | [] => Err (errorf "no fields")
  | [f] => Ok (mapSet m f (JList l))
  | f :: fs' =>
      match mapGet m f with
      | None => match setSlice [] l fs' with Ok sub => Ok (mapSet m f (JObj sub)) | Err e => Err e end
      | Some (JObj m') => match setSlice m' l fs' with Ok sub => Ok (mapSet m f (JObj sub)) | Err e => Err e end
      | Some _ => Err (errorf "not a map")
      end
  end.

(** One step down the path. *)
Lemma setSlice_step m l f g fs m' :
  setSlice m l (f :: g :: fs) = Ok m' →
  ∃ sub0 sub, setSlice sub0 l (g :: fs) = Ok sub ∧ m' = mapSet m f (JObj sub) ∧
              (mapGet m f = None ∧ sub0 = [] ∨ mapGet m f = Some (JObj sub0)).
Proof.
  change (setSlice m l (f :: g :: fs)) with
    (match mapGet m f with
     | None => match setSlice [] l (g :: fs) with Ok sub => Ok (mapSet m f (JObj sub)) | Err e => Err e end
     | Some (JObj m') => match setSlice m' l (g :: fs) with Ok sub => Ok (mapSet m f (JObj sub)) | Err e => Err e end
     | Some _ => Err (errorf "not a map")
     end).
  destruct (mapGet m f) as [[| | | | |m0]|] eqn:Hm; try done.
  - destruct (setSlice m0 l (g :: fs)) as [sub|] eqn:Hs; [|done]. intros [= <-]. exists m0, sub. auto.
  - destruct (setSlice [] l (g :: fs)) as [sub|] eqn:Hs; [|done]. intros [= <-]. exists [], sub. auto.
Qed.

Lemma path_mapSet m k v g gs :
  path (g :: gs) (JObj (mapSet m k v)) = if String.eqb g k then path gs v else path (g :: gs) (JObj m).
Proof. simpl. rewrite mapGet_mapSet. by destruct (String.eqb g k). Qed.

Lemma setSlice_sets m l fs m' : setSlice m l fs = Ok m' → path fs (JObj m') = Some (JList l).
Proof.
  revert m m'. induction fs as [|f [|g fs] IH]; intros m m'; [done| |].
  - intros [= <-]. by rewrite path_mapSet, String.eqb_refl.
  - intros (sub0 & sub & Hs & -> & _)%setSlice_step. rewrite path_mapSet, String.eqb_refl. by apply (IH sub0).
Qed.

Lemma setSlice_rest m l fs m' gs :
  setSlice m l fs = Ok m' → apart fs gs → path gs (JObj m') = path gs (JObj m).
Proof.
  revert m m' gs. induction fs as [|f [|g fs] IH]; intros m m' gs; [done| |].
  - intros [= <-] [H1 H2]. destruct gs as [|h gs]; [destruct H2; apply prefix_nil|].
    rewrite path_mapSet. destruct (String.eqb_spec h f) as [->|]; [|done].
    destruct H1. apply prefix_cons, prefix_nil.
  - intros (sub0 & sub & Hs & -> & Hm)%setSlice_step [H1 H2].
    destruct gs as [|h gs]; [destruct H2; apply prefix_nil|].
    rewrite path_mapSet. destruct (String.eqb_spec h f) as [->|]; [|done].
    assert (apart (g :: fs) gs) as Hap by (split; intros Hp; [apply H1|apply H2]; by apply prefix_cons).
    rewrite (IH _ _ _ Hs Hap). cbn [path]. destruct Hm as [[-> ->]| ->]; [|done].
    destruct Hap as [_ Hne]. destruct gs as [|x gs]; [destruct Hne; apply prefix_nil|done].
Qed.

(** ** The server *)

Definition atVersion (v : string) (p : object) : object :=
  ("metadata", JObj [("name", JStr "plan"); ("resourceVersion", JStr v)]) ::
  filter (λ kv : string * json, kv.1 ≠ "metadata") p.

Definition groupEntry (id : string) : json := JObj [("id", JStr id); ("selector", JObj [("recoveryType", JStr "sbr")])].

Definition storedEvent : json :=
  encodeEvent (λ _, "2026-01-02T03:04:05Z")
    (mkRecoveryEvent "evt-n1-slot-02-00-0" "" None "n1" "0000:02:00.0" "gpu-wedged"
       (mkRecoveryTypeSpec RecoveryTypeSBR RecoveryTypeSlot) RecoveryEventStateFailed "the Job failed" 0 None
       ["ns/p"] ["ns/c"] "" ["j1"; "j2"] (Some 0%Z)).

Definition planWith (ids : list string) : object :=
  [("spec", JObj [("deviceId", JStr "0xe20b"); ("defaultResetType", JStr "slot"); ("approvals", JList (groupEntry <$> ids))]);
   ("status", JObj [("state", JStr "error"); ("messages", JList (JStr <$> ["one"; "two evt-x"; "three"]));
                    ("events", JList [storedEvent])])].

Definition versionAt (n : nat) : string := pretty (N.of_nat n).

(** The stored plan and the number of exchanges at its last change: the other client's edit follows the first read,
    an accepted write is stored under a new version. *)
Fixpoint server (h : list KEv) : nat * object :=
  match h with
  | [] => (0, planWith ["a1"])
  | KGet _ _ :: h' => if existsb planRead h' then server h' else (S (length h'), planWith ["a1"; "a2"])
  | KUpdate p (Ok _) :: h' => (S (length h'), p)
  | _ :: h' => server h'
  end.
Definition stored (h : list KEv) : object := atVersion (versionAt (server h).1) (server h).2.

Lemma server_age h : (server h).1 ≤ length h.
Proof. induction h as [|ev h IH]; [done|]. destruct ev; simpl; repeat case_match; simpl in *; lia. Qed.

Lemma server_unchanged h k : (server (k ++ h)).1 = (server h).1 → server (k ++ h) = server h.
Proof.
  induction k as [|ev k IH]; [done|]. intros Hv. pose proof (server_age h) as Hage.
  pose proof (server_age (k ++ h)) as Hage'. rewrite length_app in Hage'.
  assert ((server (ev :: k ++ h)).1 = S (length (k ++ h)) ∨ server (ev :: k ++ h) = server (k ++ h)) as [Hc|Hc].
  { destruct ev; simpl; repeat case_match; simpl; auto. }
  - rewrite <- app_comm_cons, Hc, length_app in Hv. lia.
  - rewrite <- app_comm_cons in *. rewrite Hc in Hv |- *. auto.
Qed.

Definition refusal : GoErr := mkErr Conflict "the object has been modified".

#[global] Instance demoKubectl : Kubectl := {|
  k_config _ _ _ := Ok tt;
  k_newClient _ := Ok tt;
  k_get h n := if bool_decide (n = "plan") then Ok (stored h) else Err (mkErr NotFound "not found");
  k_list h := Ok [stored h];
  k_update h p := if bool_decide (planNameOf p = Some (JStr "plan")) && bool_decide (resourceVersionOf p = resourceVersionOf (stored h))
                  then Ok p else Err refusal;
  k_now _ := (100 * 3600 * Second)%Z;
  k_write _ _ := None;
  k_flush _ _ := None;
  k_gen _ _ := None;
  k_retrySteps := 5;
  NestedSlice m fs := match path fs (JObj m) with Some (JList l) => Some l | _ => None end;
  NestedString m fs := match path fs (JObj m) with Some (JStr s) => s | _ => "" end;
  SetNestedSlice := setSlice;
  GetName m := match path ["metadata"; "name"] (JObj m) with Some (JStr s) => s | _ => "" end;
  GetCreationTimestamp _ := 0%Z;
  yamlMarshal _ := Ok "";
  timeParse _ := Some (98 * 3600 * Second)%Z;
  goQuote s := s;
|}.

#[global] Instance demoLaws : UnstructuredLaws.
Proof. split; [done|done|apply setSlice_sets|apply setSlice_rest]. Qed.

#[global] Instance demoServer : VersionedServer.
Proof.
  refine {| k_stored h n := if bool_decide (n = "plan") then Some (stored h) else None |}.
  - intros h n p. simpl. case_bool_decide; [|done]. intros [= <-]. by subst.
  - intros h n p p'. simpl. intros Hu Hn. case_bool_decide as Hp; [|done]. case_bool_decide as Hv; [|done].
    rewrite Hp in Hn. simplify_eq. rewrite bool_decide_true by done. eauto.
  - intros h h' n q q' [k ->]. case_bool_decide; [|done]. intros [= <-] [= <-] Hv. unfold stored in *.
    unfold resourceVersionOf in Hv. simpl in Hv. injection Hv as Hv. apply (inj pretty) in Hv.
    by rewrite (server_unchanged h k).
Defined.

(** ** Runs *)

Definition start : World KEv unit := mkWorld tt [].
Definition exit {A} (m : KOp A) : A := (m start).1.
Definition planAfter {A} (m : KOp A) : list json := approvalsOf (stored (log (m start).2)).
Definition printed {A} (m : KOp A) : list string :=
  omap (λ ev, match ev with KPrint t => Some t | _ => None end) (log (m start).2).
Definition table {A} (m : KOp A) : list (list string) :=
  omap (λ ev, match ev with KTable l _ => Some l | _ => None end) (log (m start).2).

Definition overrideSBR : approveFlags := mkApproveFlags "sbr" "why not".

(** The first write meets the other client's edit; the second attempt keeps that edit and adds the approval. *)
Example approve_keeps_others :
  let m := approveRun defaultRootFlags overrideSBR "plan" "evt-n1-slot-02-00-0" in
  exit m = None ∧
  planAfter m = [groupEntry "a1"; groupEntry "a2";
                 JObj [("eventId", JStr "evt-n1-slot-02-00-0"); ("override", JObj [("recoveryType", JStr "sbr")]);
                       ("comment", JStr "why not")]] ∧
  printed m = ["Approved event evt-n1-slot-02-00-0 on plan plan, overriding the recovery type to sbr." +:+ newline].
Proof. vm_compute. done. Qed.

Example remove_keeps_others :
  let m := removeRun defaultRootFlags "plan" "a1" in exit m = None ∧ planAfter m = [groupEntry "a2"].
Proof. vm_compute. done. Qed.

Example remove_unknown :
  let m := removeRun defaultRootFlags "plan" "a3" in
  exit m = Some (errorf "remove approval: approval a3 not found in plan plan") ∧ planAfter m = [groupEntry "a1"; groupEntry "a2"].
Proof. vm_compute. done. Qed.

Example events_listing :
  table (eventsRun defaultRootFlags "wide" "plan") =
  [[tabLine eventsWideHeader; tabLine eventsWideHeaderRule;
    tabLine ["evt-n1-slot-02-00-0"; "failed"; "sbr (was slot)"; "n1"; "0000:02:00.0"; "2"; "2h0m ago"; "-"; "-"; "ns/p,ns/c";
             "the Job failed"]]].
Proof. vm_compute. done. Qed.

Example plans_listing :
  table (plansRun defaultRootFlags) =
  [[tabLine plansHeader; tabLine plansHeaderRule; tabLine ["plan"; "0xe20b"; "slot"; "error"; "1"; "1"; "1"; "4d4h"]]].
Proof. vm_compute. done. Qed.

Example messages_tail :
  planMessages (stored []) "" 2 = ["two evt-x"; "three"] ∧ planMessages (stored []) "evt-x" 5 = ["two evt-x"].
Proof. vm_compute. done. Qed.

(** The hours are computed in floating point: one nanosecond short of 4097 hours reads as 4097. *)
Example compact_durations :
  compactDuration (-5) = "0s" ∧ compactDuration (59 * Second + 999999999) = "59s" ∧
  compactDuration (125 * Second) = "2m" ∧ compactDuration (24 * Hour - 1) = "23h59m" ∧
  compactDuration (49 * Hour) = "2d1h" ∧ compactDuration (2049 * Hour - 1) = "85d8h" ∧
  compactDuration (4097 * Hour - 1) = "170d17h".
Proof. vm_compute. done. Qed.

Example truncated : truncate "añb" 3 = "añb" ∧ truncate "añbcd" 3 = "añ…" ∧ truncate "ab" 0 = "ab".
Proof. vm_compute. done. Qed.

