(* ===== verification/KubectlAdmission.v ===== *)
(** * The kubectl plugin, the webhook and the controller

    What the plugin adds to a plan is admitted by the recovery plan's webhook and acted on by the
    controller: the composition of [cmd/kubectl-gpurecovery], the API types' JSON form, the admission of
    [api/v1alpha1/gpurecoveryplan_webhook.go] and the approval lookup of the reconciler. *)

From S2P Require Import Prelude GoStrings Regex KubeTypes ApiTypes Common PolicyTypes PolicyObjects Client Drain Cluster.
From S2P Require Import RecoveryNaming RecoveryEvents RecoveryController RecoveryScenario RecoveryWebhook RecoveryWebhookFacts.
From S2P Require Import PlanJson Kubectl KubectlFacts KubectlScenario.

(** The approval the documents of [approve] and [confirm] stand for. *)
Definition overrideOf (override : string) : option RecoveryOverride := mkRecoveryOverride <$> recoveryTypeOf override.

Definition approveApproval (f : approveFlags) (eventID : string) : RecoveryApproval :=
  mkRecoveryApproval "" eventID None (overrideOf (approveOverride f)) false false (approveComment f).

Definition confirmApproval (f : confirmFlags) (rt : RecoveryType) : RecoveryApproval :=
  mkRecoveryApproval "" "" (Some (mkApprovalSelector rt (confirmNodeName f) (confirmNodeSelector f)))
    (overrideOf (confirmOverride f)) (confirmPersistent f) false (confirmComment f).

(** A plan as the API server stores it: an override names a recovery type. *)
Definition typedOverride (a : RecoveryApproval) : Prop :=
  match ap_Override a with Some o => ov_RecoveryType o ≠ RecoveryTypeUnset | None => True end.

Section Facts.
Context `{!Kubectl}.

(** The overrides the plugin lets through are the ones the controller acts on. *)
Lemma validateOverride_iff ov :
  validateOverride ov = None ↔
  ov = "" ∨ ∃ rt, recoveryTypeOf ov = Some rt ∧ rt ≠ RecoveryTypeReflash.
Proof.
  unfold validateOverride. rewrite <- bool_decide_or. case_bool_decide as Hb.
  - split; [intros _|done]. destruct Hb as [->|Hin]; [by left|right]. unfold overridableRecoveryTypes in Hin.
    repeat (apply elem_of_cons in Hin as [->|Hin]; [by eexists|]). by apply not_elem_of_nil in Hin.
  - split; [by case_bool_decide|]. intros Hok. destruct Hb. destruct Hok as [->|(rt & Hrt & Hne)]; [by left|right].
    apply recoveryTypeOf_inv in Hrt as [-> Hu]. unfold overridableRecoveryTypes. destruct rt; try done; set_solver.
Qed.

Lemma overrideOf_reset ov o :
  validateOverride ov = None → overrideOf ov = Some o → ov_RecoveryType o ≠ RecoveryTypeReflash ∧ ov_RecoveryType o ≠ RecoveryTypeUnset.
Proof.
  unfold overrideOf. intros [->|(rt & Hrt & Hne)]%validateOverride_iff; [done|]. rewrite Hrt. intros [= <-]. simpl.
  by apply recoveryTypeOf_inv in Hrt as [_ ?].
Qed.

Lemma mapGet_overrideField ov k :
  mapGet (overrideField ov) k =
  if String.eqb k "override" then (if bool_decide (ov = "") then None else Some (JObj [("recoveryType", JStr ov)])) else None.
Proof. unfold overrideField. by destruct (bool_decide (ov = "")), (String.eqb k "override") eqn:E; simpl; rewrite ?E. Qed.

Lemma optional_override m ov :
  mapGet m "override" = (if bool_decide (ov = "") then None else Some (JObj [("recoveryType", JStr ov)])) →
  validateOverride ov = None →
  optional None (λ v, Some <$> asOverride v) m "override" = Some (overrideOf ov).
Proof.
  unfold optional, overrideOf. intros -> [->|(rt & Hrt & _)]%validateOverride_iff; [done|].
  case_bool_decide as He; [by rewrite He|]. simpl. cbn. by rewrite Hrt.
Qed.

#[local] Hint Rewrite mapGet_overrideField : mapGet.

Lemma decode_approveEntry f eventID :
  eventID ≠ "" → validateOverride (approveOverride f) = None →
  decodeApproval (JObj (approveEntry f eventID)) = Some (approveApproval f eventID).
Proof.
  intros Hid Hov. unfold decodeApproval, approveEntry.
  rewrite (optional_str _ "id" "") by (by fields). cbn [mbind option_bind].
  rewrite (optional_str _ "eventId" eventID) by (fields; by rewrite bool_decide_false). cbn [mbind option_bind].
  rewrite (optional_some _ "selector" encodeSelector asSelector None) by (fields; done). cbn [mbind option_bind].
  rewrite (optional_override _ (approveOverride f)) by (done || fields; by destruct (bool_decide _)). cbn [mbind option_bind].
  rewrite (optional_bool _ "persistent" false) by (by fields). cbn [mbind option_bind].
  rewrite (optional_bool _ "consumed" false) by (by fields). cbn [mbind option_bind].
  by rewrite (optional_str _ "comment" (approveComment f)) by (by fields).
Qed.

Lemma recoveryTypes_of s : s ∈ recoveryTypes → is_Some (recoveryTypeOf s).
Proof.
  unfold recoveryTypes. intros Hin.
  repeat (apply elem_of_cons in Hin as [->|Hin]; [by eexists|]). by apply not_elem_of_nil in Hin.
Qed.

Lemma confirmCheck_ok f s :
  confirmCheck f s = None → is_Some (recoveryTypeOf s) ∧ validateOverride (confirmOverride f) = None.
Proof.
  unfold confirmCheck. case_bool_decide as Hin; [|done]. simpl. destruct (validateOverride _); [done|].
  intros _. split; [by apply recoveryTypes_of|done].
Qed.

Lemma decode_confirmSelector f s rt :
  recoveryTypeOf s = Some rt →
  asSelector (JObj (confirmSelector f s)) = Some (mkApprovalSelector rt (confirmNodeName f) (confirmNodeSelector f)).
Proof.
  intros [-> Hu]%recoveryTypeOf_inv. unfold asSelector, confirmSelector.
  change (if bool_decide (confirmNodeSelector f = ∅) then [] else [("nodeSelector", JObj (toUnstructuredMap (confirmNodeSelector f)))])
    with (omitLabels "nodeSelector" (confirmNodeSelector f)).
  rewrite (optional_type _ "recoveryType" rt) by (fields; by destruct rt). cbn [mbind option_bind].
  rewrite (optional_str _ "nodeName" (confirmNodeName f)) by (fields; by destruct (bool_decide _)). cbn [mbind option_bind].
  by rewrite (optional_labels _ "nodeSelector" (confirmNodeSelector f)) by (by fields).
Qed.

Lemma decode_confirmEntry f s rt :
  confirmCheck f s = None → recoveryTypeOf s = Some rt →
  decodeApproval (JObj (confirmEntry f s)) = Some (confirmApproval f rt).
Proof.
  intros [_ Hov]%confirmCheck_ok Hrt. unfold decodeApproval, confirmEntry.
  rewrite (optional_str _ "id" "") by (by fields). cbn [mbind option_bind].
  rewrite (optional_str _ "eventId" "") by (by fields). cbn [mbind option_bind].
  rewrite (optional_some _ "selector" (λ _, JObj (confirmSelector f s)) asSelector
             (Some (mkApprovalSelector rt (confirmNodeName f) (confirmNodeSelector f)))).
  2: by fields.
  2: { intros a [= <-]. split; [done|by apply decode_confirmSelector]. }
  cbn [mbind option_bind].
  rewrite (optional_override _ (confirmOverride f)) by (done || fields; by destruct (bool_decide _)). cbn [mbind option_bind].
  rewrite (optional_bool _ "persistent" (confirmPersistent f)) by (fields; by destruct (confirmPersistent f)). cbn [mbind option_bind].
  rewrite (optional_bool _ "consumed" false) by (by fields). cbn [mbind option_bind].
  by rewrite (optional_str _ "comment" (confirmComment f)) by (by fields).
Qed.
End Facts.

Section Admission.
Context `{!Env, !Admission}.

Lemma givenIDs_snoc l a : ap_ID a = "" → givenIDs (l ++ [a]) = givenIDs l.
Proof. intros Ha. unfold givenIDs. rewrite fmap_app, filter_app. simpl. rewrite Ha. by rewrite app_nil_r. Qed.

Lemma sameApproval_valid a a' i :
  sameApproval a a' → validateApproval i a = None → validateApproval i a' = None.
Proof. by intros [->|[_ ->]]. Qed.

Lemma defaultXpuSmi_image x : xs_Image (defaultXpuSmi x) = xs_Image x.
Proof. unfold defaultXpuSmi. by case_bool_decide. Qed.

Lemma validSpec_defaultXpuSmi spec :
  validateRecoveryPlanSpec spec = None → validateRecoveryPlanSpec (set_sp_XpuSmi (defaultXpuSmi (sp_XpuSmi spec)) spec) = None.
Proof. unfold validateRecoveryPlanSpec. simpl. by rewrite defaultXpuSmi_image. Qed.

(** A valid plan with one more valid approval that has no ID: defaulting names it and the update is
    admitted. *)
Lemma appended_admitted plan a plan' :
  ValidateCreate plan = None → ap_ID a = "" → validateApproval 0 a = None →
  Default (set_plan_Approvals (plan_Approvals plan ++ [a]) plan) = inl plan' →
  ValidateUpdate plan plan' = None ∧
  ∃ l id, plan_Approvals plan' = l ++ [set_ap_ID id a] ∧ Forall2 sameApproval (plan_Approvals plan) l ∧ id ≠ "" ∧
          id ∉ ap_ID <$> l.
Proof.
  intros Hv Hid Ha. pose proof (validSpec_approvals _ Hv) as Hap. apply validateApprovals_spec in Hap as [Hnd Hok].
  unfold Default. cbv zeta. destruct (fillApprovalIDs _ _ 0) as [r|e] eqn:Hf; [|done]. intros [= <-].
  change (plan_Approvals (set_plan_Approvals (plan_Approvals plan ++ [a]) plan)) with (plan_Approvals plan ++ [a]) in Hf.
  apply fillApprovalIDs_spec in Hf as (Hsame & Hne & Huniq). rewrite givenIDs_snoc in Huniq by done.
  destruct Huniq as [Hu _]; [intros id; apply elem_of_list_to_set|done|].
  assert (Forall (λ a, validateApproval 0 a = None) r) as Hrok.
  { eapply Forall2_Forall_r; [exact Hsame|].
    apply Forall_app. split; [|by repeat constructor; eauto using sameApproval_valid].
    eapply Forall_impl; [exact Hok|]. simpl. eauto using sameApproval_valid. }
  split.
  - apply ValidateUpdate_sameFirmware; [done|]. apply (validSpec_defaultXpuSmi (set_sp_Approvals r (plan_Spec plan))).
    apply validSpec_set_approvals; [done|]. apply validateApprovals_spec. by rewrite givenIDs_all.
  - apply Forall2_app_inv_l in Hsame as (l & t & Hl & Ht & ->). apply Forall2_cons_inv_l in Ht as (a' & t' & Ha' & Ht' & ->).
    apply Forall2_nil_inv_l in Ht' as ->. rewrite Forall_app, Forall_singleton in Hne. destruct Hne as [_ Hne].
    rewrite fmap_app, NoDup_app in Hu. destruct Hu as (_ & Hdisj & _).
    exists l, (ap_ID a'). split_and!; [|done|done|].
    + change (l ++ [a'] = l ++ [set_ap_ID (ap_ID a') a]). destruct Ha' as [->|[_ <-]]; [|done]. by destruct a.
    + intros Hin. apply (Hdisj _ Hin). by left.
Qed.

(** The webhook can name a new approval of the plan: the stored ones have their IDs, and one of the ten draws
    of random bytes it may make gives an ID that is not taken, the draws before it having been answered. *)
Definition canName (plan : GPURecoveryPlan) : Prop :=
  Forall (λ a, ap_ID a ≠ "") (plan_Approvals plan) ∧
  ∃ j b, j < 10 ∧ randRead j = Ok b ∧ approvalPrefix +:+ hexEncode b ∉ ap_ID <$> plan_Approvals plan ∧
    ∀ i, i < j → ∃ b', randRead i = Ok b'.

Definition succeeded {A B} (x : A + B) : bool := match x with inl _ => true | inr _ => false end.

Lemma generateApprovalIDLoop_fresh n ids k j b :
  j < n → randRead (k + j) = Ok b → approvalPrefix +:+ hexEncode b ∉ ids →
  (∀ i, i < j → ∃ b', randRead (k + i) = Ok b') → succeeded (generateApprovalIDLoop n ids k).
Proof.
  revert k j. induction n as [|n IH]; intros k j Hj Hb Hfresh Hbefore; [lia|]. simpl. destruct j as [|j].
  - rewrite Nat.add_0_r in Hb. rewrite Hb, bool_decide_false by done. done.
  - destruct (Hbefore 0) as [b0 Hb0]; [lia|]. rewrite Nat.add_0_r in Hb0. rewrite Hb0. case_bool_decide; [|done].
    apply (IH (S k) j); [lia|by rewrite Nat.add_succ_comm|done|].
    intros i Hi. rewrite Nat.add_succ_comm. apply Hbefore. lia.
Qed.

Lemma fillApprovalIDs_snoc l a ids :
  Forall (λ a, ap_ID a ≠ "") l → succeeded (generateApprovalID ids 0) → succeeded (fillApprovalIDs (l ++ [a]) ids 0).
Proof.
  intros HF Hgen. induction HF as [|x l Hx _ IH]; simpl.
  - case_bool_decide; [|done]. by destruct (generateApprovalID ids 0) as [[[? ?] ?]|].
  - rewrite bool_decide_false by done. by destruct (fillApprovalIDs (l ++ [a]) ids 0).
Qed.

Lemma canName_Default plan a :
  canName plan → ap_ID a = "" → ∃ plan', Default (set_plan_Approvals (plan_Approvals plan ++ [a]) plan) = inl plan'.
Proof.
  intros (HF & j & b & Hj & Hb & Hfresh & Hbefore) Ha. unfold Default.
  change (plan_Approvals (set_plan_Approvals (plan_Approvals plan ++ [a]) plan)) with (plan_Approvals plan ++ [a]).
  rewrite givenIDs_snoc, givenIDs_all by done.
  assert (succeeded (fillApprovalIDs (plan_Approvals plan ++ [a]) (list_to_set (ap_ID <$> plan_Approvals plan)) 0)) as Hok.
  { apply fillApprovalIDs_snoc; [done|]. apply (generateApprovalIDLoop_fresh _ _ _ j b); [done|done| |done].
    by rewrite elem_of_list_to_set. }
  destruct (fillApprovalIDs _ _ 0); [by eexists|done].
Qed.

End Admission.

(** ** An example *)

Definition demoEnv : Env := clusterEnv (demoCluster true).
Definition approvedApprovals : list RecoveryApproval :=
  plan_Approvals (demoPlan true) ++ [approveApproval overrideSBR "evt-x"].
Definition approvedPlan : GPURecoveryPlan :=
  match @Default demoAdmission (set_plan_Approvals approvedApprovals (demoPlan true)) with
  | inl p => p
  | inr _ => demoPlan true
  end.

Lemma demo_canName : @canName demoAdmission (demoPlan true).
Proof.
  split; [by repeat constructor|]. exists 0. eexists. split; [lia|]. split; [reflexivity|]. split; [|intros i Hi; lia].
  vm_compute. by inversion 1 as [|? ? ? Hin]; subst; inversion Hin.
Qed.


(** ** The plugin's vocabulary and the operator's *)

Module Vocabulary.
Definition waitingEvent (st : RecoveryEventState) (rt : RecoveryTypeSpec) (approval : string) : RecoveryEvent :=
  mkRecoveryEvent "evt-n1-sbr-0000-02-00-0" approval None "n1" "0000:02:00.0" "" rt st "" 0 None [] [] "" [] None.

(** The cluster of the recovery scenario with the plan's approvals and events replaced. *)
Definition clusterWith (approvals : list RecoveryApproval) (events : list RecoveryEvent) : Cluster :=
  let c := demoCluster true in
  let p := set_plan_Approvals approvals (set_plan_Events events (demoPlan true)) in
  mkCluster (cl_now c) [p] (cl_fus c) (cl_nodes c) [] (cl_slices c) (cl_claims c) (cl_jobs c) (cl_images c) (cl_logs c).

Definition eventAfter (c : Cluster) (n : nat) : option RecoveryEvent :=
  head (filter (λ e, evt_ID e = "evt-n1-sbr-0000-02-00-0") (st_Events (statusAfter c n))).

Definition plainSBR : RecoveryTypeSpec := mkRecoveryTypeSpec RecoveryTypeSBR RecoveryTypeUnset.
Definition naming (id : string) : RecoveryApproval :=
  mkRecoveryApproval id "evt-n1-sbr-0000-02-00-0" None None false false "".
Definition group (rt : RecoveryType) : RecoveryApproval :=
  mkRecoveryApproval "app-g" "" (Some (mkApprovalSelector rt "" ∅)) None true false "".

Definition summary (e : RecoveryEvent) : RecoveryEventState * string * string * list string :=
  (evt_State e, evt_ApprovalID e, evt_JobName e, evt_PastJobs e).

(** An approval that names a blocked event starts it, although [approvableEventStates] leaves that state
    out; and the Job in flight is in [jobName], not yet in [pastJobs]. *)
Example blocked_event_approvable :
  bool_decide (RecoveryEventState_string RecoveryEventStateBlocked ∈ approvableEventStates) = false ∧
  summary <$> eventAfter (clusterWith [naming "app-new"] [waitingEvent RecoveryEventStateBlocked plainSBR "app-gone"]) 1
  = Some (RecoveryEventStateInProgress, "app-new", "recovery-evt-n1-sbr-0000-02-00-0-0", []).
Proof. vm_compute. done. Qed.

(** A selector is compared with the type an event carries, not with the type first suggested for it. *)
Example selector_by_current_type :
  let evt := waitingEvent RecoveryEventStateWaitingApproval (mkRecoveryTypeSpec RecoveryTypeSBR RecoveryTypeSlot) "" in
  summary <$> eventAfter (clusterWith [group RecoveryTypeSlot] [evt]) 1 = Some (RecoveryEventStateWaitingApproval, "", "", []) ∧
  (evt_ApprovalID <$> eventAfter (clusterWith [group RecoveryTypeSBR] [evt]) 1) = Some "app-g".
Proof. vm_compute. done. Qed.
End Vocabulary.
