(* ===== verification/KubectlListing.v ===== *)
(** * The kubectl plugin: the listings

    The plugin reads a plan through its JSON, where a misspelt or moved field reads as empty instead of
    failing to compile.  The theorem compares every listing with a rendering of the typed status. *)

From S2P Require Import Prelude GoStrings KubeTypes ApiTypes Common PolicyTypes PolicyObjects Client Cluster.
From S2P Require Import RecoveryScenario PlanJson Kubectl KubectlFacts KubectlScenario.

(** ** Rendering of the typed objects *)

Definition typeText (rt : RecoveryTypeSpec) : string :=
  if decide (rt_Type rt = RecoveryTypeUnset) then dash
  else RecoveryType_string (rt_Type rt) +:+
       (if decide (rt_SuggestedType rt = RecoveryTypeUnset ∨ rt_SuggestedType rt = rt_Type rt) then ""
        else " (was " +:+ RecoveryType_string (rt_SuggestedType rt) +:+ ")").

(** The attempts of an event: the concluded Jobs and the one in flight. *)
Definition attemptsOf (e : RecoveryEvent) : nat :=
  length (evt_PastJobs e) + (if decide (evt_JobName e = "") then 0 else 1).

Definition holdingBack (e : RecoveryEvent) : list string :=
  filter (λ s, s ≠ "") (evt_PodsBlockingDrain e ++ evt_ClaimsBlockingReset e).

Definition typedEventRow (wide : bool) (updated : string) (e : RecoveryEvent) : list string :=
  [evt_ID e; RecoveryEventState_string (evt_State e); typeText (evt_RecoveryType e); evt_NodeName e; evt_GPUBDF e;
   itoa (Z.of_nat (attemptsOf e)); updated] ++
  (if wide
   then [orDash (evt_ApprovalID e); orDash (evt_JobName e); joinOrDash (holdingBack e); orDash (evt_StateMessage e)]
   else [orDash (truncate (evt_StateMessage e) stateMessageWidth)]).

(** The states [approvableEventStates] names. *)
Definition waits (s : RecoveryEventState) : Prop :=
  s = RecoveryEventStateWaitingApproval ∨ s = RecoveryEventStateMissingFirmware ∨ s = RecoveryEventStateFailed.

Definition labelText (l : labels) : string :=
  join "," (sortStrings ((λ kv : string * string, kv.1 +:+ "=" +:+ kv.2) <$> map_to_list l)).

Definition targetText (s : ApprovalSelector) : string :=
  let part name s := if decide (s = "") then [] else [name +:+ s] in
  match (part "type=" (RecoveryType_string (sel_RecoveryType s)) ++ part "node=" (sel_NodeName s)
        ++ part "labels=" (labelText (sel_NodeSelector s)))%list with
  | [] => "(any)"
  | parts => join " " parts
  end.

Definition typedApprovalRow (a : RecoveryApproval) : list string :=
  [ap_ID a;
   if decide (ap_EventID a = "") then match ap_Selector a with Some _ => "selector" | None => "unknown" end else "singular";
   if decide (ap_EventID a = "") then match ap_Selector a with Some s => targetText s | None => dash end else ap_EventID a;
   orDash match ap_Override a with Some o => RecoveryType_string (ov_RecoveryType o) | None => "" end;
   boolString (ap_Persistent a); boolString (ap_Consumed a); orDash (ap_Comment a)].

(** The messages that mention the event, or all of them; and the last [tail] of them, or all. *)
Definition mentioning (eventID : string) (l : list string) : list string :=
  filter (λ m, eventID = "" ∨ contains m eventID = true) l.
Definition lastMessages (tail : Z) (l : list string) : list string :=
  if decide (tail = 0%Z) then l else drop (length l - Z.to_nat tail) l.

Section Listing.
Context `{!Kubectl, !UnstructuredLaws} (rfc3339 : Z → string).

(** ** The commands, on the typed plan *)

(** The age of a time, which the API server keeps in whole seconds. *)
Definition typedAge (t : option Z) : KOp string :=
  match t with
  | None => mret dash
  | Some t => now ← timeNow; mret (compactDuration (since now (t / Second * Second)%Z) +:+ " ago")
  end.

Fixpoint typedEventLines (wide : bool) (l : list RecoveryEvent) : KOp (list string) :=
  match l with
  | [] => mret []
  | e :: l' =>
      updated ← typedAge (evt_LastUpdated e);
      rest ← typedEventLines wide l';
      mret (tabLine (typedEventRow wide updated e) :: rest)
  end.

Definition typedEvents (format : outputFormat) (events : list RecoveryEvent) : KOp (option GoErr) :=
  if decide (format = outputYAML) then printYAML (JList (encodeEvent rfc3339 <$> events))
  else if decide (events = []) then (_ ← print ("No events." +:+ newline); mret None)
  else
    lines ← typedEventLines (bool_decide (format = outputWide)) events;
    flush ((if decide (format = outputWide) then [tabLine eventsWideHeader; tabLine eventsWideHeaderRule]
            else [tabLine eventsHeader; tabLine eventsHeaderRule]) ++ lines).

Definition typedApprovals (approvals : list RecoveryApproval) : KOp (option GoErr) :=
  if decide (approvals = []) then (_ ← print ("No approvals." +:+ newline); mret None)
  else flush (tabLine <$> approvalsHeader :: approvalsHeaderRule :: (typedApprovalRow <$> approvals)).

Definition typedMessages (eventID : string) (tail : Z) (messages : list string) : KOp (option GoErr) :=
  let shown := lastMessages tail (mentioning eventID messages) in
  if decide (shown = []) then
    (_ ← print (if decide (eventID = "") then "No messages." +:+ newline
                else "No messages mentioning " +:+ eventID +:+ "." +:+ newline);
     mret None)
  else (_ ← forEach (λ msg, print (msg +:+ newline)) shown; mret None).

Definition typedPlanRow (now : Z) (name : string) (created : Z) (p : GPURecoveryPlan) : list string :=
  [name; orDash (sp_DeviceID (plan_Spec p)); orDash (RecoveryType_string (sp_DefaultResetType (plan_Spec p)));
   orDash (PlanState_string (st_State (plan_Status p))); itoa (Z.of_nat (length (plan_Events p)));
   itoa (Z.of_nat (length (filter (λ e, waits (evt_State e)) (plan_Events p))));
   itoa (Z.of_nat (length (plan_Approvals p))); compactDuration (since now created)].

(** The document of a plan, by the struct tags of the API types; and its times can be read back, to the second. *)
Record planDocument (p : GPURecoveryPlan) (m : object) : Prop := {
  pd_status : path ["status"] (JObj m) = Some (encodeStatus rfc3339 (plan_Status p));
  pd_approvals : path ["spec"; "approvals"] (JObj m) =
    match plan_Approvals p with [] => None | l => Some (JList (encodeApproval <$> l)) end;
  pd_device : path ["spec"; "deviceId"] (JObj m) = Some (JStr (sp_DeviceID (plan_Spec p)));
  pd_reset : path ["spec"; "defaultResetType"] (JObj m) = Some (JStr (RecoveryType_string (sp_DefaultResetType (plan_Spec p))));
  pd_times : Forall (λ e, ∀ t, evt_LastUpdated e = Some t →
    rfc3339 t ≠ "" ∧ timeParse (rfc3339 t) = Some (t / Second * Second)%Z) (plan_Events p);
}.

(** What every command that shows a plan does first. *)
Definition loadPlan (flags : rootFlags) (name : string) : KOp (res object) :=
  cl ← newDynamicClient flags;
  match cl with Err e => mret (Err e) | Ok _ => getPlan name end.

(** ** Reading fields *)

Lemma nestedString_field m k : nestedString m [k] = strField m k.
Proof. unfold nestedString, strField. rewrite NestedString_path. simpl. by destruct (mapGet m k). Qed.

Lemma nestedSlice_field m k :
  items (nestedSlice m [k]) = match mapGet m k with Some (JList l) => l | _ => [] end.
Proof. unfold nestedSlice. rewrite NestedSlice_path. simpl. by destruct (mapGet m k) as [[]|]. Qed.

Lemma strField_omit m k s :
  mapGet m k = (if bool_decide (s = "") then None else Some (JStr s)) → strField m k = s.
Proof. unfold strField. intros ->. by case_bool_decide. Qed.

Lemma strField_is m k s : mapGet m k = Some (JStr s) → strField m k = s.
Proof. unfold strField. by intros ->. Qed.

Lemma boolField_omit m k (b : bool) :
  mapGet m k = (if b then Some (JBool true) else None) → boolField m k = b.
Proof. unfold boolField. intros ->. by destruct b. Qed.

Lemma slice_omit {A} m k (f : A → json) l :
  mapGet m k = match l with [] => None | _ => Some (JList (f <$> l)) end → items (nestedSlice m [k]) = f <$> l.
Proof. rewrite nestedSlice_field. intros ->. by destruct l. Qed.

(** ** Events *)

Definition fieldsOf (v : json) : object := match v with JObj m => m | _ => [] end.

Lemma objects_fmap {A} (f : A → json) l :
  (∀ a, ∃ m, f a = JObj m) → objects (f <$> l) = (λ a, fieldsOf (f a)) <$> l.
Proof.
  intros Hf. induction l as [|a l IH]; [done|]. rewrite !fmap_cons. cbn [objects omap list_omap].
  destruct (Hf a) as [m Hm]. rewrite Hm. cbn. f_equal. exact IH.
Qed.

Lemma nonEmpty_JStr l :
  (JStr <$> l) ≫= (λ raw, match raw with JStr s => if bool_decide (s = "") then [] else [s] | _ => [] end)
  = filter (λ s, s ≠ "") l.
Proof. induction l as [|s l IH]; [done|]. rewrite fmap_cons, bind_cons, IH, filter_cons. case_bool_decide; by case_decide. Qed.

Lemma typeText_spec rt m : mapGet m "recoveryType" = Some (encodeRecoveryType rt) → recoveryTypeSummary m = typeText rt.
Proof.
  intros Hm. unfold recoveryTypeSummary. rewrite Hm. unfold encodeRecoveryType.
  rewrite (strField_is _ "type" (RecoveryType_string (rt_Type rt))) by done.
  rewrite (strField_omit _ "suggestedType" (RecoveryType_string (rt_SuggestedType rt))) by (cbn; by fields).
  by destruct rt as [[] []].
Qed.

(** The fields of an encoded event, as the plugin reads them. *)
Record readsEvent (e : RecoveryEvent) (m : object) : Prop := {
  re_id : strField m "id" = evt_ID e;
  re_state : strField m "state" = RecoveryEventState_string (evt_State e);
  re_node : strField m "nodeName" = evt_NodeName e;
  re_bdf : strField m "gpuBDF" = evt_GPUBDF e;
  re_type : recoveryTypeSummary m = typeText (evt_RecoveryType e);
  re_message : strField m "stateMessage" = evt_StateMessage e;
  re_approval : strField m "approvalId" = evt_ApprovalID e;
  re_job : strField m "jobName" = evt_JobName e;
  re_past : items (nestedSlice m ["pastJobs"]) = JStr <$> evt_PastJobs e;
  re_pods : items (nestedSlice m ["podsBlockingDrain"]) = JStr <$> evt_PodsBlockingDrain e;
  re_claims : items (nestedSlice m ["claimsBlockingReset"]) = JStr <$> evt_ClaimsBlockingReset e;
  re_updated : strField m "lastUpdated" = match evt_LastUpdated e with Some t => rfc3339 t | None => "" end;
}.

Lemma encodeEvent_reads e : readsEvent e (fieldsOf (encodeEvent rfc3339 e)).
Proof.
  unfold encodeEvent, fieldsOf. split.
  1-4: apply strField_is; by fields.
  1: apply typeText_spec; by fields.
  1-3: apply strField_omit; fields; by destruct (bool_decide _).
  1-3: apply slice_omit; fields; by destruct (_ : list string).
  unfold strField. fields. by destruct (evt_LastUpdated e).
Qed.

Lemma eventRow_spec wide updated e m : readsEvent e m → eventRow wide updated m = typedEventRow wide updated e.
Proof.
  intros He. unfold eventRow, typedEventRow, attemptCount, blockers. rewrite !nestedString_field.
  rewrite (re_id _ _ He), (re_state _ _ He), (re_node _ _ He), (re_bdf _ _ He), (re_type _ _ He), (re_message _ _ He),
    (re_approval _ _ He), (re_job _ _ He), (re_past _ _ He). cbv zeta.
  cbn [mbind list_bind]. rewrite (re_pods _ _ He), (re_claims _ _ He).
  rewrite !nonEmpty_JStr, app_nil_r, <- filter_app, length_fmap. unfold attemptsOf.
  by case_bool_decide; case_decide.
Qed.

Lemma RecoveryEventState_waits s : RecoveryEventState_string s ∈ approvableEventStates ↔ waits s.
Proof. unfold approvableEventStates, waits. destruct s; simpl; set_solver. Qed.

(** ** The parts of a status *)

Lemma nestedSlice_under m f k v :
  path [f] (JObj m) = Some (JObj v) → items (nestedSlice m [f; k]) = items (nestedSlice v [k]).
Proof.
  rewrite nestedSlice_field. unfold nestedSlice. rewrite NestedSlice_path. simpl.
  destruct (mapGet m f) as [j|]; simpl; [|done]. intros [= ->]. by destruct (mapGet v k) as [[]|].
Qed.

Lemma status_events st m :
  path ["status"] (JObj m) = Some (encodeStatus rfc3339 st) →
  items (nestedSlice m ["status"; "events"]) = encodeEvent rfc3339 <$> st_Events st.
Proof.
  intros Hm. rewrite (nestedSlice_under _ _ _ _ Hm). apply slice_omit. fields. by destruct (st_Events st).
Qed.

Lemma status_messages st m :
  path ["status"] (JObj m) = Some (encodeStatus rfc3339 st) →
  items (nestedSlice m ["status"; "messages"]) = JStr <$> st_Messages st.
Proof.
  intros Hm. rewrite (nestedSlice_under _ _ _ _ Hm). apply slice_omit. fields. by destruct (st_Messages st).
Qed.

Lemma status_objects st m :
  path ["status"] (JObj m) = Some (encodeStatus rfc3339 st) →
  objects (items (nestedSlice m ["status"; "events"])) = (λ e, fieldsOf (encodeEvent rfc3339 e)) <$> st_Events st.
Proof. intros Hm. rewrite (status_events _ _ Hm). apply objects_fmap. intros e. by eexists. Qed.

Lemma idsOf_objects keep c l :
  idsOf keep c l = objects l ≫= λ m, if keep m && hasPrefix (strField m "id") c then [strField m "id"] else [].
Proof. induction l as [|[] l IH]; [done|exact IH..|]. simpl. f_equal. exact IH. Qed.

(** ** Messages *)

Lemma mentioning_JStr eventID l :
  (JStr <$> l) ≫= (λ item, match item with
    | JStr msg => if bool_decide (eventID ≠ "") && negb (contains msg eventID) then [] else [msg]
    | _ => []
    end) = mentioning eventID l.
Proof.
  unfold mentioning. induction l as [|s l IH]; [done|]. rewrite fmap_cons, bind_cons, IH, filter_cons.
  case_bool_decide as Hid; destruct (contains s eventID) eqn:Hc; simpl; case_decide as Hd; naive_solver.
Qed.

(** ** Approvals *)

(** The order in which the map of labels is visited does not show. *)
Lemma selectorLabels_order raw raw' :
  raw ≡ₚ raw' → selectorLabels [("nodeSelector", JObj raw)] = selectorLabels [("nodeSelector", JObj raw')].
Proof. intros Hp. unfold selectorLabels. simpl. f_equal. apply sortStrings_unique. by rewrite Hp. Qed.

Lemma selectorLabels_spec s : selectorLabels (fieldsOf (encodeSelector s)) = labelText (sel_NodeSelector s).
Proof.
  unfold selectorLabels, encodeSelector, fieldsOf, labelText. fields. case_bool_decide as He.
  - by rewrite He.
  - unfold encodeLabels. by rewrite <- list_fmap_compose.
Qed.

Lemma approvalSummary_spec a :
  approvalSummary (fieldsOf (encodeApproval a)) =
  (if decide (ap_EventID a = "") then match ap_Selector a with Some _ => "selector" | None => "unknown" end else "singular",
   if decide (ap_EventID a = "") then match ap_Selector a with Some s => targetText s | None => dash end else ap_EventID a,
   ap_Persistent a).
Proof.
  unfold approvalSummary, encodeApproval, fieldsOf.
  rewrite (boolField_omit _ "persistent" (ap_Persistent a)) by (fields; by destruct (ap_Persistent a)).
  rewrite (strField_omit _ "eventId" (ap_EventID a)) by (fields; by destruct (bool_decide _)). cbv zeta.
  case_bool_decide as He; case_decide; try done. fields.
  destruct (ap_Selector a) as [s|]; simpl; [|by fields].
  pose proof (selectorLabels_spec s) as Hl. unfold fieldsOf, encodeSelector in Hl. rewrite Hl. unfold targetText.
  rewrite (strField_omit _ "recoveryType" (RecoveryType_string (sel_RecoveryType s))) by (fields; by destruct (bool_decide _)).
  rewrite (strField_omit _ "nodeName" (sel_NodeName s)) by (fields; by destruct (bool_decide _)).
  assert (∀ (n t : string), (if bool_decide (t = "") then [] else [n +:+ t]) = (if decide (t = "") then [] else [n +:+ t])) as Hd
    by (intros n t; by case_bool_decide; case_decide).
  rewrite !Hd. by repeat case_decide.
Qed.

Lemma approvalRow_spec a : approvalRow (fieldsOf (encodeApproval a)) = typedApprovalRow a.
Proof.
  unfold approvalRow. rewrite approvalSummary_spec. unfold typedApprovalRow. rewrite !nestedString_field. unfold encodeApproval, fieldsOf.
  rewrite (strField_omit _ "id" (ap_ID a)) by (fields; by destruct (bool_decide _)).
  rewrite (strField_omit _ "comment" (ap_Comment a)) by (fields; by destruct (bool_decide _)).
  rewrite (boolField_omit _ "consumed" (ap_Consumed a)) by (fields; by destruct (ap_Consumed a)).
  do 3 f_equal. unfold nestedString. rewrite NestedString_path. cbn [path]. fields. by destruct (ap_Override a).
Qed.

Lemma countWaiting_spec l :
  length (filter (λ ev, strField ev "state" ∈ approvableEventStates) ((λ e, fieldsOf (encodeEvent rfc3339 e)) <$> l))
  = length (filter (λ e, waits (evt_State e)) l).
Proof.
  induction l as [|e l IH]; [done|]. rewrite fmap_cons, !filter_cons, (re_state _ _ (encodeEvent_reads e)).
  pose proof (RecoveryEventState_waits (evt_State e)) as Hw. case_decide as H1; case_decide as H2; simpl; naive_solver.
Qed.

Lemma waitingIDs_spec c l :
  ((λ e, fieldsOf (encodeEvent rfc3339 e)) <$> l) ≫=
    (λ m, if bool_decide (strField m "state" ∈ approvableEventStates) && hasPrefix (strField m "id") c
          then [strField m "id"] else [])
  = filter (λ id, hasPrefix id c = true) (evt_ID <$> filter (λ e, waits (evt_State e)) l).
Proof.
  induction l as [|e l IH]; [done|].
  rewrite fmap_cons, bind_cons, IH, filter_cons, (re_state _ _ (encodeEvent_reads e)), (re_id _ _ (encodeEvent_reads e)).
  pose proof (RecoveryEventState_waits (evt_State e)) as Hw.
  case_bool_decide as H1; case_decide as H2; simpl; [|naive_solver..].
  rewrite filter_cons. by destruct (hasPrefix (evt_ID e) c) eqn:Hp; case_decide.
Qed.

(** ** Whole commands *)

Lemma withPlan_loaded {A} flags (onErr : GoErr → A) name f w plan w' :
  loadPlan flags name w = (Ok plan, w') → withPlan flags onErr name f w = f plan w'.
Proof.
  unfold loadPlan, withPlan, withClient, mbind, M_bind. destruct (newDynamicClient flags w) as [[u|e] w1]; cbn [fst snd]; [|done].
  intros Hl. by rewrite Hl.
Qed.

Lemma bind_ext {A B} (m m' : KOp A) (f g : A → KOp B) w :
  m w = m' w → (∀ a w1, f a w1 = g a w1) → (m ≫= f) w = (m' ≫= g) w.
Proof. intros Hm Hf. unfold mbind, M_bind. by rewrite Hm, Hf. Qed.

Lemma eventLines_spec wide l w :
  Forall (λ e, ∀ t, evt_LastUpdated e = Some t →
    rfc3339 t ≠ "" ∧ timeParse (rfc3339 t) = Some (t / Second * Second)%Z) l →
  eventLines wide ((λ e, fieldsOf (encodeEvent rfc3339 e)) <$> l) w = typedEventLines wide l w.
Proof.
  intros HF. revert w. induction HF as [|e l He _ IH]; intros w; [done|]. rewrite fmap_cons.
  cbn [eventLines typedEventLines]. apply bind_ext.
  - rewrite nestedString_field, (re_updated _ _ (encodeEvent_reads e)). unfold formatTime, typedAge.
    destruct (evt_LastUpdated e) as [t|]; [|done]. destruct (He t eq_refl) as [Hne Hp].
    by rewrite bool_decide_false, Hp by done.
  - intros updated w1. apply bind_ext; [apply IH|]. intros rest w2. by rewrite (eventRow_spec _ _ e) by apply encodeEvent_reads.
Qed.

Lemma doc_approvals p plan : planDocument p plan →
  items (nestedSlice plan ["spec"; "approvals"]) = encodeApproval <$> plan_Approvals p.
Proof. intros Hd. unfold nestedSlice. rewrite NestedSlice_path, (pd_approvals _ _ Hd). by destruct (plan_Approvals p). Qed.

Lemma planMessages_spec p plan eventID tail : planDocument p plan → (0 ≤ tail)%Z →
  planMessages plan eventID tail = lastMessages tail (mentioning eventID (st_Messages (plan_Status p))).
Proof.
  intros Hd Ht. unfold planMessages. rewrite (status_messages _ _ (pd_status _ _ Hd)), mentioning_JStr. cbv zeta.
  unfold lastMessages. set (l := mentioning _ _). case_decide as Hz; [by rewrite Hz|].
  rewrite (proj2 (Z.ltb_lt 0 tail)) by lia. cbn [andb]. destruct (Z.ltb_spec tail (Z.of_nat (length l))); [done|].
  by replace (length l - Z.to_nat tail) with 0 by lia.
Qed.

Lemma nestedString_under m f k v :
  path [f] (JObj m) = Some (JObj v) → nestedString m [f; k] = strField v k.
Proof.
  unfold nestedString, strField. rewrite NestedString_path. simpl. destruct (mapGet m f) as [j|]; simpl; [|done].
  intros [= ->]. by destruct (mapGet v k).
Qed.

Lemma planRow_spec p plan now : planDocument p plan →
  planRow now plan = typedPlanRow now (GetName plan) (GetCreationTimestamp plan) p.
Proof.
  intros Hd. unfold planRow, typedPlanRow, countWaitingEvents. cbv zeta.
  rewrite (status_objects _ _ (pd_status _ _ Hd)), countWaiting_spec, (status_events _ _ (pd_status _ _ Hd)),
    (doc_approvals _ _ Hd), !length_fmap.
  rewrite (nestedString_under _ _ _ _ (pd_status _ _ Hd)).
  rewrite (strField_omit _ "state" (PlanState_string (st_State (plan_Status p)))) by (fields; by destruct (bool_decide _)).
  unfold nestedString. by rewrite !NestedString_path, (pd_device _ _ Hd), (pd_reset _ _ Hd).
Qed.

(** C26: the listings show what the plan holds.  For the document of a plan, encoded by the API types' struct
    tags, whose times can be read back to the second, and once the client is set up and the plan fetched,
    [events] prints the table of the typed events, in order, each with the age of its last change (or the YAML of
    them all), [approvals] that of the typed approvals, and [messages] the messages that mention the event, oldest
    first, the last ones of them when a tail is asked for; each says so when there is nothing to show.  The row of
    [plans] shows the device, reset type and state of the plan, the number of its events, of those that wait for
    an approval, lack firmware or failed, and of its approvals; the completion of [approve] offers the IDs of
    exactly those events. *)
Theorem kubectl_listings_faithful p plan :
  planDocument p plan →
  (∀ flags name w w', loadPlan flags name w = (Ok plan, w') →
     (∀ output format, parseOutputFormat output = (format, None) →
        eventsRun flags output name w = typedEvents format (plan_Events p) w') ∧
     approvalsRun flags name w = typedApprovals (plan_Approvals p) w' ∧
     (∀ f, (0 ≤ messagesTail f)%Z →
        messagesRun flags f name w = typedMessages (messagesEvent f) (messagesTail f) (st_Messages (plan_Status p)) w') ∧
     (∀ c, completeEventIDs flags [name] c w =
        ((filter (λ id, hasPrefix id c = true) (evt_ID <$> filter (λ e, waits (evt_State e)) (plan_Events p)),
          ShellCompDirectiveNoFileComp), w'))) ∧
  (∀ now, planRow now plan = typedPlanRow now (GetName plan) (GetCreationTimestamp plan) p).
Proof.
  intros Hd. split; [|by intros now; apply planRow_spec].
  intros flags name w w' Hl. split_and!.
  - intros output format Hf. unfold eventsRun. rewrite Hf, (withPlan_loaded _ _ _ _ _ _ _ Hl). cbv zeta.
    unfold typedEvents. rewrite (status_events _ _ (pd_status _ _ Hd)). fold (plan_Events p).
    case_bool_decide as Hy; case_decide; try done. destruct (plan_Events p) as [|e l] eqn:Hev; [done|].
    rewrite (decide_False (P := _ :: _ = [])) by done. rewrite fmap_cons, <- fmap_cons. apply bind_ext.
    + rewrite objects_fmap by (intros x; by eexists). apply eventLines_spec. rewrite <- Hev. apply (pd_times _ _ Hd).
    + intros lines w1. by case_bool_decide; case_decide.
  - unfold approvalsRun. rewrite (withPlan_loaded _ _ _ _ _ _ _ Hl), (doc_approvals _ _ Hd). unfold typedApprovals.
    destruct (plan_Approvals p) as [|a l]; [done|]. rewrite (decide_False (P := _ :: _ = [])) by done.
    rewrite fmap_cons, <- fmap_cons. rewrite objects_fmap by (intros x; by eexists). do 4 f_equal.
    rewrite <- list_fmap_compose. apply list_fmap_ext. intros i x _. apply approvalRow_spec.
  - intros f Ht. unfold messagesRun. rewrite (proj2 (Z.ltb_ge (messagesTail f) 0)) by done.
    rewrite (withPlan_loaded _ _ _ _ _ _ _ Hl), (planMessages_spec _ _ _ _ Hd) by done. unfold typedMessages. cbv zeta.
    destruct (lastMessages _ _); case_decide; try done. by case_bool_decide; case_decide.
  - intros c. unfold completeEventIDs, completeEventIDsInPlan. rewrite (withPlan_loaded _ _ _ _ _ _ _ Hl).
    unfold eventIDs. rewrite idsOf_objects, (status_objects _ _ (pd_status _ _ Hd)), waitingIDs_spec. done.
Qed.
End Listing.

(** ** An example *)

Definition sampleEvent : RecoveryEvent :=
  mkRecoveryEvent "evt-n1-slot-02-00-0" "app-1" (Some 5%Z) "n1" "0000:02:00.0" "gpu-wedged"
    (mkRecoveryTypeSpec RecoveryTypeSBR RecoveryTypeSlot) RecoveryEventStateFailed "the Job failed" 3 (Some (7 * Second)%Z)
    ["ns/p"] ["ns/c"] "j3" ["j1"; "j2"] (Some (98 * 3600 * Second + 5)%Z).
Definition sampleStatus : GPURecoveryPlanStatus :=
  mkGPURecoveryPlanStatus PlanStateError ["one"; "two evt-x"; "three"] [sampleEvent].
Definition sampleApproval : RecoveryApproval :=
  mkRecoveryApproval "app-1" "" (Some (mkApprovalSelector RecoveryTypeSlot "" {[ "zone" := "b"; "rack" := "a7" ]}))
    (Some (mkRecoveryOverride RecoveryTypeSBR)) true false "why".
Definition sampleTime (t : Z) : string := "t" +:+ itoa t.
Definition samplePlan : GPURecoveryPlan :=
  set_plan_Status sampleStatus (set_plan_Approvals [sampleApproval] (demoPlan true)).
Definition sampleObject : object :=
  [("metadata", JObj [("name", JStr "plan")]);
   ("spec", JObj [("deviceId", JStr (sp_DeviceID (plan_Spec samplePlan)));
                  ("defaultResetType", JStr (RecoveryType_string (sp_DefaultResetType (plan_Spec samplePlan))));
                  ("approvals", JList (encodeApproval <$> [sampleApproval]))]);
   ("status", encodeStatus sampleTime sampleStatus)].

(** A server with that plan; the rest is as in the scenario. *)
Definition sampleKubectl : Kubectl :=
  let k := demoKubectl in
  {| k_config := @k_config k; k_newClient := @k_newClient k; k_get _ _ := Ok sampleObject; k_list _ := Ok [sampleObject];
     k_update := @k_update k; k_now := @k_now k; k_write := @k_write k; k_flush := @k_flush k; k_gen := @k_gen k;
     k_retrySteps := @k_retrySteps k; NestedSlice := @NestedSlice k; NestedString := @NestedString k;
     SetNestedSlice := @SetNestedSlice k; GetName := @GetName k; GetCreationTimestamp := @GetCreationTimestamp k;
     yamlMarshal := @yamlMarshal k; timeParse := @timeParse k; goQuote := @goQuote k |}.

Lemma sampleLaws : @UnstructuredLaws sampleKubectl.
Proof. split; [done|done|apply setSlice_sets|apply setSlice_rest]. Qed.

Lemma sampleDocument : @planDocument sampleKubectl sampleTime samplePlan sampleObject.
Proof.
  split; [vm_compute; reflexivity..|]. change (plan_Events samplePlan) with [sampleEvent].
  apply Forall_singleton. intros t [= <-]. split; [discriminate|vm_compute; reflexivity].
Qed.

Definition sampleLoaded : World KEv unit := (@loadPlan sampleKubectl defaultRootFlags "plan" start).2.

Lemma kubectl_listings_faithful_witness :
  @loadPlan sampleKubectl defaultRootFlags "plan" start = (Ok sampleObject, sampleLoaded) ∧
  (∃ lines, lines =
     [tabLine eventsWideHeader; tabLine eventsWideHeaderRule;
      tabLine ["evt-n1-slot-02-00-0"; "failed"; "sbr (was slot)"; "n1"; "0000:02:00.0"; "3"; "2h0m ago"; "app-1"; "j3";
               "ns/p,ns/c"; "the Job failed"]] ∧
     KTable lines None ∈ log (@eventsRun sampleKubectl defaultRootFlags "wide" "plan" start).2) ∧
  KTable (tabLine <$> [approvalsHeader; approvalsHeaderRule;
            ["app-1"; "selector"; "type=slot labels=rack=a7,zone=b"; "sbr"; "true"; "false"; "why"]]) None
    ∈ log (@approvalsRun sampleKubectl defaultRootFlags "plan" start).2.
Proof.
  assert (@loadPlan sampleKubectl defaultRootFlags "plan" start = (Ok sampleObject, sampleLoaded)) as Hl by (vm_compute; reflexivity).
  split; [exact Hl|].
  destruct (@kubectl_listings_faithful sampleKubectl sampleLaws sampleTime samplePlan sampleObject sampleDocument) as [Hcmd _].
  destruct (Hcmd defaultRootFlags "plan" start sampleLoaded Hl) as (Hev & Hap & _).
  rewrite (Hev "wide" outputWide eq_refl), Hap. split.
  - eexists. split; [reflexivity|]. apply list_elem_of_lookup_2 with 0. vm_compute. reflexivity.
  - apply list_elem_of_lookup_2 with 0. vm_compute. reflexivity.
Defined.
