(* ===== verification/Operator.v ===== *)
(** * The operator's entry point

    [cmd/main.go]: the features of the cluster are detected, the options every controller runs with are
    put together from them and from the environment, the manager is built, the controllers and webhooks are
    set up on it and it is started.  The functions called on the way are parameters, each with an arbitrary
    answer; a failure of any ends the process with exit code 1.

    The TLS options are Go slices: they are modelled with their backing arrays, because the two servers'
    slices are grown from a common one. *)

From Stdlib Require Import Ascii.
From S2P Require Import Prelude GoStrings KubeTypes Common ImageVerifier.

(** ** [filepath.Join] on Unix *)

Definition cleanRelStep (stack : list string) (c : string) : list string :=
  if bool_decide (c = "") || bool_decide (c = ".") then stack
  else if bool_decide (c = "..") then
    match stack with
    | [] => [c]
    | d :: stack' => if bool_decide (d = "..") then c :: stack else stack'
    end
  else c :: stack.

Definition filepathClean (p : string) : string :=
  if hasPrefix p "/" then cleanRooted p
  else match foldl cleanRelStep [] (split "/"%char p) with
       | [] => "."
       | stack => join "/" (reverse stack)
       end.

Definition filepathJoin (elems : list string) : string :=
  match filter (λ e, e ≠ "") elems with
  | [] => ""
  | l => filepathClean (join "/" l)
  end.

(** ** TLS options *)

Record CertWatcher := mkCertWatcher { cw_cert : string; cw_key : string }.

(** A [func( *tls.Config)] of the options. *)
Inductive TlsOpt :=
| RestrictToTLS12
| DisableHTTP2
| ServeCertificate (w : CertWatcher).

(** The part of [tls.Config] the options set. *)
Record TlsConfig := mkTlsConfig {
  tls_only12 : bool;                      (* TLS 1.2 with the two cipher suites *)
  tls_http1Only : bool;
  tls_certificate : option CertWatcher;   (* [GetCertificate] *)
}.

Definition applyTlsOpt (c : TlsConfig) (o : TlsOpt) : TlsConfig :=
  match o with
  | RestrictToTLS12 => mkTlsConfig true (tls_http1Only c) (tls_certificate c)
  | DisableHTTP2 => mkTlsConfig (tls_only12 c) true (tls_certificate c)
  | ServeCertificate w => mkTlsConfig (tls_only12 c) (tls_http1Only c) (Some w)
  end.
Definition tlsConfigOf (l : list TlsOpt) : TlsConfig := foldl applyTlsOpt (mkTlsConfig false false None) l.

(** A slice: its backing array, its length and its capacity. *)
Record slice := mkSlice { s_arr : nat; s_len : nat; s_cap : nat }.

(** The backing arrays. *)
Abbreviation heap := (list (list (option TlsOpt))).

Definition arrayOf (h : heap) (a : nat) : list (option TlsOpt) := default [] (h !! a).
Definition contents (h : heap) (s : slice) : list TlsOpt := omap id (take (s_len s) (arrayOf h (s_arr s))).

(** ** Options *)

Record mainFlags := mkMainFlags {
  metricsAddr : string;
  probeAddr : string;
  enableLeaderElection : bool;
  secureMetrics : bool;
  webhookCertPath : string;
  webhookCertName : string;
  webhookCertKey : string;
  metricsCertPath : string;
  metricsCertName : string;
  metricsCertKey : string;
  enableHTTP2 : bool;
}.

Definition defaultMainFlags : mainFlags :=
  mkMainFlags "0" ":8081" false true "" "tls.crt" "tls.key" "" "tls.crt" "tls.key" false.

Record MetricsOptions := mkMetricsOptions {
  mo_BindAddress : string;
  mo_SecureServing : bool;
  mo_Authenticated : bool;                (* [FilterProvider] is set *)
  mo_TLSOpts : slice;
}.

Record ManagerOptions := mkManagerOptions {
  mg_Metrics : MetricsOptions;
  mg_WebhookTLSOpts : slice;
  mg_HealthProbeBindAddress : string;
  mg_LeaderElection : bool;
  mg_LeaderElectionID : string;
  mg_CacheNamespaces : list string;       (* [DefaultNamespaces] *)
  mg_CacheClusterWide : list string;      (* the kinds of [ByObject], cached in all namespaces *)
}.

Record features := mkFeatures { openshiftCluster : bool; draCluster : bool; kmmCluster : bool }.

Definition openShiftGroups : list string := ["route.openshift.io"; "security.openshift.io"].
Definition draGroups : list string := ["resource.k8s.io"].
Definition kmmGroups : list string := ["kmm.sigs.x-k8s.io"].
Definition defaultOperatorNamespace : string := "intel-gpu-base-operator".

(** ** Requests *)

Inductive StReq :=
| RqCertWatcher (w : CertWatcher)
| RqGetConfig
| RqNewManager (o : ManagerOptions)
| RqInClusterConfig
| RqDiscoveryClient
| RqDrainIndices
| RqController (name : string) (opts : ControllerOpts)
| RqWebhook (name : string)
| RqAddWatcher (w : CertWatcher)
| RqHealthz
| RqReadyz
| RqStart.

Inductive StEv :=
| StDone (q : StReq) (r : option GoErr)
| StGroups (r : res (list string)).

Class Startup := {
  su_getenv : string → string;
  su_do : list StEv → StReq → option GoErr;
  su_serverGroups : list StEv → res (list string);
  (** The capacity a full slice of this capacity grows to when it must hold that many elements. *)
  su_grow : nat → nat → nat;
}.

Abbreviation MOp := (M StEv heap).

Section Main.
Context `{!Startup}.

(** ** Slices *)

Definition sliceOf (l : list TlsOpt) : MOp slice :=
  h ← getMem;
  _ ← putMem (h ++ [Some <$> l]);
  mret (mkSlice (length h) (length l) (length l)).

(** [append(s, x)]: in place while the capacity allows it. *)
Definition append (s : slice) (x : TlsOpt) : MOp slice :=
  h ← getMem;
  if decide (s_len s < s_cap s) then
    _ ← putMem (<[s_arr s := <[s_len s := Some x]> (arrayOf h (s_arr s))]> h);
    mret (mkSlice (s_arr s) (S (s_len s)) (s_cap s))
  else
    let cap := su_grow (s_cap s) (S (s_len s)) in
    _ ← putMem (h ++ [take (s_len s) (arrayOf h (s_arr s)) ++ [Some x] ++ replicate (cap - S (s_len s)) None]);
    mret (mkSlice (length h) (S (s_len s)) cap).

(** ** Steps *)

Definition request (q : StReq) : MOp (option GoErr) := exchange (λ h, su_do h q) (StDone q).

(** [if err := q; err != nil { os.Exit(1) }] *)
Definition must (q : StReq) (k : MOp Z) : MOp Z :=
  e ← request q;
  match e with Some _ => mret 1%Z | None => k end.

Fixpoint mustAll (l : list StReq) (k : MOp Z) : MOp Z :=
  match l with
  | [] => k
  | q :: l' => must q (mustAll l' k)
  end.

(** The body of the loop over the API groups. *)
Definition noteGroup (f : features) (g : string) : features :=
  let f := if bool_decide (g ∈ openShiftGroups) then mkFeatures true (draCluster f) (kmmCluster f) else f in
  let f := if bool_decide (g ∈ draGroups) then mkFeatures (openshiftCluster f) true (kmmCluster f) else f in
  if bool_decide (g ∈ kmmGroups) then mkFeatures (openshiftCluster f) (draCluster f) true else f.

Definition detectFeatures (groups : list string) : features := foldl noteGroup (mkFeatures false false false) groups.

Definition detectClusterFeatures : MOp (res features) :=
  c ← request RqInClusterConfig;
  match c with
  | Some e => mret (Err e)
  | None =>
      d ← request RqDiscoveryClient;
      match d with
      | Some e => mret (Err e)
      | None =>
          g ← exchange su_serverGroups StGroups;
          mret match g with Err e => Err e | Ok groups => Ok (detectFeatures groups) end
      end
  end.

(** [os.Getenv(name)], or a default when it is empty. *)
Definition getenvOr (name dflt : string) : string :=
  if bool_decide (su_getenv name = "") then dflt else su_getenv name.

Definition controllerOpts (f : features) : ControllerOpts :=
  mkControllerOpts "" (getenvOr "OPERATOR_NAMESPACE" defaultOperatorNamespace) (su_getenv "OPERATOR_SECRET") (5 * Second)
    (draCluster f) (openshiftCluster f) (kmmCluster f)
    (getenvOr "MODULE_LOADER_SERVICE_ACCOUNT_NAME" "module-loader") "".

(** A certificate watcher, when a path is given. *)
Definition watcherFor (dir name key : string) : option CertWatcher :=
  if bool_decide (dir = "") then None
  else Some (mkCertWatcher (filepathJoin [dir; name]) (filepathJoin [dir; key])).

Definition withWatcher (w : option CertWatcher) (opts : slice) (k : slice → MOp Z) : MOp Z :=
  match w with
  | None => k opts
  | Some w => must (RqCertWatcher w) (s ← append opts (ServeCertificate w); k s)
  end.

(** What is set up on the manager before it starts. *)
Definition setupSteps (copts : ControllerOpts) (metricsWatcher webhookWatcher : option CertWatcher) : list StReq :=
  [RqDrainIndices; RqController "ClusterPolicy" copts; RqController "GPUFirmwareUpdate" copts;
   RqController "GPURecoveryPlan" copts; RqController "XpumDeviceRefresh" copts;
   RqWebhook "GPUFirmwareUpdate"; RqWebhook "ClusterPolicy"; RqWebhook "GPURecoveryPlan"] ++
  match metricsWatcher with Some w => [RqAddWatcher w] | None => [] end ++
  match webhookWatcher with Some w => [RqAddWatcher w] | None => [] end ++
  [RqHealthz; RqReadyz].

Definition managerOptions (fl : mainFlags) (webhookTLS metricsTLS : slice) : ManagerOptions :=
  mkManagerOptions (mkMetricsOptions (metricsAddr fl) (secureMetrics fl) (secureMetrics fl) metricsTLS) webhookTLS
    (probeAddr fl) (enableLeaderElection fl) "ecb1d962.intel.com"
    [getenvOr "OPERATOR_NAMESPACE" defaultOperatorNamespace] ["Pod"; "ResourceClaim"; "ResourceClaimTemplate"].

(** [tlsOpts], which both servers start from. *)
Definition commonTLS (fl : mainFlags) : MOp slice :=
  base ← sliceOf [RestrictToTLS12];
  if enableHTTP2 fl then mret base else append base DisableHTTP2.

(** The exit code. *)
Definition operatorMain (fl : mainFlags) : MOp Z :=
  tlsOpts ← commonTLS fl;
  let webhookWatcher := watcherFor (webhookCertPath fl) (webhookCertName fl) (webhookCertKey fl) in
  let metricsWatcher := watcherFor (metricsCertPath fl) (metricsCertName fl) (metricsCertKey fl) in
  withWatcher webhookWatcher tlsOpts (λ webhookTLS,
  withWatcher metricsWatcher tlsOpts (λ metricsTLS,
  must RqGetConfig
  (must (RqNewManager (managerOptions fl webhookTLS metricsTLS))
  (f ← detectClusterFeatures;
   match f with
   | Err _ => mret 1%Z
   | Ok f => mustAll (setupSteps (controllerOpts f) metricsWatcher webhookWatcher) (must RqStart (mret 0%Z))
   end)))).
End Main.
