(* ===== verification/OperatorFacts.v ===== *)
(** * The operator's entry point: what a started manager has

    The manager only starts with everything set up, and the options agree with the cluster, the
    environment and each other. *)

From S2P Require Import Prelude GoStrings KubeTypes Common ImageVerifier Operator.

(** ** Features *)

(** One of the known groups is served by the cluster. *)
Definition serves (groups known : list string) : Prop := Exists (λ g, g ∈ known) groups.

(** The loop sets the flag [sel] as soon as a group of [known] comes by. *)
Lemma noteGroups_spec (sel : features → bool) known f groups :
  (∀ f g, sel (noteGroup f g) = sel f || bool_decide (g ∈ known)) →
  sel (foldl noteGroup f groups) = true ↔ sel f = true ∨ serves groups known.
Proof.
  intros Hstep. unfold serves. revert f. induction groups as [|g groups IH]; intros f; simpl.
  - rewrite Exists_nil. tauto.
  - rewrite IH, Hstep, orb_true_iff, bool_decide_eq_true, Exists_cons. tauto.
Qed.

Lemma detectFeatures_spec groups :
  (openshiftCluster (detectFeatures groups) = true ↔ serves groups openShiftGroups) ∧
  (draCluster (detectFeatures groups) = true ↔ serves groups draGroups) ∧
  (kmmCluster (detectFeatures groups) = true ↔ serves groups kmmGroups).
Proof.
  unfold detectFeatures. split_and!; (rewrite noteGroups_spec; [by split; [intros [?|?]|right]|]);
    intros [] g; unfold noteGroup; repeat case_bool_decide; simpl; by rewrite ?orb_true_r, ?orb_false_r.
Qed.

Section Facts.
Context `{!Startup}.

(** ** Failing steps *)

(** The manager was not started yet. *)
Definition notStarted (w : World StEv heap) : Prop := ∀ r, StDone RqStart r ∉ log w.

(** What holds of every exit: [P] is claimed of the worlds in which the manager was started. *)
Definition startedOnly (P : World StEv heap → Prop) (code : Z) (w : World StEv heap) : Prop :=
  (code = 1%Z ∨ code = 0%Z ∧ StDone RqStart None ∈ log w) ∧ ((∃ r, StDone RqStart r ∈ log w) → P w).

(** The world after an answered request. *)
Definition answered (q : StReq) (r : option GoErr) (w : World StEv heap) : World StEv heap :=
  mkWorld (mem w) (StDone q r :: log w).

Lemma notStarted_answered q r w : q ≠ RqStart → notStarted w → notStarted (answered q r w).
Proof. intros Hq Hn r' [Heq|Hin]%elem_of_cons; [congruence|by apply (Hn r')]. Qed.

Lemma exit1_startedOnly P w : notStarted w → startedOnly P 1 w.
Proof. intros Hn. split; [by left|]. intros [r Hr]. by destruct (Hn r). Qed.

Lemma wp_must P q k w :
  q ≠ RqStart → notStarted w →
  (notStarted (answered q None w) → wp k (startedOnly P) (answered q None w)) →
  wp (must q k) (startedOnly P) w.
Proof.
  intros Hq Hn Hk. unfold must, request. apply wp_bind, wp_exchange. destruct (su_do (log w) q) as [e|].
  - apply wp_ret, exit1_startedOnly. by apply (notStarted_answered q (Some e)).
  - apply Hk. by apply (notStarted_answered q None).
Qed.

(** The requests of a list were answered without an error on top of [B], the last one first. *)
Fixpoint answeredAll (l : list StReq) (B : list StEv) : list StEv :=
  match l with
  | [] => B
  | q :: l' => answeredAll l' (StDone q None :: B)
  end.

Lemma answeredAll_app l k B : answeredAll (l ++ k) B = answeredAll k (answeredAll l B).
Proof. revert B. induction l as [|q l IH]; intros B; simpl; [done|]. apply IH. Qed.

Lemma elem_of_answeredAll e l B : e ∈ B ∨ (∃ q, q ∈ l ∧ e = StDone q None) → e ∈ answeredAll l B.
Proof.
  revert B. induction l as [|q l IH]; intros B; simpl; [intros [?|(q & []%not_elem_of_nil & _)]; done|].
  intros [HB|(q' & [->|Hq]%elem_of_cons & ->)]; apply IH; [left; by right|left; by left|right; eauto].
Qed.

Lemma wp_mustAll P l k w :
  RqStart ∉ l → notStarted w →
  (notStarted (mkWorld (mem w) (answeredAll l (log w))) → wp k (startedOnly P) (mkWorld (mem w) (answeredAll l (log w)))) →
  wp (mustAll l k) (startedOnly P) w.
Proof.
  revert w. induction l as [|q l IH]; intros [h lg] Hl Hn Hk; simpl; [by apply Hk|].
  apply not_elem_of_cons in Hl as [Hq Hl]. apply wp_must; [congruence|done|]. intros Hn'. by apply IH.
Qed.

Lemma mustAll_app l1 l2 k : mustAll (l1 ++ l2) k = mustAll l1 (mustAll l2 k).
Proof. induction l1 as [|q l1 IH]; simpl; [done|]. by rewrite IH. Qed.

(** The last request, which starts the manager. *)
Lemma wp_start P w :
  notStarted w → (∀ r, P (answered RqStart r w)) → wp (must RqStart (mret 0%Z)) (startedOnly P) w.
Proof.
  intros Hn HP. unfold must, request. apply wp_bind, wp_exchange. destruct (su_do (log w) RqStart) as [e|] eqn:He.
  - apply wp_ret. split; [by left|]. intros _. apply (HP (Some e)).
  - apply wp_ret. split; [right; split; [done|by left]|]. intros _. apply (HP None).
Qed.

Lemma wp_detect P (k : features → MOp Z) w :
  notStarted w →
  (∀ groups w', notStarted w' → mem w' = mem w → log w ⊆ log w' → StGroups (Ok groups) ∈ log w' →
                wp (k (detectFeatures groups)) (startedOnly P) w') →
  wp (f ← detectClusterFeatures; match f with Err _ => mret 1%Z | Ok f => k f end) (startedOnly P) w.
Proof.
  intros Hn Hk. unfold detectClusterFeatures, request. apply wp_bind, wp_bind, wp_exchange.
  destruct (su_do (log w) RqInClusterConfig) as [e|].
  { apply wp_ret, wp_ret, exit1_startedOnly. by apply (notStarted_answered RqInClusterConfig (Some e)). }
  apply wp_bind, wp_exchange. cbn [mem log].
  assert (notStarted (answered RqInClusterConfig None w)) as Hn1 by by apply notStarted_answered.
  destruct (su_do _ RqDiscoveryClient) as [e|].
  { apply wp_ret, wp_ret, exit1_startedOnly. by apply (notStarted_answered RqDiscoveryClient (Some e) _ ltac:(done) Hn1). }
  assert (notStarted (answered RqDiscoveryClient None (answered RqInClusterConfig None w))) as Hn2 by by apply notStarted_answered.
  apply wp_bind, wp_exchange, wp_ret. cbn [mem log].
  assert (∀ r, notStarted (mkWorld (mem w) (StGroups r :: StDone RqDiscoveryClient None :: StDone RqInClusterConfig None :: log w))) as Hn3.
  { intros r r' [Heq|Hin]%elem_of_cons; [done|by apply (Hn2 r')]. }
  destruct (su_serverGroups _) as [groups|e].
  - apply Hk; [apply Hn3|done|simpl; set_solver|by left].
  - apply wp_ret, exit1_startedOnly, Hn3.
Qed.

(** ** Slices *)

(** A slice of the heap that shows [l]; its array may hold more. *)
Definition shows (h : heap) (s : slice) (l : list TlsOpt) : Prop :=
  s_arr s < length h ∧ s_len s = length l ∧
  ∃ rest, arrayOf h (s_arr s) = (Some <$> l) ++ rest ∧ s_cap s ≤ length l + length rest.

(** The next append writes into the array of [s]. *)
Abbreviation spare s := (s_len s < s_cap s).

Lemma omap_id_Some {A} (l : list A) : omap id (Some <$> l) = l.
Proof. induction l as [|x l IH]; [done|]. rewrite fmap_cons. cbn. by f_equal. Qed.

Lemma shows_contents h s l : shows h s l → contents h s = l.
Proof.
  intros (_ & Hlen & rest & Harr & _). unfold contents. rewrite Harr, take_app_length' by (by rewrite length_fmap).
  apply omap_id_Some.
Qed.

Lemma arrayOf_insert h a l b : a < length h → arrayOf (<[a := l]> h) b = if decide (b = a) then l else arrayOf h b.
Proof.
  intros Ha. unfold arrayOf. case_decide as Hb; [subst|]; [by rewrite list_lookup_insert_eq|by rewrite list_lookup_insert_ne].
Qed.

Lemma shows_alloc h s l a : shows h s l → shows (h ++ [a]) s l.
Proof.
  intros (Ha & Hlen & Hrest). split; [rewrite length_app; lia|]. split; [done|]. unfold arrayOf in *.
  by rewrite lookup_app_l.
Qed.

(** Appending in place: the element behind [s] becomes [x], for every slice of the array. *)
Lemma shows_write h s l x : shows h s l → spare s →
  let h' := <[s_arr s := <[s_len s := Some x]> (arrayOf h (s_arr s))]> h in
  shows h' s l ∧ shows h' (mkSlice (s_arr s) (S (s_len s)) (s_cap s)) (l ++ [x]).
Proof.
  intros (Ha & Hlen & rest & Harr & Hcap) Hsp h'.
  destruct rest as [|y rest]; [simpl in Hcap; lia|].
  assert (arrayOf h' (s_arr s) = (Some <$> l) ++ Some x :: rest) as Harr'.
  { unfold h'. rewrite arrayOf_insert, decide_True, Harr, Hlen, insert_app_r_alt by (done || by rewrite length_fmap).
    by rewrite length_fmap, Nat.sub_diag. }
  assert (s_arr s < length h') as Ha' by (unfold h'; by rewrite length_insert). split; (split; [done|split]); [done| | |].
  - exists (Some x :: rest). by split.
  - simpl. rewrite length_app. simpl. lia.
  - exists rest. cbn [s_arr s_cap]. rewrite Harr', fmap_app, <- app_assoc, length_app. split; [done|]. simpl in *. lia.
Qed.

(** Both slices an append relates, and the slice [t] of an earlier append to the same one: it stays as it
    is unless both were made in place, when it shows the new element. *)
Lemma wp_append_shows x s l (Q : slice → World StEv heap → Prop) w :
  shows (mem w) s l →
  (∀ h' s', shows h' s l → shows h' s' (l ++ [x]) → (spare s → s_arr s' = s_arr s) →
     (∀ t k, ¬ spare s → shows (mem w) t k → shows h' t k) →
     (∀ t y, spare s → s_arr t = s_arr s → shows (mem w) t (l ++ [y]) → shows h' t (l ++ [x])) →
     Q s' (mkWorld h' (log w))) →
  wp (append s x) Q w.
Proof.
  intros Hs HQ. unfold append. apply wp_bind, wp_getMem. destruct (decide _) as [Hsp|Hsp]; apply wp_bind, wp_putMem, wp_ret.
  - destruct (shows_write _ _ _ x Hs Hsp) as [H1 H2]. apply HQ; [done..|].
    intros t y _ Ht (Ha & Hlen & rest & Harr & Hcap). pose proof H2 as (_ & _ & rest2 & Harr2 & _). cbn [s_arr] in Harr2.
    split; [by rewrite length_insert|]. rewrite Ht. split; [rewrite Hlen, !length_app; done|].
    exists rest2. split; [done|]. apply (f_equal length) in Harr2. rewrite Ht in Harr. destruct Hs as [Ha0 _].
    rewrite arrayOf_insert, decide_True, length_insert, Harr, !length_app, !length_fmap in Harr2 by done.
    rewrite !length_app in *. simpl in *. lia.
  - destruct Hs as (Ha & Hlen & rest & Harr & Hcap).
    assert (shows (mem w) s l) as Hs by (split; [done|split; [done|by exists rest]]).
    apply HQ; [by apply shows_alloc| |done|intros t k _; apply shows_alloc|done].
    split; [cbn; rewrite length_app; simpl; lia|]. split; [cbn; rewrite length_app; simpl; lia|].
    eexists. cbn [s_arr s_cap]. unfold arrayOf at 1. rewrite list_lookup_middle by done. cbn [default].
    fold (arrayOf (mem w) (s_arr s)). rewrite Harr, take_app_length' by (by rewrite length_fmap). split.
    + rewrite fmap_app, <- app_assoc. done.
    + rewrite length_replicate, length_app, Hlen. simpl. lia.
Qed.

Definition certOpt (wt : option CertWatcher) : list TlsOpt := match wt with Some c => [ServeCertificate c] | None => [] end.

Lemma wp_withWatcher P wt s l k w :
  notStarted w → shows (mem w) s l →
  (∀ w' s', notStarted w' → log w ⊆ log w' → shows (mem w') s l → shows (mem w') s' (l ++ certOpt wt) →
     (wt = None → s' = s) → (spare s → s_arr s' = s_arr s) →
     (∀ t m, ¬ spare s ∨ wt = None → shows (mem w) t m → shows (mem w') t m) →
     (∀ t y, spare s → is_Some wt → s_arr t = s_arr s → shows (mem w) t (l ++ [y]) → shows (mem w') t (l ++ certOpt wt)) →
     wp (k s') (startedOnly P) w') →
  wp (withWatcher wt s k) (startedOnly P) w.
Proof.
  intros Hn Hs Hk. destruct wt as [c|]; simpl.
  - apply wp_must; [done..|]. intros Hn'. apply wp_bind. eapply wp_append_shows; [exact Hs|].
    intros h' s' H1 H2 H3 H4 H5. apply Hk; try done; [simpl; set_solver| |by eauto].
    intros t m [Hns|?]; [by apply H4|done].
  - apply Hk; try done; by rewrite app_nil_r.
Qed.

(** The TLS options both servers start from. *)
Definition commonOpts (fl : mainFlags) : list TlsOpt :=
  RestrictToTLS12 :: (if enableHTTP2 fl then [] else [DisableHTTP2]).

(** What the slice of them looks like: it has room left when growing it by one made more room than asked. *)
Definition sharedArray (fl : mainFlags) : bool := negb (enableHTTP2 fl) && bool_decide (2 < su_grow 1 2).

Lemma wp_commonTLS fl (Q : slice → World StEv heap → Prop) :
  (∀ w s, log w = [] → shows (mem w) s (commonOpts fl) → (spare s ↔ sharedArray fl = true) → Q s w) →
  wp (commonTLS fl) Q (mkWorld [] []).
Proof.
  intros HQ. unfold commonTLS, sliceOf, commonOpts, sharedArray in *.
  apply wp_bind, wp_bind, wp_getMem, wp_bind, wp_putMem, wp_ret. cbn [mem log app length].
  destruct (enableHTTP2 fl); [apply wp_ret, HQ; [done| |simpl; split; [lia|done]]|].
  { split; [simpl; lia|]. split; [done|]. exists []. split; [done|simpl; lia]. }
  unfold append. apply wp_bind, wp_getMem. cbn [s_len s_cap s_arr mem log]. rewrite decide_False by lia. cbv zeta.
  apply wp_bind, wp_putMem, wp_ret. cbn [mem log]. apply HQ; [done| |cbn [s_len s_cap negb andb]; by rewrite bool_decide_eq_true].
  split; [simpl; lia|]. split; [done|]. eexists. split; [reflexivity|]. rewrite length_replicate. simpl. lia.
Qed.

Lemma tlsConfig_common fl w :
  tlsConfigOf (commonOpts fl ++ certOpt w)
  = mkTlsConfig true (negb (enableHTTP2 fl)) w.
Proof. unfold commonOpts. by destruct (enableHTTP2 fl), w. Qed.

(** ** The started manager *)

(** The certificate the webhook server ends up with.  The options of both servers are appended to one slice;
    where its array has room for one more, the second append overwrites what the first one wrote. *)
Definition webhookServes (fl : mainFlags) : option CertWatcher :=
  let mine := watcherFor (webhookCertPath fl) (webhookCertName fl) (webhookCertKey fl) in
  let theirs := watcherFor (metricsCertPath fl) (metricsCertName fl) (metricsCertKey fl) in
  match mine, theirs with
  | Some w, Some w' => Some (if sharedArray fl then w' else w)
  | _, _ => mine
  end.

Definition started (fl : mainFlags) (w : World StEv heap) : Prop :=
  ∃ o copts groups,
    StDone (RqNewManager o) None ∈ log w ∧ StGroups (Ok groups) ∈ log w ∧
    Forall (λ q, StDone q None ∈ log w)
      [RqDrainIndices; RqController "ClusterPolicy" copts; RqController "GPUFirmwareUpdate" copts;
       RqController "GPURecoveryPlan" copts; RqController "XpumDeviceRefresh" copts; RqWebhook "GPUFirmwareUpdate";
       RqWebhook "ClusterPolicy"; RqWebhook "GPURecoveryPlan"; RqHealthz; RqReadyz] ∧
    (∀ c, watcherFor (webhookCertPath fl) (webhookCertName fl) (webhookCertKey fl) = Some c ∨
          watcherFor (metricsCertPath fl) (metricsCertName fl) (metricsCertKey fl) = Some c →
          StDone (RqAddWatcher c) None ∈ log w) ∧
    mg_CacheNamespaces o = [Namespace copts] ∧ Namespace copts ≠ "" ∧
    (DRAEnable copts = true ↔ serves groups draGroups) ∧ (OpenShift copts = true ↔ serves groups openShiftGroups) ∧
    (KMMEnable copts = true ↔ serves groups kmmGroups) ∧
    mo_Authenticated (mg_Metrics o) = mo_SecureServing (mg_Metrics o) ∧
    tlsConfigOf (contents (mem w) (mg_WebhookTLSOpts o)) =
      mkTlsConfig true (negb (enableHTTP2 fl)) (webhookServes fl) ∧
    tlsConfigOf (contents (mem w) (mo_TLSOpts (mg_Metrics o))) =
      mkTlsConfig true (negb (enableHTTP2 fl)) (watcherFor (metricsCertPath fl) (metricsCertName fl) (metricsCertKey fl)).

Lemma getenvOr_ne name d : d ≠ "" → getenvOr name d ≠ "".
Proof. unfold getenvOr. by case_bool_decide. Qed.

Lemma setupSteps_no_start copts mw ww : RqStart ∉ setupSteps copts mw ww.
Proof.
  unfold setupSteps. intros Hin. repeat (rewrite elem_of_app in Hin || rewrite elem_of_cons in Hin || rewrite elem_of_nil in Hin).
  destruct mw, ww; repeat (rewrite elem_of_cons in Hin || rewrite elem_of_nil in Hin); naive_solver.
Qed.

(** The webhook server's slice once the metrics server's was appended. *)
Lemma webhook_shows fl s h h' t :
  (spare s ↔ sharedArray fl = true) →
  let ww := watcherFor (webhookCertPath fl) (webhookCertName fl) (webhookCertKey fl) in
  let mw := watcherFor (metricsCertPath fl) (metricsCertName fl) (metricsCertKey fl) in
  shows h' s (commonOpts fl) → shows h t (commonOpts fl ++ certOpt ww) → (ww = None → t = s) → (spare s → s_arr t = s_arr s) →
  (∀ t m, ¬ spare s ∨ mw = None → shows h t m → shows h' t m) →
  (∀ t y, spare s → is_Some mw → s_arr t = s_arr s → shows h t (commonOpts fl ++ [y]) → shows h' t (commonOpts fl ++ certOpt mw)) →
  shows h' t (commonOpts fl ++ certOpt (webhookServes fl)).
Proof.
  intros Hsp ww mw Hs Ht Hno Harr Hkeep Hover. unfold webhookServes. fold ww mw. clearbody ww mw.
  destruct ww as [cw|], mw as [cm|]; [|by apply Hkeep; eauto|by rewrite Hno, app_nil_r..].
  destruct (sharedArray fl).
  - apply (Hover t (ServeCertificate cw)); [by apply Hsp|done|by apply Harr, Hsp|done].
  - apply Hkeep; [|done]. left. intros Hc%Hsp. done.
Qed.

(** C23: the manager starts complete or not at all.  The process ends with exit code 1, or with 0 after the
    manager ran; and in any run in which the manager was started, every step before had succeeded: the pod
    index, all four controllers, all three webhooks, the health checks and each certificate watcher were
    set up.  All controllers got the same options: their namespace is the one the cache is restricted to and
    is not empty, and the features are those of the API groups the cluster serves.  The metrics endpoint asks
    for authentication exactly when it is served securely.  The TLS options of both servers restrict to TLS
    1.2 and turn HTTP/2 off unless it was asked for, and each names that server's own certificate, with one
    exception: the two slices of options are appended to one slice, and should growing that from one element
    to two have left room (which the language allows) the webhook server gets the metrics server's. *)
Theorem operator_starts_complete fl :
  wp (operatorMain fl) (startedOnly (started fl)) (mkWorld [] []).
Proof.
  unfold operatorMain. apply wp_bind, wp_commonTLS. intros w1 tlsOpts Hl1 Hf1 Hsp.
  assert (notStarted w1) as Hn1. { intros r. rewrite Hl1. apply not_elem_of_nil. } cbv zeta.
  apply (wp_withWatcher _ _ _ _ _ _ Hn1 Hf1). intros w2 webhookTLS Hn2 Hl2 Hf2 Hc2 Hno2 Harr2 _ _.
  apply (wp_withWatcher _ _ _ _ _ _ Hn2 Hf2). intros w3 metricsTLS Hn3 Hl3 Hf3 Hc3 _ _ Hkeep3 Hover3.
  apply wp_must; [done..|]. intros Hn4. apply wp_must; [done..|]. intros Hn5.
  apply wp_detect; [exact Hn5|]. intros groups w6 Hn6 Hm6 Hl6 Hg.
  apply wp_mustAll; [apply setupSteps_no_start|done|]. intros Hn7. apply wp_start; [done|]. intros r.
  exists (managerOptions fl webhookTLS metricsTLS), (controllerOpts (detectFeatures groups)), groups.
  destruct (detectFeatures_spec groups) as (Hos & Hdra & Hkmm).
  assert (∀ ev, ev ∈ log w6 → ev ∈ log (answered RqStart r (mkWorld (mem w6) (answeredAll (setupSteps
    (controllerOpts (detectFeatures groups)) (watcherFor (metricsCertPath fl) (metricsCertName fl) (metricsCertKey fl))
    (watcherFor (webhookCertPath fl) (webhookCertName fl) (webhookCertKey fl))) (log w6))))) as Hold.
  { intros ev Hev. right. apply elem_of_answeredAll. by left. }
  split_and!.
  - apply Hold, Hl6. by left.
  - by apply Hold.
  - apply Forall_forall. intros q Hq. right. apply elem_of_answeredAll. right. exists q. split; [|done].
    unfold setupSteps. rewrite !elem_of_app. set_solver.
  - intros c Hc. right. apply elem_of_answeredAll. right. eexists. split; [|done]. unfold setupSteps. rewrite !elem_of_app.
    destruct Hc as [-> | ->]; set_solver.
  - done.
  - by apply getenvOr_ne.
  - done.
  - done.
  - done.
  - done.
  - simpl. rewrite Hm6, <- tlsConfig_common. f_equal. apply shows_contents. cbn [mem answered].
    by apply (webhook_shows _ tlsOpts (mem w2)).
  - simpl. rewrite Hm6, <- tlsConfig_common. f_equal. by apply shows_contents.
Qed.
End Facts.

(** ** Examples *)

Definition demoStartup (grow : nat → nat → nat) : Startup :=
  {| su_getenv n := if bool_decide (n = "OPERATOR_NAMESPACE") then "gpu" else "";
     su_do _ _ := None;
     su_serverGroups _ := Ok ["apps"; "resource.k8s.io"];
     su_grow := grow |}.

Definition certFlags : mainFlags :=
  mkMainFlags ":8443" ":8081" true true "/certs/webhook/" "tls.crt" "tls.key" "metrics/../m" "tls.crt" "tls.key" false.

Definition webhookCert : CertWatcher := mkCertWatcher "/certs/webhook/tls.crt" "/certs/webhook/tls.key".
Definition metricsCert : CertWatcher := mkCertWatcher "m/tls.crt" "m/tls.key".

(** The certificate each server ends up with: the webhook server's and the metrics server's. *)
Definition certificates (grow : nat → nat → nat) : list (option CertWatcher) :=
  let w := (@operatorMain (demoStartup grow) certFlags (mkWorld [] [])).2 in
  omap (λ ev, match ev with
    | StDone (RqNewManager o) _ => Some (tls_certificate (tlsConfigOf (contents (mem w) (mg_WebhookTLSOpts o))))
    | _ => None end) (log w) ++
  omap (λ ev, match ev with
    | StDone (RqNewManager o) _ => Some (tls_certificate (tlsConfigOf (contents (mem w) (mo_TLSOpts (mg_Metrics o)))))
    | _ => None end) (log w).

(** Doubling, as the runtime does for short slices; and a growth that leaves room, with which the second
    append would replace the webhook server's certificate. *)
Example certificates_apart : certificates (λ cap n, 2 * cap) = [Some webhookCert; Some metricsCert].
Proof. vm_compute. reflexivity. Qed.
Example certificates_shared : certificates (λ cap n, 2 * n) = [Some metricsCert; Some metricsCert].
Proof. vm_compute. reflexivity. Qed.

(** With the runtime's growth each server has its own, as [webhookServes] says. *)
Example webhook_own : @webhookServes (demoStartup (λ cap n, 2 * cap)) certFlags = Some webhookCert.
Proof. vm_compute. reflexivity. Qed.

Lemma operator_starts_complete_witness :
  (@operatorMain (demoStartup (λ cap n, 2 * n)) certFlags (mkWorld [] [])).1 = 0%Z ∧
  @started (demoStartup (λ cap n, 2 * n)) certFlags (@operatorMain (demoStartup (λ cap n, 2 * n)) certFlags (mkWorld [] [])).2.
Proof.
  split; [vm_compute; reflexivity|].
  refine (proj2 (@operator_starts_complete (demoStartup (λ cap n, 2 * n)) certFlags) _).
  exists None. vm_compute. left.
Defined.
