(* ===== verification/Rbac.v ===== *)
(** * What the operator may ask of the API server

    The roles of [config/rbac] that its service account is bound to, and for each exchange of the controllers
    the API requests it stands for: reads go through the cache of the manager, which lists and watches, unless
    they bypass it; writes are sent as they are.  [RbacFacts] proves that the roles cover the requests. *)

From S2P Require Import Prelude GoStrings KubeTypes ApiTypes Common PolicyTypes PolicyObjects Client OpenShift.
From S2P Require Import XpumRefresh Operator.

(** ** Requests and rules *)

(** [ac_Namespace] is [None] for a cluster-scoped resource and for a request about all namespaces; a
    resource carries its subresource ([pods/log]); [ac_Name] is empty when the request names no object. *)
Record Access := mkAccess {
  ac_Namespace : option string;
  ac_Group : string;
  ac_Resource : string;
  ac_Name : string;
  ac_Verb : string;
}.

Record Role := mkRole { role_Name : string; role_rules : list PolicyRule }.

(** A rule lists the request. *)
Definition ruleLists (r : PolicyRule) (a : Access) : bool :=
  bool_decide (ac_Group a ∈ pr_apiGroups r) && bool_decide (ac_Resource a ∈ pr_resources r)
  && bool_decide (ac_Verb a ∈ pr_verbs r)
  && (bool_decide (pr_resourceNames r = []) || bool_decide (ac_Name a ∈ pr_resourceNames r)).

Definition rulesList (l : list PolicyRule) (a : Access) : bool := existsb (λ r, ruleLists r a) l.

(** No wildcard in any field. *)
Definition plainRule (r : PolicyRule) : bool :=
  forallb (λ s, negb (contains s "*")) (pr_apiGroups r ++ pr_resources r ++ pr_verbs r).

(** The authorizer of the API server.  Of wildcards nothing is assumed; without them, rules grant the requests
    that one of them lists and no others. *)
Class Authorizer := {
  allows : list PolicyRule → Access → bool;
  allows_listed : ∀ l a, forallb plainRule l = true → allows l a = rulesList l a;
}.

(** The requests a rule grants, as the escalation check of the API server breaks it down: a role may be written
    by a client who holds every one of them. *)
Definition ruleAccesses (r : PolicyRule) : list Access :=
  g ← pr_apiGroups r; s ← pr_resources r; v ← pr_verbs r;
  (λ n, mkAccess None g s n v) <$> match pr_resourceNames r with [] => [""] | l => l end.

(** ** The roles of [config/rbac] *)

Definition grant (groups resources verbs : list string) : PolicyRule := mkPolicyRule groups resources [] verbs.

Definition contentClusterRole : ClusterRole := mkClusterRole "manager-role"
  [grant [""] ["namespaces"] ["list"; "watch"];
   grant [""] ["nodes"; "nodes/status"] ["get"; "list"; "patch"; "update"; "watch"];
   grant [""] ["pods"] ["delete"; "get"; "list"; "watch"];
   grant [""] ["pods/eviction"] ["create"];
   grant ["admissionregistration.k8s.io"] ["validatingadmissionpolicies"; "validatingadmissionpolicybindings"]
     ["create"; "delete"; "get"; "list"];
   grant ["apiextensions.k8s.io"] ["customresourcedefinitions"] ["get"; "list"; "watch"];
   grant ["intel.com"] ["clusterpolicies"; "gpufirmwareupdates"]
     ["create"; "delete"; "get"; "list"; "patch"; "update"; "watch"];
   grant ["intel.com"] ["clusterpolicies/finalizers"; "gpufirmwareupdates/finalizers"; "gpurecoveryplans/finalizers"]
     ["update"];
   grant ["intel.com"] ["clusterpolicies/status"; "gpufirmwareupdates/status"; "gpurecoveryplans/status"]
     ["get"; "patch"; "update"];
   grant ["intel.com"] ["gpurecoveryplans"] ["get"; "list"; "patch"; "update"; "watch"];
   grant ["kmm.sigs.x-k8s.io"] ["modules"] ["create"; "delete"; "get"; "list"; "patch"; "update"; "watch"];
   grant ["kmm.sigs.x-k8s.io"] ["modules/status"] ["get"];
   grant ["kueue.x-k8s.io"] ["clusterqueues"; "localqueues"; "resourceflavors"]
     ["create"; "delete"; "deletecollection"; "get"; "list"; "patch"; "update"; "watch"];
   grant ["nfd.k8s-sigs.io"] ["nodefeaturerules"] ["create"; "delete"; "get"; "list"; "update"; "watch"];
   grant ["rbac.authorization.k8s.io"] ["clusterrolebindings"] ["create"; "delete"; "get"; "list"; "watch"];
   grant ["rbac.authorization.k8s.io"] ["clusterroles"] ["create"; "delete"; "get"; "list"; "update"; "watch"];
   grant ["resource.k8s.io"] ["deviceclasses"; "resourceclaimtemplates"; "resourceslices"]
     ["create"; "delete"; "get"; "list"; "patch"; "update"; "watch"];
   grant ["resource.k8s.io"] ["resourceclaims"] ["get"; "list"; "watch"];
   grant ["security.openshift.io"] ["securitycontextconstraints"]
     ["create"; "delete"; "get"; "list"; "update"; "use"; "watch"]].

Definition contentNamespacedRole : Role := mkRole "manager-namespaced-role"
  [grant [""] ["configmaps"; "services"] ["create"; "get"; "list"; "watch"; "delete"];
   grant [""] ["pods/log"] ["get"];
   grant [""] ["pods"] ["patch"];
   grant [""] ["secrets"] ["get"; "list"];
   grant [""] ["serviceaccounts"] ["create"; "delete"; "get"; "list"; "update"; "watch"];
   grant ["apps"] ["daemonsets"; "deployments"] ["create"; "delete"; "get"; "list"; "patch"; "update"; "watch"];
   grant ["batch"] ["jobs"] ["create"; "delete"; "get"; "list"; "patch"; "update"; "watch"];
   grant ["monitoring.coreos.com"] ["servicemonitors"] ["create"; "get"; "list"; "watch"; "delete"];
   grant ["rbac.authorization.k8s.io"] ["rolebindings"; "roles"] ["create"; "delete"; "get"; "list"]].

(** The embedded files, decoded. *)
Definition ManagerClusterRole : ClusterRole := contentClusterRole.
Definition ManagerNamespacedRole : Role := contentNamespacedRole.

Definition LeaderElectionRole : Role := mkRole "leader-election-role"
  [grant [""] ["configmaps"] ["get"; "list"; "watch"; "create"; "update"; "patch"; "delete"];
   grant ["coordination.k8s.io"] ["leases"] ["get"; "list"; "watch"; "create"; "update"; "patch"; "delete"];
   grant [""] ["events"] ["create"; "patch"]].

(** The rules of the role the DRA driver's service account is bound to. *)
Definition contentDRACR : ClusterRole := mkClusterRole "intel-gpu-resource-driver-role"
  [grant [""] ["nodes"] ["get"];
   grant ["resource.k8s.io"] ["resourceslices"] ["get"; "list"; "watch"; "create"; "update"; "patch"; "delete"];
   grant ["resource.k8s.io"] ["resourceclaims"] ["get"]].
Definition DynamicResourceAllocationClusterRole : ClusterRole := contentDRACR.

(** The cluster role is bound for the whole cluster, the other two in the namespace of the operator. *)
Definition namespacedRules : list PolicyRule := role_rules ManagerNamespacedRole ++ role_rules LeaderElectionRole.

Definition authorized `{!Authorizer} (ns : string) (a : Access) : bool :=
  allows (cro_rules ManagerClusterRole) a
  || (bool_decide (ac_Namespace a = Some ns) && allows namespacedRules a).

(** ** Kinds *)

Record GVR := mkGVR { gv_Kind : string; gv_Group : string; gv_Resource : string; gv_Namespaced : bool }.

Definition nodesGVR : GVR := mkGVR "Node" "" "nodes" false.
Definition podsGVR : GVR := mkGVR "Pod" "" "pods" true.
Definition serviceAccountsGVR : GVR := mkGVR "ServiceAccount" "" "serviceaccounts" true.
Definition configMapsGVR : GVR := mkGVR "ConfigMap" "" "configmaps" true.
Definition servicesGVR : GVR := mkGVR "Service" "" "services" true.
Definition secretsGVR : GVR := mkGVR "Secret" "" "secrets" true.
Definition jobsGVR : GVR := mkGVR "Job" "batch" "jobs" true.
Definition daemonSetsGVR : GVR := mkGVR "DaemonSet" "apps" "daemonsets" true.
Definition plansGVR : GVR := mkGVR "GPURecoveryPlan" "intel.com" "gpurecoveryplans" false.
Definition updatesGVR : GVR := mkGVR "GPUFirmwareUpdate" "intel.com" "gpufirmwareupdates" false.
Definition policiesGVR : GVR := mkGVR "ClusterPolicy" "intel.com" "clusterpolicies" false.
Definition slicesGVR : GVR := mkGVR "ResourceSlice" "resource.k8s.io" "resourceslices" false.
Definition claimsGVR : GVR := mkGVR "ResourceClaim" "resource.k8s.io" "resourceclaims" true.
Definition claimTemplatesGVR : GVR := mkGVR "ResourceClaimTemplate" "resource.k8s.io" "resourceclaimtemplates" true.
Definition deviceClassesGVR : GVR := mkGVR "DeviceClass" "resource.k8s.io" "deviceclasses" false.
Definition sccGVR : GVR := mkGVR "SecurityContextConstraints" "security.openshift.io" "securitycontextconstraints" false.
Definition clusterRolesGVR : GVR := mkGVR "ClusterRole" "rbac.authorization.k8s.io" "clusterroles" false.
Definition clusterRoleBindingsGVR : GVR := mkGVR "ClusterRoleBinding" "rbac.authorization.k8s.io" "clusterrolebindings" false.
Definition crdsGVR : GVR := mkGVR "CustomResourceDefinition" "apiextensions.k8s.io" "customresourcedefinitions" false.
Definition modulesGVR : GVR := mkGVR "Module" "kmm.sigs.x-k8s.io" "modules" true.
Definition nodeFeatureRulesGVR : GVR := mkGVR "NodeFeatureRule" "nfd.k8s-sigs.io" "nodefeaturerules" true.
Definition serviceMonitorsGVR : GVR := mkGVR "ServiceMonitor" "monitoring.coreos.com" "servicemonitors" true.
Definition flavorsGVR : GVR := mkGVR "ResourceFlavor" "kueue.x-k8s.io" "resourceflavors" false.
Definition clusterQueuesGVR : GVR := mkGVR "ClusterQueue" "kueue.x-k8s.io" "clusterqueues" false.
Definition localQueuesGVR : GVR := mkGVR "LocalQueue" "kueue.x-k8s.io" "localqueues" true.
Definition admissionPoliciesGVR : GVR :=
  mkGVR "ValidatingAdmissionPolicy" "admissionregistration.k8s.io" "validatingadmissionpolicies" false.
Definition admissionBindingsGVR : GVR :=
  mkGVR "ValidatingAdmissionPolicyBinding" "admissionregistration.k8s.io" "validatingadmissionpolicybindings" false.

Definition kindGVR (k : Kind) : GVR :=
  match k with
  | KDaemonSet => daemonSetsGVR | KModule => modulesGVR | KConfigMap => configMapsGVR
  | KClaimTemplate => claimTemplatesGVR | KServiceAccount => serviceAccountsGVR | KClusterRole => clusterRolesGVR
  | KClusterRoleBinding => clusterRoleBindingsGVR | KDeviceClass => deviceClassesGVR
  | KAdmissionPolicy => admissionPoliciesGVR | KAdmissionPolicyBinding => admissionBindingsGVR
  | KServiceMonitor => serviceMonitorsGVR | KService => servicesGVR | KNodeFeatureRule => nodeFeatureRulesGVR
  | KResourceFlavor => flavorsGVR | KClusterQueue => clusterQueuesGVR | KLocalQueue => localQueuesGVR | KSCC => sccGVR
  end.

Definition objRef (o : Obj) : Ref :=
  match o with
  | ODaemonSet d => mkRef KDaemonSet (ds_Namespace d) (ds_Name d)
  | OConfigMap c => mkRef KConfigMap (cm_Namespace c) (cm_Name c)
  | OClaimTemplate ns n => mkRef KClaimTemplate ns n
  | OServiceAccount ns n => mkRef KServiceAccount ns n
  | ODraClusterRole n => mkRef KClusterRole "" n
  | ODraClusterRoleBinding n _ _ _ => mkRef KClusterRoleBinding "" n
  | ODeviceClass d => mkRef KDeviceClass "" (dcl_Name d)
  | OAdmissionPolicy n _ => mkRef KAdmissionPolicy "" n
  | OAdmissionPolicyBinding n _ => mkRef KAdmissionPolicyBinding "" n
  | OServiceMonitor ns n _ _ => mkRef KServiceMonitor ns n
  | OService ns n _ => mkRef KService ns n
  | ONodeFeatureRule r => mkRef KNodeFeatureRule (nfr_Namespace r) (nfr_Name r)
  | OResourceFlavor f => mkRef KResourceFlavor "" (rf_Name f)
  | OClusterQueue q => mkRef KClusterQueue "" (kcq_Name q)
  | OLocalQueue q => mkRef KLocalQueue (klq_Namespace q) (klq_Name q)
  end.

(** ** The requests of an exchange *)

Section Accesses.
Context (ns : string) (o : ManagerOptions).

(** A request about one object, of a resource or a subresource. *)
Definition subAccess (k : GVR) (sub objNs name verb : string) : Access :=
  mkAccess (if gv_Namespaced k && negb (bool_decide (objNs = "")) then Some objNs else None)
    (gv_Group k) (gv_Resource k +:+ sub) name verb.
Definition access (k : GVR) : string → string → string → Access := subAccess k "".

(** The informer behind a cached kind: one per namespace the cache is restricted to, or one for the cluster. *)
Definition informer (k : GVR) : list Access :=
  let scopes := if gv_Namespaced k && negb (bool_decide (gv_Kind k ∈ mg_CacheClusterWide o))
                then Some <$> mg_CacheNamespaces o else [None] in
  s ← scopes; (λ v, mkAccess s (gv_Group k) (gv_Resource k) "" v) <$> ["list"; "watch"].

Definition writeAccess (verb : string) (r : Ref) : Access := access (kindGVR (ref_Kind r)) (ref_Namespace r) (ref_Name r) verb.

(** A role is written only by a client who holds its rules.  Binding it needs no more than that. *)
Definition escalation (x : Obj) : list Access :=
  match x with
  | ODraClusterRole _ => cro_rules DynamicResourceAllocationClusterRole ≫= ruleAccesses
  | _ => []
  end.

(** [controllerutil.CreateOrPatch]: a cached read, then a creation or a patch. *)
Definition createOrPatch (k : GVR) (name : string) : list Access :=
  informer k ++ [access k "" name "create"; access k "" name "patch"].

Definition polAccesses (e : PolEv) : list Access :=
  match e with
  | PvGetPolicy _ _ | PvListPolicies _ => informer policiesGVR
  | PvUpdatePolicy cp _ => [access policiesGVR "" (cp_Name cp) "update"]
  | PvUpdatePolicyStatus cp _ => [subAccess policiesGVR "/status" "" (cp_Name cp) "update"]
  | PvListCRDs _ => [access crdsGVR "" "" "list"]                       (* an unstructured list *)
  | PvGetCRDScope _ _ => informer crdsGVR
  | PvGetDaemonSet _ _ _ => informer daemonSetsGVR
  | PvGetModule _ _ _ => informer modulesGVR
  | PvCreateModule m _ => [access modulesGVR (mod_Namespace m) (mod_Name m) "create"]
  | PvPatchModule m _ => [access modulesGVR (mod_Namespace m) (mod_Name m) "patch"]
  | PvGetConfigMap _ _ _ => informer configMapsGVR
  | PvGetDeviceClass _ _ => informer deviceClassesGVR
  (* unstructured reads are not cached *)
  | PvGetNodeFeatureRule n' n _ => [access nodeFeatureRulesGVR n' n "get"]
  | PvGetResourceFlavor n _ => [access flavorsGVR "" n "get"]
  | PvGetClusterQueue n _ => [access clusterQueuesGVR "" n "get"]
  | PvGetLocalQueue n' n _ => [access localQueuesGVR n' n "get"]
  | PvListServiceMonitors _ _ _ => informer serviceMonitorsGVR
  | PvListServices _ _ _ => informer servicesGVR
  | PvListClusterQueues _ _ => informer clusterQueuesGVR
  | PvListLocalQueues _ _ => [access localQueuesGVR "" "" "list"]      (* through the API reader *)
  | PvListNodes _ => informer nodesGVR
  | PvListSlices _ => informer slicesGVR
  | PvSetControllerReference _ _ _ => []                                (* in memory *)
  | PvCreate x _ => writeAccess "create" (objRef x) :: escalation x
  | PvUpdate x _ => writeAccess "update" (objRef x) :: escalation x
  | PvPatch x _ => writeAccess "patch" (objRef x) :: escalation x
  | PvDelete r _ => [writeAccess "delete" r]
  | PvDeleteAllOf k _ _ => [access (kindGVR k) "" "" "deletecollection"]
  end.

Definition accesses (e : Ev) : list Access :=
  match e with
  | EvNow _ | EvSetControllerReference _ _ _ => []
  | EvGetPlan direct n _ => if direct then [access plansGVR "" n "get"] else informer plansGVR
  | EvUpdatePlan p _ => [access plansGVR "" (plan_Name p) "update"]
  | EvUpdatePlanStatus p _ => [subAccess plansGVR "/status" "" (plan_Name p) "update"]
  | EvListPlans _ => informer plansGVR
  | EvGetFU _ _ => informer updatesGVR
  | EvUpdateFU f _ => [access updatesGVR "" (fu_Name f) "update"]
  | EvUpdateFUStatus f _ => [subAccess updatesGVR "/status" "" (fu_Name f) "update"]
  | EvListNodes _ _ | EvGetNode _ _ => informer nodesGVR
  | EvUpdateNode n _ => [access nodesGVR "" (node_name n) "update"]
  | EvListPodsOnNode _ _ | EvListPods _ _ _ _ | EvGetPod _ _ _ => informer podsGVR
  | EvEvict n' n _ => [subAccess podsGVR "/eviction" n' n "create"]
  | EvLogs n' n _ _ => [subAccess podsGVR "/log" n' n "get"]
  | EvListSlices _ => informer slicesGVR
  | EvListClaims _ | EvGetClaim _ _ _ => informer claimsGVR
  | EvGetClaimTemplate _ _ _ => informer claimTemplatesGVR
  | EvCreateJob j _ => [access jobsGVR (job_namespace j) (job_name j) "create"]
  | EvGetJob _ _ _ | EvListJobs _ _ _ _ => informer jobsGVR
  | EvDeleteJob n' n _ => [access jobsGVR n' n "delete"]
  (* the verifier reads the pull secret through the API reader, from the namespace of the operator *)
  | EvVerifyImage q _ => if bool_decide (iv_PullSecret q = "") then [] else [access secretsGVR ns (iv_PullSecret q) "get"]
  | EvGetSCC n _ => [access sccGVR "" n "get"]                          (* unstructured *)
  | EvCreateSCC s _ => [access sccGVR "" (scc_name s) "create"]
  | EvUpdateSCC s _ => [access sccGVR "" (scc_name s) "update"]
  | EvDeleteSCC n _ => [access sccGVR "" n "delete"]
  | EvCreateOrPatchRole c _ => createOrPatch clusterRolesGVR (cro_name c) ++ (cro_rules c ≫= ruleAccesses)
  | EvDeleteRole n _ => [access clusterRolesGVR "" n "delete"]
  | EvCreateOrPatchRoleBinding c _ => createOrPatch clusterRoleBindingsGVR (crb_name c)
  | EvDeleteRoleBinding n _ => [access clusterRoleBindingsGVR "" n "delete"]
  | EvGetServiceAccount _ _ _ => informer serviceAccountsGVR
  | EvCreateServiceAccount n' n _ => [access serviceAccountsGVR n' n "create"]
  | EvDeleteServiceAccount n' n _ => [access serviceAccountsGVR n' n "delete"]
  | EvPolicy e => polAccesses e
  end.

Definition refreshAccesses (e : REv) : list Access :=
  match e with
  | RvNow _ => []
  | RvListPolicies _ => informer policiesGVR
  | RvListSlicesOnNode _ _ => informer slicesGVR
  | RvListPods _ _ _ _ => informer podsGVR
  | RvGetClaim _ _ _ => informer claimsGVR
  | RvPatchAnnotation n' n _ _ _ => [access podsGVR n' n "patch"]
  | RvDeletePod n' n _ => [access podsGVR n' n "delete"]
  end.
End Accesses.

(** ** The watches of the controllers: what their [SetupWithManager] registers *)

Definition policyWatches (opts : ControllerOpts) : list GVR :=
  [policiesGVR; daemonSetsGVR] ++ (if KMMEnable opts then [modulesGVR] else []) ++ (if DRAEnable opts then [podsGVR] else []).
Definition updateWatches : list GVR := [updatesGVR].
Definition planWatches : list GVR := [plansGVR; slicesGVR; jobsGVR].
(** The index on slices, and the two watches. *)
Definition refreshWatches : list GVR := [slicesGVR; slicesGVR; podsGVR].
(** The index on pods. *)
Definition drainIndices : list GVR := [podsGVR].

Definition watchedKinds (opts : ControllerOpts) : list GVR :=
  drainIndices ++ policyWatches opts ++ updateWatches ++ planWatches ++ refreshWatches.
