(* ===== verification/RbacFacts.v ===== *)
(** * The roles of the operator cover its requests

    [confined] is what the controllers keep to: objects of the kinds granted in one namespace only are touched
    in that namespace, and each kind is written with the verbs it is granted for.  Every handler is proved to
    stay within it, and what stays within it is authorised. *)

From S2P Require Import Prelude GoStrings KubeTypes ApiTypes Common PolicyTypes PolicyObjects Client Drain OpenShift.
From S2P Require Import RecoveryNaming RecoveryEvents RecoveryController FwUpdate.
From S2P Require Import PolicyClient PolicyDaemonSets PolicyXpum PolicyDeploy PolicyKmm PolicyMisc PolicyController.
From S2P Require Import XpumRefresh Operator Rbac.

(** ** Namespaced reads

    A read in a namespace answers with objects of that namespace. *)

Class NamespacedReads `{!Env, !PolicyEnv, !RefreshEnv} : Prop := {
  nr_getJob : ∀ h ns n j, env_getJob h ns n = Ok j → job_namespace j = ns;
  nr_listJobs : ∀ h ns k v l j, env_listJobs h ns k v = Ok l → j ∈ l → job_namespace j = ns;
  nr_listPods : ∀ h ns k v l p, env_listPods h ns k v = Ok l → p ∈ l → pod_namespace p = ns;
  nr_getConfigMap : ∀ h ns n c, penv_getConfigMap h ns n = Ok c → cm_Namespace c = ns;
  nr_refreshPods : ∀ h ns k v l p, renv_listPods h ns k v = Ok l → p ∈ l → pod_namespace p = ns;
}.

(** What follows may rely on what is known of the answer, whatever the world. *)
Lemma keeps_bind_post {E S A B} (R : World E S → World E S → Prop) `{!PreOrder R} (Q : A → Prop) (m : M E S A) (f : A → M E S B) :
  keeps R m → (∀ w, wp m (λ a _, Q a) w) → (∀ a, Q a → keeps R (f a)) → keeps R (m ≫= f).
Proof. intros Hm HQ Hf w. etrans; [apply Hm|]. apply Hf, HQ. Qed.

(** ** What the controllers keep to *)

Section Confined.
Context (ns : string).

Definition confinedRef (r : Ref) : Prop :=
  match ref_Kind r with
  | KDaemonSet | KConfigMap | KServiceAccount | KServiceMonitor | KService => ref_Namespace r = ns
  | _ => True
  end.

Definition confinedPol (e : PolEv) : Prop :=
  match e with
  | PvCreate x _ => confinedRef (objRef x)
  | PvUpdate x _ =>
      match x with
      | OConfigMap _ => confinedRef (objRef x)
      | ONodeFeatureRule _ | OResourceFlavor _ | OClusterQueue _ | OLocalQueue _ => True
      | _ => False
      end
  | PvPatch x _ => match x with ODaemonSet _ => confinedRef (objRef x) | ODeviceClass _ => True | _ => False end
  | PvDelete r _ => confinedRef r
  | PvDeleteAllOf k _ _ => k = KResourceFlavor
  | _ => True
  end.

Definition confined (e : Ev) : Prop :=
  match e with
  | EvLogs n _ _ _ | EvDeleteJob n _ _ | EvCreateServiceAccount n _ _ | EvDeleteServiceAccount n _ _ => n = ns
  | EvCreateJob j _ => job_namespace j = ns
  | EvCreateOrPatchRole c _ => ∃ scc, cro_rules c = cro_rules (sccRole "" scc)
  | EvPolicy e => confinedPol e
  | _ => True
  end.

Definition confinedRefresh (e : REv) : Prop := match e with RvPatchAnnotation n _ _ _ _ => n = ns | _ => True end.
End Confined.

(** ** What stays within it is authorised *)

(** [Forall P l] for a list that computes, each element by the lemma given. *)
Ltac each lem := repeat (apply Forall_cons_2; [by apply lem|]); apply Forall_nil_2.

Section Authorised.
Context `{!Authorizer} (ns : string) (o : ManagerOptions).
Context (Hcache : mg_CacheNamespaces o = [ns]) (Hns : ns ≠ "").
Context (Hwide : mg_CacheClusterWide o = ["Pod"; "ResourceClaim"; "ResourceClaimTemplate"]).

(** Patching a cluster role or its binding is what no role grants. *)
Definition rolePatch (a : Access) : Prop :=
  ac_Group a = "rbac.authorization.k8s.io" ∧ ac_Resource a ∈ ["clusterroles"; "clusterrolebindings"] ∧ ac_Verb a = "patch".

Definition permitted (a : Access) : Prop := authorized ns a = true ∨ rolePatch a.

Lemma clusterRole_allows a : allows (cro_rules ManagerClusterRole) a = rulesList (cro_rules ManagerClusterRole) a.
Proof. apply allows_listed. by vm_compute. Qed.
Lemma namespaced_allows a : allows namespacedRules a = rulesList namespacedRules a.
Proof. apply allows_listed. by vm_compute. Qed.

Lemma permitted_cluster a : rulesList (cro_rules ManagerClusterRole) a = true → permitted a.
Proof. intros Ha. left. unfold authorized. by rewrite clusterRole_allows, Ha. Qed.

Lemma permitted_own a : ac_Namespace a = Some ns → rulesList namespacedRules a = true → permitted a.
Proof.
  intros Hn Ha. left. unfold authorized. rewrite namespaced_allows, Ha, (bool_decide_true _ Hn). by rewrite orb_true_r.
Qed.

Lemma permitted_rolePatch k n : k = clusterRolesGVR ∨ k = clusterRoleBindingsGVR → permitted (access k "" n "patch").
Proof. intros [-> | ->]; right; (split; [done|]); (split; [set_solver|done]). Qed.

(** A request in the namespace of the operator. *)
Lemma permitted_in k sub n v :
  gv_Namespaced k = true → rulesList namespacedRules (mkAccess None (gv_Group k) (gv_Resource k +:+ sub) "" v) = true →
  permitted (subAccess k sub ns n v).
Proof.
  intros Hk Hl. apply permitted_own.
  - unfold subAccess. simpl. by rewrite Hk, bool_decide_false.
  - rewrite <-Hl. unfold subAccess, rulesList, namespacedRules. done.
Qed.

(** The informer of a kind: granted for the cluster, or for the namespace the cache is restricted to. *)
Definition listsAll (l : list PolicyRule) (k : GVR) : bool :=
  forallb (λ v, rulesList l (mkAccess None (gv_Group k) (gv_Resource k) "" v)) ["list"; "watch"].

Definition informerCovered (k : GVR) : bool :=
  listsAll (cro_rules ManagerClusterRole) k
  || (gv_Namespaced k && negb (bool_decide (gv_Kind k ∈ ["Pod"; "ResourceClaim"; "ResourceClaimTemplate"]))
      && listsAll namespacedRules k).

Lemma informer_permitted k : informerCovered k = true → Forall permitted (informer o k).
Proof.
  unfold informerCovered, informer, listsAll. rewrite Hwide, Hcache. intros Hk.
  assert (∀ s, rulesList (cro_rules ManagerClusterRole) (mkAccess None (gv_Group k) (gv_Resource k) "" "list") = true →
    rulesList (cro_rules ManagerClusterRole) (mkAccess None (gv_Group k) (gv_Resource k) "" "watch") = true →
    Forall permitted ((λ v, mkAccess s (gv_Group k) (gv_Resource k) "" v) <$> ["list"; "watch"])) as Hc.
  { intros s H1 H2. each permitted_cluster. }
  destruct (gv_Namespaced k && negb _) eqn:Hn; cbn [fmap list_fmap mbind list_bind]; rewrite app_nil_r.
  - apply orb_prop in Hk as [[H1 H2]%andb_prop|[H1 H2]%andb_prop].
    + apply andb_prop in H2 as [H2 _]. by apply Hc.
    + apply andb_prop in H2 as [H2 H3]. apply andb_prop in H3 as [H3 _]. each permitted_own.
  - simpl in Hk. rewrite orb_false_r in Hk. apply andb_prop in Hk as [H1 H2]. apply andb_prop in H2 as [H2 _]. by apply Hc.
Qed.

(** The rules of the roles the operator writes are held by the operator itself. *)
Lemma sccRole_held scc : Forall permitted (cro_rules (sccRole "" scc) ≫= ruleAccesses).
Proof. each permitted_cluster. Qed.

Lemma draRole_held : Forall permitted (cro_rules DynamicResourceAllocationClusterRole ≫= ruleAccesses).
Proof. each permitted_cluster. Qed.

(** Every kind may be created and deleted, in its place. *)
Lemma writeAccess_permitted v r : v ∈ ["create"; "delete"] → confinedRef ns r → permitted (writeAccess v r).
Proof.
  unfold confinedRef, writeAccess, access. destruct r as [k n' n]. cbn [ref_Kind ref_Namespace ref_Name].
  intros Hv He. repeat (apply elem_of_cons in Hv as [-> |Hv]); try by apply not_elem_of_nil in Hv.
  all: destruct k; cbn [kindGVR];
    first [by apply permitted_cluster|subst n'; by apply permitted_in].
Qed.

Ltac permitted_tac :=
  first [ apply informer_permitted; reflexivity
        | apply Forall_cons_2; [first [by apply permitted_cluster|match goal with H : _ = ns |- _ => rewrite H end; by apply permitted_in]|]
        | apply Forall_nil_2 ].

Lemma confinedPol_permitted e : confinedPol ns e → Forall permitted (polAccesses o e).
Proof.
  destruct e; cbn [confinedPol polAccesses]; intros He; try by repeat permitted_tac.
  - apply Forall_cons_2; [by apply writeAccess_permitted; [set_solver|]|]. destruct o0; try apply Forall_nil_2. apply draRole_held.
  - destruct o0; try done; unfold confinedRef, writeAccess, access in *; cbn [objRef ref_Kind ref_Namespace kindGVR] in *; by repeat permitted_tac.
  - destruct o0; try done; unfold confinedRef, writeAccess, access in *; cbn [objRef ref_Kind ref_Namespace kindGVR] in *; by repeat permitted_tac.
  - apply Forall_cons_2; [by apply writeAccess_permitted; [set_solver|]|]. apply Forall_nil_2.
  - subst k. by repeat permitted_tac.
Qed.

Lemma createOrPatch_permitted k n : k = clusterRolesGVR ∨ k = clusterRoleBindingsGVR → Forall permitted (createOrPatch o k n).
Proof.
  intros Hk. unfold createOrPatch. apply Forall_app. split; [destruct Hk as [-> | ->]; by apply informer_permitted|].
  apply Forall_cons_2; [destruct Hk as [-> | ->]; by apply permitted_cluster|].
  apply Forall_cons_2; [by apply permitted_rolePatch|apply Forall_nil_2].
Qed.

Lemma confined_permitted e : confined ns e → Forall permitted (accesses ns o e).
Proof.
  destruct e; cbn [confined accesses]; intros He; try by repeat permitted_tac.
  - destruct direct; by repeat permitted_tac.
  - case_bool_decide; [apply Forall_nil_2|]. apply Forall_cons_2; [by apply permitted_in|apply Forall_nil_2].
  - destruct He as [scc ->]. apply Forall_app. split; [apply createOrPatch_permitted; by left|apply sccRole_held].
  - apply createOrPatch_permitted; by right.
  - by apply confinedPol_permitted.
Qed.

Lemma confinedRefresh_permitted e : confinedRefresh ns e → Forall permitted (refreshAccesses o e).
Proof. destruct e; cbn [confinedRefresh refreshAccesses]; intros He; by repeat permitted_tac. Qed.

Lemma watched_permitted opts : Forall permitted (watchedKinds opts ≫= informer o).
Proof.
  assert (Forall (λ k, informerCovered k = true) (watchedKinds opts)) as Hk.
  { unfold watchedKinds, policyWatches. destruct (KMMEnable opts), (DRAEnable opts); repeat constructor. }
  apply Forall_bind. eapply Forall_impl; [exact Hk|]. apply informer_permitted.
Qed.
End Authorised.

(** ** The handlers stay within it *)

Section OpenShiftConfined.
Context `{!Env} {St : Type} (ns : string).
Abbreviation stays m := (keeps (@logged _ St (confined ns)) m).

Lemma EnsureSCC_confined scc : stays (EnsureSCC scc).
Proof. unfold EnsureSCC. keeps_auto. Qed.
Lemma CreateSCCRole_confined n s : stays (CreateSCCRole n s).
Proof. unfold CreateSCCRole. keeps_auto. Qed.
Lemma CreateSCCRoleBinding_confined b r s n : stays (CreateSCCRoleBinding b r s n).
Proof. unfold CreateSCCRoleBinding. keeps_auto. Qed.
Lemma CreateServiceAccount_confined n : stays (CreateServiceAccount n ns).
Proof. unfold CreateServiceAccount. keeps_auto. Qed.
Lemma DeleteOpenShiftSCCResources_confined a b c d : stays (DeleteOpenShiftSCCResources a b c d ns).
Proof. unfold DeleteOpenShiftSCCResources. keeps_auto. Qed.

Lemma EnsureNodeTaint_confined n t : stays (EnsureNodeTaint n t).
Proof. unfold EnsureNodeTaint. keeps_auto. Qed.
Lemma RemoveNodeTaint_confined n t : stays (RemoveNodeTaint n t).
Proof. unfold RemoveNodeTaint. keeps_auto. Qed.
Lemma EvictPods_confined l : stays (EvictPods l).
Proof. unfold EvictPods, evictPod. keeps_auto. Qed.
Lemma GPUPodsOnNode_confined n : stays (GPUPodsOnNode n).
Proof. unfold GPUPodsOnNode, podsOnNode, podClaimsIntelGPU. keeps_auto. Qed.
Lemma PodsBlockingDrain_confined n o l : stays (PodsBlockingDrain n o l).
Proof. unfold PodsBlockingDrain, podsOnNode. keeps_auto. Qed.
Lemma NodesWithTaint_confined t : stays (NodesWithTaint t).
Proof. unfold NodesWithTaint. keeps_auto. Qed.
End OpenShiftConfined.

#[export] Hint Resolve EnsureSCC_confined CreateSCCRole_confined CreateSCCRoleBinding_confined CreateServiceAccount_confined
  DeleteOpenShiftSCCResources_confined EnsureNodeTaint_confined RemoveNodeTaint_confined EvictPods_confined
  GPUPodsOnNode_confined PodsBlockingDrain_confined NodesWithTaint_confined : keeps.

Section RecoveryConfined.
Context `{!Env, !PolicyEnv, !RefreshEnv, !NamespacedReads} (r : GPURecoveryPlanReconciler).
Abbreviation stays m := (keeps (logged (confined (Namespace (Opts r)))) m).

Lemma setEventState_confined i st t : stays (setEventState i st t).
Proof. unfold setEventState, getEvt, modEvt, modEvents. keeps_auto. Qed.
Hint Resolve setEventState_confined : keeps.

(** The Job read to be deleted is one of the namespace. *)
Lemma deleteJobByName_confined n : stays (deleteJobByName r n).
Proof.
  unfold deleteJobByName. apply (keeps_bind_post _ (λ g, ∀ j, g = Ok j → job_namespace j = Namespace (Opts r))).
  - keeps_auto.
  - intros w j. apply nr_getJob.
  - intros [j|e] Hj; [|keeps_auto]. rewrite (Hj j eq_refl). keeps_auto.
Qed.
Hint Resolve deleteJobByName_confined : keeps.

Lemma prepareRecoveryJob_namespace job i w : wp (prepareRecoveryJob r job i) (λ j _, job_namespace j = Namespace (Opts r)) w.
Proof. unfold prepareRecoveryJob, getEvt, appendMessage. wp_steps. by case_match; wp_steps. Qed.

Lemma prepareRecoveryJob_confined job i : stays (prepareRecoveryJob r job i).
Proof. unfold prepareRecoveryJob, getEvt, appendMessage. keeps_auto. Qed.
Hint Resolve prepareRecoveryJob_confined : keeps.

Lemma createOrAdopt_confined job : job_namespace job = Namespace (Opts r) → stays (createOrAdopt job).
Proof. intros Hj. unfold createOrAdopt. keeps_auto. Qed.

Hint Resolve createOrAdopt_confined : keeps.

(** What follows the preparation works on a Job of the namespace. *)
Lemma prepared_confined {B} job i (f : Job → POp B) :
  (∀ j, job_namespace j = Namespace (Opts r) → stays (f j)) → stays (prepareRecoveryJob r job i ≫= f).
Proof.
  intros Hf. apply (keeps_bind_post _ (λ j, job_namespace j = Namespace (Opts r)));
    [apply prepareRecoveryJob_confined|apply prepareRecoveryJob_namespace|exact Hf].
Qed.

Ltac recovery_step :=
  match goal with
  | |- keeps _ (mbind _ (prepareRecoveryJob _ _ _)) => apply prepared_confined; intros ? ?
  | |- keeps _ _ => keeps_step
  end.
Ltac recovery_auto := repeat (intros; cbn beta; recovery_step).

Lemma createRecoveryJob_confined i : stays (createRecoveryJob r i).
Proof.
  unfold createRecoveryJob, createResetJob, createReflashJob, parkForFirmware, getEvt, modEvt, modEvents, appendMessage.
  recovery_auto.
Qed.
Hint Resolve createRecoveryJob_confined : keeps.

Lemma syncEvents_confined : stays (syncRecoveryEventsFromSlices r).
Proof.
  unfold syncRecoveryEventsFromSlices, removeResolvedEvents, deleteEventJobs, addNewEvents, addRecoveryEvent, escalateEvent,
    getEvt, modEvt, modEvents, appendMessage. keeps_auto.
Qed.

Lemma processApprovals_confined : stays (processApprovals r).
Proof.
  unfold processApprovals, approveEvent, consumeApprovals, reapproveFailed, findMatchingApproval, nodeSelectorMatches,
    nodeLabelCacheGet, grantApproval, recordApproval, applyOverride, blockEvent, startRecovery, ensureImagesUsable,
    holdForImageFix, clearImageVerifyHold, beginDrain, getEvt, modEvt, modEvents, appendMessage. keeps_auto.
Qed.

Lemma claimsHoldingDevice_confined i : stays (claimsHoldingDevice r i).
Proof. unfold claimsHoldingDevice, devicesForBDF, claimHeldOnlyByUndrainablePods, getEvt. keeps_auto. Qed.
Hint Resolve claimsHoldingDevice_confined : keeps.

Lemma drainNodeForEvent_confined i : stays (drainNodeForEvent r i).
Proof. unfold drainNodeForEvent, getEvt, modEvt, modEvents. keeps_auto. Qed.
Hint Resolve drainNodeForEvent_confined : keeps.

Lemma processDrains_confined : stays (processDrains r).
Proof.
  unfold processDrains, drainEvent, drainDeadlineExceeded, failDrain, getEvt, modEvt, modEvents, appendMessage. keeps_auto.
Qed.

Lemma syncJobStatuses_confined : stays (syncJobStatuses r).
Proof.
  unfold syncJobStatuses, syncJobStatus, applyJobVerdict, jobVerdictOverdue, failEventJob, getEvt, modEvt, modEvents, appendMessage.
  keeps_auto.
Qed.

Lemma untaint_confined keep : stays (untaintNodesExcept keep).
Proof. unfold untaintNodesExcept, appendMessage. keeps_auto. Qed.
Hint Resolve syncEvents_confined processApprovals_confined processDrains_confined syncJobStatuses_confined untaint_confined : keeps.

Lemma handleFinalizer_confined : stays (handleFinalizer r).
Proof.
  unfold handleFinalizer, runningRecoveryJobs, deleteAllJobs, deleteEventJobs, releaseAllDrainTaints, cleanupOpenShiftResources,
    updatePlanMem, appendMessage. keeps_auto.
Qed.
Hint Resolve handleFinalizer_confined : keeps.

Lemma persistPlan_confined name orig : stays (persistPlan r name orig).
Proof.
  assert (∀ want, stays (RetryOnConflict (writeStatus r name want))).
  { intros want. apply keeps_RetryOnConflict; [apply _|]. unfold writeStatus, getPlan. keeps_auto. }
  assert (∀ ch, stays (RetryOnConflict (writeApprovals r name ch))).
  { intros ch. apply keeps_RetryOnConflict; [apply _|]. unfold writeApprovals, getPlan. keeps_auto. }
  unfold persistPlan. keeps_auto.
Qed.
Hint Resolve persistPlan_confined : keeps.

Lemma Reconcile_confined name : stays (Reconcile r name).
Proof.
  unfold Reconcile, getPlan, reconcileBody, ensureOpenShiftResources, reconcilePhases, reconcileDrainTaints, updatePlanState,
    appendMessage. keeps_auto.
Qed.
End RecoveryConfined.

Section UpdateConfined.
Context `{!Env, !PolicyEnv, !RefreshEnv, !NamespacedReads} (r : GPUFirmwareUpdateReconciler).
Abbreviation ns := (Namespace (fuOpts r)).
Abbreviation stays m := (keeps (logged (confined ns)) m).

(** The log is read from a pod of the Job, in its namespace. *)
Lemma checkJobCompletion_confined job : job_namespace job = ns → stays (checkJobCompletionFromLogs job).
Proof.
  intros Hj. unfold checkJobCompletionFromLogs. rewrite Hj.
  apply (keeps_bind_post _ (λ l, ∀ pods p, l = Ok pods → p ∈ pods → pod_namespace p = ns)).
  - keeps_auto.
  - intros w pods p. apply nr_listPods.
  - intros [[|pod pods]|e] Hp; [keeps_auto| |keeps_auto]. rewrite (Hp _ pod eq_refl) by left. keeps_auto.
Qed.
Hint Resolve checkJobCompletion_confined : keeps.

Lemma tallyJob_confined t job : job_namespace job = ns → stays (tallyJob t job).
Proof. intros Hj. unfold tallyJob. keeps_auto. Qed.

Lemma continueUpdateJobs_confined : stays (continueUpdateJobs r).
Proof.
  unfold continueUpdateJobs. apply keeps_bind; [apply _|keeps_auto|]. intros fu.
  apply (keeps_bind_post _ (λ l, ∀ jobs j, l = Ok jobs → j ∈ jobs → job_namespace j = ns)).
  - keeps_auto.
  - intros w jobs j. apply nr_listJobs.
  - intros [jobs|e] Hl; [|keeps_auto]. unfold modInfos. keeps_auto. apply tallyJob_confined. by eapply Hl.
Qed.

Lemma updateStatus_confined : stays updateStatus.
Proof. unfold updateStatus. keeps_auto. Qed.
Lemma updateObject_confined : stays updateObject.
Proof. unfold updateObject. keeps_auto. Qed.
Hint Resolve continueUpdateJobs_confined updateStatus_confined updateObject_confined : keeps.

Lemma taintAndDrain_confined l : stays (taintAndDrainNodes l).
Proof. unfold taintAndDrainNodes. keeps_auto. Qed.
Hint Resolve taintAndDrain_confined : keeps.

Lemma beginUpdate_confined : stays (beginUpdate r).
Proof.
  unfold beginUpdate, failUpdate, ensureFwOpenShiftResources, verifyContentImage, selectNodesTaintAndDrain, selectNodesToUpdate, modInfos.
  keeps_auto.
Qed.

Lemma startOrContinue_confined : stays (startOrContinueUpdate r).
Proof. unfold startOrContinueUpdate, startUpdateJobs, startUpdateJob, modInfos. keeps_auto. Qed.

Lemma drainStatus_confined : stays checkForNodeDrainStatus.
Proof. unfold checkForNodeDrainStatus, drainRemaining, modInfos. keeps_auto. Qed.

Lemma canaryDone_confined : stays handleCanaryDone.
Proof. unfold handleCanaryDone, modInfos. keeps_auto. Qed.

Lemma untaintAndFinalize_confined b : stays (untaintNodesAndFinalize b).
Proof. unfold untaintNodesAndFinalize. keeps_auto. Qed.

Lemma finalCleanup_confined : stays (finalCleanup r).
Proof. unfold finalCleanup, cleanupFwOpenShiftResources. keeps_auto. Qed.
Hint Resolve beginUpdate_confined startOrContinue_confined drainStatus_confined canaryDone_confined untaintAndFinalize_confined
  finalCleanup_confined : keeps.

Lemma FuReconcile_confined name : stays (FuReconcile r name).
Proof. unfold FuReconcile, dispatch, finished. keeps_auto. Qed.
End UpdateConfined.

Section RefreshConfined.
Context `{!Env, !PolicyEnv, !RefreshEnv, !NamespacedReads} (opts : ControllerOpts).
Abbreviation stays m := (keeps (logged (confinedRefresh (Namespace opts))) m).

Lemma restartPod_confined pod node reason : stays (restartPod opts pod node reason).
Proof. unfold restartPod, restartingXpumPods, listXpumPods. keeps_auto. Qed.
Hint Resolve restartPod_confined : keeps.

Lemma refreshPod_confined pod node states mode : pod_namespace pod = Namespace opts → stays (refreshPod opts pod node states mode).
Proof.
  intros Hp. unfold refreshPod, adoptPod, allocatedDeviceNames, patchDeviceRecord, trackRebinds, clearRebinds, resetAttempts.
  rewrite Hp. keeps_auto.
Qed.

Lemma xpumPods_namespace node w :
  wp (xpumPodsOnNode opts node) (λ l _, ∀ pods p, l = Ok pods → p ∈ pods → pod_namespace p = Namespace opts) w.
Proof.
  unfold xpumPodsOnNode, listXpumPods. wp_steps. intros pods p.
  destruct (renv_listPods _ _ _ _) as [l|e] eqn:Hl; [|done]. intros [= <-] [_ Hp]%list_elem_of_filter. by eapply nr_refreshPods.
Qed.

Lemma xpumPods_confined {B} node (f : res (list Pod) → ROp B) :
  (∀ l, (∀ pods p, l = Ok pods → p ∈ pods → pod_namespace p = Namespace opts) → stays (f l)) →
  stays (xpumPodsOnNode opts node ≫= f).
Proof.
  intros Hf. eapply keeps_bind_post; [apply _| |apply xpumPods_namespace|exact Hf].
  unfold xpumPodsOnNode, listXpumPods. keeps_auto.
Qed.

Ltac refresh_step :=
  match goal with
  | |- keeps _ (mbind _ (xpumPodsOnNode _ _)) => apply xpumPods_confined; intros [?|?] ?
  | |- keeps _ (refreshPod _ _ _ _ _) => apply refreshPod_confined; eauto
  | |- keeps _ _ => keeps_step
  end.

Lemma RefreshReconcile_confined node : stays (RefreshReconcile opts node).
Proof. unfold RefreshReconcile, restartMode, deviceStates, forgetNode. repeat (intros; cbn beta; refresh_step). Qed.
End RefreshConfined.

Section PolicyConfined.
Context `{!Env, !PolicyEnv, !YamlCodec, !RefreshEnv, !NamespacedReads}.

Section SubControllers.
Context (opts : ControllerOpts).
Abbreviation ns := (Namespace opts).
Abbreviation stays m := (keeps (logged (confined ns)) m).

Lemma create_confined x : confinedRef ns (objRef x) → stays (Create x).
Proof. intros Hx. by apply keeps_exchange_logged. Qed.
Lemma delete_confined x : confinedRef ns x → stays (Delete x).
Proof. intros Hx. by apply keeps_exchange_logged. Qed.
Lemma onStatus_confined f : stays (onStatus f).
Proof. unfold onStatus. keeps_auto. Qed.
Lemma addError_confined s : stays (addError s).
Proof. apply onStatus_confined. Qed.
Hint Resolve create_confined delete_confined onStatus_confined addError_confined : keeps.

Lemma createMissing_confined l : Forall (λ x, confinedRef ns (objRef x)) l → stays (createMissing l).
Proof. induction 1 as [|x l Hx _ IH]; simpl; keeps_auto. Qed.
Lemma deleteRefs_confined l : Forall (confinedRef ns) l → stays (deleteRefs l).
Proof. induction 1 as [|x l Hx _ IH]; simpl; keeps_auto. Qed.
Lemma deleteEach_confined l : Forall (confinedRef ns) l → stays (deleteEach l).
Proof. induction 1 as [|x l Hx _ IH]; simpl; keeps_auto. Qed.
Lemma deleteStale_confined what l : Forall (confinedRef ns) l → stays (deleteStale what l).
Proof. induction 1 as [|x l Hx _ IH]; simpl; keeps_auto. Qed.

(** The mutation puts the DaemonSet in its namespace, whatever was read. *)
Lemma createOrPatch_confined ds f : (∀ d, ds_Namespace (f d) = ns) → stays (createOrPatchDaemonSet ds f).
Proof.
  intros Hf. assert (∀ d, stays (Patch (ODaemonSet (f d))) ∧ stays (Create (ODaemonSet (f d)))) as Hw.
  { intros d. split; [|by apply create_confined, Hf]. apply keeps_exchange_logged. intros a. apply Hf. }
  unfold createOrPatchDaemonSet. keeps_auto; apply Hw.
Qed.

Lemma removeDaemonSet_confined part name f : stays (removeDaemonSet opts part name f).
Proof. unfold removeDaemonSet, cleanupOpenShift. keeps_auto. Qed.
Lemma updateDsStatus_confined name f : stays (updateDaemonSetStatus opts name f).
Proof. unfold updateDaemonSetStatus. keeps_auto. Qed.
Lemma ensureOpenShift_confined n part scc what : stays (ensureOpenShift opts n part scc what).
Proof. unfold ensureOpenShift. keeps_auto. Qed.
Hint Resolve removeDaemonSet_confined updateDsStatus_confined ensureOpenShift_confined : keeps.

Lemma Dp_confined : stays (DpReconcile opts).
Proof.
  assert (∀ cp, stays (createOrPatchDaemonSet (buildDpDaemonSet opts cp) (updateDpDaemonSet opts cp))).
  { intros cp. by apply createOrPatch_confined. }
  unfold DpReconcile. keeps_auto.
Qed.

(** The config map that is updated is the one that was read. *)
Lemma otelConfigMap_confined cp n : stays (createOrUpdateOTelConfigMap opts cp n).
Proof.
  unfold createOrUpdateOTelConfigMap. destruct (buildOTelConfigData cp) as [data|e]; [|keeps_auto]. cbv zeta.
  apply (keeps_bind_post _ (λ g, ∀ c, g = Ok c → cm_Namespace c = ns)).
  - keeps_auto.
  - intros w c. apply nr_getConfigMap.
  - intros [c|e] Hc; [|keeps_auto]. rewrite (Hc c eq_refl). keeps_auto.
Qed.
Hint Resolve otelConfigMap_confined : keeps.

Lemma Xpum_confined : stays (XpumReconcile opts).
Proof.
  assert (∀ cp c m h, stays (createOrPatchDaemonSet (buildXpumDaemonSet opts cp c m h) (updateXpumDaemonSet opts cp c m h))).
  { intros cp c m h. by apply createOrPatch_confined. }
  assert (∀ cp n, stays (createMonitoringResourceClaim opts cp n)).
  { intros cp n. unfold createMonitoringResourceClaim. keeps_auto. }
  assert (∀ cp, stays (generateXpumdConfigEntries opts cp)).
  { intros cp. unfold generateXpumdConfigEntries, fetchConfigHashFromConfigMap. keeps_auto. }
  unfold XpumReconcile. keeps_auto.
Qed.

Lemma Dra_confined : stays (DraReconcile opts).
Proof.
  assert (∀ cp, stays (createOrPatchDaemonSet (buildDraDaemonset opts cp) (updateDraDaemonSet opts cp))).
  { intros cp. by apply createOrPatch_confined. }
  assert (∀ cp, stays (createDependencyComponentsIfMissing opts cp)).
  { intros cp. apply createMissing_confined. unfold draComponents. repeat constructor. }
  assert (stays (deleteAll opts (ReqName opts))).
  { apply deleteRefs_confined. unfold draObjects. destruct (OpenShift opts); repeat constructor. }
  assert (∀ d, stays (ensureDeviceClass d)). { intros d. unfold ensureDeviceClass. keeps_auto. }
  unfold DraReconcile, removeDra, anyAllocatedResourceClaims, draOpenShift, ensureDrmDeviceClass, ensureVfioDeviceClass. keeps_auto.
Qed.

Lemma Kmm_confined : stays (KmmReconcile opts).
Proof.
  unfold KmmReconcile, recreateOnVersionToggle, deleteModuleIfExists, createOrPatchModule, setModuleDesiredState, updateKmmStatus,
    anyAllocatedResourceClaims. keeps_auto.
Qed.

Context (crds : list string).

Lemma prometheus_confined cp : stays (reconcilePrometheusComponents opts crds cp).
Proof.
  assert (∀ ms ss, stays (deleteEach ((mkRef KServiceMonitor ns <$> ms) ++ (mkRef KService ns <$> ss)))).
  { intros ms ss. apply deleteEach_confined, Forall_app. split; apply Forall_fmap, Forall_true; by intros. }
  assert (∀ a b c d e, stays (createMissing [OServiceMonitor ns a b c; OService ns d e])).
  { intros. apply createMissing_confined. repeat constructor. }
  unfold reconcilePrometheusComponents. keeps_auto.
Qed.

Lemma removePrometheus_confined : stays (removePrometheusComponents opts crds).
Proof.
  assert (∀ a b, stays (deleteRefs [mkRef KServiceMonitor ns a; mkRef KService ns b])).
  { intros. apply deleteRefs_confined. repeat constructor. }
  unfold removePrometheusComponents. keeps_auto.
Qed.

Lemma nfd_confined cp : stays (reconcileNfdRules opts cp).
Proof. unfold reconcileNfdRules, getNFDCRDScope, deleteNfdRule. keeps_auto. Qed.
Lemma removeNfd_confined : stays (removeNfdRules opts).
Proof. unfold removeNfdRules, getNFDCRDScope, deleteNfdRule. keeps_auto. Qed.

Lemma cleanupStale_confined owner k : stays (cleanupStaleKueueQueues owner k).
Proof.
  assert (∀ what l, stays (deleteStale what (mkRef KClusterQueue "" <$> l))).
  { intros what l. apply deleteStale_confined, Forall_fmap, Forall_true. by intros. }
  assert (∀ what (l : list (string * string)), stays (deleteStale what ((λ nn : string * string, mkRef KLocalQueue nn.2 nn.1) <$> l))).
  { intros what l. apply deleteStale_confined, Forall_fmap, Forall_true. by intros. }
  unfold cleanupStaleKueueQueues. keeps_auto.
Qed.

Lemma modifyLocalQueues_confined owner name l : stays (modifyLocalQueues owner name l).
Proof. induction l as [|lq l IH]; simpl; [keeps_auto|]. unfold modifyLocalQueue. keeps_auto. Qed.
Hint Resolve cleanupStale_confined modifyLocalQueues_confined : keeps.

Lemma modifyQueues_confined owner l : stays (modifyQueues owner l).
Proof. induction l as [|[cq rs] l IH]; simpl; [keeps_auto|]. unfold modifyOneClusterQueue, createClusterQueue. keeps_auto. Qed.
Hint Resolve modifyQueues_confined : keeps.

Lemma removeKueue_confined n : stays (removeKueueObjects crds n).
Proof. unfold removeKueueObjects. keeps_auto. Qed.
Hint Resolve removeKueue_confined : keeps.

Lemma kueue_confined cp : stays (reconcileKueueObjects crds cp).
Proof.
  unfold reconcileKueueObjects, getClusterNodes, getDevicePluginResources, getDraResources, createKueueQueues, modifyResourceFlavor,
    modifyClusterQueue, divideResources. keeps_auto.
Qed.
Hint Resolve prometheus_confined removePrometheus_confined nfd_confined removeNfd_confined kueue_confined : keeps.

Lemma Misc_confined : stays (MiscReconcile opts crds).
Proof. unfold MiscReconcile. keeps_auto. Qed.
End SubControllers.

Section Pass.
Context (Opts : ControllerOpts) (name : string).
Abbreviation stays m := (keeps (logged (confined (Namespace Opts))) m).

Lemma subControllers_confined crds : Forall (λ m, stays m) (subControllers (optsFor Opts name) crds).
Proof.
  unfold subControllers. rewrite !Forall_cons, Forall_nil. set (opts := optsFor Opts name).
  split_and!; [apply (Dp_confined opts)|apply (Xpum_confined opts)|apply (Dra_confined opts)|apply (Misc_confined opts)| |done].
  apply (Kmm_confined (withoutReadyLabel opts)).
Qed.

Lemma runAll_confined err l : Forall (λ m, stays m) l → stays (runAll err l).
Proof.
  intros Hl. revert err. induction Hl as [|m l Hm _ IH]; intros err; simpl; [keeps_auto|]. unfold onStatus. keeps_auto.
Qed.

Lemma runForDeletion_confined l : Forall (λ m, stays m) l → stays (runForDeletion l).
Proof. induction 1 as [|m l Hm _ IH]; simpl; keeps_auto. Qed.

Lemma PolicyReconcile_confined : stays (PolicyReconcile Opts name).
Proof.
  assert (∀ crds err, stays (runAll err (subControllers (optsFor Opts name) crds))).
  { intros crds err. apply runAll_confined, subControllers_confined. }
  assert (∀ crds, stays (runForDeletion (subControllers (optsFor Opts name) crds))).
  { intros crds. apply runForDeletion_confined, subControllers_confined. }
  unfold PolicyReconcile, policyBody, retrieveCRDNameList, ensureFinalizer, finishDeletion, deferredStatus. keeps_auto.
Qed.
End Pass.
End PolicyConfined.

(** ** What the roles do not grant *)

Section Withheld.
Context `{!Authorizer} (ns : string).

(** The verbs that rules list for a resource. *)
Definition verbsFor (l : list PolicyRule) (resource : string) : list string :=
  filter (λ r, resource ∈ pr_resources r) l ≫= pr_verbs.

Lemma rulesList_verbs l a : rulesList l a = true → ac_Verb a ∈ verbsFor l (ac_Resource a).
Proof.
  intros (r & Hr & Ha)%existsb_exists. unfold ruleLists in Ha. rewrite !andb_true_iff, !bool_decide_eq_true in Ha.
  apply list_elem_of_bind. exists r. split; [tauto|]. apply list_elem_of_filter. split; [tauto|]. by apply list_elem_of_In.
Qed.

Lemma authorized_verbs a : authorized ns a = true →
  ac_Verb a ∈ verbsFor (cro_rules ManagerClusterRole) (ac_Resource a) ∨
  ac_Namespace a = Some ns ∧ ac_Verb a ∈ verbsFor namespacedRules (ac_Resource a).
Proof.
  unfold authorized. rewrite clusterRole_allows, namespaced_allows, orb_true_iff, andb_true_iff, bool_decide_eq_true.
  intros [Ha|[Hn Ha]]; [left|right; split; [done|]]; by apply rulesList_verbs.
Qed.

(** No role lets the operator patch a cluster role or a binding of one. *)
Lemma rolePatch_withheld a : rolePatch a → authorized ns a = false.
Proof.
  intros (_ & Hr & Hv). apply not_true_is_false. intros Ha%authorized_verbs. rewrite Hv in Ha.
  assert (∀ l, bool_decide ("patch" ∈ verbsFor l (ac_Resource a)) = false → "patch" ∉ verbsFor l (ac_Resource a)) as Hno.
  { intros l. by rewrite bool_decide_eq_false. }
  destruct Ha as [Ha|[_ Ha]]; revert Ha; apply Hno;
    repeat (apply elem_of_cons in Hr as [->|Hr]; [by vm_compute|]); by apply not_elem_of_nil in Hr.
Qed.

(** Secrets are read, in the namespace of the operator. *)
Lemma secrets_read_only a : ac_Resource a = "secrets" → authorized ns a = true → ac_Namespace a = Some ns ∧ ac_Verb a ∈ ["get"; "list"].
Proof.
  intros Hr Ha%authorized_verbs. rewrite Hr in Ha.
  replace (verbsFor (cro_rules ManagerClusterRole) "secrets") with (@nil string) in Ha by (vm_compute; reflexivity).
  replace (verbsFor namespacedRules "secrets") with ["get"; "list"] in Ha by (vm_compute; reflexivity).
  destruct Ha as [Ha|Ha]; [by apply not_elem_of_nil in Ha|done].
Qed.
End Withheld.

(** ** The claim *)

Section Claim.
Context `{!Authorizer, !Startup, !Env, !PolicyEnv, !YamlCodec, !RefreshEnv, !NamespacedReads}.
Context (fl : mainFlags) (webhookTLS metricsTLS : slice) (f : features).
Abbreviation o := (managerOptions fl webhookTLS metricsTLS).
Abbreviation opts := (controllerOpts f).
Abbreviation ns := (Namespace opts).

(** Every request of a computation is granted to the operator, the patches of cluster roles apart. *)
Definition covered {S A} (m : M Ev S A) : Prop := keeps (logged (λ e, Forall (permitted ns) (accesses ns o e))) m.

Lemma namespace_nonempty : ns ≠ "".
Proof. simpl. unfold getenvOr. by case_bool_decide. Qed.

Lemma confined_covered {S A} (m : M Ev S A) : keeps (logged (confined ns)) m → covered m.
Proof.
  intros Hm w. eapply logged_mono; [|apply Hm]. intros e. apply confined_permitted; [done|apply namespace_nonempty|done].
Qed.

(** C24: the operator's roles cover what it asks of the API server.  Whatever the API server answers, as long as
    reads in a namespace show objects of that namespace, each request made by a pass of any of the four
    controllers is one that the roles of [config/rbac] grant: directly sent writes and reads (unstructured objects are never cached), the list and watch
    requests of the informers behind cached reads, which the cache options of the manager restrict to its
    namespace or open to the cluster, and the rules of every role the operator writes, which it must hold itself.
    The informers behind the watches of the controllers are granted too.  The one exception are patches of
    cluster roles and their bindings, which [CreateOrPatch] sends when the object differs, and which the roles
    refuse.  Secrets can only be read, and only in the operator's namespace. *)
Theorem requests_authorized direct name node :
  covered (Reconcile (mkGPURecoveryPlanReconciler opts direct) name) ∧
  covered (FuReconcile (mkGPUFirmwareUpdateReconciler opts) name) ∧
  covered (PolicyReconcile opts name) ∧
  keeps (logged (λ e, Forall (permitted ns) (refreshAccesses o e))) (RefreshReconcile opts node) ∧
  Forall (permitted ns) (watchedKinds opts ≫= informer o) ∧
  (∀ a, rolePatch a → authorized ns a = false) ∧
  (∀ a, ac_Resource a = "secrets" → authorized ns a = true → ac_Namespace a = Some ns ∧ ac_Verb a ∈ ["get"; "list"]).
Proof.
  split_and!.
  - apply confined_covered, (Reconcile_confined (mkGPURecoveryPlanReconciler opts direct)).
  - apply confined_covered, (FuReconcile_confined (mkGPUFirmwareUpdateReconciler opts)).
  - apply confined_covered, PolicyReconcile_confined.
  - intros w. eapply logged_mono; [|apply RefreshReconcile_confined]. intros e.
    apply confinedRefresh_permitted; [done|apply namespace_nonempty|done].
  - by apply watched_permitted.
  - apply rolePatch_withheld.
  - apply secrets_read_only.
Qed.
End Claim.
