(* ===== verification/RbacScenario.v ===== *)
(** * The roles at work

    An authorizer with wildcards, as Kubernetes documents it, API servers whose namespaced reads keep to their
    namespace, and the requests of a recovery pass on a concrete cluster. *)

From S2P Require Import Prelude GoStrings KubeTypes ApiTypes Common PolicyTypes PolicyObjects Client Drain Cluster OpenShift.
From S2P Require Import RecoveryNaming RecoveryEvents RecoveryController RecoveryScenario FwUpdate.
From S2P Require Import PolicyClient PolicyDeploy PolicyController PolicyScenario PolicyRuns XpumRefresh Operator OperatorFacts.
From S2P Require Import Rbac RbacFacts.

(** A field matches when it lists the value or the wildcard. *)
Definition fieldMatches (l : list string) (s : string) : bool := bool_decide (s ∈ l) || bool_decide ("*" ∈ l).

Definition ruleMatches (r : PolicyRule) (a : Access) : bool :=
  fieldMatches (pr_apiGroups r) (ac_Group a) && fieldMatches (pr_resources r) (ac_Resource a) && fieldMatches (pr_verbs r) (ac_Verb a)
  && (bool_decide (pr_resourceNames r = []) || bool_decide (ac_Name a ∈ pr_resourceNames r)).

Lemma fieldMatches_plain l s : forallb (λ x, negb (contains x "*")) l = true → fieldMatches l s = bool_decide (s ∈ l).
Proof.
  intros Hl. unfold fieldMatches. rewrite (bool_decide_false ("*" ∈ l)); [by rewrite orb_false_r|].
  intros Hin. apply forallb_forall with (x := "*") in Hl; [done|]. by apply list_elem_of_In.
Qed.

Lemma ruleMatches_plain r a : plainRule r = true → ruleMatches r a = ruleLists r a.
Proof.
  unfold plainRule, ruleMatches, ruleLists. rewrite !forallb_app, !andb_true_iff. intros (Hg & Hr & Hv).
  by rewrite !fieldMatches_plain.
Qed.

#[export] Instance kubeAuthorizer : Authorizer.
Proof.
  refine {| allows l a := existsb (λ r, ruleMatches r a) l |}.
  intros l a. unfold rulesList. induction l as [|r l IH]; simpl; [done|]. rewrite andb_true_iff. intros [Hr Hl].
  by rewrite ruleMatches_plain, IH.
Defined.

(** The pods a refresh pass lists are those of the namespace. *)
Definition refreshEnv (pods : list Pod) : RefreshEnv := {|
  renv_now _ := 0%Z;
  renv_listPolicies _ := Ok [];
  renv_listSlicesOnNode _ _ := Ok [];
  renv_listPods _ ns k v := Ok (filter (λ p, pod_namespace p = ns ∧ pod_labels p !! k = Some v) pods);
  renv_getClaim _ _ n := Err (notFound n);
  renv_patchAnnotation _ _ _ _ _ := Ok tt;
  renv_deletePod _ _ _ := Ok tt;
|}.

Lemma clusters_namespaced c pc pods : @NamespacedReads (clusterEnv c) (policyEnv pc) (refreshEnv pods).
Proof.
  split; simpl.
  - intros h ns n j. unfold firstOr, findJob. destruct (filter _ _) as [|x l] eqn:Hl; [done|]. intros [= <-].
    assert (x ∈ x :: l) as Hx by left. rewrite <-Hl in Hx. by apply list_elem_of_filter in Hx as [[? ?] ?].
  - intros h ns k v l j [= <-] [[? ?] ?]%list_elem_of_filter. done.
  - intros h ns k v l p [= <-] [[? ?] ?]%list_elem_of_filter. done.
  - done.
  - intros h ns k v l p [= <-] [[? ?] ?]%list_elem_of_filter. done.
Qed.

(** ** A recovery pass *)

Module RbacDemo.
#[local] Instance startup : Startup := demoStartup (λ cap n, 2 * cap).

Definition options : ManagerOptions := managerOptions certFlags (mkSlice 0 0 0) (mkSlice 0 0 0).
Definition reconciler (openshift : bool) : GPURecoveryPlanReconciler :=
  mkGPURecoveryPlanReconciler (controllerOpts (mkFeatures openshift true false)) true.

(** The requests of a pass, without repetitions. *)
Definition requests (openshift : bool) : list (option string * string * string) :=
  remove_dups ((λ a, (ac_Namespace a, ac_Resource a, ac_Verb a)) <$>
    (reverse (log (@Reconcile (clusterEnv (demoCluster true)) (reconciler openshift) "plan" (mkWorld (demoPlan true) [])).2)
     ≫= accesses "gpu" options)).

Example plain_pass : requests false =
  [(None, "nodes", "update"); (None, "pods", "list"); (None, "pods", "watch"); (Some "apps", "pods/eviction", "create");
   (None, "resourceslices", "list"); (None, "resourceslices", "watch"); (None, "resourceclaims", "list");
   (None, "resourceclaims", "watch"); (None, "nodes", "list"); (None, "nodes", "watch"); (None, "gpurecoveryplans", "get");
   (None, "gpurecoveryplans/status", "update")].
Proof. vm_compute. reflexivity. Qed.

(** On OpenShift a pass that finds the role changed asks for a patch, which is refused. *)
Example openshift_pass :
  bool_decide ((None, "clusterroles", "patch") ∈ requests true) = true ∧
  authorized "gpu" (access clusterRolesGVR "" "plan-gpu-recovery-scc-role" "patch") = false.
Proof. split; vm_compute; reflexivity. Qed.

(** Without the leader election role the config map of the XPU manager could be created but not updated. *)
Example configMap_update :
  rulesList (role_rules ManagerNamespacedRole) (access configMapsGVR "gpu" "cm" "update") = false ∧
  authorized "gpu" (access configMapsGVR "gpu" "cm" "update") = true.
Proof. split; vm_compute; reflexivity. Qed.

(** Slices are watched whether or not the cluster serves them. *)
Example slices_always_watched : slicesGVR ∈ watchedKinds (controllerOpts (mkFeatures false false false)).
Proof. unfold watchedKinds, planWatches. set_solver. Qed.
End RbacDemo.

Lemma requests_authorized_witness :
  Forall (λ e, Forall (permitted "gpu") (accesses "gpu" RbacDemo.options e))
    (log (@Reconcile (clusterEnv (demoCluster true)) (RbacDemo.reconciler true) "plan" (mkWorld (demoPlan true) [])).2).
Proof.
  destruct (@requests_authorized kubeAuthorizer RbacDemo.startup (clusterEnv (demoCluster true))
    (policyEnv (mkPolicyCluster None [] [] None [] [] [])) Runs.yaml (refreshEnv []) (clusters_namespaced _ _ _)
    certFlags (mkSlice 0 0 0) (mkSlice 0 0 0) (mkFeatures true true false) true "plan" "n1") as [Hrec _].
  destruct (Hrec (mkWorld (demoPlan true) [])) as (new & Hlog & Hnew).
  unfold RbacDemo.reconciler. rewrite Hlog, app_nil_r. exact Hnew.
Defined.
